(* ===== verification/_CoqProject ===== *)
-Q . S2P
Prelude.v
Bytes.v
Kernel.v
CharDev.v
ProcFs.v
Threads.v
SimpleVfs.v
BlockDev.v
VmaDev.v
VmaMap.v
VmaAtomic.v
MemAlloc.v
SharedMem.v
AtomicDemo.v
VirtualLog.v
DeadlockDemo.v
MutexSem.v
SpinRw.v
ThreadedIrq.v
Deferred.v
TimerDemos.v
QueueDemos.v
Jiffies.v
InlineAsm.v
UserProgram.v
Ioctl.v
IoctlApp.v
SharedMemClient.v
Netlink.v
NetlinkClient.v
VfsFile.v
VfsClient.v
BasicIo.v
TaskInfo.v
DataStructures.v
