(* ===== verification/Prelude.v ===== *)
(** * Verification of the kernel-programming course modules

    The repository is a course on Linux kernel programming.  Its code is a set of
    loadable modules, one directory each under src/examples, that share nothing
    but the kernel they are loaded into.  This development models the modules
    that carry logic of their own and proves what each promises its users.

    ** How the code is modelled

    - A C integer is a [Z]; [u32], [u64], [s32], [s64] are written where the
      source converts or wraps.  size_t and unsigned long are 64 bits wide, pages
      4096 bytes.
    - A buffer is a list of bytes ([Bytes.v]); a read or write outside it, an
      unterminated string and an uninitialised element are undefined and make the
      function return [None], so that a theorem that a handler returns [Some] is a
      theorem of memory safety.
    - A handler is a function from its arguments and the module's state to its
      result and the new state, with the early returns in the order of the source.
      Log lines are left out, except where the log is what a module is for.
    - The kernel is an interface.  [Kernel.v] has type classes for user memory
      ([UserAccess]), the allocators ([Allocator]) and mutexes ([Mutex]); a class
      of laws next to each states the documented behaviour the modules rely on,
      and a reference instance shows the laws can hold and evaluates the
      witnesses.  A live block carries the call that made it (kmalloc, vmalloc, or a
      slab cache), and the laws of freeing speak only of live blocks and, of each
      freeing call, only of blocks of its own kind: a theorem that the heap is
      restored for every allocator also says that nothing is freed twice, or with
      the wrong call.  Components declare further interfaces the same way ([Clock] in
      [MemAlloc.v], [Atomics] and [Scanner] in [AtomicDemo.v], the four
      containers in [DataStructures.v], the VFS core in [SimpleVfs.v]; HZ and the
      jiffies conversions, [JiffiesApi], are in [Kernel.v]).
    - The user-space programs that come with the modules run against them:
      [UserProgram.v] has a process's memory (the class [UserProcess]), what it
      prints, and a monad of calls that can end in something undefined; each
      client is a program in it whose system calls are the module's handlers.
    - Init and exit functions are programs in the monad [K] of kernel calls: the
      environment decides what each call answers, from the history of calls, and
      the trace of calls is replayed on a stack of held resources ([held_run]),
      which fails on anything but releasing the last resource still held.
      [CharDev.v] and [ProcFs.v] name the calls of the character-device and the
      /proc modules.
    - Concurrent handlers are programs of atomic actions ([Threads.v]); a pool of
      them runs one action at a time, any schedule.  [VirtualLog.v] has a step
      relation of its own, coarser: a writer's test and its stores.
    - Timers, tasklets and work run on the machine of [Deferred.v]: a module's init
      or exit, the handlers of its objects and the users of its /proc file are
      programs that interleave.  A discipline says which objects each program may
      queue; programs are typed against it, and a module whose init and exit are
      typed has a [lifecycle]: it can always finish loading and unloading, and
      leaves behind what the type of exit allows.  A second section there is for
      variables one handler owns.  A show function is a program too, that reads
      and prints line by line; [shown] is what it prints when nothing else runs
      meanwhile, and a reader that runs alone prints that.  [exec] runs schedules, for the witnesses and for
      the runs in which a module does not clean up.
    - Inline assembly is a list of instructions of a small machine ([InlineAsm.v]);
      the functions around it keep their variables in a stack frame of its memory.

    ** The parts

    - [SimpleVfs.v]: class_7/00_vfs_obj_imp/simple_vfs.c, an in-memory filesystem.
      Every reachable file holds a terminated string of at most 63 characters;
      read refines reading that string; write then read gives the text back;
      reading in chunks reaches the end; lookup, create, mount and directory
      listing on every branch; unlinking a file that lookup made drops a reference
      nobody took.  [VfsFile.v]: a program that writes a long buffer in pieces ends
      without an error, and the file holds the last piece.  [VfsClient.v]:
      test_vfs.c, the filesystem's test program, which does not compile without
      #include <dirent.h>; with it, it passes.
    - [BlockDev.v]: class_7/01_block_device/block_demo.c.  Module [IO] is the data
      path from request to segment: safe, exact in both directions, requests
      round-trip; a request that goes past the end is cut there and still reported
      as completed.  Module [Reg] is loading and unloading.
    - [VmaDev.v]: class_7/02_vma_allocation/vma_allocation.c.  Page faults hand
      out the buffer's pages and nothing else, mappings are backed, read and write
      clip to the buffer, and what was written is read.  [VmaMap.v]: a process's
      page table over the fault handler, for shared areas and for private,
      copy-on-write ones.  Every access through a mapping ends in the right byte of
      the buffer or of the process's own copy, or in a signal; shared mappings and
      the read and write methods see the same bytes, and unmapping returns every
      page reference.  [VmaAtomic.v]: any number of reads and writes, whose copies
      may fail half way, interleaved byte by byte, never deadlock and act as if run
      in the order they released the mutex, file positions included; stores through
      a mapping take no mutex and can tear a read.
    - [MemAlloc.v]: class_6/01_memory_allocator_demo/mem_allocator_demo.c.  Every
      test restores the heap whatever fails, the counts and times are in range,
      the command file dispatches on the user's word.
    - [SharedMem.v]: class_6/02_dma_buffer_demo/shared_memory_demo.c.  Messages
      are echoed exactly and numbered; mmap stays inside the buffer; a user write
      while the handler runs makes it read past the message area.
      [SharedMemClient.v]: shared_mem_test.c, its client.  It prints the echo of
      every line typed, one of more than 510 characters in pieces, and is safe and
      ends on every input.
    - [AtomicDemo.v]: class_3/04_atomic_operations/atomic_demo.c.  No update
      of inc, dec, add and sub is lost under any interleaving; the bits file changes the named bit
      only; releasing the last reference loses concurrent acquisitions.
    - [VirtualLog.v]: class_3/02_advanced_procfs/pos_demo.c.  The array refines a
      queue of the last 100 messages; the iterator shows it and terminates;
      writers that are not serialised overrun it.
    - [DeadlockDemo.v], [MutexSem.v], [SpinRw.v]: class_3/09_deadlock_prevention,
      07_mutex_semaphore, 06_spinlock_demo and 08_rwlock_demo.  Freedom from
      deadlock with bounded runs; the semaphore's bound and progress, and the
      counter it does not protect; the order of operations under the spinlock;
      the sleep under the reader-writer lock.
    - [DataStructures.v]: class_4/00_data_structures_demo/data_structures_demo.c.
      The interval tree is an ordered set; loading, any additions and unloading
      restore the heap; a failed load does not.
    - [ThreadedIrq.v]: class_5/00_threaded_irq_demo/threaded_irq_demo.c.  Interrupts,
      threads, writes and shows interleave; atomic counts and what the mutex
      protects are exact, the plain counter of the primary handler is not.
    - [TimerDemos.v], [QueueDemos.v]: class_5/01, 02, 03, 04, 06 and 07, the
      interrupt and timer demo 08_IOCTL/ioctl_demo.c, class_4/01_interrupt_demo and
      interrupt_handler_guide/irq_test.c, a Module each, on [Deferred.v].  Which of
      them unload cleanly and which do not, with the run that shows it; that the
      basic timer stops, that the total and the per-CPU counts the softirq demo's
      file shows are exact, that work returns its buffers.
    - [Jiffies.v]: class_5/05_jiffies_conversions.  Uptime and comparisons are right
      across the wrap-around of the counter; the milliseconds reported with the
      uptime are a 32-bit number and wrap after 49.7 days.
    - [Ioctl.v], [IoctlApp.v]: 08_IOCTL/ioctl_test.c, the driver, and ioctl_app.c,
      its client.  The driver refines an int and a text; the client, run against
      it, passes its own tests, and its runs communicate.
    - [Netlink.v]: class_3/05_netlink_interface/netlink_example.c.  Every well-formed
      request is answered; one that is not makes the handler read too far.
      [NetlinkClient.v]: netlink_test.c, its client, gets and prints the three
      replies if the kernel takes the control fields it left uninitialised, and
      otherwise waits for ever.
    - [BasicIo.v]: class_3/01_basic_procfs and 03_sysfs_interface.  What is written
      is stored, the string attribute gives back the line that was stored.
    - [TaskInfo.v]: labs/lab1/process_info.c and task_monitor.c, and
      class_4/02_arch_demo/arch_demo.c.  What the listings say of tasks; running
      tasks are called unknown.
    - [InlineAsm.v]: inline_assembly/inline_assembly.c, the assignment
      assingments/as1 (swap_variables.c and sol.c) and
      int_80/write_stdout_int80.c.  The swaps swap and are the same operation, every
      statement lists the registers it changes, loading prints what the examples
      promise, the array example dereferences the wrong value, the 32-bit system
      call gets a truncated pointer.

    ** Fuel and bounds

    [SimpleVfs.read_to_eof] and [VirtualLog.seq_traverse] take fuel; the theorems
    give the amount that is enough (the number of chunks; 101 steps) and that the
    result is then [Some].  [DataStructures.free_intervals] needs as many steps as
    the tree has nodes.  The loop of [MemAlloc.cleanup_loop] runs at most the 1000
    times the array has elements and is proved to end.
    [SharedMemClient.interactive] takes fuel, one more than the input has
    characters is enough; [VfsFile.write_all] one call per 63 bytes and one more.
    A run of [VmaAtomic.v] has at most 16387 steps per call: one for each of the
    16384 bytes, the lock, the position and the unlock.  Positions of files are
    assumed below 2^63 (loff_t) and counts at most MAX_RW_COUNT, which is what the
    VFS passes; where the code relies on that, a theorem says what happens
    without it.

    ** Not modelled

    The modules that only print (hello_module.c, lab 2's test_hello.c), the
    user-space programs that only exercise system calls (test_block_device.c,
    test_vma.c, sched_test.c), the timing of sleeps and of timers (any pending timer
    may fire), and memory ordering weaker than one action at a time.  What is
    written to the kernel log is left out, except where it is a module's output
    ([TaskInfo.TaskMonitor], [TaskInfo.ArchDemo], [InlineAsm]) or reports results
    ([Jiffies]); so is what perror
    prints.  seq_file's own buffering is not modelled, and its loop over an
    iterator is the documented one ([VirtualLog.seq_loop]): a show function gives its
    text or, in the deferred-work demos, prints it line by line.  Open and release
    methods that only log, and the tables of methods, are left out. *)
From stdpp Require Export base option list numbers strings gmap pretty.

(** ** Notation scope *)

Declare Scope kernel_scope.
Delimit Scope kernel_scope with kern.
Global Open Scope Z_scope.

(** ** Machine integers

    A C integer is a [Z]; the conversions to a fixed width are written out where
    the source converts.  [uN z] is the value of [z] converted to an unsigned
    N-bit type, [sN z] to a two's-complement signed one. *)

Definition u32 (z : Z) : Z := z mod 2^32.
Definition u64 (z : Z) : Z := z mod 2^64.
Definition s32 (z : Z) : Z := (z + 2^31) mod 2^32 - 2^31.
Definition s64 (z : Z) : Z := (z + 2^63) mod 2^64 - 2^63.

Definition is_u32 (z : Z) : Prop := 0 <= z < 2^32.
Definition is_u64 (z : Z) : Prop := 0 <= z < 2^64.
Definition is_s32 (z : Z) : Prop := -2^31 <= z < 2^31.
Definition is_s64 (z : Z) : Prop := -2^63 <= z < 2^63.

(** ** Error numbers (include/uapi/asm-generic/errno-base.h and errno.h, and
    ERESTARTSYS of include/linux/errno.h) *)

Definition ENOMEM : Z := 12.
Definition EFAULT : Z := 14.
Definition EBUSY : Z := 16.
Definition EEXIST : Z := 17.
Definition EINVAL : Z := 22.
Definition ENOTTY : Z := 25.
Definition ENOSPC : Z := 28.
Definition EAGAIN : Z := 11.
Definition ESRCH : Z := 3.
Definition ERESTARTSYS : Z := 512.

(** The largest transfer the VFS hands to a read or write method
    (MAX_RW_COUNT of include/linux/fs.h, with 4096-byte pages). *)
Definition MAX_RW_COUNT : Z := 2147479552.
Definition PAGE_SHIFT : Z := 12.
Definition PAGE_SIZE : Z := 4096.

(** Pointers as 64-bit unsigned integers; IS_ERR and PTR_ERR as
    include/linux/err.h documents them. *)
Definition NULL : Z := 0.
Definition IS_ERR (p : Z) : bool := 2^64 - 4095 <=? u64 p.
Definition PTR_ERR (p : Z) : Z := s64 p.

(** ** Automation *)

(** Linear arithmetic over the wrap-around functions. *)
Ltac wrap_lia :=
  unfold u32, u64, s32, s64, is_u32, is_u64, is_s32, is_s64, MAX_RW_COUNT,
    PAGE_SIZE, PAGE_SHIFT in *;
  Z.to_euclidean_division_equations; lia.

(** Boolean comparisons on [Z] to propositions, in the context and the goal. *)
Ltac zbool :=
  repeat match goal with
  | H : (_ <? _) = true |- _ => apply Z.ltb_lt in H
  | H : (_ <? _) = false |- _ => apply Z.ltb_ge in H
  | H : (_ <=? _) = true |- _ => apply Z.leb_le in H
  | H : (_ <=? _) = false |- _ => apply Z.leb_gt in H
  | H : (_ =? _) = true |- _ => apply Z.eqb_eq in H
  | H : (_ =? _) = false |- _ => apply Z.eqb_neq in H
  | H : (_ >=? _) = _ |- _ => rewrite Z.geb_leb in H
  | H : (_ >? _) = _ |- _ => rewrite Z.gtb_ltb in H
  | H : negb _ = true |- _ => apply negb_true_iff in H
  | H : negb _ = false |- _ => apply negb_false_iff in H
  | H : (_ && _)%bool = true |- _ => apply andb_true_iff in H as [? ?]
  | H : (_ || _)%bool = false |- _ => apply orb_false_iff in H as [? ?]
  | H : bool_decide _ = true |- _ => apply bool_decide_eq_true in H
  | H : bool_decide _ = false |- _ => apply bool_decide_eq_false in H
  end.

(** Case analysis on the scrutinee of the conditionals of a goal. *)
Ltac split_ifs :=
  repeat match goal with
  | |- context [if ?b then _ else _] =>
      lazymatch b with context [if _ then _ else _] => fail | _ => idtac end;
      let E := fresh "Hif" in destruct b eqn:E
  end.

Create HintDb kern discriminated.
Create Rewrite HintDb kern.

(** ** Facts on the wrap-around functions *)

Lemma u64_small z : is_u64 z → u64 z = z.
Proof. intros. unfold u64. apply Z.mod_small. done. Qed.

Lemma u64_bound z : is_u64 (u64 z).
Proof. unfold u64, is_u64. apply Z.mod_pos_bound. lia. Qed.

Lemma u32_small z : is_u32 z → u32 z = z.
Proof. intros. unfold u32. apply Z.mod_small. done. Qed.

Lemma u32_bound z : is_u32 (u32 z).
Proof. unfold u32, is_u32. apply Z.mod_pos_bound. lia. Qed.

Lemma s32_small z : is_s32 z → s32 z = z.
Proof. intros [? ?]. unfold s32. rewrite Z.mod_small; lia. Qed.

Lemma s32_bound z : is_s32 (s32 z).
Proof. unfold s32, is_s32. pose proof (Z.mod_pos_bound (z + 2^31) (2^32)). lia. Qed.

Lemma s64_small z : is_s64 z → s64 z = z.
Proof. intros [? ?]. unfold s64. rewrite Z.mod_small; lia. Qed.

Lemma s64_bound z : is_s64 (s64 z).
Proof. unfold s64, is_s64. pose proof (Z.mod_pos_bound (z + 2^63) (2^64)). lia. Qed.

Lemma u64_add_l a b : u64 (u64 a + b) = u64 (a + b).
Proof. unfold u64. apply Zplus_mod_idemp_l. Qed.

Lemma u64_add_r a b : u64 (a + u64 b) = u64 (a + b).
Proof. unfold u64. apply Zplus_mod_idemp_r. Qed.

Lemma s32_add_l a b : s32 (s32 a + b) = s32 (a + b).
Proof.
  unfold s32. f_equal.
  replace ((a + 2^31) mod 2^32 - 2^31 + b + 2^31) with ((a + 2^31) mod 2^32 + b) by lia.
  rewrite Zplus_mod_idemp_l. f_equal. lia.
Qed.

Lemma PTR_ERR_neg p : IS_ERR p = true → -4095 <= PTR_ERR p <= -1.
Proof. unfold IS_ERR, PTR_ERR. intros H. zbool. wrap_lia. Qed.

Lemma PTR_ERR_nonzero p : IS_ERR p = true → PTR_ERR p ≠ 0.
Proof. intros H%PTR_ERR_neg. lia. Qed.

#[export] Hint Rewrite u64_add_l u64_add_r s32_add_l : kern.
#[export] Hint Resolve u64_bound u32_bound s32_bound s64_bound : kern.

(** ** Lists *)

Section lists.
Context {A : Type}.
Implicit Types l : list A.

Lemma take_drop_app n m l : take n l ++ take m (drop n l) = take (n + m) l.
Proof.
  revert l. induction n as [|n IH]; intros [|x l]; simpl; try done.
  - by rewrite take_nil.
  - by rewrite IH.
Qed.

Lemma drop_app_exact l k n : n = length l → drop n (l ++ k) = k.
Proof. intros ->. by rewrite drop_app_length. Qed.

Lemma take_app_exact l k n : n = length l → take n (l ++ k) = l.
Proof. intros ->. by rewrite take_app_length. Qed.
End lists.
