(* ===== verification/Bytes.v ===== *)
(** * Byte buffers and the C string functions

    Memory the modules own is a list of bytes (each a [Z] in [0,256)) of the
    length of the C array.  Every access is checked: an operation that would
    read or write outside its buffer returns [None], which stands for undefined
    behaviour, so a theorem that a handler never returns [None] is memory
    safety.  The string functions are those of the C standard library (and of
    the kernel's lib/string.c, which documents the same contracts). *)
From S2P Require Import Prelude.

Abbreviation bytes := (list Z).

(** The length of a buffer, as the C code sees it. *)
Definition blen (b : bytes) : Z := Z.of_nat (length b).

(** [n] copies of one byte: what memset leaves. *)
Definition bfill (c n : Z) : bytes := replicate (Z.to_nat n) c.

(** The [n] bytes at offset [off]. *)
Definition bread (b : bytes) (off n : Z) : option bytes :=
  if bool_decide (0 <= off ∧ 0 <= n ∧ off + n <= blen b)
  then Some (take (Z.to_nat n) (drop (Z.to_nat off) b))
  else None.

(** memcpy of [src] to offset [off]. *)
Definition bwrite (b : bytes) (off : Z) (src : bytes) : option bytes :=
  if bool_decide (0 <= off ∧ off + blen src <= blen b)
  then Some (take (Z.to_nat off) b ++ src ++ drop (Z.to_nat off + length src) b)
  else None.

(** strlen: the index of the first NUL, undefined when there is none. *)
Fixpoint strlen (b : bytes) : option Z :=
  match b with
  | [] => None
  | c :: b' => if c =? 0 then Some 0 else Z.succ <$> strlen b'
  end.

(** The characters before the first NUL. *)
Fixpoint c_str (b : bytes) : bytes :=
  match b with
  | [] => []
  | c :: b' => if c =? 0 then [] else c :: c_str b'
  end.

(** strnlen(b, n). *)
Definition strnlen (b : bytes) (n : Z) : Z :=
  blen (c_str (take (Z.to_nat n) b)).

(** The [n] bytes strncpy(dst, src, n) stores: the string, then NULs up to [n].
    Undefined when the source ends, without a NUL, before [n] bytes. *)
Definition strncpy_bytes (src : bytes) (n : Z) : option bytes :=
  if bool_decide (0 ∈ src ∨ n <= blen src)
  then Some (resize (Z.to_nat n) 0 (c_str src))
  else None.

(** strcpy(dst, src): undefined when the source is not terminated or its text and
    NUL do not fit. *)
Definition strcpy (dst src : bytes) : option bytes :=
  _ ← strlen src; bwrite dst 0 (c_str src ++ [0]).

(** A 32-bit value in memory: its four bytes, lowest first, and the int they are. *)
Definition le32 (v : Z) : bytes := (λ k, Z.land (Z.shiftr v (8 * k)) 255) <$> [0; 1; 2; 3].
Definition int_of_le32 (b : bytes) : Z := s32 (foldr (λ c v, c + 256 * v) 0 b).

(** strcmp(a, b) == 0 and strncmp(a, b, n) == 0. *)
Definition strcmp_eq (a b : bytes) : bool := bool_decide (c_str a = c_str b).
Definition strncmp_eq (a b : bytes) (n : Z) : bool :=
  bool_decide (take (Z.to_nat n) (c_str a) = take (Z.to_nat n) (c_str b)).

(** A string literal, without and with its terminating NUL. *)
Definition chars (s : string) : bytes :=
  (λ a : Ascii.ascii, Z.of_nat (Ascii.nat_of_ascii a)) <$> String.list_ascii_of_string s.
Definition lit (s : string) : bytes := chars s ++ [0].

(** The text of a number under %d, %u, %ld, %lu. *)
Definition dec (z : Z) : bytes := chars (pretty z).

(** The text of an unsigned number below 16^n under %lx. *)
Definition hex_digit (z : Z) : Ascii.ascii :=
  Ascii.ascii_of_nat (Z.to_nat (if z <? 10 then 48 + z else 87 + z)).
Fixpoint hex_go (n : nat) (z : Z) (acc : string) : string :=
  match n with
  | O => acc
  | S n' =>
      let acc := String (hex_digit (z mod 16)) acc in
      if z / 16 =? 0 then acc else hex_go n' (z / 16) acc
  end.
Definition hex (z : Z) : string := hex_go 16 z EmptyString.

(** The newline, as a string. *)
Definition nl : string := String (Ascii.ascii_of_nat 10) EmptyString.

(** snprintf(buf + off, size, ...) where [txt] is the formatted text: stores at
    most [size - 1] characters and a NUL, and returns the full length. *)
Definition snprintf (b : bytes) (off size : Z) (txt : bytes) : option (Z * bytes) :=
  if size =? 0 then Some (blen txt, b)
  else b' ← bwrite b off (take (Z.to_nat (size - 1)) txt ++ [0]); Some (blen txt, b').

(** sprintf(buf + off, ...). *)
Definition sprintf (b : bytes) (off : Z) (txt : bytes) : option (Z * bytes) :=
  b' ← bwrite b off (txt ++ [0]); Some (blen txt, b').

(** ** Lengths *)

Lemma blen_nonneg b : 0 <= blen b.
Proof. unfold blen. lia. Qed.

Lemma blen_app a b : blen (a ++ b) = blen a + blen b.
Proof. unfold blen. rewrite length_app. lia. Qed.

Lemma blen_bfill c n : 0 <= n → blen (bfill c n) = n.
Proof. intros. unfold blen, bfill. rewrite length_replicate. lia. Qed.

Lemma blen_take n b : 0 <= n <= blen b → blen (take (Z.to_nat n) b) = n.
Proof. unfold blen. intros. rewrite length_take. lia. Qed.

(** ** Checked reads and writes *)

Lemma bread_Some b off n :
  0 <= off → 0 <= n → off + n <= blen b →
  bread b off n = Some (take (Z.to_nat n) (drop (Z.to_nat off) b)).
Proof. intros. unfold bread. by rewrite bool_decide_eq_true_2 by lia. Qed.

Lemma bread_inv b off n r :
  bread b off n = Some r →
  0 <= off ∧ 0 <= n ∧ off + n <= blen b ∧
  r = take (Z.to_nat n) (drop (Z.to_nat off) b).
Proof. unfold bread. case_bool_decide as H; [|done]. intros [= <-]. destruct H as (?&?&?). auto. Qed.

Lemma bread_length b off n r : bread b off n = Some r → blen r = n.
Proof.
  intros (?&?&?&->)%bread_inv. unfold blen in *.
  rewrite length_take, length_drop. lia.
Qed.

Lemma bwrite_Some b off src :
  0 <= off → off + blen src <= blen b →
  bwrite b off src =
    Some (take (Z.to_nat off) b ++ src ++ drop (Z.to_nat off + length src) b).
Proof. intros. unfold bwrite. by rewrite bool_decide_eq_true_2 by lia. Qed.

Lemma bwrite_is_Some b off src :
  is_Some (bwrite b off src) ↔ 0 <= off ∧ off + blen src <= blen b.
Proof.
  unfold bwrite. case_bool_decide; split; done.
Qed.

Lemma bwrite_None b off src : blen b < off → bwrite b off src = None.
Proof.
  intros. unfold bwrite. rewrite bool_decide_eq_false_2; [done|]. unfold blen in *. lia.
Qed.

Lemma bread_None b off n : blen b < off → bread b off n = None.
Proof.
  intros. unfold bread. rewrite bool_decide_eq_false_2; [done|]. unfold blen in *. lia.
Qed.

Lemma bwrite_inv b off src b' :
  bwrite b off src = Some b' →
  0 <= off ∧ off + blen src <= blen b ∧
  b' = take (Z.to_nat off) b ++ src ++ drop (Z.to_nat off + length src) b.
Proof. unfold bwrite. case_bool_decide as H; [|done]. intros [= <-]. destruct H. auto. Qed.

Lemma bwrite_length b off src b' : bwrite b off src = Some b' → blen b' = blen b.
Proof.
  intros (?&?&->)%bwrite_inv. unfold blen in *.
  rewrite !length_app, length_take, length_drop. lia.
Qed.

(** What was written is what is read back. *)
Lemma bwrite_bread_same b off src b' :
  bwrite b off src = Some b' → bread b' off (blen src) = Some src.
Proof.
  intros Hw. pose proof (bwrite_length _ _ _ _ Hw) as Hl.
  apply bwrite_inv in Hw as (?&?&->).
  rewrite bread_Some by (rewrite ?Hl; unfold blen in *; lia).
  f_equal. rewrite drop_app_exact
    by (rewrite length_take; unfold blen in *; lia).
  apply take_app_exact. unfold blen. lia.
Qed.

(** A write leaves every other byte alone. *)
Lemma bwrite_insert b off c : 0 <= off < blen b → bwrite b off [c] = Some (<[Z.to_nat off := c]> b).
Proof.
  intros Ho. rewrite bwrite_Some by (change (blen [c]) with 1; lia). f_equal.
  rewrite insert_take_drop by (unfold blen in *; lia). simpl. do 3 f_equal. lia.
Qed.

Lemma bwrite_lookup_ne b off src b' (i : nat) :
  bwrite b off src = Some b' →
  Z.of_nat i < off ∨ off + blen src <= Z.of_nat i → b' !! i = b !! i.
Proof.
  intros (?&?&->)%bwrite_inv Hi. unfold blen in *.
  destruct Hi as [Hi|Hi].
  - rewrite lookup_app_l by (rewrite length_take; lia).
    rewrite lookup_take_lt by lia. done.
  - rewrite lookup_app_r by (rewrite length_take; lia).
    rewrite length_take. rewrite lookup_app_r by lia.
    rewrite lookup_drop. f_equal. lia.
Qed.

(** Storing byte by byte. *)
Lemma bwrite_cons b off c bs b1 :
  bwrite b off [c] = Some b1 → bwrite b1 (off + 1) bs = bwrite b off (c :: bs).
Proof.
  intros Hw. pose proof (bwrite_length _ _ _ _ Hw) as Hl. apply bwrite_inv in Hw as (H0 & Hle & ->).
  change (blen [c]) with 1 in Hle. unfold bwrite. rewrite Hl.
  assert (blen (c :: bs) = blen bs + 1) as Hc by (unfold blen; simpl; lia). rewrite Hc.
  assert (length (take (Z.to_nat off) b) = Z.to_nat off) as Ht by (rewrite length_take; unfold blen in *; lia).
  do 2 case_bool_decide; try lia; [|done]. f_equal.
  replace (Z.to_nat (off + 1)) with (Z.to_nat off + 1)%nat by lia. simpl length.
  rewrite take_app, Ht, take_ge by lia. replace (Z.to_nat off + 1 - Z.to_nat off)%nat with 1%nat by lia.
  rewrite <-app_assoc. simpl. do 3 f_equal.
  rewrite drop_app, Ht, drop_ge by lia. simpl.
  replace (Z.to_nat off + 1 + length bs - Z.to_nat off)%nat with (S (length bs)) by lia. simpl.
  rewrite drop_drop. f_equal. lia.
Qed.

(** Reading byte by byte. *)
Lemma drop_take_cons (b : bytes) (k n : nat) c :
  b !! k = Some c → take (S n) (drop k b) = c :: take n (drop (S k) b).
Proof. intros Hk. by rewrite (drop_S _ _ _ Hk). Qed.

(** A read of a range disjoint from the written one. *)
Lemma bwrite_bread_other b off src b' off' n :
  bwrite b off src = Some b' →
  off' + n <= off ∨ off + blen src <= off' →
  bread b' off' n = bread b off' n.
Proof.
  intros Hw Hd. pose proof (bwrite_length _ _ _ _ Hw) as Hl.
  unfold bread. rewrite Hl. case_bool_decide as Hb; [|done]. f_equal.
  apply list_eq. intros i.
  destruct (decide (i < Z.to_nat n)%nat) as [Hi|Hi].
  - rewrite !lookup_take_lt by lia. rewrite !lookup_drop.
    eapply bwrite_lookup_ne; [done|]. lia.
  - rewrite !lookup_take_ge by lia. done.
Qed.

(** ** Strings *)

Lemma strlen_c_str b n : strlen b = Some n → n = blen (c_str b).
Proof.
  revert n. induction b as [|c b IH]; intros n; simpl; [done|].
  destruct (c =? 0); [intros [= <-]; done|].
  destruct (strlen b) as [m|]; simpl; [|done]. intros [= <-].
  rewrite (IH m) by done. unfold blen. simpl. lia.
Qed.

Lemma strlen_is_Some b : 0 ∈ b → is_Some (strlen b).
Proof.
  induction b as [|c b IH]; intros H; simpl; [by apply not_elem_of_nil in H|].
  destruct (c =? 0) eqn:E; [done|]. apply fmap_is_Some, IH.
  apply elem_of_cons in H as [<-|H]; [by rewrite Z.eqb_refl in E|done].
Qed.

Lemma strlen_nul b : is_Some (strlen b) → 0 ∈ b.
Proof.
  induction b as [|c b IH]; simpl; [by intros []|]. destruct (Z.eqb_spec c 0) as [->|]; [set_solver|].
  intros Hs. apply fmap_is_Some in Hs. set_solver.
Qed.

Lemma strlen_None b : strlen b = None ↔ 0 ∉ b.
Proof.
  split.
  - intros H H0. apply strlen_is_Some in H0 as [? ?]. congruence.
  - induction b as [|c b IH]; intros H; simpl; [done|].
    apply not_elem_of_cons in H as [? ?].
    destruct (Z.eqb_spec c 0); [by subst|]. by rewrite IH.
Qed.

Lemma c_str_prefix b : c_str b `prefix_of` b.
Proof.
  induction b as [|c b IH]; simpl; [done|].
  destruct (c =? 0); [apply prefix_nil|by apply prefix_cons].
Qed.

Lemma c_str_le b : blen (c_str b) <= blen b.
Proof. pose proof (prefix_length _ _ (c_str_prefix b)). unfold blen. lia. Qed.

Lemma c_str_take b : c_str b = take (length (c_str b)) b.
Proof. destruct (c_str_prefix b) as [k Hk]. rewrite Hk at 3. by rewrite take_app_length. Qed.

Lemma c_str_no_nul b : 0 ∉ c_str b.
Proof.
  induction b as [|c b IH]; simpl; [apply not_elem_of_nil|].
  destruct (Z.eqb_spec c 0); [apply not_elem_of_nil|].
  apply not_elem_of_cons. done.
Qed.

(** A NUL inside the buffer bounds the string below it. *)
Lemma c_str_lt_nul b (i : nat) : b !! i = Some 0 → blen (c_str b) <= Z.of_nat i.
Proof.
  revert i. induction b as [|c b IH]; intros i; simpl; [done|].
  destruct (Z.eqb_spec c 0) as [->|Hc]; [intros; unfold blen; simpl; lia|].
  destruct i as [|i]; simpl; [congruence|]. intros Hi%IH.
  unfold blen in *. simpl. lia.
Qed.

(** A string shorter than its buffer is terminated. *)
Lemma c_str_terminates b : blen (c_str b) < blen b → is_Some (strlen b).
Proof.
  intros Hl. apply strlen_is_Some. destruct (decide (0 ∈ b)) as [|Hn]; [done|].
  assert (c_str b = b) as Hc; [|rewrite Hc in Hl; lia]. clear Hl.
  induction b as [|c b IH]; [done|]. simpl. apply not_elem_of_cons in Hn as [? ?].
  destruct (Z.eqb_spec c 0); [congruence|]. by rewrite IH.
Qed.

Lemma c_str_app_nul a b : 0 ∉ a → c_str (a ++ 0 :: b) = a.
Proof.
  induction a as [|c a IH]; intros H; simpl; [done|].
  apply not_elem_of_cons in H as [H1 H2].
  destruct (Z.eqb_spec c 0); [congruence|]. by rewrite IH.
Qed.

Lemma c_str_app_nul_c_str a b : c_str (a ++ 0 :: b) = c_str a.
Proof.
  induction a as [|c a IH]; simpl; [done|].
  destruct (c =? 0); [done|]. by rewrite IH.
Qed.

Lemma c_str_id a : 0 ∉ a → c_str a = a.
Proof.
  induction a as [|c a IH]; intros H; simpl; [done|].
  apply not_elem_of_cons in H as [H1 H2].
  destruct (Z.eqb_spec c 0); [congruence|]. by rewrite IH.
Qed.

Lemma c_str_idemp a : c_str (c_str a) = c_str a.
Proof. apply c_str_id, c_str_no_nul. Qed.

Lemma strnlen_bound b n : 0 <= n → 0 <= strnlen b n <= n.
Proof.
  intros. unfold strnlen. pose proof (c_str_le (take (Z.to_nat n) b)).
  pose proof (blen_nonneg (c_str (take (Z.to_nat n) b))).
  unfold blen in *. rewrite length_take in *. lia.
Qed.

#[export] Hint Rewrite blen_app c_str_idemp : kern.
#[export] Hint Resolve blen_nonneg c_str_le c_str_no_nul : kern.

(** ** Numbers in text *)

Lemma chars_app a b : chars (a +:+ b) = chars a ++ chars b.
Proof.
  unfold chars. rewrite <-fmap_app. f_equal.
  induction a as [|c a IH]; simpl; [done|]. by rewrite IH.
Qed.

(** The text of a number holds no NUL. *)
Lemma pretty_N_go_no_nul x s : 0 ∉ chars s → 0 ∉ chars (pretty_N_go x s).
Proof.
  revert s. induction (N.lt_wf_0 x) as [x _ IH]. intros s Hs.
  destruct (decide (x = 0%N)) as [->|Hx]; [by rewrite pretty_N_go_0|].
  rewrite pretty_N_go_step by lia. apply IH.
  - apply N.div_lt; lia.
  - simpl. unfold chars. simpl. apply not_elem_of_cons. split; [|exact Hs].
    pose proof (N.mod_lt x 10 ltac:(lia)) as Hm.
    unfold pretty_N_char. destruct (x `mod` 10)%N as [|p]; [done|].
    do 4 (destruct p; try done).
Qed.

Lemma dec_no_nul z : 0 ∉ dec z.
Proof.
  assert (∀ n : N, 0 ∉ chars (pretty n)) as HN.
  { intros n. unfold pretty, pretty_N. case_decide; [by apply (bool_decide_eq_true_1 _)|].
    apply pretty_N_go_no_nul. by apply (bool_decide_eq_true_1 _). }
  unfold dec. destruct z as [|p|p]; [apply (HN 0%N)|apply (HN (Npos p))|].
  change (pretty (Z.neg p)) with ("-" +:+ pretty (Npos p)). rewrite chars_app, not_elem_of_app.
  split; [by apply (bool_decide_eq_true_1 _)|apply HN].
Qed.

(** Storing [bs] at the start of a buffer and a NUL after it makes it the string
    [bs] holds, whatever the buffer held before. *)
Lemma store_terminated buf bs :
  blen bs < blen buf →
  ∃ b1 b2, bwrite buf 0 bs = Some b1 ∧ bwrite b1 (blen bs) [0] = Some b2 ∧ c_str b2 = c_str bs.
Proof.
  intros Hl. pose proof (blen_nonneg bs).
  destruct (bwrite buf 0 bs) as [b1|] eqn:E1; cycle 1.
  { apply eq_None_not_Some in E1. destruct E1. apply bwrite_is_Some. lia. }
  pose proof (bwrite_length _ _ _ _ E1) as Hl1. apply bwrite_inv in E1 as (_ & _ & ->).
  eexists _, _. split; [done|]. rewrite bwrite_Some by (rewrite ?Hl1; change (blen [0]) with 1; lia).
  split; [done|]. change (Z.to_nat 0) with 0%nat. simpl.
  rewrite take_app_exact by (unfold blen; lia). apply c_str_app_nul_c_str.
Qed.

(** The text of a number below 10^n has at most n characters, and a sign. *)
Lemma chars_length s : length (chars s) = String.length s.
Proof. unfold chars. rewrite length_fmap. induction s; simpl; congruence. Qed.

Lemma pretty_N_go_length n x s :
  (x < 10 ^ N.of_nat n)%N → (String.length (pretty_N_go x s) <= n + String.length s)%nat.
Proof.
  revert x s. induction n as [|n IH]; intros x s Hx.
  - simpl in Hx. assert (x = 0%N) as -> by lia. rewrite pretty_N_go_0. lia.
  - destruct (decide (x = 0%N)) as [->|Hne]; [rewrite pretty_N_go_0; lia|].
    rewrite pretty_N_go_step by lia.
    assert (x / 10 < 10 ^ N.of_nat n)%N as Hd.
    { apply N.Div0.div_lt_upper_bound. by rewrite <-N.pow_succ_r', <-Nat2N.inj_succ. }
    specialize (IH (x / 10)%N (String (pretty_N_char (x mod 10)) s) Hd). simpl in IH. lia.
Qed.

Lemma blen_dec n z : - 10 ^ Z.of_nat n < z < 10 ^ Z.of_nat n → (1 <= n)%nat → blen (dec z) <= Z.of_nat n + 1.
Proof.
  intros Hz Hn. unfold dec, blen. rewrite chars_length.
  assert (∀ x : N, Z.of_N x < 10 ^ Z.of_nat n → (String.length (pretty x) <= n)%nat) as HN.
  { intros x Hx0. assert (x < 10 ^ N.of_nat n)%N as Hx.
    { apply N2Z.inj_lt. by rewrite N2Z.inj_pow, nat_N_Z. }
    unfold pretty, pretty_N. case_decide; [simpl; lia|].
    pose proof (pretty_N_go_length n x "" Hx). simpl in *. lia. }
  destruct z as [|p|p].
  - specialize (HN 0%N). change (pretty 0) with (pretty 0%N). simpl Z.of_N in HN. lia.
  - change (pretty (Zpos p)) with (pretty (Npos p)). specialize (HN (Npos p)). simpl Z.of_N in HN. lia.
  - change (pretty (Zneg p)) with (String (Ascii.ascii_of_nat 45) (pretty (Npos p))). cbn [String.length String.app]. specialize (HN (Npos p)). simpl Z.of_N in HN. lia.
Qed.

(** strncpy of a string shorter than the buffer terminates it. *)
Lemma c_str_resize s n :
  0 ∉ s → (length s < n)%nat → c_str (resize n 0 s) = s ∧ 0 ∈ resize n 0 s.
Proof.
  intros Hs Hn. rewrite resize_ge by lia. destruct (n - length s)%nat as [|k] eqn:E; [lia|].
  simpl. split; [by apply c_str_app_nul|set_solver].
Qed.

(** snprintf of a short text into a buffer leaves the text as its string. *)
Lemma snprintf_text b size txt :
  0 < size <= blen b → blen txt < size → 0 ∉ txt →
  ∃ b', snprintf b 0 size txt = Some (blen txt, b') ∧ blen b' = blen b ∧ 0 ∈ b' ∧ c_str b' = txt.
Proof.
  intros Hs Ht H0. pose proof (blen_nonneg txt). unfold snprintf. rewrite (proj2 (Z.eqb_neq _ _)) by lia.
  rewrite (take_ge txt) by (unfold blen in *; lia).
  destruct (bwrite b 0 (txt ++ [0])) as [b'|] eqn:E; cycle 1.
  { apply eq_None_not_Some in E. destruct E. apply bwrite_is_Some. rewrite blen_app.
    change (blen [0]) with 1. lia. }
  pose proof (bwrite_length _ _ _ _ E). exists b'. split; [done|]. split; [done|].
  apply bwrite_inv in E as (_ & _ & ->). change (Z.to_nat 0) with 0%nat. rewrite take_0.
  rewrite app_nil_l, <-app_assoc. simpl. split; [set_solver|by apply c_str_app_nul].
Qed.

(** snprintf at an offset: the text, cut to the size and terminated, replaces
    the bytes there and no others. *)
Lemma snprintf_at b off size txt :
  0 <= off → 0 < size → off + size <= blen b → 0 ∉ txt →
  let out := take (Z.to_nat (size - 1)) txt in
  ∃ b', snprintf b off size txt = Some (blen txt, b') ∧ blen b' = blen b ∧
    take (Z.to_nat off) b' = take (Z.to_nat off) b ∧ c_str (drop (Z.to_nat off) b') = out ∧
    ∀ i : nat, Z.of_nat i < off ∨ off + blen out < Z.of_nat i → b' !! i = b !! i.
Proof.
  intros Ho Hs Hb H0 out. unfold snprintf. rewrite (proj2 (Z.eqb_neq _ _)) by lia. fold out.
  assert (0 ∉ out) as H0o.
  { intros Hin. apply H0. rewrite <-(take_drop (Z.to_nat (size - 1)) txt). apply elem_of_app. by left. }
  assert (blen out <= size - 1) as Hl by (unfold out, blen; rewrite length_take; lia).
  assert (blen (out ++ [0]) = blen out + 1) as Hl1 by by rewrite blen_app.
  destruct (bwrite b off (out ++ [0])) as [b'|] eqn:E; cycle 1.
  { apply eq_None_not_Some in E. destruct E. apply bwrite_is_Some. lia. }
  exists b'. split_and!; [done|by eapply bwrite_length| | |].
  - apply bwrite_inv in E as (_ & _ & ->). rewrite <-app_assoc. apply take_app_exact.
    rewrite length_take. unfold blen in *. lia.
  - apply bwrite_inv in E as (_ & _ & ->). rewrite drop_app_exact.
    + rewrite <-app_assoc. by apply c_str_app_nul.
    + rewrite length_take. unfold blen in *. lia.
  - intros i Hi. eapply bwrite_lookup_ne; [done|]. lia.
Qed.

(** strncpy into n bytes followed by a NUL keeps the first n characters. *)
Lemma c_str_strncpy s n : 0 ∉ s → c_str (resize n 0 s ++ [0]) = take n s.
Proof.
  intros Hs. destruct (decide (length s <= n)%nat).
  - rewrite resize_ge, <-app_assoc, take_ge by lia.
    destruct (n - length s)%nat; simpl; by apply c_str_app_nul.
  - rewrite resize_le by lia. apply c_str_app_nul. intros Hin. apply Hs.
    rewrite <-(take_drop n s). apply elem_of_app. by left.
Qed.

(** strcpy of a terminated string that fits. *)
Lemma strcpy_Some dst src :
  0 ∈ src → blen (c_str src) < blen dst →
  ∃ b, strcpy dst src = Some b ∧ blen b = blen dst ∧ 0 ∈ b ∧ c_str b = c_str src.
Proof.
  intros H0 Hl. unfold strcpy. destruct (strlen_is_Some _ H0) as [n ->]. cbn [mbind option_bind].
  pose proof (blen_nonneg (c_str src)). destruct (bwrite dst 0 (c_str src ++ [0])) as [b|] eqn:E; cycle 1.
  { apply eq_None_not_Some in E. destruct E. apply bwrite_is_Some. rewrite blen_app.
    change (blen [0]) with 1. lia. }
  pose proof (bwrite_length _ _ _ _ E). exists b. split; [done|]. split; [done|].
  apply bwrite_inv in E as (_ & _ & ->). change (Z.to_nat 0) with 0%nat. rewrite take_0, app_nil_l, <-app_assoc.
  simpl. split; [set_solver|]. apply c_str_app_nul, c_str_no_nul.
Qed.

(** ** Integers in memory *)

Lemma blen_le32 v : blen (le32 v) = 4.
Proof. done. Qed.

Lemma le32_value v : foldr (λ c v, c + 256 * v) 0 (le32 v) = u32 v.
Proof.
  unfold le32. change 255 with (Z.ones 8). cbn [fmap list_fmap foldr].
  rewrite !Z.land_ones, !Z.shiftr_div_pow2 by lia. cbn [Z.mul Pos.mul].
  unfold u32. Z.to_euclidean_division_equations; lia.
Qed.

(** What is stored as an int is read as that int. *)
Lemma int_of_le32_le32 v : is_s32 v → int_of_le32 (le32 v) = v.
Proof. intros Hv. unfold int_of_le32. rewrite le32_value. wrap_lia. Qed.

Lemma int_of_le32_range b : is_s32 (int_of_le32 b).
Proof. apply s32_bound. Qed.

(** The first characters of a string that is read twice. *)
Lemma c_str_take_app_nul t b n :
  0 ∉ t → (length t < n)%nat → take (S (length t)) b = t ++ [0] → c_str (take n b) = t.
Proof.
  intros H0 Hn Ht. rewrite <-(take_drop (S (length t)) b), Ht, <-app_assoc.
  rewrite take_app, take_ge by lia. destruct (n - length t)%nat as [|k] eqn:E; [lia|].
  simpl. by apply c_str_app_nul.
Qed.
