(* ===== verification/Kernel.v ===== *)
(** * Interfaces to the kernel

    The kernel is not part of the repository, so every kernel facility the
    modules use is an interface: a type class of operations, a type class of the
    documented laws the modules rely on, and a reference instance that shows the
    laws can hold and that the witnesses evaluate with. *)
From S2P Require Import Prelude Bytes.

(** ** User memory (include/linux/uaccess.h)

    [copy_from_user u a n] is the number of bytes that could not be copied and
    the [n] bytes it leaves in the kernel's destination; [copy_to_user u a bs]
    the number of bytes not copied and the new user memory; [uload u a n] the [n]
    bytes user code sees at [a]. *)
Class UserAccess (U : Type) := {
  uload : U → Z → Z → bytes;
  copy_from_user : U → Z → Z → Z * bytes;
  copy_to_user : U → Z → bytes → Z * U
}.

(** copy_from_user "returns the number of bytes that could not be copied; on
    success this will be zero; if some data could not be copied, this function
    will pad the copied data to the requested size using zero bytes". *)
Class UserAccessLaws (U : Type) `{UserAccess U} := {
  uload_length u a n : 0 <= n → blen (uload u a n) = n;
  copy_from_user_length u a n : 0 <= n → blen (copy_from_user u a n).2 = n;
  copy_from_user_ok u a n :
    0 <= n → (copy_from_user u a n).1 = 0 → (copy_from_user u a n).2 = uload u a n;
  copy_to_user_ok u a bs :
    (copy_to_user u a bs).1 = 0 → uload (copy_to_user u a bs).2 a (blen bs) = bs
}.

(** How the /proc read methods answer: format the text into a stack array of
    uninitialised bytes and copy as many bytes of it as snprintf says to the user;
    the result, the new position and user memory.  The count the user asked for
    plays no part. *)
Definition proc_reply {U} `{UserAccess U} (stack txt : bytes) (u : U) (buffer pos : Z)
    : option (Z * Z * U) :=
  '(len, output) ← snprintf stack 0 (blen stack) txt;
  bs ← bread output 0 len;
  let '(left_over, u) := copy_to_user u buffer bs in
  if negb (left_over =? 0) then Some (- EFAULT, pos, u) else Some (len, len, u).

(** How the /proc write methods read their input: a length of at least that of
    the uninitialised stack array is refused; an error code, or the array with the
    user's bytes and a NUL. *)
Definition read_input {U} `{UserAccess U} (input : bytes) (u : U) (buffer count : Z)
    : option (Z + bytes) :=
  if blen input - 1 <? count then Some (inl (- EINVAL))
  else
    let '(left_over, bs) := copy_from_user u buffer count in
    input ← bwrite input 0 bs;
    if negb (left_over =? 0) then Some (inl (- EFAULT))
    else input ← bwrite input count [0]; Some (inr input).

Lemma read_input_correct {U} `{UserAccessLaws U} input (u : U) buffer count :
  0 <= count →
  ∃ r, read_input input u buffer count = Some r ∧
    if blen input <=? count then r = inl (- EINVAL)
    else if negb ((copy_from_user u buffer count).1 =? 0) then r = inl (- EFAULT)
    else ∃ b, r = inr b ∧ 0 ∈ b ∧ c_str b = c_str (uload u buffer count).
Proof.
  intros Hc. unfold read_input.
  destruct (Z.ltb_spec (blen input - 1) count), (Z.leb_spec (blen input) count); try lia; [by eexists|].
  pose proof (copy_from_user_length u buffer count Hc) as Hl.
  pose proof (copy_from_user_ok u buffer count Hc) as Hok.
  destruct (copy_from_user u buffer count) as [l bs]. simpl in *.
  destruct (store_terminated input bs) as (b1 & b2 & -> & Hb2 & Hs); [lia|]. simpl.
  destruct (Z.eqb_spec l 0) as [->|]; simpl; [|by eexists].
  rewrite Hl in Hb2. rewrite Hb2. simpl. eexists. split; [done|]. exists b2. split; [done|].
  split; [|by rewrite Hs, Hok]. apply bwrite_inv in Hb2 as (_ & _ & ->). set_solver.
Qed.

(** The reference user memory: one mapped range; an access inside it succeeds,
    any other copies nothing. *)
Record flat_user := FlatUser { fu_base : Z; fu_mem : bytes }.

Definition flat_ok (u : flat_user) (a n : Z) : bool :=
  bool_decide (fu_base u <= a ∧ 0 <= n ∧ a + n <= fu_base u + blen (fu_mem u)).

Definition flat_load (u : flat_user) (a n : Z) : bytes :=
  default (bfill 0 n) (bread (fu_mem u) (a - fu_base u) n).

#[export] Instance flat_user_access : UserAccess flat_user := {
  uload := flat_load;
  copy_from_user u a n := if flat_ok u a n then (0, flat_load u a n) else (n, bfill 0 n);
  copy_to_user u a bs :=
    match bwrite (fu_mem u) (a - fu_base u) bs with
    | Some m => (0, FlatUser (fu_base u) m)
    | None => (blen bs, u)
    end
}.

(** ** Kernel memory (include/linux/slab.h, include/linux/vmalloc.h)

    An allocator state [H], its live blocks, and the calls.  A block is where it
    came from and its address; 0 is NULL. *)
Inductive alloc_kind := ByKmalloc | ByVmalloc | FromCache (c : Z).
#[export] Instance alloc_kind_eq : EqDecision alloc_kind.
Proof. solve_decision. Defined.
#[export] Instance alloc_kind_countable : Countable alloc_kind.
Proof.
  refine (inj_countable' (λ k, match k with ByKmalloc => inl false | ByVmalloc => inl true | FromCache c => inr c end)
    (λ x, match x with inl false => ByKmalloc | inl true => ByVmalloc | inr c => FromCache c end) _).
  by intros [].
Defined.
Abbreviation block := (alloc_kind * Z)%type.

Class Allocator (H : Type) := {
  live : H → gset block;
  kmalloc : H → Z → Z * H;
  kfree : H → Z → H;
  vmalloc : H → Z → Z * H;
  vfree : H → Z → H;
  kmem_cache_alloc : H → Z → Z * H;
  kmem_cache_free : H → Z → Z → H
}.

(** What the allocator documents of one allocating call: on failure NULL and
    nothing changes, on success a block at an address where none was live. *)
Definition alloc_spec {H} `{Allocator H} (k : alloc_kind) (h : H) (r : Z * H) : Prop :=
  (r.1 = NULL ∧ live r.2 = live h) ∨
  (r.1 ≠ NULL ∧ (∀ k', (k', r.1) ∉ live h) ∧ live r.2 = {[(k, r.1)]} ∪ live h).

(** Each freeing call is for the blocks of its own allocating call: kfree for
    "memory previously allocated using kmalloc()", vfree for vmalloc's,
    kmem_cache_free for those of the same cache. *)
Class AllocatorLaws (H : Type) `{Allocator H} := {
  kmalloc_spec h n : alloc_spec ByKmalloc h (kmalloc h n);
  vmalloc_spec h n : alloc_spec ByVmalloc h (vmalloc h n);
  kmem_cache_alloc_spec h c : alloc_spec (FromCache c) h (kmem_cache_alloc h c);
  kfree_live h p : (ByKmalloc, p) ∈ live h → live (kfree h p) = live h ∖ {[(ByKmalloc, p)]};
  vfree_live h p : (ByVmalloc, p) ∈ live h → live (vfree h p) = live h ∖ {[(ByVmalloc, p)]};
  kmem_cache_free_live h c p :
    (FromCache c, p) ∈ live h → live (kmem_cache_free h c p) = live h ∖ {[(FromCache c, p)]}
}.

(** The blocks of one kind at a list of addresses. *)
Definition blocks (k : alloc_kind) (ps : list Z) : gset block := list_to_set (pair k <$> ps).

Lemma elem_of_blocks b k ps : b ∈ blocks k ps ↔ b.1 = k ∧ b.2 ∈ ps.
Proof.
  unfold blocks. rewrite elem_of_list_to_set, list_elem_of_fmap. destruct b as [k' p]. simpl. naive_solver.
Qed.
#[export] Instance set_unfold_blocks b k ps P :
  SetUnfoldElemOf b.2 ps P → SetUnfoldElemOf b (blocks k ps) (b.1 = k ∧ P).
Proof. constructor. rewrite elem_of_blocks. by rewrite (set_unfold_elem_of b.2 ps P). Qed.

Lemma blocks_nil k : blocks k [] = ∅.
Proof. done. Qed.
Lemma blocks_cons k p ps : blocks k (p :: ps) = {[(k, p)]} ∪ blocks k ps.
Proof. done. Qed.
Lemma blocks_app k ps qs : blocks k (ps ++ qs) = blocks k ps ∪ blocks k qs.
Proof. unfold blocks. rewrite fmap_app. apply list_to_set_app_L. Qed.
(** Freeing the first of the blocks leaves the others live. *)
Lemma blocks_free_first k p ps L :
  p ∉ ps → blocks k (p :: ps) ⊆ L →
  (k, p) ∈ L ∧ blocks k ps ⊆ L ∖ {[(k, p)]} ∧ L ∖ {[(k, p)]} ∖ blocks k ps = L ∖ blocks k (p :: ps).
Proof.
  intros Hp HL. rewrite blocks_cons in *. split_and!.
  - apply HL, elem_of_union_l, elem_of_singleton. done.
  - apply subseteq_difference_r.
    + apply disjoint_singleton_r. rewrite elem_of_blocks. simpl. tauto.
    + etrans; [apply union_subseteq_r|exact HL].
  - by rewrite difference_difference_l_L.
Qed.
Lemma difference_union_singleton_fresh (b : block) (L : gset block) : b ∉ L → ({[b]} ∪ L) ∖ {[b]} = L.
Proof. intros Hb. apply set_eq. intros x. rewrite elem_of_difference, elem_of_union, elem_of_singleton. naive_solver. Qed.
#[export] Instance blocks_perm k : Proper ((≡ₚ) ==> (=)) (blocks k).
Proof. intros ps qs E. unfold blocks. apply list_to_set_perm_L. by rewrite E. Qed.

(** The reference allocator: a bump pointer and a budget of blocks, so that
    exhaustion happens. *)
Record bump := Bump { b_live : gset block; b_next : positive; b_budget : nat }.

Definition bump_alloc (k : alloc_kind) (h : bump) : Z * bump :=
  match b_budget h with
  | O => (NULL, h)
  | S n =>
      let p := Zpos (b_next h) in
      if bool_decide (p ∈ (set_map snd (b_live h) : gset Z)) then (NULL, h)
      else (p, Bump ({[(k, p)]} ∪ b_live h) (Pos.succ (b_next h)) n)
  end.

Definition bump_free (k : alloc_kind) (h : bump) (p : Z) : bump :=
  Bump (b_live h ∖ {[(k, p)]}) (b_next h) (S (b_budget h)).

#[export] Instance bump_allocator : Allocator bump := {
  live := b_live;
  kmalloc h _ := bump_alloc ByKmalloc h;
  kfree := bump_free ByKmalloc;
  vmalloc h _ := bump_alloc ByVmalloc h;
  vfree := bump_free ByVmalloc;
  kmem_cache_alloc h c := bump_alloc (FromCache c) h;
  kmem_cache_free h c p := bump_free (FromCache c) h p
}.

(** ** Mutexes (include/linux/mutex.h), as one handler sees them

    [mutex_lock_interruptible m] answers 0 with the mutex held, or a negative
    code with nothing changed. *)
Class Mutex (M : Type) := {
  held : M → bool;
  mutex_lock : M → M;
  mutex_lock_interruptible : M → Z * M;
  mutex_unlock : M → M
}.

Class MutexLaws (M : Type) `{Mutex M} := {
  mutex_lock_held m : held m = false → held (mutex_lock m) = true;
  mutex_lock_interruptible_held m :
    held m = false → (mutex_lock_interruptible m).1 = 0 → held (mutex_lock_interruptible m).2 = true;
  mutex_lock_interruptible_fail m :
    (mutex_lock_interruptible m).1 ≠ 0 → held (mutex_lock_interruptible m).2 = held m;
  mutex_unlock_free m : held m = true → held (mutex_unlock m) = false
}.

(** The reference mutex: whether it is held, and whether a signal is pending. *)
Record ref_mutex := RefMutex { rm_held : bool; rm_signal : bool }.
#[export] Instance ref_mutex_ops : Mutex ref_mutex := {
  held := rm_held;
  mutex_lock m := RefMutex true (rm_signal m);
  mutex_lock_interruptible m := if rm_signal m then (-4, m) else (0, RefMutex true false);
  mutex_unlock m := RefMutex false (rm_signal m)
}.

(** ** Registration calls

    An init or exit function is a program that calls the kernel; what a call
    answers is up to the environment [env], which sees the history of calls.
    [K C S A]: calls of type [C], module state [S], result [A]. *)
Definition env (C : Type) : Type := list (C * Z) → C → Z.

Record kworld (C S : Type) := KWorld { kst : S; ktr : list (C * Z) }.
Arguments KWorld {C S} _ _.
Arguments kst {C S} _.
Arguments ktr {C S} _.

Definition K (C S A : Type) : Type := env C → kworld C S → A * kworld C S.

Definition kret {C S A} (a : A) : K C S A := λ _ w, (a, w).
Definition kbind {C S A B} (m : K C S A) (f : A → K C S B) : K C S B :=
  λ e w, let '(a, w') := m e w in f a e w'.
(** A kernel call, with the environment's answer. *)
Definition kcall {C S} (c : C) : K C S Z :=
  λ e w, let r := e (ktr w) c in (r, KWorld (kst w) (ktr w ++ [(c, r)])).
(** Reading and changing the module's static variables. *)
Definition kget {C S A} (f : S → A) : K C S A := λ _ w, (f (kst w), w).
Definition kmod {C S} (f : S → S) : K C S unit :=
  λ _ w, (tt, KWorld (f (kst w)) (ktr w)).

Notation "x <-k m ; f" := (kbind m (λ x, f))
  (at level 20, m at level 100, f at level 200, right associativity) : kernel_scope.
Notation "m ;;k f" := (kbind m (λ _, f))
  (at level 100, f at level 200, right associativity) : kernel_scope.

(** ** Resource accounting over a trace of calls

    [acq c r] is the resource a call [c] that answered [r] acquires, [rel c] the
    resource a call releases.  [held_run] replays a trace on a stack: it fails
    when a call releases anything but the most recently acquired resource that
    is still held, so [held_run [] t = Some h] says that [t] releases nothing
    twice, nothing it does not hold, always in reverse order, and ends holding
    exactly [h]. *)
Section held.
Context {C R : Type} `{EqDecision R} (acq : C → Z → option R) (rel : C → option R).

Definition held_step (h : list R) (ev : C * Z) : option (list R) :=
  match rel ev.1 with
  | Some r =>
      match h with
      | r' :: h' => if decide (r = r') then Some h' else None
      | [] => None
      end
  | None => Some (match acq ev.1 ev.2 with Some r => r :: h | None => h end)
  end.

Fixpoint held_run (h : list R) (t : list (C * Z)) : option (list R) :=
  match t with
  | [] => Some h
  | ev :: t' => h' ← held_step h ev; held_run h' t'
  end.

Lemma held_run_app h t1 t2 :
  held_run h (t1 ++ t2) = (h' ← held_run h t1; held_run h' t2).
Proof.
  revert h. induction t1 as [|ev t1 IH]; intros h; simpl; [done|].
  destruct (held_step h ev); simpl; [apply IH|done].
Qed.
End held.

(** Runs an init or exit function symbolically: each call's answer becomes a
    fresh variable, each test on answers a case. *)
Ltac kstep :=
  match goal with
  | |- context [kbind (kcall ?c) ?f ?e ?w] =>
      change (kbind (kcall c) f e w)
        with (f (e (ktr w) c) e (KWorld (kst w) (ktr w ++ [(c, e (ktr w) c)])));
      let r := fresh "r" in generalize (e (ktr w) c); intros r
  | |- context [kcall ?c ?e ?w] =>
      change (kcall c e w)
        with (e (ktr w) c, KWorld (kst w) (ktr w ++ [(c, e (ktr w) c)]));
      let r := fresh "r" in generalize (e (ktr w) c); intros r
  | |- context [kbind (kbind ?m ?f) ?g ?e ?w] =>
      change (kbind (kbind m f) g e w) with (kbind m (λ x, kbind (f x) g) e w)
  | |- context [kbind (kmod ?g) ?f ?e ?w] =>
      change (kbind (kmod g) f e w) with (f tt e (KWorld (g (kst w)) (ktr w)))
  | |- context [kmod ?g ?e ?w] => change (kmod g e w) with (tt, KWorld (g (kst w)) (ktr w))
  | |- context [kbind (kget ?g) ?f ?e ?w] => change (kbind (kget g) f e w) with (f (g (kst w)) e w)
  | |- context [kbind (kret ?a) ?f ?e ?w] => change (kbind (kret a) f e w) with (f a e w)
  | |- context [kret ?a ?e ?w] => change (kret a e w) with (a, w)
  | |- context [kbind (if ?b then _ else _) _ _ _] => let E := fresh "Hb" in destruct b eqn:E
  | |- context [(if ?b then _ else _) _ _] => let E := fresh "Hb" in destruct b eqn:E
  end; cbn [kst ktr app]; cbv beta.

(** Replays a concrete trace on the stack of held resources, using the tests
    already decided. *)
Ltac kheld :=
  repeat first
    [ progress cbn [held_run held_step fst snd mbind option_bind app]
    | match goal with H : ?b = _ |- context [if ?b then _ else _] => rewrite H end
    | rewrite decide_True by done
    | match goal with
      | H : negb ?b = true |- context [if ?b then _ else _] => rewrite (proj1 (negb_true_iff b) H)
      | H : negb ?b = false |- context [if ?b then _ else _] => rewrite (proj1 (negb_false_iff b) H)
      end ].

(** A text that fits the array with its NUL is copied whole. *)
Lemma proc_reply_correct {U} `{UserAccess U} stack txt (u : U) buffer pos :
  blen txt < blen stack →
  proc_reply stack txt u buffer pos =
    Some (if negb ((copy_to_user u buffer txt).1 =? 0) then - EFAULT else blen txt,
          if negb ((copy_to_user u buffer txt).1 =? 0) then pos else blen txt,
          (copy_to_user u buffer txt).2).
Proof.
  intros Hl. unfold proc_reply, snprintf. pose proof (blen_nonneg txt).
  rewrite (proj2 (Z.eqb_neq _ _)) by lia.
  rewrite (take_ge txt) by (unfold blen in *; lia).
  assert (blen (txt ++ [0]) = blen txt + 1) as Hb by by rewrite blen_app.
  rewrite bwrite_Some by (rewrite ?Hb; lia). cbn [mbind option_bind].
  change (Z.to_nat 0) with 0%nat. rewrite take_0, app_nil_l.
  rewrite bread_Some; [|lia|lia|rewrite !blen_app; change (blen [0]) with 1; pose proof (blen_nonneg (drop (0 + length (txt ++ [0])) stack)); lia].
  cbn [mbind option_bind]. change (Z.to_nat 0) with 0%nat. rewrite drop_0, <-app_assoc.
  rewrite take_app_exact by (unfold blen; lia).
  destruct (copy_to_user u buffer txt) as [l u']. simpl. by destruct (negb (l =? 0)).
Qed.

(** ** The laws hold of the reference instances *)

Lemma flat_load_length u a n : 0 <= n → blen (flat_load u a n) = n.
Proof.
  intros. unfold flat_load. destruct (bread _ _ _) eqn:E; simpl.
  - by eapply bread_length.
  - by apply blen_bfill.
Qed.

#[export] Instance flat_user_laws : UserAccessLaws flat_user.
Proof.
  split; simpl.
  - intros. by apply flat_load_length.
  - intros u a n Hn. destruct (flat_ok u a n); simpl;
      [by apply flat_load_length|by apply blen_bfill].
  - intros u a n Hn. unfold flat_ok. case_bool_decide as Hok; simpl; [done|].
    intros ->. unfold flat_load. unfold bfill. simpl.
    destruct (bread _ _ _) as [r|] eqn:E; simpl; [|done].
    apply bread_length in E. destruct r; [done|]. unfold blen in E. simpl in E. lia.
  - intros u a bs. destruct (bwrite _ _ _) as [m|] eqn:E; simpl.
    + intros _. unfold flat_load. simpl. by erewrite bwrite_bread_same.
    + intros Hz. destruct bs; [|unfold blen in Hz; simpl in Hz; lia].
      unfold flat_load, bread. simpl. case_bool_decide; by rewrite ?take_0.
Qed.

Lemma bump_alloc_spec k h : alloc_spec k h (bump_alloc k h).
Proof.
  unfold alloc_spec, bump_alloc, NULL. destruct (b_budget h) as [|n]; [by left|].
  case_bool_decide as Hp; [by left|]. right. simpl. split; [done|]. split; [|done].
  intros k' Hk. destruct Hp. apply elem_of_map. by exists (k', Zpos (b_next h)).
Qed.

#[export] Instance bump_laws : AllocatorLaws bump.
Proof. split; intros; try apply bump_alloc_spec; done. Qed.

#[export] Instance ref_mutex_laws : MutexLaws ref_mutex.
Proof. split; simpl; intros m; try done; destruct (rm_signal m); done. Qed.

(** ** Jiffies *)

(** HZ, and the calls of include/linux/jiffies.h. *)
Class JiffiesApi := {
  HZ : Z;
  time_after : Z → Z → bool;
  time_before : Z → Z → bool;
  jiffies_to_msecs : Z → Z;
  msecs_to_jiffies : Z → Z;
  usecs_to_jiffies : Z → Z
}.

(** "time_after(a,b) returns true if the time a is after time b", by the sign of
    the difference, so that it does not matter whether the counter has wrapped;
    time_before(a,b) is time_after(b,a).  jiffies_to_msecs returns an unsigned int:
    for an HZ that divides 1000, MSEC_PER_SEC / HZ times its argument. *)
Class JiffiesLaws `{JiffiesApi} := {
  HZ_range : 0 < HZ <= 1000;
  time_after_spec a b : time_after a b = (s64 (b - a) <? 0);
  time_before_spec a b : time_before a b = time_after b a;
  jiffies_to_msecs_spec j : (HZ | 1000) → jiffies_to_msecs j = u32 (1000 / HZ * j)
}.

(** A 250 Hz configuration, for the witnesses. *)
#[export] Instance ref_jiffies : JiffiesApi := {
  HZ := 250; time_after a b := s64 (b - a) <? 0; time_before a b := s64 (a - b) <? 0;
  jiffies_to_msecs j := u32 (j * 4); msecs_to_jiffies m := (m + 3) / 4; usecs_to_jiffies u := (u + 3999) / 4000
}.
#[export] Instance ref_jiffies_laws : JiffiesLaws.
Proof. split; try done. intros j _. simpl. f_equal. change (1000 / 250) with 4. lia. Qed.
