(* ===== verification/CharDev.v ===== *)
(** * Character devices: registration calls and ioctl numbers

    vma_allocation.c, shared_memory_demo.c and ioctl_test.c register a character
    device through the same kernel calls; this file names the calls, what each
    acquires and what each releases. *)
From S2P Require Import Prelude Bytes Kernel.

(** [KzallocDev] allocates the module's device structure (its size is not
    modelled).  alloc_chrdev_region returns its device number through a pointer: the
    environment answers with a negative error code, or with the number, when the
    call returns 0 ([region_ret]). *)
Inductive call :=
| KzallocDev | Kzalloc (n : Z) | Kfree (p : Z)
| Vmalloc (n : Z) | Vfree (p : Z)
| MutexInit
| AllocChrdevRegion | UnregisterChrdevRegion (devt : Z)
| CdevInit | CdevAdd (devt : Z) | CdevDel
| ClassCreate | ClassDestroy (class : Z)
| DeviceCreate (class devt : Z) | DeviceDestroy (class devt : Z).

Definition region_ret (r : Z) : Z := if r <? 0 then r else 0.

Inductive resource :=
| RMem (p : Z) | RVmem (p : Z) | RRegion (devt : Z) | RCdev | RClass (class : Z)
| RDevice (class devt : Z).

#[export] Instance resource_eq : EqDecision resource.
Proof. solve_decision. Defined.

Definition acq (c : call) (r : Z) : option resource :=
  match c with
  | KzallocDev | Kzalloc _ => if r =? NULL then None else Some (RMem r)
  | Vmalloc _ => if r =? NULL then None else Some (RVmem r)
  | AllocChrdevRegion => if r <? 0 then None else Some (RRegion r)
  | CdevAdd _ => if r <? 0 then None else Some RCdev
  | ClassCreate => if IS_ERR r then None else Some (RClass r)
  | DeviceCreate c d => if IS_ERR r then None else Some (RDevice c d)
  | _ => None
  end.

Definition rel (c : call) : option resource :=
  match c with
  | Kfree p => Some (RMem p)
  | Vfree p => Some (RVmem p)
  | UnregisterChrdevRegion d => Some (RRegion d)
  | CdevDel => Some RCdev
  | ClassDestroy c => Some (RClass c)
  | DeviceDestroy c d => Some (RDevice c d)
  | _ => None
  end.

(** An environment in which every call succeeds. *)
Definition good_env : env call := λ _ c,
  match c with
  | KzallocDev => 4096 | Kzalloc n => 2^20 + n | Vmalloc n => 2^40 + n | AllocChrdevRegion => 240
  | ClassCreate => 100 | DeviceCreate _ _ => 200 | _ => 0
  end.

Lemma region_ret_neg r : (region_ret r <? 0) = (r <? 0).
Proof. unfold region_ret. destruct (Z.ltb_spec r 0); [|done]. by apply Z.ltb_lt. Qed.

(** ** ioctl command numbers (include/uapi/asm-generic/ioctl.h)

    From the top: 2 bits of direction, 14 of size, 8 of type, 8 of number. *)
Definition _IOC_WRITE : Z := 1.
Definition _IOC_READ : Z := 2.
Definition _IOC (dir type nr size : Z) : Z :=
  Z.lor (Z.shiftl dir 30) (Z.lor (Z.shiftl size 16) (Z.lor (Z.shiftl type 8) nr)).
Definition _IO (type nr : Z) : Z := Z.lor (Z.shiftl type 8) nr.
Definition _IOW (type nr size : Z) : Z := _IOC _IOC_WRITE type nr size.
Definition _IOR (type nr size : Z) : Z := _IOC _IOC_READ type nr size.
Definition _IOC_DIR (cmd : Z) : Z := Z.land (Z.shiftr cmd 30) 3.
Definition _IOC_SIZE (cmd : Z) : Z := Z.land (Z.shiftr cmd 16) 16383.
Definition _IOC_TYPE (cmd : Z) : Z := Z.land (Z.shiftr cmd 8) 255.
Definition _IOC_NR (cmd : Z) : Z := Z.land cmd 255.
