(* ===== verification/ProcFs.v ===== *)
(** * The /proc registration calls

    atomic_demo.c, mutex_sem_demo.c, spinlock_demo.c, rwlock_demo.c,
    deadlock_demo.c and pos_demo.c register files under /proc; this file names the calls and says
    which entries a trace of calls leaves. *)
From S2P Require Import Prelude Bytes Kernel.

(** proc_mkdir, proc_create and proc_remove answer and take the address of an
    entry; the parent of a top-level entry is NULL.  The last two calls register
    nothing. *)
Inductive call :=
| ProcMkdir | ProcCreate (mode parent : Z) | ProcRemove (p : Z)
| SetBit (nr : Z) | SemaInit (n : Z).

(** proc_remove removes an entry and the entries below it. *)
Definition entry_step (h : list (Z * Z)) (ev : call * Z) : list (Z * Z) :=
  match ev.1 with
  | ProcMkdir => if ev.2 =? NULL then h else (ev.2, NULL) :: h
  | ProcCreate _ parent => if ev.2 =? NULL then h else (ev.2, parent) :: h
  | ProcRemove p => filter (λ e, e.1 ≠ p ∧ e.2 ≠ p) h
  | _ => h
  end.
Definition entries (t : list (call * Z)) : list (Z * Z) := foldl entry_step [] t.

Lemma remove_below p (h : list (Z * Z)) :
  Forall (λ e, e.1 = p ∨ e.2 = p) h → filter (λ e, e.1 ≠ p ∧ e.2 ≠ p) h = [].
Proof.
  induction 1 as [|e h He Hh IH]; [done|]. rewrite filter_cons_False; [done|]. tauto.
Qed.

(** Decides what a concrete trace of calls leaves. *)
Ltac entries_solve :=
  unfold entries; cbn [foldl entry_step fst snd];
  repeat match goal with H : _ = true |- _ => rewrite H | H : _ = false |- _ => rewrite H end;
  zbool; rewrite ?(proj2 (Z.eqb_neq _ _)) by done;
  first [ done
        | apply remove_below; split_ifs; repeat (apply Forall_cons_2 || apply Forall_nil_2); simpl; auto ].
