(* ===== verification/Threads.v ===== *)
(** * Interleaved programs

    The machine the concurrency components share: a program makes atomic actions
    one after the other, each returning a number it goes on with; a pool of
    programs runs one action of one of them at a time.  What an action does, and
    when it is enabled, is the parameter [act_step]: [act_step i a s s' v] says
    that program [i] can make the action [a] in state [s], which becomes [s'], and
    gets [v].  An action that no state change enables blocks. *)
From S2P Require Import Prelude.

Inductive prog (A : Type) := Ret (r : Z) | Do (a : A) (k : Z → prog A).
Arguments Ret {A} _.
Arguments Do {A} _ _.

Definition finished {A} (ps : list (prog A)) : Prop := Forall (λ p, ∃ r, p = Ret r) ps.

(** [bounded n p]: whatever its actions return, [p] makes at most [n] of them. *)
Inductive bounded {A} : nat → prog A → Prop :=
| bounded_ret n r : bounded n (Ret r)
| bounded_do n a k : (∀ v, bounded n (k v)) → bounded (S n) (Do a k).

Lemma bounded_le {A} n m (p : prog A) : bounded n p → (n <= m)%nat → bounded m p.
Proof.
  intros Hb. revert m. induction Hb as [|n a k Hk IH]; intros m Hm; [constructor|].
  destruct m as [|m]; [lia|]. constructor. intros v. apply IH. lia.
Qed.

#[export] Instance finished_dec {A} (ps : list (prog A)) : Decision (finished ps).
Proof.
  refine (Forall_dec _ _). intros [r|a k]; [left; by eexists|right; by intros [r ?]].
Defined.

Section machine.
Context {A S : Type} (act_step : nat → A → S → S → Z → Prop).
Implicit Types (ps : list (prog A)) (s : S).

Inductive tstep : list (prog A) * S → list (prog A) * S → Prop :=
| tstep_do ps i a k s s' v :
    ps !! i = Some (Do a k) → act_step i a s s' v → tstep (ps, s) (<[i := k v]> ps, s').

(** A run of a pool of bounded programs is bounded by the sum of the bounds: no
    schedule goes on for ever. *)
Lemma sum_list_insert (l : list nat) i n m :
  l !! i = Some n → (sum_list (<[i := m]> l) + n = sum_list l + m)%nat.
Proof.
  revert i. induction l as [|x l IH]; intros [|i]; simpl; intros Hi; simplify_eq; [lia|].
  specialize (IH i Hi). lia.
Qed.

Lemma sum_fmap_insert {B} (f : B → nat) (l : list B) i x y :
  l !! i = Some x → (sum_list (f <$> <[i := y]> l) + f x = sum_list (f <$> l) + f y)%nat.
Proof. intros Hi. rewrite list_fmap_insert. apply sum_list_insert. by rewrite list_lookup_fmap, Hi. Qed.

Lemma nsteps_bounded n ns ps s c :
  Forall2 bounded ns ps → nsteps tstep n (ps, s) c → (n <= sum_list ns)%nat.
Proof.
  revert ns ps s. induction n as [|n IH]; intros ns ps s HF Hn; [lia|].
  inversion Hn as [|? ? c1 ? Hst Hrest]; subst.
  inversion Hst as [? i a k ? s' v Hi Hact]; subst.
  destruct (Forall2_lookup_r _ _ _ _ _ HF Hi) as (m & Hm & Hb).
  inversion Hb as [|m' ? ? Hk]; subst.
  specialize (IH (<[i := m']> ns) (<[i := k v]> ps) s').
  pose proof (sum_list_insert ns i _ m' Hm).
  enough (n <= sum_list (<[i:=m']> ns))%nat by lia.
  apply IH; [|done]. by apply Forall2_insert.
Qed.

(** A program that is not finished makes an action next. *)
Lemma not_finished ps : ¬ finished ps → ∃ i a k, ps !! i = Some (Do a k).
Proof.
  induction ps as [|p ps IH]; intros Hn; [by destruct Hn; constructor|].
  destruct p as [r|a k]; [|by exists 0%nat, a, k].
  destruct IH as (i & a & k & Hi); [|by exists (Datatypes.S i), a, k].
  intros Hf. apply Hn. constructor; [by eexists|done].
Qed.
End machine.
