(* ===== verification/SimpleVfs.v ===== *)
(** * The in-memory filesystem (examples/class_7/00_vfs_obj_imp/simple_vfs.c)

    The state is the inodes and dentries the module touches, each under its
    address.  The VFS core (new_inode, d_add, dget, ...) is the interface
    [VfsCore] with the laws [VfsCoreLaws]; [ref_core] is a reference instance. *)
From S2P Require Import Prelude Bytes Kernel.

(** ** Data *)

Definition SIMPLE_MAGIC : Z := 0x19980122.
Definition S_IFMT : Z := 0xF000.
Definition S_IFREG : Z := 0x8000.
Definition S_IFDIR : Z := 0x4000.
Definition DATA_SIZE : Z := 64.

(** The operation tables an inode may point to. *)
Inductive inode_operations := default_iops | example_dir_inode_ops | example_file_inode_ops.
Inductive file_operations := default_fops | example_file_ops | example_dir_ops.
Inductive address_space_operations := default_aops | empty_aops.

Record inode := Inode {
  i_ino : Z; i_mode : Z; i_uid : Z; i_gid : Z;
  i_atime : Z; i_mtime : Z; i_ctime : Z;
  i_size : Z; i_nlink : Z;
  i_op : inode_operations; i_fop : file_operations;
  a_ops : address_space_operations
}.

(** struct example_inode_info: the VFS inode and 64 bytes of file data. *)
Record example_inode_info := ExampleInode { vfs_inode : inode; data : bytes }.

Record dentry := Dentry { d_name : bytes; d_inode : option Z; d_count : Z }.

(** The static table example_super_ops: a superblock points to it or to none. *)
Inductive super_operations := no_sops | example_super_ops.

Record super_block := SuperBlock {
  s_blocksize : Z; s_blocksize_bits : Z; s_magic : Z;
  s_op : super_operations; s_time_gran : Z; s_root : option Z
}.

Record vfs := Vfs { inodes : gmap Z example_inode_info; dentries : gmap Z dentry }.

Record kstatfs := Kstatfs {
  f_type : Z; f_bsize : Z; f_blocks : Z; f_bfree : Z; f_bavail : Z;
  f_files : Z; f_ffree : Z; f_namelen : Z
}.

(** Field updates. *)
Definition on_inode (f : inode → inode) (ei : example_inode_info) : example_inode_info :=
  ExampleInode (f (vfs_inode ei)) (data ei).
Definition upd_inode (a : Z) (f : inode → inode) (s : vfs) : vfs :=
  Vfs (alter (on_inode f) a (inodes s)) (dentries s).
Definition upd_dentry (d : Z) (f : dentry → dentry) (s : vfs) : vfs :=
  Vfs (inodes s) (alter f d (dentries s)).
Definition set_d_inode (i : option Z) (d : dentry) : dentry :=
  Dentry (d_name d) i (d_count d).
Definition add_d_count (k : Z) (d : dentry) : dentry :=
  Dentry (d_name d) (d_inode d) (d_count d + k).
Definition add_nlink (k : Z) (i : inode) : inode :=
  Inode (i_ino i) (i_mode i) (i_uid i) (i_gid i) (i_atime i) (i_mtime i) (i_ctime i)
    (i_size i) (i_nlink i + k) (i_op i) (i_fop i) (a_ops i).
Definition set_mctime (t : Z) (i : inode) : inode :=
  Inode (i_ino i) (i_mode i) (i_uid i) (i_gid i) (i_atime i) t t
    (i_size i) (i_nlink i) (i_op i) (i_fop i) (a_ops i).
Definition set_ctime (t : Z) (i : inode) : inode :=
  Inode (i_ino i) (i_mode i) (i_uid i) (i_gid i) (i_atime i) (i_mtime i) t
    (i_size i) (i_nlink i) (i_op i) (i_fop i) (a_ops i).
Definition set_size (n : Z) (i : inode) : inode :=
  Inode (i_ino i) (i_mode i) (i_uid i) (i_gid i) (i_atime i) (i_mtime i) (i_ctime i)
    n (i_nlink i) (i_op i) (i_fop i) (a_ops i).
Definition set_ops (op : inode_operations) (fop : file_operations) (i : inode) : inode :=
  Inode (i_ino i) (i_mode i) (i_uid i) (i_gid i) (i_atime i) (i_mtime i) (i_ctime i)
    (i_size i) (i_nlink i) op fop (a_ops i).

(** ** The VFS core the module calls (fs/inode.c, fs/dcache.c) *)
Class VfsCore := {
  kmalloc_inode : vfs → option (Z * example_inode_info);
  inode_init_once : inode → inode;
  (** new_inode calls the superblock's alloc_inode method, then initialises. *)
  new_inode : (vfs → option Z * vfs) → vfs → option Z * vfs;
  get_next_ino : vfs → Z;
  current_fsuid : vfs → Z;
  current_fsgid : vfs → Z;
  current_time : vfs → Z;
  inc_nlink : inode → inode;
  drop_nlink : inode → inode;
  d_add : Z → option Z → vfs → vfs;
  d_instantiate : Z → Z → vfs → vfs;
  dget : Z → vfs → vfs;
  dput : Z → vfs → vfs;
  d_make_root : Z → vfs → option Z * vfs
}.

Class VfsCoreLaws `{VfsCore} := {
  kmalloc_inode_fresh s a ei : kmalloc_inode s = Some (a, ei) → inodes s !! a = None;
  (** A failed new_inode leaves nothing behind. *)
  new_inode_None cb s s' :
    new_inode cb s = (None, s') → inodes s' = inodes s ∧ dentries s' = dentries s;
  (** A successful one is the callback's inode, with one link, size 0, and the
      private data the callback left. *)
  new_inode_Some cb s s' a :
    new_inode cb s = (Some a, s') →
    ∃ s1 ei i, cb s = (Some a, s1) ∧ inodes s1 !! a = Some ei ∧
      i_nlink i = 1 ∧ i_size i = 0 ∧
      inodes s' = <[a := ExampleInode i (data ei)]> (inodes s1) ∧
      dentries s' = dentries s1;
  inc_nlink_spec i : inc_nlink i = add_nlink 1 i;
  drop_nlink_spec i : drop_nlink i = add_nlink (-1) i;
  d_add_spec d i s : d_add d i s = upd_dentry d (set_d_inode i) s;
  d_instantiate_spec d i s : d_instantiate d i s = upd_dentry d (set_d_inode (Some i)) s;
  dget_spec d s : dget d s = upd_dentry d (add_d_count 1) s;
  dput_spec d s : dput d s = upd_dentry d (add_d_count (-1)) s;
  (** d_make_root drops the inode when it fails. *)
  d_make_root_inodes i s :
    inodes (d_make_root i s).2 =
      match (d_make_root i s).1 with
      | Some _ => inodes s
      | None => delete i (inodes s)
      end
}.

(** ** Superblock operations *)
Section operations.
Context `{VfsCore}.

(** example_alloc_inode: NULL when kmalloc fails, else the block with its data
    zeroed and its inode initialised, at the block's address. *)
Definition example_alloc_inode (s : vfs) : option Z * vfs :=
  match kmalloc_inode s with
  | None => (None, s)
  | Some (a, ei) =>
      (Some a,
       Vfs (<[a := ExampleInode (inode_init_once (vfs_inode ei)) (bfill 0 DATA_SIZE)]> (inodes s))
         (dentries s))
  end.

(** example_destroy_inode: kfree(EXAMPLE_I(inode)). *)
Definition example_destroy_inode (a : Z) (s : vfs) : vfs :=
  Vfs (delete a (inodes s)) (dentries s).

(** example_statfs fills in the buffer and returns 0; the fields it leaves
    alone are not part of [kstatfs]. *)
Definition example_statfs : Z * kstatfs :=
  (0, Kstatfs SIMPLE_MAGIC PAGE_SIZE 0 0 0 0 0 255).

(** ** Inode operations *)

(** The fields example_get_inode sets before its switch on the file type. *)
Definition init_inode (s : vfs) (mode : Z) (i : inode) : inode :=
  let now := current_time s in
  Inode (get_next_ino s) mode (current_fsuid s) (current_fsgid s) now now now
    (i_size i) (i_nlink i) (i_op i) (i_fop i) empty_aops.

Definition type_ops (mode : Z) (i : inode) : inode :=
  if Z.land mode S_IFMT =? S_IFREG then set_ops example_file_inode_ops example_file_ops i
  else if Z.land mode S_IFMT =? S_IFDIR then
    inc_nlink (set_ops example_dir_inode_ops example_dir_ops i)
  else i.

Definition example_get_inode (mode : Z) (s : vfs) : option Z * vfs :=
  match new_inode example_alloc_inode s with
  | (None, s') => (None, s')
  | (Some a, s') => (Some a, upd_inode a (λ i, type_ops mode (init_inode s' mode i)) s')
  end.

(** example_lookup; [d] is the dentry's address.  It always returns NULL, so
    only the state is modelled. *)
Definition example_lookup (d : Z) (s : vfs) : option vfs :=
  de ← dentries s !! d;
  if strcmp_eq (d_name de) (lit "testfile") then
    match example_get_inode (Z.lor S_IFREG 0x1a4) s with
    | (Some i, s') => Some (d_add d (Some i) s')
    | (None, s') => Some (d_add d None s')
    end
  else Some (d_add d None s).

(** example_create: the result code and the state. *)
Definition example_create (dir d mode : Z) (s : vfs) : Z * vfs :=
  match example_get_inode (Z.lor mode S_IFREG) s with
  | (None, s') => (- ENOSPC, s')
  | (Some i, s') =>
      let s' := dget d (d_instantiate d i s') in
      (0, upd_inode dir (set_mctime (current_time s')) s')
  end.

(** example_unlink; undefined on a negative dentry. *)
Definition example_unlink (dir d : Z) (s : vfs) : option (Z * vfs) :=
  de ← dentries s !! d;
  i ← d_inode de;
  let now := current_time s in
  let s' := upd_inode i (set_ctime now) (upd_inode dir (set_mctime now) s) in
  let s' := upd_inode i drop_nlink s' in
  Some (0, dput d s').

(** ** File operations *)

Definition example_open : Z := 0.

(** example_read on the inode at [a]: the result, the new position and the user
    memory.  [*ppos] is a loff_t: next to a size_t it converts to unsigned. *)
Definition example_read {U} `{UserAccess U} (s : vfs) (a : Z) (u : U)
    (buf count ppos : Z) : option (Z * Z * U) :=
  ei ← inodes s !! a;
  len ← strlen (data ei);
  if len <=? u64 ppos then Some (0, ppos, u)
  else
    let count := if len <? u64 (ppos + count) then u64 (len - ppos) else count in
    bs ← bread (data ei) ppos count;
    let '(nleft, u') := copy_to_user u buf bs in
    if negb (nleft =? 0) then Some (- EFAULT, ppos, u')
    else Some (s64 count, s64 (ppos + count), u').

(** example_write: the result and the state ([*ppos] is neither read nor
    changed).  A copy_from_user that fails has already changed the data. *)
Definition example_write {U} `{UserAccess U} (s : vfs) (a : Z) (u : U)
    (buf count : Z) : option (Z * vfs) :=
  ei ← inodes s !! a;
  let count := if DATA_SIZE - 1 <? count then DATA_SIZE - 1 else count in
  let '(nleft, bs) := copy_from_user u buf count in
  d ← bwrite (data ei) 0 bs;
  if negb (nleft =? 0) then
    Some (- EFAULT, Vfs (<[a := ExampleInode (vfs_inode ei) d]> (inodes s)) (dentries s))
  else
    d' ← bwrite d count [0];
    Some (s64 count,
          Vfs (<[a := ExampleInode (set_size count (vfs_inode ei)) d']> (inodes s)) (dentries s)).
End operations.

(** ** Directory listing

    [dir_emit ctx e] asks the reader's actor to take an entry; the actor sees
    what it was given so far and may refuse (its buffer is full).  dir_emit_dot
    and dir_emit_dotdot are dir_emit of the two dot entries. *)
Definition DT_REG : Z := 8.

Inductive dirent := Dot | DotDot | Entry (name : bytes) (namelen ino type : Z).

Record dir_context := DirContext { pos : Z; emitted : list dirent }.

Section readdir.
Context (actor : list dirent → dirent → bool).

Definition dir_emit (ctx : dir_context) (e : dirent) : bool * dir_context :=
  if actor (emitted ctx) e then (true, DirContext (pos ctx) (emitted ctx ++ [e]))
  else (false, ctx).

Definition set_pos (p : Z) (ctx : dir_context) : dir_context :=
  DirContext p (emitted ctx).

(** One "if (ctx->pos == k) { if (!emit) return 0; ctx->pos = k + 1; }", then
    the rest of the function. *)
Definition readdir_stage (k : Z) (e : dirent) (rest : dir_context → dir_context)
    (ctx : dir_context) : dir_context :=
  if pos ctx =? k then
    let '(ok, ctx') := dir_emit ctx e in
    if ok then rest (set_pos (k + 1) ctx') else ctx'
  else rest ctx.

(** example_readdir; every path returns 0. *)
Definition example_readdir (ctx : dir_context) : dir_context :=
  readdir_stage 0 Dot
    (readdir_stage 1 DotDot
      (readdir_stage 2 (Entry (chars "testfile") 8 1000 DT_REG) (λ c, c))) ctx.
End readdir.

(** ** Mounting *)
Section mount.
Context `{VfsCore}.

(** example_fill_super: the result, the superblock and the state. *)
Definition example_fill_super (sb : super_block) (s : vfs) : Z * super_block * vfs :=
  let sb := SuperBlock PAGE_SIZE PAGE_SHIFT SIMPLE_MAGIC example_super_ops 1 (s_root sb) in
  match example_get_inode (Z.lor S_IFDIR 0x1ed) s with
  | (None, s') => (- ENOMEM, sb, s')
  | (Some root, s') =>
      let '(r, s'') := d_make_root root s' in
      let sb := SuperBlock (s_blocksize sb) (s_blocksize_bits sb) (s_magic sb)
                  (s_op sb) (s_time_gran sb) r in
      match r with
      | None => (- ENOMEM, sb, s'')
      | Some _ => (0, sb, s'')
      end
  end.
End mount.

(** Module init and exit: registering the filesystem type. *)
Inductive vfs_call := RegisterFilesystem | UnregisterFilesystem.
Inductive vfs_resource := FilesystemType.
#[export] Instance vfs_resource_eq : EqDecision vfs_resource.
Proof. solve_decision. Defined.

Definition vfs_acq (c : vfs_call) (r : Z) : option vfs_resource :=
  match c with RegisterFilesystem => if r =? 0 then Some FilesystemType else None | _ => None end.
Definition vfs_rel (c : vfs_call) : option vfs_resource :=
  match c with UnregisterFilesystem => Some FilesystemType | _ => None end.

Definition example_vfs_init : K vfs_call unit Z := kcall RegisterFilesystem.
Definition example_vfs_exit : K vfs_call unit unit := (kcall UnregisterFilesystem ;;k kret tt)%kern.

(** Init returns what registering answered; the type is registered exactly when
    that is 0, and exit unregisters it. *)
Lemma example_vfs_init_exit (e : env vfs_call) :
  let '(ret, w) := example_vfs_init e (KWorld tt []) in
  let '(_, w') := example_vfs_exit e w in
  held_run vfs_acq vfs_rel [] (ktr w) = Some (if ret =? 0 then [FilesystemType] else []) ∧
  (ret = 0 → held_run vfs_acq vfs_rel [] (ktr w') = Some []).
Proof.
  unfold example_vfs_init. repeat kstep; unfold example_vfs_exit; repeat kstep. unfold vfs_acq, vfs_rel.
  split; [simpl; by destruct (_ =? 0)|]. intros ->. reflexivity.
Qed.

(** ** A reference VFS core *)

Definition zero_inode : inode :=
  Inode 0 0 0 0 0 0 0 0 1 default_iops default_fops default_aops.

Definition ref_fresh (s : vfs) : Z := fresh ({[0]} ∪ dom (inodes s) : gset Z).

Definition ref_core : VfsCore := {|
  kmalloc_inode s := Some (ref_fresh s, ExampleInode zero_inode (bfill 0xCC DATA_SIZE));
  inode_init_once _ := zero_inode;
  new_inode cb s :=
    match cb s with
    | (None, _) => (None, s)
    | (Some a, s1) =>
        match inodes s1 !! a with
        | Some ei => (Some a, Vfs (<[a := ExampleInode zero_inode (data ei)]> (inodes s1)) (dentries s1))
        | None => (None, s)
        end
    end;
  get_next_ino s := Z.of_nat (size (inodes s));
  current_fsuid _ := 0;
  current_fsgid _ := 0;
  current_time _ := 0;
  inc_nlink := add_nlink 1;
  drop_nlink := add_nlink (-1);
  d_add d i := upd_dentry d (set_d_inode i);
  d_instantiate d i := upd_dentry d (set_d_inode (Some i));
  dget d := upd_dentry d (add_d_count 1);
  dput d := upd_dentry d (add_d_count (-1));
  d_make_root i s := (Some 1, s)
|}.

(** ** Specification: a file is a string of at most 63 characters *)

Definition contents (ei : example_inode_info) : bytes := c_str (data ei).

(** The invariant of an inode's data: 64 bytes, the last one NUL. *)
Definition data_ok (ei : example_inode_info) : Prop :=
  blen (data ei) = DATA_SIZE ∧ data ei !! 63%nat = Some 0.

Definition vfs_ok (s : vfs) : Prop := map_Forall (λ _, data_ok) (inodes s).

(** The steps of a mounted filesystem: its methods, and whatever the dentry
    cache does without touching an inode. *)
Inductive vfs_step `{VfsCore} {U} `{UserAccess U} : vfs → vfs → Prop :=
| step_lookup d s s' : example_lookup d s = Some s' → vfs_step s s'
| step_create dir d mode s : vfs_step s (example_create dir d mode s).2
| step_unlink dir d s r s' : example_unlink dir d s = Some (r, s') → vfs_step s s'
| step_write a u buf count r s s' :
    0 <= count → example_write s a u buf count = Some (r, s') → vfs_step s s'
| step_destroy a s : vfs_step s (example_destroy_inode a s)
| step_fill_super sb s : vfs_step s (example_fill_super sb s).2
| step_dcache s s' : inodes s' = inodes s → vfs_step s s'.

(** A client that reads [chunk] bytes at a time until end of file, as cat does;
    [got] collects what it received at its buffer [buf]. *)
Fixpoint read_to_eof {U} `{UserAccess U} (fuel : nat) (s : vfs) (a : Z) (u : U)
    (buf chunk ppos : Z) (got : bytes) : option (Z * bytes) :=
  match fuel with
  | O => None
  | S fuel' =>
      '(r, ppos', u') ← example_read s a u buf chunk ppos;
      if r <=? 0 then Some (r, got)
      else read_to_eof fuel' s a u' buf chunk ppos' (got ++ uload u' buf r)
  end.

(** *** Facts about the reference core *)

#[export] Instance ref_core_laws : @VfsCoreLaws ref_core.
Proof.
  split; simpl; try done.
  - intros s a ei [= <- <-]. apply not_elem_of_dom. pose proof (is_fresh ({[0]} ∪ dom (inodes s) : gset Z)). set_solver.
  - intros cb s s'. destruct (cb s) as [[a|] s1]; [|by intros [= <-]].
    destruct (inodes s1 !! a); [done|by intros [= <-]].
  - intros cb s s' a. destruct (cb s) as [[a'|] s1]; [|done].
    destruct (inodes s1 !! a') as [ei|] eqn:E; [|done].
    intros [= <- <-]. by exists s1, ei, zero_inode.
Qed.

(** *** The data invariant *)

Lemma data_ok_fill i : data_ok (ExampleInode i (bfill 0 DATA_SIZE)).
Proof. split; reflexivity. Qed.

Lemma data_ok_inode i j d : data_ok (ExampleInode i d) → data_ok (ExampleInode j d).
Proof. done. Qed.

Lemma data_ok_strlen ei :
  data_ok ei → strlen (data ei) = Some (blen (contents ei)) ∧ 0 <= blen (contents ei) <= 63.
Proof.
  intros [Hl H0]. destruct (strlen_is_Some (data ei)) as [n Hn].
  { by eapply list_elem_of_lookup_2. }
  rewrite Hn. rewrite (strlen_c_str _ _ Hn). split; [done|].
  split; [apply blen_nonneg|]. apply (c_str_lt_nul _ _ H0).
Qed.

(** A store into the first 63 bytes, or of a NUL, keeps the invariant. *)
Lemma data_ok_write i j d off src d' :
  data_ok (ExampleInode i d) → bwrite d off src = Some d' →
  off + blen src <= 63 ∨ src = [0] → data_ok (ExampleInode j d').
Proof.
  intros [Hl H0] Hw Hs. simpl in *. split; simpl.
  { by rewrite (bwrite_length _ _ _ _ Hw). }
  destruct (decide (off = 63 ∧ src = [0])) as [[-> ->]|Hne].
  - apply bwrite_bread_same in Hw. apply bread_inv in Hw as (_ & _ & _ & Hw).
    apply (f_equal (.!! 0%nat)) in Hw. symmetry in Hw.
    rewrite lookup_take_lt, lookup_drop in Hw by (unfold blen; simpl; lia). done.
  - rewrite (bwrite_lookup_ne _ _ _ _ _ Hw); [done|].
    apply bwrite_inv in Hw as (? & ? & _). rewrite Hl in *. unfold DATA_SIZE in *.
    destruct Hs as [Hs| ->]; [lia|]. change (blen [0]) with 1 in *.
    assert (off ≠ 63) by naive_solver. lia.
Qed.

Lemma vfs_ok_lookup s a ei : vfs_ok s → inodes s !! a = Some ei → data_ok ei.
Proof. intros Hok Ha. by apply (Hok a). Qed.

Lemma vfs_ok_insert s a ei ds :
  vfs_ok s → data_ok ei → vfs_ok (Vfs (<[a := ei]> (inodes s)) ds).
Proof. intros Hok Hei. by apply map_Forall_insert_2. Qed.

Lemma vfs_ok_upd_inode a f s : vfs_ok s → vfs_ok (upd_inode a f s).
Proof.
  intros Hok b ei. simpl. rewrite lookup_alter. case_decide as Hab.
  - intros (ei' & Hb & ->)%fmap_Some_1. destruct ei'. exact (Hok _ _ Hb).
  - apply Hok.
Qed.

Lemma vfs_ok_upd_dentry d f s : vfs_ok s → vfs_ok (upd_dentry d f s).
Proof. done. Qed.

Lemma vfs_ok_same_inodes s s' : inodes s' = inodes s → vfs_ok s → vfs_ok s'.
Proof. unfold vfs_ok. by intros ->. Qed.

#[export] Hint Resolve data_ok_fill vfs_ok_insert vfs_ok_upd_inode vfs_ok_upd_dentry : kern.

Lemma write_ok {U} `{UserAccess U} s a u buf count r s' :
  (∀ u a n, 0 <= n → blen (copy_from_user u a n).2 = n) →
  0 <= count → vfs_ok s → example_write s a u buf count = Some (r, s') → vfs_ok s'.
Proof.
  intros Hlen Hc Hok. unfold example_write.
  destruct (inodes s !! a) as [ei|] eqn:Ha; simpl; [|done].
  pose proof (vfs_ok_lookup _ _ _ Hok Ha) as Hei. destruct ei as [i d]. simpl.
  set (n := if DATA_SIZE - 1 <? count then _ else _).
  assert (0 <= n <= 63) as Hn.
  { unfold n, DATA_SIZE. destruct (Z.ltb_spec (64 - 1) count); lia. }
  specialize (Hlen u buf n). destruct (copy_from_user u buf n) as [nl bs]. simpl in Hlen.
  destruct (bwrite d 0 bs) as [d1|] eqn:Hd1; simpl; [|done].
  assert (data_ok (ExampleInode i d1)) as Hok1.
  { eapply data_ok_write; [done..|]. left. rewrite Hlen; lia. }
  destruct (negb (nl =? 0)); [intros [= <- <-]; by apply vfs_ok_insert|].
  destruct (bwrite d1 n [0]) as [d2|] eqn:Hd2; simpl; [|done].
  intros [= <- <-]. apply vfs_ok_insert; [done|].
  eapply data_ok_write; [done..|]. by right.
Qed.

Lemma get_inode_cases `{VfsCoreLaws} mode s r s' :
  example_get_inode mode s = (r, s') →
  match r with
  | None => inodes s' = inodes s ∧ dentries s' = dentries s
  | Some a =>
      inodes s !! a = None ∧ dentries s' = dentries s ∧
      ∃ s1 i, i_nlink i = 1 ∧ i_size i = 0 ∧
        inodes s' = <[a := ExampleInode (type_ops mode (init_inode s1 mode i))
                             (bfill 0 DATA_SIZE)]> (inodes s)
  end.
Proof.
  unfold example_get_inode. destruct (new_inode _ s) as [[a|] s1] eqn:Hn.
  - intros [= <- <-].
    apply new_inode_Some in Hn as (s2 & ei & i & Hcb & Ha & Hlink & Hsize & Hi & Hd).
    unfold example_alloc_inode in Hcb.
    destruct (kmalloc_inode s) as [[a' ei']|] eqn:Hk; [|done].
    injection Hcb as -> <-. apply kmalloc_inode_fresh in Hk.
    simpl in *. rewrite lookup_insert_eq in Ha. injection Ha as <-.
    split_and!; [done..|]. exists s1, i. split_and!; [done..|].
    simpl in Hi. rewrite Hi, insert_insert_eq, alter_insert_eq. done.
  - intros [= <- <-]. by apply new_inode_None in Hn.
Qed.

Lemma get_inode_ok `{VfsCoreLaws} mode s : vfs_ok s → vfs_ok (example_get_inode mode s).2.
Proof.
  intros Hok. destruct (example_get_inode mode s) as [[a|] s'] eqn:Hg;
    apply get_inode_cases in Hg; simpl.
  - destruct Hg as (_ & _ & s1 & i & _ & _ & Hi).
    eapply (vfs_ok_same_inodes (Vfs _ (dentries s))); [exact Hi|].
    apply vfs_ok_insert; [done|apply data_ok_fill].
  - eapply vfs_ok_same_inodes; [apply Hg|done].
Qed.

Lemma vfs_step_ok `{VfsCoreLaws} {U} `{UserAccessLaws U} s s' :
  vfs_step (U := U) s s' → vfs_ok s → vfs_ok s'.
Proof.
  intros Hstep Hok. destruct Hstep.
  - unfold example_lookup in *. destruct (dentries s !! d); simplify_eq/=.
    destruct (strcmp_eq _ _); simplify_eq; rewrite ?d_add_spec; [|done].
    pose proof (get_inode_ok (Z.lor S_IFREG 0x1a4) s Hok) as Hg.
    destruct (example_get_inode _ s) as [[i|] s1]; simplify_eq; by rewrite d_add_spec.
  - unfold example_create.
    pose proof (get_inode_ok (Z.lor mode S_IFREG) s Hok) as Hg.
    destruct (example_get_inode _ s) as [[i|] s1]; simpl in *; [|done].
    rewrite dget_spec, d_instantiate_spec. by apply vfs_ok_upd_inode.
  - unfold example_unlink in *. destruct (dentries s !! d) as [de|]; simplify_eq/=.
    destruct (d_inode de); simplify_eq/=. rewrite dput_spec. auto with kern.
  - eapply write_ok; [|done..]. intros. by apply copy_from_user_length.
  - by apply map_Forall_delete.
  - unfold example_fill_super.
    pose proof (get_inode_ok (Z.lor S_IFDIR 0x1ed) s Hok) as Hg.
    destruct (example_get_inode _ s) as [[i|] s1]; simpl in *; [|done].
    pose proof (d_make_root_inodes i s1) as Hr.
    destruct (d_make_root i s1) as [[r|] s2]; simpl in *;
      eapply (vfs_ok_same_inodes (Vfs _ (dentries s2)) s2 Hr); [done|by apply map_Forall_delete].
  - by eapply vfs_ok_same_inodes.
Qed.

(** ** Properties *)

(** C1: on every filesystem reached by the methods of the module from an empty
    one, whatever the kernel answers, the data of every inode is 64 bytes long
    and ends in a NUL, so strlen never runs off the end of it. *)
Theorem vfs_reachable_ok `{VfsCoreLaws} {U} `{UserAccessLaws U} ds s :
  rtc (vfs_step (U := U)) (Vfs ∅ ds) s →
  ∀ a ei, inodes s !! a = Some ei →
    blen (data ei) = DATA_SIZE ∧ data ei !! 63%nat = Some 0 ∧
    ∃ n, strlen (data ei) = Some n ∧ 0 <= n <= 63.
Proof.
  intros Hsteps. assert (vfs_ok s) as Hok.
  { assert (vfs_ok (Vfs ∅ ds)) as Hinit by apply map_Forall_empty.
    revert Hinit. induction Hsteps; eauto using vfs_step_ok. }
  intros a ei Ha. pose proof (vfs_ok_lookup _ _ _ Hok Ha) as Hei.
  destruct (data_ok_strlen _ Hei) as [Hs Hb]. destruct Hei. eauto.
Qed.

(** What a read is specified to do: the bytes of the file's string from the
    position on, at most [count] of them, and 0 at or past its end. *)
Definition read_spec {U} `{UserAccess U} (c : bytes) (u : U) (buf count ppos : Z) : Z * Z * U :=
  if blen c <=? ppos then (0, ppos, u)
  else
    let bs := take (Z.to_nat count) (drop (Z.to_nat ppos) c) in
    let '(nleft, u') := copy_to_user u buf bs in
    if negb (nleft =? 0) then (- EFAULT, ppos, u') else (blen bs, ppos + blen bs, u').

Lemma bread_contents ei ppos n :
  0 <= ppos → 0 <= n → ppos + n <= blen (contents ei) →
  bread (data ei) ppos n = Some (take (Z.to_nat n) (drop (Z.to_nat ppos) (contents ei))).
Proof.
  intros ? ? Hle. pose proof (c_str_le (data ei)).
  unfold contents in *. rewrite bread_Some by lia. f_equal.
  rewrite (c_str_take (data ei)), !take_drop_commute, take_take.
  by rewrite Nat.min_l by (unfold blen in *; lia).
Qed.

Lemma example_read_spec {U} `{UserAccess U} s a ei u buf count ppos :
  vfs_ok s → inodes s !! a = Some ei →
  0 <= ppos < 2^63 → 0 <= count <= MAX_RW_COUNT →
  example_read s a u buf count ppos = Some (read_spec (contents ei) u buf count ppos).
Proof.
  intros Hok Ha Hp Hc. unfold example_read, read_spec. rewrite Ha. simpl.
  destruct (data_ok_strlen ei) as [Hs Hb]; [by eapply vfs_ok_lookup|].
  rewrite Hs. simpl. rewrite (u64_small ppos) by wrap_lia.
  destruct (Z.leb_spec (blen (contents ei)) ppos); [done|].
  rewrite (u64_small (ppos + count)), (u64_small (_ - ppos)) by wrap_lia.
  set (c := contents ei) in *.
  assert (∀ n, n = Z.min count (blen c - ppos) →
    take (Z.to_nat n) (drop (Z.to_nat ppos) c) = take (Z.to_nat count) (drop (Z.to_nat ppos) c)
    ∧ blen (take (Z.to_nat count) (drop (Z.to_nat ppos) c)) = n) as Hmin.
  { intros n ->. unfold blen in *. rewrite length_take, length_drop. split; [|lia].
    destruct (Z.le_ge_cases count (Z.of_nat (length c) - ppos)).
    - by rewrite Z.min_l by lia.
    - rewrite !take_ge by (rewrite length_drop; lia). done. }
  set (n := if blen c <? ppos + count then _ else _).
  assert (n = Z.min count (blen c - ppos)) as Hn.
  { unfold n. destruct (Z.ltb_spec (blen c) (ppos + count)); lia. }
  destruct (Hmin n Hn) as [Ht Hl].
  rewrite bread_contents by (unfold c in *; lia). fold c. simpl. rewrite Ht, Hl.
  destruct (copy_to_user _ _ _) as [nl u']. destruct (negb _); [done|].
  rewrite !s64_small by (unfold is_s64; lia). done.
Qed.

(** C23: example_read refines its specification.  For any count the VFS may pass
    and any non-negative position it copies exactly the bytes of the string from
    the position on, never touches a byte outside the inode's data, returns the
    number of bytes copied and advances the position by it, returns 0 at or past
    the end, and -EFAULT, with the position unchanged, when the copy fails. *)
Theorem example_read_refines {U} `{UserAccess U} s a ei u buf count ppos :
  vfs_ok s → inodes s !! a = Some ei →
  0 <= ppos < 2^63 → 0 <= count <= MAX_RW_COUNT →
  example_read s a u buf count ppos = Some (read_spec (contents ei) u buf count ppos).
Proof. apply example_read_spec. Qed.

Definition demo_ei (c : bytes) : example_inode_info :=
  ExampleInode zero_inode (resize 64 0 c).
Definition demo_vfs (c : bytes) : vfs := Vfs {[5 := demo_ei c]} ∅.
Definition demo_user : flat_user := FlatUser 1000 (bfill 0 32).

Lemma demo_vfs_ok c : blen c <= 63 → vfs_ok (demo_vfs c).
Proof.
  intros Hc. apply map_Forall_singleton. unfold blen in Hc. split; simpl.
  - unfold blen. by rewrite length_resize.
  - rewrite lookup_resize_new by lia. done.
Qed.

Lemma example_read_refines_witness :
  vfs_ok (demo_vfs (chars "hello")) ∧
  example_read (demo_vfs (chars "hello")) 5 demo_user 1000 3 1
    = Some (read_spec (contents (demo_ei (chars "hello"))) demo_user 1000 3 1).
Proof.
  split; [apply demo_vfs_ok; vm_compute; discriminate|].
  apply (example_read_refines (demo_vfs (chars "hello")) 5 (demo_ei (chars "hello")));
    [apply demo_vfs_ok; vm_compute; discriminate|reflexivity|lia|unfold MAX_RW_COUNT; lia].
Defined.

Lemma vfs_reachable_ok_witness :
  ∃ s, rtc (@vfs_step ref_core flat_user _) (Vfs ∅ {[3 := Dentry (lit "testfile") None 1]}) s ∧
    ∃ n, strlen (bfill 0 DATA_SIZE) = Some n ∧ 0 <= n <= 63.
Proof.
  set (s0 := Vfs ∅ {[3 := Dentry (lit "testfile") None 1]}).
  destruct (@example_lookup ref_core 3 s0) as [s|] eqn:E; [|vm_compute in E; discriminate].
  exists s. assert (rtc (@vfs_step ref_core flat_user _) s0 s) as Hr.
  { eapply rtc_l; [by eapply (@step_lookup ref_core)|apply rtc_refl]. }
  split; [exact Hr|].
  destruct (@example_get_inode ref_core (Z.lor S_IFREG 0x1a4) s0) as [[a|] s1] eqn:G;
    [|vm_compute in G; discriminate].
  destruct (inodes s !! a) as [ei|] eqn:Ha.
  - destruct (@vfs_reachable_ok ref_core _ flat_user _ _ _ s Hr a ei Ha) as (_ & _ & n & Hn & Hb).
    exists n. split; [|exact Hb]. rewrite <-Hn.
    vm_compute in E, G. injection E as <-. injection G as <- _. vm_compute in Ha.
    injection Ha as <-. reflexivity.
  - exfalso. vm_compute in E, G. injection E as <-. injection G as <- _.
    vm_compute in Ha. discriminate.
Defined.

(** *** Writing *)

Lemma example_write_spec {U} `{UserAccessLaws U} s a ei u buf count :
  vfs_ok s → inodes s !! a = Some ei → 0 <= count →
  let n := Z.min count 63 in
  let '(nleft, bs) := copy_from_user u buf n in
  ∃ d, blen bs = n ∧
    example_write s a u buf count =
      Some (if negb (nleft =? 0)
            then (- EFAULT, Vfs (<[a := ExampleInode (vfs_inode ei) d]> (inodes s)) (dentries s))
            else (n, Vfs (<[a := ExampleInode (set_size n (vfs_inode ei)) d]> (inodes s)) (dentries s))) ∧
    (nleft = 0 → c_str d = c_str bs).
Proof.
  intros Hok Ha Hc n. destruct (copy_from_user u buf n) as [nleft bs] eqn:Hcp.
  assert (blen bs = n) as Hbs.
  { pose proof (copy_from_user_length u buf n) as Hl. rewrite Hcp in Hl. apply Hl. lia. }
  destruct (vfs_ok_lookup _ _ _ Hok Ha) as [Hlen _]. unfold DATA_SIZE in Hlen.
  assert ((if DATA_SIZE - 1 <? count then DATA_SIZE - 1 else count) = n) as Hn.
  { unfold DATA_SIZE, n. destruct (Z.ltb_spec (64 - 1) count); lia. }
  unfold example_write. rewrite Ha. simpl. rewrite Hn, Hcp.
  destruct (bwrite (data ei) 0 bs) as [d1|] eqn:Hd1; simpl; cycle 1.
  { apply eq_None_not_Some in Hd1. destruct Hd1. apply bwrite_is_Some. lia. }
  destruct (Z.eqb_spec nleft 0) as [->|Hne]; simpl; [|by exists d1].
  destruct (bwrite d1 n [0]) as [d2|] eqn:Hd2; simpl; cycle 1.
  { apply eq_None_not_Some in Hd2. destruct Hd2. apply bwrite_is_Some.
    rewrite (bwrite_length _ _ _ _ Hd1). change (blen [0]) with 1. lia. }
  exists d2. rewrite s64_small by (unfold is_s64; lia). split_and!; [done..|].
  intros _. apply bwrite_inv in Hd2 as (_ & _ & ->).
  apply bwrite_inv in Hd1 as (_ & _ & ->). simpl.
  rewrite take_app_exact by (unfold blen in *; lia).
  by rewrite c_str_app_nul_c_str.
Qed.

(** Example_write stores the user's first 63 bytes at the start of the file,
    NUL-terminates them and sets the size, whatever the current position is; it
    returns the number of bytes it took.  When the copy fails it returns -EFAULT
    and the size is unchanged.  No other inode and no dentry changes. *)
Theorem example_write_correct {U} `{UserAccessLaws U} s a ei u buf count :
  vfs_ok s → inodes s !! a = Some ei → 0 <= count →
  ∃ r s' ei', example_write s a u buf count = Some (r, s') ∧
    inodes s' = <[a := ei']> (inodes s) ∧ dentries s' = dentries s ∧
    ((copy_from_user u buf (Z.min count 63)).1 = 0 →
       r = Z.min count 63 ∧ contents ei' = c_str (uload u buf (Z.min count 63)) ∧
       vfs_inode ei' = set_size (Z.min count 63) (vfs_inode ei)) ∧
    ((copy_from_user u buf (Z.min count 63)).1 ≠ 0 →
       r = - EFAULT ∧ vfs_inode ei' = vfs_inode ei).
Proof.
  intros Hok Ha Hc. pose proof (example_write_spec s a ei u buf count Hok Ha Hc) as Hw.
  pose proof (copy_from_user_ok u buf (Z.min count 63) ltac:(lia)) as Hcp. simpl in Hw.
  destruct (copy_from_user u buf _) as [nleft bs]. simpl in *.
  destruct Hw as (d & Hbs & Hw & Hd).
  destruct (Z.eqb_spec nleft 0) as [->|Hne]; simpl in Hw;
    eexists _, _, _; split_and!; [exact Hw|done|done|..]; try done.
  intros _. split_and!; [done| |done]. unfold contents. simpl. by rewrite Hd, Hcp.
Qed.

Lemma example_write_correct_witness :
  ∃ r s' ei', example_write (demo_vfs []) 5 (FlatUser 1000 (chars "hi there")) 1000 2
      = Some (r, s') ∧ inodes s' = <[5 := ei']> (inodes (demo_vfs [])) ∧ r = 2 ∧
      contents ei' = chars "hi".
Proof.
  destruct (example_write_correct (demo_vfs []) 5 (demo_ei []) (FlatUser 1000 (chars "hi there"))
    1000 2) as (r & s' & ei' & Hw & Hi & _ & Hok & _);
    [apply demo_vfs_ok; vm_compute; discriminate|reflexivity|lia|].
  destruct (Hok eq_refl) as (-> & Hc & _).
  exists 2, s', ei'. split_and!; [exact Hw|exact Hi|reflexivity|exact Hc].
Defined.

(** C25: a string written to a file is read back: after a write of [count] bytes
    that succeeds, a read from position 0 that succeeds hands the reader exactly
    the string the user's first 63 bytes hold. *)
Theorem write_then_read {U} `{UserAccessLaws U} s s' a ei u u' v buf count buf' n r ppos' :
  vfs_ok s → inodes s !! a = Some ei → 0 <= count → 63 <= n <= MAX_RW_COUNT →
  example_write s a u buf count = Some (Z.min count 63, s') →
  example_read s' a v buf' n 0 = Some (r, ppos', u') → 0 <= r →
  uload u' buf' r = c_str (uload u buf (Z.min count 63)) ∧
  r = blen (c_str (uload u buf (Z.min count 63))) ∧ ppos' = r.
Proof.
  intros Hok Ha Hc Hn Hw Hr Hpos.
  assert (vfs_ok s') as Hok'.
  { eapply write_ok; [|exact Hc|exact Hok|exact Hw]. intros. by apply copy_from_user_length. }
  pose proof (example_write_spec s a ei u buf count Hok Ha Hc) as Hs.
  pose proof (copy_from_user_ok u buf (Z.min count 63) ltac:(lia)) as Hcp. simpl in Hs.
  destruct (copy_from_user u buf _) as [nleft bs]. simpl in *.
  destruct Hs as (d & Hbs & Hs & Hd). rewrite Hs in Hw.
  destruct (Z.eqb_spec nleft 0) as [->|?]; simpl in Hw; injection Hw as Hw;
    [|unfold EFAULT in Hw; lia].
  rewrite <-Hcp, <-Hd by done. subst s'.
  erewrite example_read_spec in Hr by (done || lia || apply lookup_insert_eq).
  unfold read_spec in Hr. unfold contents in Hr. simpl in Hr.
  destruct (Z.leb_spec (blen (c_str d)) 0) as [Hz|Hz].
  { injection Hr as <- <- <-. pose proof (blen_nonneg (c_str d)).
    assert (c_str d = []) as -> by (apply length_zero_iff_nil; unfold blen in *; lia).
    split_and!; [|done|done].
    apply length_zero_iff_nil. pose proof (uload_length v buf' 0). unfold blen in *. lia. }
  assert (blen (c_str d) <= 63) as Hle.
  { destruct (data_ok_strlen (ExampleInode (set_size (Z.min count 63) (vfs_inode ei)) d))
      as [_ Hb]; [|apply Hb]. eapply vfs_ok_lookup; [exact Hok'|]. apply lookup_insert_eq. }
  rewrite drop_0, take_ge in Hr by (unfold blen in *; lia).
  pose proof (copy_to_user_ok v buf' (c_str d)) as Hto.
  destruct (copy_to_user v buf' (c_str d)) as [l2 u2]. simpl in Hto.
  destruct (Z.eqb_spec l2 0) as [->|?]; simpl in Hr; injection Hr as <- <- <-;
    [|unfold EFAULT in Hpos; lia].
  split_and!; [by apply Hto|done|lia].
Qed.

Lemma write_then_read_witness :
  ∃ s' u', example_write (demo_vfs []) 5 (FlatUser 1000 (chars "hi there")) 1000 8 = Some (8, s') ∧
    example_read s' 5 (FlatUser 1000 (bfill 0 80)) 1000 63 0 = Some (8, 8, u') ∧
    uload u' 1000 8 = chars "hi there".
Proof.
  destruct (example_write (demo_vfs []) 5 (FlatUser 1000 (chars "hi there")) 1000 8)
    as [[r s']|] eqn:Hw; [|vm_compute in Hw; discriminate].
  assert (r = 8) as -> by (vm_compute in Hw; by injection Hw as <- _).
  destruct (example_read s' 5 (FlatUser 1000 (bfill 0 80)) 1000 63 0) as [[[r p] u']|] eqn:Hr;
    [|vm_compute in Hw; injection Hw as <-; vm_compute in Hr; discriminate].
  assert (r = 8 ∧ p = 8) as [-> ->].
  { vm_compute in Hw. injection Hw as <-. vm_compute in Hr. by injection Hr as <- <- _. }
  exists s', u'. split_and!; [reflexivity|exact Hr|].
  destruct (write_then_read (demo_vfs []) s' 5 (demo_ei []) (FlatUser 1000 (chars "hi there")) u'
    (FlatUser 1000 (bfill 0 80)) 1000 8 1000 63 8 8) as [Hl _];
    [apply demo_vfs_ok; vm_compute; discriminate|reflexivity|lia|unfold MAX_RW_COUNT; lia|exact Hw|exact Hr|lia|].
  exact Hl.
Defined.

(** *** Reading to the end *)

Lemma read_to_eof_from {U} `{UserAccessLaws U} fuel s a ei u buf chunk ppos got :
  vfs_ok s → inodes s !! a = Some ei → 0 < chunk <= MAX_RW_COUNT →
  (∀ u bs, blen bs <= chunk → (copy_to_user u buf bs).1 = 0) →
  0 <= ppos <= blen (contents ei) → blen (contents ei) - ppos < Z.of_nat fuel →
  read_to_eof fuel s a u buf chunk ppos got
    = Some (0, got ++ drop (Z.to_nat ppos) (contents ei)).
Proof.
  intros Hok Ha Hch Hmap.
  assert (blen (contents ei) <= 63) as Hle by (eapply data_ok_strlen, vfs_ok_lookup; done).
  revert u ppos got. induction fuel as [|fuel IH]; intros u ppos got Hp Hf; [lia|].
  simpl. rewrite (example_read_spec _ _ ei) by (done || lia). unfold read_spec. simpl.
  destruct (Z.leb_spec (blen (contents ei)) ppos); simpl.
  { rewrite drop_ge by (unfold blen in *; lia). by rewrite app_nil_r. }
  set (c := contents ei) in *. set (bs := take (Z.to_nat chunk) (drop (Z.to_nat ppos) c)).
  assert (0 < blen bs <= chunk ∧ ppos + blen bs <= blen c) as [Hbs Hend].
  { unfold bs, blen in *. rewrite length_take, length_drop. lia. }
  pose proof (Hmap u bs ltac:(lia)) as Hcp. pose proof (copy_to_user_ok u buf bs Hcp) as Hld.
  destruct (copy_to_user u buf bs) as [nl u']. simpl in *. subst nl. simpl.
  rewrite (proj2 (Z.leb_gt (blen bs) 0)) by lia. rewrite Hld, IH by lia.
  rewrite <-app_assoc. do 3 f_equal.
  rewrite <-(take_drop (Z.to_nat chunk) (drop (Z.to_nat ppos) c)). fold bs. f_equal.
  rewrite drop_drop. destruct (Z.le_gt_cases (ppos + chunk) (blen c)).
  - f_equal. unfold bs, blen in *. rewrite length_take, length_drop. lia.
  - rewrite !drop_ge; [done|unfold blen in *; lia|].
    unfold bs, blen in *. rewrite length_take, length_drop. lia.
Qed.

(** C26: reading a file in chunks of any positive size, as cat does, terminates,
    within one call more than the file has bytes, ends with 0, and delivers
    exactly the file's string, when the reader's buffer is mapped. *)
Theorem read_to_eof_complete {U} `{UserAccessLaws U} s a ei u buf chunk :
  vfs_ok s → inodes s !! a = Some ei → 0 < chunk <= MAX_RW_COUNT →
  (∀ u bs, blen bs <= chunk → (copy_to_user u buf bs).1 = 0) →
  read_to_eof (S (length (contents ei))) s a u buf chunk 0 [] = Some (0, contents ei).
Proof.
  intros. rewrite (read_to_eof_from _ _ _ ei); try done.
  - split; [lia|apply blen_nonneg].
  - unfold blen. lia.
Qed.

(** A user memory that is mapped everywhere: [uload] sees the last bytes
    copied to an address. *)
Definition total_user : Type := list (Z * bytes).
Fixpoint total_load (u : total_user) (a n : Z) : bytes :=
  match u with
  | [] => bfill 0 n
  | (a', bs) :: u' =>
      if bool_decide (a' = a ∧ blen bs = n) then bs else total_load u' a n
  end.
Definition total_user_access : UserAccess total_user := {|
  uload := total_load;
  copy_from_user u a n := (0, total_load u a n);
  copy_to_user u a bs := (0, (a, bs) :: u)
|}.
Lemma total_load_length u a n : 0 <= n → blen (total_load u a n) = n.
Proof.
  intros. induction u as [|[a' bs] u IH]; simpl; [by apply blen_bfill|].
  case_bool_decide as Hc; [apply Hc|done].
Qed.
Lemma total_user_laws : @UserAccessLaws total_user total_user_access.
Proof.
  split; simpl; intros; auto using total_load_length.
  by rewrite bool_decide_eq_true_2.
Qed.

Lemma read_to_eof_complete_witness :
  @read_to_eof total_user total_user_access 6 (demo_vfs (chars "hello")) 5 [] 1000 2 0 []
    = Some (0, chars "hello").
Proof.
  apply (@read_to_eof_complete total_user total_user_access total_user_laws
    (demo_vfs (chars "hello")) 5 (demo_ei (chars "hello")) [] 1000 2);
    [apply demo_vfs_ok; vm_compute; discriminate|reflexivity|unfold MAX_RW_COUNT; lia|reflexivity].
Defined.

(** The count the reader passes is not otherwise bounded.  With a count near
    2^64 the sum of position and count wraps, the clamp to the end of the string
    is skipped, and the copy runs past the 64-byte array (here undefined); only
    the VFS's own limit on counts, MAX_RW_COUNT, rules this out. *)
Theorem example_read_count_wraps :
  example_read (demo_vfs (chars "hello")) 5 demo_user 1000 (2^64 - 1) 1 = None ∧
  is_Some (example_read (demo_vfs (chars "hello")) 5 demo_user 1000 MAX_RW_COUNT 1).
Proof. split; [reflexivity|eexists; reflexivity]. Qed.

(** *** Names, creation and mounting *)

Lemma type_ops_regular `{VfsCore} mode i :
  Z.land mode S_IFMT = S_IFREG →
  type_ops mode i = set_ops example_file_inode_ops example_file_ops i.
Proof. intros Hm. unfold type_ops. by rewrite Hm. Qed.

Lemma upd_dentry_inodes d f s : inodes (upd_dentry d f s) = inodes s.
Proof. done. Qed.

Lemma upd_dentry_lookup d f s : dentries (upd_dentry d f s) !! d = f <$> dentries s !! d.
Proof. simpl. apply lookup_alter_eq. Qed.

(** A fresh, empty regular file of the module. *)
Definition empty_file (mode : Z) (ei : example_inode_info) : Prop :=
  contents ei = [] ∧ data_ok ei ∧ i_mode (vfs_inode ei) = mode ∧
  i_size (vfs_inode ei) = 0 ∧ i_nlink (vfs_inode ei) = 1 ∧
  i_op (vfs_inode ei) = example_file_inode_ops ∧ i_fop (vfs_inode ei) = example_file_ops.

Lemma get_inode_regular `{VfsCoreLaws} mode s a s' :
  Z.land mode S_IFMT = S_IFREG → example_get_inode mode s = (Some a, s') →
  inodes s !! a = None ∧ dentries s' = dentries s ∧
  ∃ ei, inodes s' = <[a := ei]> (inodes s) ∧ empty_file mode ei.
Proof.
  intros Hm (Ha & Hd & s1 & i & Hlink & Hsize & Hi)%get_inode_cases.
  split_and!; [done..|]. eexists. split; [exact Hi|].
  rewrite type_ops_regular by done. unfold empty_file. simpl. repeat split; done.
Qed.

(** Lookup.  The name "testfile" is bound to a fresh, empty regular file with
    mode 0644 and the module's operation tables when an inode can be had, and to
    no inode otherwise; every other name becomes a negative entry and no inode is
    created. *)
Theorem example_lookup_correct `{VfsCoreLaws} d de s s' :
  dentries s !! d = Some de → example_lookup d s = Some s' →
  (c_str (d_name de) = chars "testfile" ∧
     ∃ a ei, inodes s !! a = None ∧ inodes s' = <[a := ei]> (inodes s) ∧
       empty_file (Z.lor S_IFREG 0x1a4) ei ∧
       dentries s' !! d = Some (set_d_inode (Some a) de)) ∨
  (inodes s' = inodes s ∧ dentries s' !! d = Some (set_d_inode None de) ∧
     (c_str (d_name de) = chars "testfile" →
        (example_get_inode (Z.lor S_IFREG 0x1a4) s).1 = None)).
Proof.
  intros Hd. unfold example_lookup. rewrite Hd. simpl.
  unfold strcmp_eq. change (c_str (lit "testfile")) with (chars "testfile").
  case_bool_decide as Hname.
  - destruct (example_get_inode _ s) as [[a|] s1] eqn:Hg; intros [= <-]; rewrite d_add_spec.
    + left. split; [done|].
      apply get_inode_regular in Hg as (Ha & Hds & ei & Hi & Hei); [|done].
      exists a, ei. rewrite upd_dentry_lookup, Hds, Hd. done.
    + right. apply get_inode_cases in Hg as [Hi Hds].
      rewrite upd_dentry_lookup, Hds, Hd. done.
  - intros [= <-]. right. rewrite d_add_spec, upd_dentry_lookup, Hd. done.
Qed.

Lemma example_lookup_correct_witness :
  let s := Vfs ∅ {[3 := Dentry (lit "testfile") None 1]} in
  ∃ s' a ei, @example_lookup ref_core 3 s = Some s' ∧
    inodes s' = <[a := ei]> (inodes s) ∧ contents ei = [].
Proof.
  intros s. destruct (@example_lookup ref_core 3 s) as [s'|] eqn:E; [|vm_compute in E; discriminate].
  destruct (@example_lookup_correct ref_core _ 3 (Dentry (lit "testfile") None 1) s s' eq_refl E)
    as [(_ & a & ei & _ & Hi & Hei & _)|(_ & _ & Hf)].
  - exists s', a, ei. split_and!; [reflexivity|exact Hi|apply Hei].
  - specialize (Hf eq_refl). vm_compute in Hf. discriminate.
Defined.

(** Create.  With a mode that names no other file type it either returns 0
    and binds the dentry, with one more reference, to a fresh, empty regular file
    of that mode, leaving every other inode but the directory as it was, or
    returns -ENOSPC and changes nothing. *)
Theorem example_create_correct `{VfsCoreLaws} dir d de mode s r s' :
  Z.land mode S_IFMT = 0 → inodes s !! dir ≠ None → dentries s !! d = Some de →
  example_create dir d mode s = (r, s') →
  (r = 0 ∧ ∃ a ei, inodes s !! a = None ∧ inodes s' !! a = Some ei ∧
     empty_file (Z.lor mode S_IFREG) ei ∧
     dentries s' !! d = Some (add_d_count 1 (set_d_inode (Some a) de)) ∧
     ∀ b, b ≠ a → b ≠ dir → inodes s' !! b = inodes s !! b) ∨
  (r = - ENOSPC ∧ inodes s' = inodes s ∧ dentries s' = dentries s).
Proof.
  intros Hm Hdir Hd. unfold example_create.
  assert (Z.land (Z.lor mode S_IFREG) S_IFMT = S_IFREG) as Hreg.
  { rewrite Z.land_lor_distr_l, Hm. reflexivity. }
  destruct (example_get_inode _ s) as [[a|] s1] eqn:Hg; intros [= <- <-].
  - left. split; [done|]. apply get_inode_regular in Hg as (Ha & Hds & ei & Hi & Hei); [|done].
    exists a, ei. rewrite dget_spec, d_instantiate_spec. simpl.
    assert (a ≠ dir) as Hne by congruence.
    rewrite lookup_alter_ne, Hi, lookup_insert_eq by done.
    rewrite Hds, !lookup_alter_eq, Hd. split_and!; [done..|].
    intros b Hb1 Hb2. by rewrite lookup_alter_ne, lookup_insert_ne by done.
  - right. by apply get_inode_cases in Hg.
Qed.

Lemma example_create_correct_witness :
  let s := Vfs {[7 := ExampleInode zero_inode (bfill 0 64)]} {[3 := Dentry (lit "a") None 1]} in
  (@example_create ref_core 7 3 0x1a4 s).1 = 0 ∧
  ∃ a ei, inodes (@example_create ref_core 7 3 0x1a4 s).2 !! a = Some ei ∧ contents ei = [].
Proof.
  intros s. split; [reflexivity|].
  destruct (@example_create_correct ref_core _ 7 3 (Dentry (lit "a") None 1) 0x1a4 s
    (@example_create ref_core 7 3 0x1a4 s).1 (@example_create ref_core 7 3 0x1a4 s).2)
    as [(_ & a & ei & _ & Ha & Hei & _)|(Hr & _)];
    [reflexivity|discriminate|reflexivity|by destruct (@example_create ref_core 7 3 0x1a4 s)| |].
  - exists a, ei. split; [exact Ha|apply Hei].
  - vm_compute in Hr. discriminate.
Defined.

(** Removing a file that an entry [d] with inode [a] names. *)
Lemma example_unlink_spec `{VfsCoreLaws} dir d a de ei s :
  dentries s !! d = Some de → d_inode de = Some a → inodes s !! a = Some ei → a ≠ dir →
  ∃ s' ei', example_unlink dir d s = Some (0, s') ∧
    dentries s' = <[d := add_d_count (-1) de]> (dentries s) ∧
    inodes s' !! a = Some ei' ∧ i_nlink (vfs_inode ei') = i_nlink (vfs_inode ei) - 1 ∧ data ei' = data ei.
Proof.
  intros Hd Hi Ha Hne. unfold example_unlink. rewrite Hd. cbn [mbind option_bind]. rewrite Hi. cbn [mbind option_bind].
  rewrite dput_spec. eexists _, _. split; [reflexivity|]. split; [|split].
  - cbn. apply map_eq. intros j. destruct (decide (j = d)) as [->|].
    + by rewrite lookup_alter_eq, lookup_insert_eq, Hd.
    + by rewrite lookup_alter_ne, lookup_insert_ne.
  - cbn. rewrite !lookup_alter_eq, lookup_alter_ne, Ha by done. reflexivity.
  - cbn. by rewrite drop_nlink_spec.
Qed.

(** C39: who holds the entry of a file.  Create takes a reference to the entry for
    the file's existence, and unlink gives it back: after both the entry has the
    references it had.  Lookup binds "testfile" without taking one, and unlink
    drops one all the same: the entry loses a reference of whoever held it, its
    last one when only the caller did.  Either way the file has no link left. *)
Theorem unlink_references `{VfsCoreLaws} dir d de mode s s1 b :
  inodes s !! dir ≠ None → dentries s !! d = Some de →
  (Z.land mode S_IFMT = 0 → example_create dir d mode s = (0, s1) →
     ∃ s2 de2 a ei, example_unlink dir d s1 = Some (0, s2) ∧ dentries s2 !! d = Some de2 ∧
       d_count de2 = d_count de ∧ d_inode de2 = Some a ∧ inodes s2 !! a = Some ei ∧ i_nlink (vfs_inode ei) = 0) ∧
  (c_str (d_name de) = chars "testfile" → (example_get_inode (Z.lor S_IFREG 0x1a4) s).1 = Some b →
     ∃ s1 s2 de2 ei, example_lookup d s = Some s1 ∧ example_unlink dir d s1 = Some (0, s2) ∧
       dentries s2 !! d = Some de2 ∧ d_count de2 = d_count de - 1 ∧ d_inode de2 = Some b ∧
       inodes s2 !! b = Some ei ∧ i_nlink (vfs_inode ei) = 0).
Proof.
  intros Hdir Hd. split.
  - intros Hm Hc. unfold example_create in Hc.
    assert (Z.land (Z.lor mode S_IFREG) S_IFMT = S_IFREG) as Hreg by by rewrite Z.land_lor_distr_l, Hm.
    destruct (example_get_inode _ s) as [[a|] s0] eqn:Hg; [|done].
    apply get_inode_regular in Hg as (Ha & Hds & ei & Hi & Hei); [|done].
    injection Hc as <-. rewrite dget_spec, d_instantiate_spec.
    assert (a ≠ dir) as Hne by congruence.
    destruct (example_unlink_spec dir d a (add_d_count 1 (set_d_inode (Some a) de)) ei
      (upd_inode dir (set_mctime (current_time (upd_dentry d (add_d_count 1) (upd_dentry d (set_d_inode (Some a)) s0))))
        (upd_dentry d (add_d_count 1) (upd_dentry d (set_d_inode (Some a)) s0)))) as (s2 & ei2 & E & Hd2 & Ha2 & Hl & _);
      [cbn; by rewrite Hds, !lookup_alter_eq, Hd|done|cbn; by rewrite lookup_alter_ne, Hi, lookup_insert_eq|done|].
    eexists s2, _, a, ei2. split; [exact E|]. rewrite Hd2, lookup_insert_eq. split; [reflexivity|]. cbn.
    split_and!; [lia|done|done|]. rewrite Hl. destruct Hei as (_ & _ & _ & _ & -> & _). done.
  - intros Hname Hg. destruct (example_get_inode _ s) as [[a|] s0] eqn:E; [|done]. injection Hg as ->.
    assert (example_lookup d s = Some (upd_dentry d (set_d_inode (Some b)) s0)) as Hlk.
    { unfold example_lookup. rewrite Hd. cbn [mbind option_bind]. unfold strcmp_eq.
      rewrite bool_decide_eq_true_2 by done. by rewrite E, d_add_spec. }
    apply get_inode_regular in E as (Ha & Hds & ei & Hi & Hei); [|done].
    destruct (example_unlink_spec dir d b (set_d_inode (Some b) de) ei (upd_dentry d (set_d_inode (Some b)) s0))
      as (s2 & ei2 & E2 & Hd2 & Ha2 & Hl & _);
      [by rewrite upd_dentry_lookup, Hds, Hd|done|cbn; by rewrite Hi, lookup_insert_eq|congruence|].
    eexists _, s2, _, ei2. split; [exact Hlk|]. split; [exact E2|]. rewrite Hd2, lookup_insert_eq. split; [reflexivity|]. cbn.
    split_and!; [lia|done|done|]. rewrite Hl. destruct Hei as (_ & _ & _ & _ & -> & _). done.
Qed.

Lemma unlink_references_witness :
  let s := Vfs {[7 := ExampleInode zero_inode (bfill 0 64)]} {[3 := Dentry (lit "testfile") None 1]} in
  ∃ s1 s2 de2 s3 de3, @example_lookup ref_core 3 s = Some s1 ∧ @example_unlink ref_core 7 3 s1 = Some (0, s2) ∧
    dentries s2 !! 3 = Some de2 ∧ d_count de2 = 0 ∧
    @example_unlink ref_core 7 3 (@example_create ref_core 7 3 0x1a4 s).2 = Some (0, s3) ∧
    dentries s3 !! 3 = Some de3 ∧ d_count de3 = 1.
Proof.
  intros s. destruct (@example_create ref_core 7 3 0x1a4 s) as [r s1] eqn:E.
  assert (r = 0) as -> by (change r with (r, s1).1; rewrite <-E; reflexivity).
  destruct (@example_get_inode ref_core (Z.lor S_IFREG 0x1a4) s) as [[b|] s0] eqn:Eg; [|vm_compute in Eg; discriminate].
  destruct (@unlink_references ref_core _ 7 3 (Dentry (lit "testfile") None 1) 0x1a4 s s1 b) as [Hc Hl];
    [discriminate|reflexivity|].
  destruct (Hc eq_refl E) as (s3 & de3 & a & ei & Hu & Hd3 & Hn & _).
  destruct Hl as (s1' & s2 & de2 & ei2 & Hk & Hu2 & Hd2 & Hn2 & _); [reflexivity|by rewrite Eg|].
  exists s1', s2, de2, s3, de3. split_and!; [exact Hk|exact Hu2|exact Hd2|exact Hn2|exact Hu|exact Hd3|exact Hn].
Defined.

(** Example_fill_super sets the superblock's block size, magic number and
    operations on every path; it returns 0 exactly when it has a root dentry, and
    then the root inode is a directory with mode 0755 and two links; when it
    returns -ENOMEM it leaves no inode behind. *)
Theorem example_fill_super_correct `{VfsCoreLaws} sb s r sb' s' :
  example_fill_super sb s = (r, sb', s') →
  s_blocksize sb' = PAGE_SIZE ∧ s_magic sb' = SIMPLE_MAGIC ∧ s_op sb' = example_super_ops ∧
  ((r = 0 ∧ ∃ root a ei, s_root sb' = Some root ∧ inodes s !! a = None ∧
      inodes s' = <[a := ei]> (inodes s) ∧ data_ok ei ∧
      i_mode (vfs_inode ei) = Z.lor S_IFDIR 0x1ed ∧ i_nlink (vfs_inode ei) = 2 ∧
      i_op (vfs_inode ei) = example_dir_inode_ops ∧ i_fop (vfs_inode ei) = example_dir_ops) ∨
   (r = - ENOMEM ∧ inodes s' = inodes s)).
Proof.
  unfold example_fill_super.
  destruct (example_get_inode _ s) as [[a|] s1] eqn:Hg; apply get_inode_cases in Hg; cycle 1.
  { intros [= <- <- <-]. split_and!; try done. right. by split; [|apply Hg]. }
  destruct Hg as (Ha & _ & s0 & i & Hlink & _ & Hi).
  pose proof (d_make_root_inodes a s1) as Hr.
  destruct (d_make_root a s1) as [[root|] s2]; simpl in Hr; intros [= <- <- <-];
    split_and!; try done.
  - left. split; [done|]. eexists root, a, _. rewrite Hr, Hi. split_and!; try done.
    + unfold type_ops. simpl. rewrite inc_nlink_spec. simpl. done.
    + unfold type_ops. simpl. rewrite inc_nlink_spec. simpl. by rewrite Hlink.
    + unfold type_ops. simpl. by rewrite inc_nlink_spec.
    + unfold type_ops. simpl. by rewrite inc_nlink_spec.
  - right. split; [done|]. by rewrite Hr, Hi, delete_insert_id.
Qed.

Lemma example_fill_super_correct_witness :
  let sb := SuperBlock 0 0 0 no_sops 0 None in
  (@example_fill_super ref_core sb (Vfs ∅ ∅)).1.1 = 0 ∧
  s_magic (@example_fill_super ref_core sb (Vfs ∅ ∅)).1.2 = SIMPLE_MAGIC.
Proof.
  intros sb. split; [reflexivity|].
  apply (@example_fill_super_correct ref_core _ sb (Vfs ∅ ∅)
    (@example_fill_super ref_core sb (Vfs ∅ ∅)).1.1
    (@example_fill_super ref_core sb (Vfs ∅ ∅)).1.2
    (@example_fill_super ref_core sb (Vfs ∅ ∅)).2).
  by destruct (@example_fill_super ref_core sb (Vfs ∅ ∅)) as [[? ?] ?].
Defined.

(** *** Directory listing *)

Definition listing : list dirent := [Dot; DotDot; Entry (chars "testfile") 8 1000 DT_REG].

(** A listing in several calls: each call has its own reader. *)
Definition readdir_calls (actors : list (list dirent → dirent → bool)) (ctx : dir_context)
    : dir_context := foldl (λ ctx actor, example_readdir actor ctx) ctx actors.

Definition listed (ctx : dir_context) : Prop :=
  ∃ k : nat, (k ≤ 3)%nat ∧ ctx = DirContext (Z.of_nat k) (take k listing).

Lemma readdir_listed actor k :
  (k ≤ 3)%nat →
  ∃ k' : nat, (k ≤ k' ≤ 3)%nat ∧
    example_readdir actor (DirContext (Z.of_nat k) (take k listing))
      = DirContext (Z.of_nat k') (take k' listing) ∧
    (k' = k → k = 3%nat ∨ ∃ e, listing !! k = Some e ∧ actor (take k listing) e = false).
Proof.
  intros Hk. unfold example_readdir, readdir_stage, dir_emit.
  do 4 try destruct k as [|k]; [..|lia]; simpl;
    repeat match goal with |- context [actor ?es ?e] =>
      let E := fresh "E" in destruct (actor es e) eqn:E; simpl end;
    first [ exists 0%nat; split_and!; [lia..|reflexivity|]
          | exists 1%nat; split_and!; [lia..|reflexivity|]
          | exists 2%nat; split_and!; [lia..|reflexivity|]
          | exists 3%nat; split_and!; [lia..|reflexivity|] ];
    intros; try lia; eauto.
Qed.

(** A directory listing can be cut anywhere.  However many calls it takes and
    whenever a reader refuses an entry, what was handed over is a prefix of ".",
    "..", "testfile" in that order, with nothing skipped or repeated, and the
    position is its length; and if the i-th call's reader takes an entry as long
    as it holds at most i of them, three calls hand over everything. *)
Theorem readdir_resumes actors :
  let ctx := readdir_calls actors (DirContext 0 []) in
  (∃ k : nat, (k ≤ 3)%nat ∧ pos ctx = Z.of_nat k ∧ emitted ctx = take k listing) ∧
  ((3 ≤ length actors)%nat →
   (∀ i actor es e, actors !! i = Some actor → (length es ≤ i)%nat → actor es e = true) →
   pos ctx = 3 ∧ emitted ctx = listing).
Proof.
  assert (∃ k : nat, (k ≤ 3)%nat ∧
    readdir_calls actors (DirContext 0 []) = DirContext (Z.of_nat k) (take k listing) ∧
    ((∀ i actor es e, actors !! i = Some actor → (length es ≤ i)%nat → actor es e = true) →
     (length actors ≤ k)%nat ∨ k = 3%nat)) as (k & Hk & Hctx & Hfull).
  { induction actors as [|actor actors (k & Hk & Hctx & Hprog)] using rev_ind.
    { exists 0%nat. split_and!; [lia|done|]. simpl. lia. }
    unfold readdir_calls in *. rewrite foldl_app, Hctx. simpl.
    destruct (readdir_listed actor k Hk) as (k' & Hk' & Hr & Hstuck).
    exists k'. split_and!; [lia|done|]. intros Htake.
    destruct Hprog as [Hl|Hl]; [|rewrite length_app; simpl|lia].
    { intros i act es e Hi. apply Htake. by apply lookup_app_l_Some. }
    destruct (decide (k' = k)) as [->|]; [|lia].
    destruct (Hstuck eq_refl) as [->|(e & He & Hf)]; [lia|].
    destruct (decide (length actors = k)); [|lia].
    rewrite (Htake (length actors) actor) in Hf; [done|..].
    - by apply list_lookup_middle.
    - rewrite length_take. lia. }
  rewrite Hctx. simpl. split; [by exists k|]. intros Hlen Htake.
  destruct (Hfull Htake); assert (k = 3%nat) as -> by lia; done.
Qed.

Lemma readdir_resumes_witness :
  emitted (readdir_calls [(λ es _, bool_decide (length es ≤ 0)%nat);
                          (λ es _, bool_decide (length es ≤ 1)%nat);
                          (λ es _, bool_decide (length es ≤ 2)%nat)] (DirContext 0 [])) = listing.
Proof.
  apply readdir_resumes; [simpl; lia|].
  intros [|[|[|i]]] actor es e; simpl; intros; simplify_eq;
    by apply bool_decide_eq_true.
Defined.
