(* ===== verification/BlockDev.v ===== *)
(** * The RAM block device (examples/class_7/01_block_device/block_demo.c)

    Two parts: the data path (simple_transfer, simple_handle_bio,
    simple_queue_rq) over the device's storage and the pages of the bios, and
    the registration path (simple_block_init, simple_block_exit) as a program
    over kernel calls. *)
From S2P Require Import Prelude Bytes Kernel.

(** ** The data path *)
Module IO.

Definition KERNEL_SECTOR_SIZE : Z := 512.
Definition SIMPLE_BLOCK_SIZE : Z := 1024 * 1024.
Definition READ : Z := 0.
Definition WRITE : Z := 1.
Definition BLK_STS_OK : Z := 0.

(** A segment of a bio (struct bio_vec) and a bio: its first sector, its
    direction (bio_data_dir) and its segments in order. *)
Record bio_vec := BioVec { bv_page : Z; bv_len : Z; bv_offset : Z }.
Record bio := Bio { bi_sector : Z; bi_dir : Z; bi_io_vec : list bio_vec }.

(** The device's size and storage (struct simple_block_dev), and the pages the
    segments point into, each under its address. *)
Record dev := Dev { dev_size : Z; dev_data : bytes }.
Record store := Store { st_dev : dev; st_pages : gmap Z bytes }.

(** simple_transfer.  [buffer] is a page and an offset in it. *)
Definition simple_transfer (s : store) (sector nsect : Z) (page boff : Z) (write : Z)
    : option store :=
  let offset := u64 (sector * KERNEL_SECTOR_SIZE) in
  let nbytes := u64 (nsect * KERNEL_SECTOR_SIZE) in
  if u64 (dev_size (st_dev s)) <? u64 (offset + nbytes) then Some s
  else
    pg ← st_pages s !! page;
    if negb (write =? 0) then
      bs ← bread pg boff nbytes;
      d ← bwrite (dev_data (st_dev s)) offset bs;
      Some (Store (Dev (dev_size (st_dev s)) d) (st_pages s))
    else
      bs ← bread (dev_data (st_dev s)) offset nbytes;
      pg' ← bwrite pg boff bs;
      Some (Store (st_dev s) (<[page := pg']> (st_pages s))).

(** The loop of simple_handle_bio over the segments ([sector] is the local
    variable the loop advances). *)
Fixpoint handle_segments (s : store) (sector dir : Z) (vecs : list bio_vec) : option store :=
  match vecs with
  | [] => Some s
  | v :: vecs' =>
      s' ← simple_transfer s sector (bv_len v / KERNEL_SECTOR_SIZE) (bv_page v) (bv_offset v) dir;
      handle_segments s' (u64 (sector + bv_len v / KERNEL_SECTOR_SIZE)) dir vecs'
  end.

Definition simple_handle_bio (s : store) (b : bio) : option (Z * store) :=
  s' ← handle_segments s (bi_sector b) (bi_dir b) (bi_io_vec b); Some (BLK_STS_OK, s').

(** What simple_queue_rq tells the block layer about the request. *)
Inductive rq_event := StartRequest | EndRequest (status : Z).

Fixpoint handle_bios (s : store) (status : Z) (bios : list bio) : option (Z * store) :=
  match bios with
  | [] => Some (status, s)
  | b :: bios' =>
      '(status, s') ← simple_handle_bio s b;
      if negb (status =? BLK_STS_OK) then Some (status, s') else handle_bios s' status bios'
  end.

(** simple_queue_rq: the status it returns, the state, and the events. *)
Definition simple_queue_rq (s : store) (req : list bio) : option (Z * store * list rq_event) :=
  '(status, s') ← handle_bios s BLK_STS_OK req;
  Some (status, s', [StartRequest; EndRequest status]).

Definition example_block_open : Z := 0.
Definition example_block_ioctl (cmd arg : Z) : Z := - ENOTTY.

(** ** Specification *)

(** The storage has the size the device says, and it is an int. *)
Definition store_ok (s : store) : Prop :=
  blen (dev_data (st_dev s)) = dev_size (st_dev s) ∧ 0 <= dev_size (st_dev s) < 2^31.

(** A segment that lies inside its page. *)
Definition vec_ok (ps : gmap Z bytes) (v : bio_vec) : Prop :=
  0 <= bv_len v < 2^32 ∧ 0 <= bv_offset v ∧
  ∃ pg, ps !! bv_page v = Some pg ∧ bv_offset v + bv_len v <= blen pg.

Definition aligned (v : bio_vec) : Prop := (KERNEL_SECTOR_SIZE | bv_len v).

(** The number of bytes of a bio. *)
Definition vecs_len (vecs : list bio_vec) : Z := foldr (λ v n, bv_len v + n) 0 vecs.

(** The bytes the segments hold, in order: what a write bio says to store. *)
Fixpoint gather (ps : gmap Z bytes) (vecs : list bio_vec) : option bytes :=
  match vecs with
  | [] => Some []
  | v :: vecs' =>
      pg ← ps !! bv_page v;
      bs ← bread pg (bv_offset v) (bv_len v);
      rest ← gather ps vecs';
      Some (bs ++ rest)
  end.

(** ** The transfer of one segment *)

Lemma transfer_in_range s sector nsect page boff write :
  store_ok s → 0 <= sector → 0 <= nsect →
  (sector + nsect) * KERNEL_SECTOR_SIZE <= dev_size (st_dev s) →
  simple_transfer s sector nsect page boff write =
    (pg ← st_pages s !! page;
     if negb (write =? 0) then
       bs ← bread pg boff (nsect * KERNEL_SECTOR_SIZE);
       d ← bwrite (dev_data (st_dev s)) (sector * KERNEL_SECTOR_SIZE) bs;
       Some (Store (Dev (dev_size (st_dev s)) d) (st_pages s))
     else
       bs ← bread (dev_data (st_dev s)) (sector * KERNEL_SECTOR_SIZE) (nsect * KERNEL_SECTOR_SIZE);
       pg' ← bwrite pg boff bs;
       Some (Store (st_dev s) (<[page := pg']> (st_pages s)))).
Proof.
  intros [Hl Hs] ? ? Hin. unfold simple_transfer, KERNEL_SECTOR_SIZE in *.
  rewrite (u64_small (sector * 512)), (u64_small (nsect * 512)) by wrap_lia.
  rewrite (u64_small (sector * 512 + nsect * 512)), (u64_small (dev_size _)) by wrap_lia.
  rewrite (proj2 (Z.ltb_ge _ _)) by lia. done.
Qed.

Lemma transfer_beyond s sector nsect page boff write :
  store_ok s → 0 <= sector → 0 <= nsect →
  dev_size (st_dev s) < (sector + nsect) * KERNEL_SECTOR_SIZE < 2^64 →
  simple_transfer s sector nsect page boff write = Some s.
Proof.
  intros [Hl Hs] ? ? Hin. unfold simple_transfer, KERNEL_SECTOR_SIZE in *.
  rewrite (u64_small (sector * 512)), (u64_small (nsect * 512)) by wrap_lia.
  rewrite (u64_small (sector * 512 + nsect * 512)), (u64_small (dev_size _)) by wrap_lia.
  by rewrite (proj2 (Z.ltb_lt _ _)) by lia.
Qed.

(** The size and the shape of the pages never change. *)
Definition same_shape (s s' : store) : Prop :=
  dev_size (st_dev s') = dev_size (st_dev s) ∧
  blen (dev_data (st_dev s')) = blen (dev_data (st_dev s)) ∧
  ∀ p, blen <$> st_pages s' !! p = blen <$> st_pages s !! p.

Lemma same_shape_refl s : same_shape s s.
Proof. done. Qed.

Lemma same_shape_trans s1 s2 s3 : same_shape s1 s2 → same_shape s2 s3 → same_shape s1 s3.
Proof.
  intros (?&?&H1) (?&?&H2). split_and!; [congruence|congruence|].
  intros p. by rewrite H2.
Qed.

Lemma same_shape_ok s s' : same_shape s s' → store_ok s → store_ok s'.
Proof. intros (Hs&Hd&_) [? ?]. split; rewrite ?Hs, ?Hd; done. Qed.

Lemma same_shape_vec_ok s s' v : same_shape s s' → vec_ok (st_pages s) v → vec_ok (st_pages s') v.
Proof.
  intros (_&_&Hp) (?&?&pg&Hpg&?). split_and!; [lia..|lia|].
  specialize (Hp (bv_page v)). rewrite Hpg in Hp.
  apply fmap_Some in Hp as (pg' & Hpg' & Hl). exists pg'. split; [done|lia].
Qed.

Lemma transfer_shape s sector nsect page boff write s' :
  simple_transfer s sector nsect page boff write = Some s' → same_shape s s'.
Proof.
  unfold simple_transfer. destruct (_ <? _); [by intros [= <-]|].
  destruct (st_pages s !! page) as [pg|] eqn:Hpg; simpl; [|done].
  destruct (negb _).
  - destruct (bread pg _ _) as [bs|]; simpl; [|done].
    destruct (bwrite _ _ bs) as [d|] eqn:Hw; simpl; [|done]. intros [= <-].
    split_and!; simpl; [done|by eapply bwrite_length|done].
  - destruct (bread _ _ _) as [bs|]; simpl; [|done].
    destruct (bwrite pg _ bs) as [d|] eqn:Hw; simpl; [|done]. intros [= <-].
    split_and!; simpl; [done..|]. intros p. destruct (decide (p = page)) as [->|].
    + rewrite lookup_insert_eq, Hpg. simpl. f_equal. by eapply bwrite_length.
    + by rewrite lookup_insert_ne.
Qed.

(** A transfer of a segment that fits its page is always defined. *)
Lemma transfer_safe s sector nsect page pg boff write :
  store_ok s → 0 <= sector → 0 <= nsect → (sector + nsect) * KERNEL_SECTOR_SIZE < 2^64 →
  st_pages s !! page = Some pg → 0 <= boff → boff + nsect * KERNEL_SECTOR_SIZE <= blen pg →
  is_Some (simple_transfer s sector nsect page boff write).
Proof.
  intros Hok ? ? Hw Hpg ? Hb. pose proof Hok as [Hl Hs].
  destruct (Z.le_gt_cases ((sector + nsect) * KERNEL_SECTOR_SIZE) (dev_size (st_dev s))) as [Hin|Hout].
  - rewrite transfer_in_range, Hpg by done. simpl. unfold KERNEL_SECTOR_SIZE in *.
    destruct (negb _).
    + rewrite (bread_Some pg) by lia. simpl. rewrite bwrite_Some; [eauto|lia|].
      rewrite blen_take; [lia|]. unfold blen in *. rewrite length_drop. lia.
    + rewrite (bread_Some (dev_data _)) by lia. simpl. rewrite bwrite_Some; [eauto|lia|].
      rewrite blen_take; [lia|]. unfold blen in *. rewrite length_drop. lia.
  - rewrite transfer_beyond by (done || lia). eauto.
Qed.

(** ** A whole bio *)

Lemma handle_segments_shape s sector dir vecs s' :
  handle_segments s sector dir vecs = Some s' → same_shape s s'.
Proof.
  revert s sector. induction vecs as [|v vecs IH]; intros s sector; simpl.
  { intros [= <-]. apply same_shape_refl. }
  destruct (simple_transfer _ _ _ _ _ _) as [s1|] eqn:Ht; simpl; [|done].
  intros Hr. eapply same_shape_trans; [by eapply transfer_shape|by eapply IH].
Qed.

Lemma vecs_len_nonneg ps vecs : Forall (vec_ok ps) vecs → 0 <= vecs_len vecs.
Proof. induction 1 as [|v vecs [? _] _ IH]; simpl; lia. Qed.

Lemma sectors_of v : 0 <= bv_len v → 0 <= bv_len v / KERNEL_SECTOR_SIZE ∧
  bv_len v / KERNEL_SECTOR_SIZE * KERNEL_SECTOR_SIZE <= bv_len v.
Proof. unfold KERNEL_SECTOR_SIZE. intros. Z.to_euclidean_division_equations; lia. Qed.

Lemma sectors_exact v : aligned v →
  bv_len v / KERNEL_SECTOR_SIZE * KERNEL_SECTOR_SIZE = bv_len v.
Proof. intros [k Hk]. rewrite Hk, Z.div_mul; [done|unfold KERNEL_SECTOR_SIZE; lia]. Qed.

Lemma handle_segments_safe s sector dir vecs :
  store_ok s → Forall (vec_ok (st_pages s)) vecs → 0 <= sector →
  sector * KERNEL_SECTOR_SIZE + vecs_len vecs < 2^64 →
  is_Some (handle_segments s sector dir vecs).
Proof.
  revert s sector. induction vecs as [|v vecs IH]; intros s sector Hok Hv Hs Hlen; simpl in *.
  { eauto. }
  apply Forall_cons in Hv as [Hv Hvs]. pose proof (vecs_len_nonneg _ _ Hvs) as Hnn.
  destruct Hv as (Hvl & Hvo & pg & Hpg & Hfit). destruct (sectors_of v) as [? ?]; [lia|].
  unfold KERNEL_SECTOR_SIZE in *.
  destruct (transfer_safe s sector (bv_len v / 512) (bv_page v) pg (bv_offset v) dir)
    as [s1 Hs1]; try done; unfold KERNEL_SECTOR_SIZE; try lia.
  rewrite Hs1. simpl. pose proof (transfer_shape _ _ _ _ _ _ _ Hs1) as Hsh.
  apply IH.
  - by eapply same_shape_ok.
  - eapply Forall_impl; [exact Hvs|]. intros. by eapply same_shape_vec_ok.
  - apply u64_bound.
  - rewrite u64_small by (unfold is_u64; lia). lia.
Qed.

Lemma gather_length ps vecs bs : gather ps vecs = Some bs → blen bs = vecs_len vecs.
Proof.
  revert bs. induction vecs as [|v vecs IH]; intros bs; simpl; [by intros [= <-]|].
  destruct (ps !! bv_page v) as [pg|]; simpl; [|done].
  destruct (bread _ _ _) as [b1|] eqn:Hb; simpl; [|done].
  destruct (gather ps vecs) as [rest|]; simpl; [|done]. intros [= <-].
  rewrite blen_app, (bread_length _ _ _ _ Hb), (IH rest) by done. done.
Qed.

Lemma gather_is_Some ps vecs : Forall (vec_ok ps) vecs → is_Some (gather ps vecs).
Proof.
  induction 1 as [|v vecs (? & ? & pg & Hpg & ?) _ [bs Hbs]]; simpl; [eauto|].
  rewrite Hpg, Hbs. simpl. rewrite bread_Some by lia. simpl. eauto.
Qed.

(** Two adjacent writes are one. *)
Lemma bwrite_app b off x y b1 b2 :
  bwrite b off x = Some b1 → bwrite b1 (off + blen x) y = Some b2 →
  bwrite b off (x ++ y) = Some b2.
Proof.
  intros H1 H2. pose proof (bwrite_length _ _ _ _ H1) as Hl1.
  apply bwrite_inv in H1 as (?&?&H1). apply bwrite_inv in H2 as (?&?&->).
  rewrite bwrite_Some by (rewrite ?blen_app; lia). f_equal. subst b1.
  unfold blen in *. rewrite Z2Nat.inj_add, Nat2Z.id by lia.
  rewrite !length_app in *. rewrite length_take, length_drop in *.
  rewrite (app_assoc (take _ _) x).
  rewrite (take_app_exact (take _ _ ++ x)) by (rewrite length_app, length_take; lia).
  rewrite <-!app_assoc. do 3 f_equal.
  rewrite (app_assoc (take _ _) x), drop_app_ge by (rewrite length_app, length_take; lia).
  rewrite drop_drop, length_app, length_take. f_equal. lia.
Qed.

Lemma handle_segments_write s sector dir vecs bs :
  store_ok s → Forall (vec_ok (st_pages s)) vecs → Forall aligned vecs →
  dir ≠ READ → 0 <= sector →
  sector * KERNEL_SECTOR_SIZE + vecs_len vecs <= dev_size (st_dev s) →
  gather (st_pages s) vecs = Some bs →
  ∃ d, bwrite (dev_data (st_dev s)) (sector * KERNEL_SECTOR_SIZE) bs = Some d ∧
    handle_segments s sector dir vecs = Some (Store (Dev (dev_size (st_dev s)) d) (st_pages s)).
Proof.
  revert s sector bs. induction vecs as [|v vecs IH]; intros s sector bs Hok Hv Hal Hd Hs Hin.
  { intros [= <-]. simpl in *. destruct s as [[n d] ps]. simpl in *. exists d. split; [|done].
    unfold KERNEL_SECTOR_SIZE in *. destruct Hok as [Hok _]. simpl in Hok.
    rewrite bwrite_Some by (change (blen []) with 0; lia).
    simpl. by rewrite Nat.add_0_r, take_drop. }
  simpl in *. apply Forall_cons in Hv as [Hv Hvs]. apply Forall_cons in Hal as [Hav Has].
  pose proof (vecs_len_nonneg _ _ Hvs) as Hnn.
  destruct Hv as (? & ? & pg & Hpg & ?). pose proof (sectors_exact _ Hav) as Hex.
  rewrite Hpg. simpl. rewrite bread_Some by lia. simpl.
  set (b1 := take _ (drop _ pg)).
  assert (blen b1 = bv_len v) as Hb1.
  { unfold b1. apply blen_take. unfold blen in *. rewrite length_drop. lia. }
  destruct (gather (st_pages s) vecs) as [rest|] eqn:Hg; simpl; [|done]. intros [= <-].
  destruct (sectors_of v) as [? _]; [lia|].
  rewrite transfer_in_range by (done || unfold KERNEL_SECTOR_SIZE in *; lia).
  rewrite Hpg. simpl. rewrite (proj2 (Z.eqb_neq dir 0)) by done. simpl.
  rewrite Hex, bread_Some by lia. fold b1. simpl.
  destruct (bwrite (dev_data (st_dev s)) (sector * KERNEL_SECTOR_SIZE) b1) as [d1|] eqn:Hd1; cycle 1.
  { apply eq_None_not_Some in Hd1. destruct Hd1. apply bwrite_is_Some. rewrite Hb1.
    destruct Hok as [-> ?]. unfold KERNEL_SECTOR_SIZE in *. lia. }
  simpl. rewrite u64_small by (unfold is_u64, KERNEL_SECTOR_SIZE in *; destruct Hok; lia).
  destruct (IH (Store (Dev (dev_size (st_dev s)) d1) (st_pages s))
    (sector + bv_len v / KERNEL_SECTOR_SIZE) rest) as (d & Hd2 & Hh); try done.
  - destruct Hok. split; simpl; [by rewrite (bwrite_length _ _ _ _ Hd1)|done].
  - lia.
  - simpl. unfold KERNEL_SECTOR_SIZE in *. lia.
  - exists d. split; [|done]. eapply bwrite_app; [exact Hd1|]. simpl in Hd2.
    rewrite Hb1. replace (sector * KERNEL_SECTOR_SIZE + bv_len v) with
      ((sector + bv_len v / KERNEL_SECTOR_SIZE) * KERNEL_SECTOR_SIZE) by lia. done.
Qed.

Lemma bread_app b off n m x y :
  bread b off n = Some x → bread b (off + n) m = Some y → bread b off (n + m) = Some (x ++ y).
Proof.
  intros (?&?&?&->)%bread_inv (?&?&?&->)%bread_inv. rewrite bread_Some by lia. f_equal.
  rewrite !Z2Nat.inj_add by lia. rewrite <-take_drop_app, drop_drop. done.
Qed.

Lemma bread_is_Some b off n : 0 <= off → 0 <= n → off + n <= blen b → ∃ x, bread b off n = Some x.
Proof. intros. rewrite bread_Some by done. eauto. Qed.

Lemma gather_agree ps ps' vecs :
  (∀ v, v ∈ vecs → ps' !! bv_page v = ps !! bv_page v) → gather ps' vecs = gather ps vecs.
Proof.
  induction vecs as [|v vecs IH]; intros Heq; simpl; [done|].
  rewrite Heq by set_solver. rewrite IH by set_solver. done.
Qed.

Lemma handle_segments_read s sector vecs :
  store_ok s → Forall (vec_ok (st_pages s)) vecs → Forall aligned vecs →
  NoDup (bv_page <$> vecs) → 0 <= sector →
  sector * KERNEL_SECTOR_SIZE + vecs_len vecs <= dev_size (st_dev s) →
  ∃ ps', handle_segments s sector READ vecs = Some (Store (st_dev s) ps') ∧
    (∀ p, p ∉ (bv_page <$> vecs) → ps' !! p = st_pages s !! p) ∧
    gather ps' vecs = bread (dev_data (st_dev s)) (sector * KERNEL_SECTOR_SIZE) (vecs_len vecs).
Proof.
  revert s sector. induction vecs as [|v vecs IH]; intros s sector Hok Hv Hal Hnd Hs Hin.
  { simpl in *. exists (st_pages s). destruct s as [dv ps]. split_and!; [done..|].
    simpl in *. unfold KERNEL_SECTOR_SIZE in *. destruct Hok. simpl in *.
    rewrite bread_Some by lia. by rewrite take_0. }
  simpl in *. apply Forall_cons in Hv as [Hv Hvs]. apply Forall_cons in Hal as [Hav Has].
  apply NoDup_cons in Hnd as [Hni Hnd].
  pose proof (vecs_len_nonneg _ _ Hvs) as Hnn. pose proof Hok as [Hlen Hsz].
  destruct Hv as (? & ? & pg & Hpg & ?). pose proof (sectors_exact _ Hav) as Hex.
  destruct (sectors_of v) as [? _]; [lia|]. unfold KERNEL_SECTOR_SIZE in Hex.
  rewrite transfer_in_range by (done || unfold KERNEL_SECTOR_SIZE in *; lia).
  rewrite Hpg. unfold KERNEL_SECTOR_SIZE in *. simpl. rewrite Hex.
  destruct (bread_is_Some (dev_data (st_dev s)) (sector * 512) (bv_len v)) as [b1 Hb1]; [lia..|].
  rewrite Hb1. simpl. pose proof (bread_length _ _ _ _ Hb1) as Hl1.
  destruct (bwrite pg (bv_offset v) b1) as [pg'|] eqn:Hpg'; cycle 1.
  { apply eq_None_not_Some in Hpg'. destruct Hpg'. apply bwrite_is_Some. lia. }
  simpl. rewrite u64_small by (unfold is_u64; lia).
  set (s1 := Store (st_dev s) (<[bv_page v := pg']> (st_pages s))).
  assert (same_shape s s1) as Hsh.
  { split_and!; [done..|]. intros p. simpl. destruct (decide (p = bv_page v)) as [->|].
    - rewrite lookup_insert_eq, Hpg. simpl. f_equal. by eapply bwrite_length.
    - by rewrite lookup_insert_ne. }
  destruct (IH s1 (sector + bv_len v / 512)) as (ps' & Hh & Hother & Hg); try done; try lia.
  { eapply Forall_impl; [exact Hvs|]. intros. by eapply same_shape_vec_ok. }
  { simpl. lia. }
  exists ps'. split_and!; [done| |].
  - intros p Hp. apply not_elem_of_cons in Hp as [? ?]. rewrite Hother by done. simpl.
    by rewrite lookup_insert_ne.
  - rewrite (Hother (bv_page v) Hni). simpl. rewrite lookup_insert_eq. simpl.
    rewrite <-Hl1, (bwrite_bread_same _ _ _ _ Hpg'). simpl. rewrite Hg. simpl.
    replace ((sector + bv_len v / 512) * 512) with (sector * 512 + bv_len v) by lia.
    destruct (bread_is_Some (dev_data (st_dev s)) (sector * 512 + bv_len v) (vecs_len vecs))
      as [b2 Hb2]; [lia..|].
    rewrite Hb2. simpl. rewrite Hl1. symmetry. by apply bread_app.
Qed.

(** A bio that lies inside the device. *)
Definition bio_in_range (s : store) (b : bio) : Prop :=
  0 <= bi_sector b ∧ Forall (vec_ok (st_pages s)) (bi_io_vec b) ∧
  Forall aligned (bi_io_vec b) ∧
  bi_sector b * KERNEL_SECTOR_SIZE + vecs_len (bi_io_vec b) <= dev_size (st_dev s).

(** A bio whose segments fit their pages and whose end does not wrap around
    2^64: it may lie beyond the device. *)
Definition bio_fits (s : store) (b : bio) : Prop :=
  0 <= bi_sector b ∧ Forall (vec_ok (st_pages s)) (bi_io_vec b) ∧
  bi_sector b * KERNEL_SECTOR_SIZE + vecs_len (bi_io_vec b) < 2^64.

Lemma bio_fits_shape s s' b : same_shape s s' → bio_fits s b → bio_fits s' b.
Proof.
  intros Hsh (?&Hv&?). split_and!; [done| |done].
  eapply Forall_impl; [exact Hv|]. intros. by eapply same_shape_vec_ok.
Qed.

Lemma handle_bios_safe s status bios :
  store_ok s → Forall (bio_fits s) bios → status = BLK_STS_OK →
  ∃ s', handle_bios s status bios = Some (BLK_STS_OK, s') ∧ same_shape s s'.
Proof.
  revert s. induction bios as [|b bios IH]; intros s Hok Hb ->; simpl.
  { exists s. split; [done|apply same_shape_refl]. }
  apply Forall_cons in Hb as [(Hs & Hv & Hw) Hbs]. unfold simple_handle_bio.
  destruct (handle_segments_safe s (bi_sector b) (bi_dir b) (bi_io_vec b)) as [s1 Hs1]; try done.
  rewrite Hs1. simpl. pose proof (handle_segments_shape _ _ _ _ _ Hs1) as Hsh.
  destruct (IH s1) as (s' & Hh & Hsh'); try done.
  - by eapply same_shape_ok.
  - eapply Forall_impl; [exact Hbs|]. intros. by eapply bio_fits_shape.
  - exists s'. split; [done|]. by eapply same_shape_trans.
Qed.

(** ** Properties *)

(** A request goes through its bios, each within the storage and the pages. *)
Lemma simple_queue_rq_spec s req :
  store_ok s → Forall (bio_fits s) req →
  ∃ s', simple_queue_rq s req
          = Some (BLK_STS_OK, s', [StartRequest; EndRequest BLK_STS_OK]) ∧
    store_ok s' ∧ same_shape s s'.
Proof.
  intros Hok Hreq. unfold simple_queue_rq.
  destruct (handle_bios_safe s BLK_STS_OK req) as (s' & Hh & Hsh); try done.
  rewrite Hh. simpl. exists s'. split_and!; [done|by eapply same_shape_ok|done].
Qed.

(** C22: memory safety and completion of the request handler.  For any list of
    bios whose segments fit their pages and whose ends do not wrap around 2^64,
    in range of the device or not, simple_queue_rq touches no byte outside the
    storage and the pages, starts the request, ends it once, with the status it
    returns, and keeps the sizes of storage and pages. *)
Theorem simple_queue_rq_safe s req :
  store_ok s → Forall (bio_fits s) req →
  ∃ s', simple_queue_rq s req
          = Some (BLK_STS_OK, s', [StartRequest; EndRequest BLK_STS_OK]) ∧
    store_ok s' ∧ same_shape s s'.
Proof. apply simple_queue_rq_spec. Qed.

(** A write bio in range stores the bytes of its segments, in their order,
    contiguously from its first sector, changes no other byte of the device and
    no page, and reports success. *)
Theorem write_bio_correct s b bs :
  store_ok s → bio_in_range s b → bi_dir b ≠ READ → gather (st_pages s) (bi_io_vec b) = Some bs →
  ∃ d, simple_queue_rq s [b] =
      Some (BLK_STS_OK, Store (Dev (dev_size (st_dev s)) d) (st_pages s),
            [StartRequest; EndRequest BLK_STS_OK]) ∧
    bread d (bi_sector b * KERNEL_SECTOR_SIZE) (vecs_len (bi_io_vec b)) = Some bs ∧
    ∀ i : nat, Z.of_nat i < bi_sector b * KERNEL_SECTOR_SIZE ∨
        bi_sector b * KERNEL_SECTOR_SIZE + vecs_len (bi_io_vec b) <= Z.of_nat i →
      d !! i = dev_data (st_dev s) !! i.
Proof.
  intros Hok (Hs & Hv & Hal & Hin) Hdir Hg. pose proof (gather_length _ _ _ Hg) as Hl.
  destruct (handle_segments_write s (bi_sector b) (bi_dir b) (bi_io_vec b) bs) as (d & Hd & Hh);
    try done.
  exists d. unfold simple_queue_rq. simpl. unfold simple_handle_bio. rewrite Hh. simpl.
  split_and!; [done| |].
  - rewrite <-Hl. by eapply bwrite_bread_same.
  - rewrite <-Hl. intros i. by apply bwrite_lookup_ne.
Qed.

(** A read bio in range, with its segments on different pages, leaves the
    device and every other page alone and fills its segments, in order, with the
    device's bytes from its first sector on. *)
Theorem read_bio_correct s b :
  store_ok s → bio_in_range s b → bi_dir b = READ → NoDup (bv_page <$> bi_io_vec b) →
  ∃ ps', simple_queue_rq s [b] =
      Some (BLK_STS_OK, Store (st_dev s) ps', [StartRequest; EndRequest BLK_STS_OK]) ∧
    gather ps' (bi_io_vec b) =
      bread (dev_data (st_dev s)) (bi_sector b * KERNEL_SECTOR_SIZE) (vecs_len (bi_io_vec b)) ∧
    ∀ p, p ∉ (bv_page <$> bi_io_vec b) → ps' !! p = st_pages s !! p.
Proof.
  intros Hok (Hs & Hv & Hal & Hin) Hdir Hnd.
  destruct (handle_segments_read s (bi_sector b) (bi_io_vec b)) as (ps' & Hh & Ho & Hg); try done.
  exists ps'. unfold simple_queue_rq. simpl. unfold simple_handle_bio. rewrite Hdir, Hh. done.
Qed.

(** C3: the device is a disk: a read request at the sectors a write request has
    just stored, with segments of the same total length (cut differently or not),
    gets back exactly the bytes written. *)
Theorem write_then_read_bio s w r bs s1 l1 :
  store_ok s → bio_in_range s w → bio_in_range s r →
  bi_dir w = WRITE → bi_dir r = READ → bi_sector r = bi_sector w →
  vecs_len (bi_io_vec r) = vecs_len (bi_io_vec w) → NoDup (bv_page <$> bi_io_vec r) →
  gather (st_pages s) (bi_io_vec w) = Some bs →
  simple_queue_rq s [w] = Some (BLK_STS_OK, s1, l1) →
  ∃ s2 l2, simple_queue_rq s1 [r] = Some (BLK_STS_OK, s2, l2) ∧
    gather (st_pages s2) (bi_io_vec r) = Some bs ∧ dev_data (st_dev s2) = dev_data (st_dev s1).
Proof.
  intros Hok Hw Hr Hwd Hrd Hsec Hlen Hnd Hg Hq.
  assert (store_ok s1 ∧ same_shape s s1) as [Hok1 Hsh].
  { destruct (simple_queue_rq_spec s [w]) as (s1' & Hq' & ? & ?); [done| |simplify_eq; done].
    apply Forall_singleton. destruct Hw as (? & ? & ? & ?), Hok. split_and!; [done..|lia]. }
  destruct Hw as (Hs & Hv & Hal & Hin).
  destruct (handle_segments_write s (bi_sector w) (bi_dir w) (bi_io_vec w) bs) as (d & Hd & Hh);
    try done; [by rewrite Hwd|].
  assert (s1 = Store (Dev (dev_size (st_dev s)) d) (st_pages s)) as ->.
  { unfold simple_queue_rq in Hq. simpl in Hq. unfold simple_handle_bio in Hq.
    rewrite Hh in Hq. simpl in Hq. by injection Hq as <- _. }
  destruct Hr as (Hrs & Hrv & Hra & Hrin). unfold simple_queue_rq. simpl. unfold simple_handle_bio.
  destruct (handle_segments_read (Store (Dev (dev_size (st_dev s)) d) (st_pages s))
    (bi_sector r) (bi_io_vec r)) as (ps' & Hh' & _ & Hg'); try done.
  rewrite Hrd, Hh'. simpl. eexists _, _. split_and!; [done| |done].
  simpl in *. rewrite Hg', Hsec, Hlen, <-(gather_length _ _ _ Hg). by eapply bwrite_bread_same.
Qed.

(** The segments of a bio up to the first that does not lie wholly in the device. *)
Fixpoint cut_segments (size sector : Z) (vecs : list bio_vec) : list bio_vec :=
  match vecs with
  | [] => []
  | v :: vecs =>
      let next := sector + bv_len v / KERNEL_SECTOR_SIZE in
      if size <? next * KERNEL_SECTOR_SIZE then [] else v :: cut_segments size next vecs
  end.
Definition cut_bio (size : Z) (b : bio) : bio :=
  Bio (bi_sector b) (bi_dir b) (cut_segments size (bi_sector b) (bi_io_vec b)).

(** Past the end nothing is transferred, however many segments are left. *)
Lemma handle_segments_beyond s sector dir vecs :
  store_ok s → Forall (λ v, 0 <= bv_len v) vecs → 0 <= sector →
  dev_size (st_dev s) < sector * KERNEL_SECTOR_SIZE → sector * KERNEL_SECTOR_SIZE + vecs_len vecs < 2^64 →
  handle_segments s sector dir vecs = Some s.
Proof.
  intros Hok Hv. revert sector. induction Hv as [|v vecs Hv Hvs IH]; intros sector Hs Hd Hlen; [done|]. simpl in *.
  assert (0 <= vecs_len vecs) by (clear -Hvs; induction Hvs; simpl; lia).
  destruct (sectors_of v Hv) as [? ?]. unfold KERNEL_SECTOR_SIZE in *.
  rewrite transfer_beyond by (done || (unfold KERNEL_SECTOR_SIZE in *; lia)). simpl.
  rewrite u64_small by (unfold is_u64; lia). apply IH; lia.
Qed.

Lemma handle_segments_cut s sector dir vecs :
  store_ok s → Forall (vec_ok (st_pages s)) vecs → 0 <= sector →
  sector * KERNEL_SECTOR_SIZE + vecs_len vecs < 2^64 →
  handle_segments s sector dir vecs = handle_segments s sector dir (cut_segments (dev_size (st_dev s)) sector vecs).
Proof.
  revert s sector. induction vecs as [|v vecs IH]; intros s sector Hok Hv Hs Hlen; [done|]. simpl in *.
  apply Forall_cons in Hv as [Hv Hvs]. pose proof (vecs_len_nonneg _ _ Hvs) as Hnn.
  destruct Hv as (Hvl & _). destruct (sectors_of v) as [? ?]; [lia|]. unfold KERNEL_SECTOR_SIZE in *.
  destruct (Z.ltb_spec (dev_size (st_dev s)) ((sector + bv_len v / 512) * 512)) as [Hout|Hin].
  - rewrite transfer_beyond by (done || (unfold KERNEL_SECTOR_SIZE in *; lia)). simpl.
    rewrite u64_small by (unfold is_u64; lia).
    apply handle_segments_beyond; unfold KERNEL_SECTOR_SIZE; [done| |lia..].
    eapply Forall_impl; [exact Hvs|]. intros v' (? & _). lia.
  - simpl. destruct (simple_transfer _ _ _ _ _ _) as [s1|] eqn:Ht; [|done]. simpl.
    pose proof (transfer_shape _ _ _ _ _ _ _ Ht) as Hsh. unfold KERNEL_SECTOR_SIZE.
    rewrite u64_small by (unfold is_u64; lia). destruct Hsh as (Hsz & Hrest). rewrite <-Hsz.
    apply IH; unfold KERNEL_SECTOR_SIZE; [by eapply same_shape_ok| |lia..].
    eapply Forall_impl; [exact Hvs|]. intros. by eapply same_shape_vec_ok.
Qed.

Lemma handle_bios_cut s status req :
  store_ok s → Forall (bio_fits s) req → status = BLK_STS_OK →
  handle_bios s status req = handle_bios s status (cut_bio (dev_size (st_dev s)) <$> req).
Proof.
  intros Hok Hreq. revert s status Hok Hreq.
  induction req as [|b req IH]; intros s status Hok Hreq Hst; [done|]. simpl.
  apply Forall_cons in Hreq as [Hb Hreq]. unfold simple_handle_bio. simpl.
  rewrite (handle_segments_cut s (bi_sector b) (bi_dir b) (bi_io_vec b)) by (done || apply Hb).
  destruct (handle_segments _ _ _ _) as [s1|] eqn:Hh; [|done]. simpl.
  pose proof (handle_segments_shape _ _ _ _ _ Hh) as Hsh. rewrite <-(proj1 Hsh).
  apply IH; [by eapply same_shape_ok| |done].
  eapply Forall_impl; [exact Hreq|]. intros. by eapply bio_fits_shape.
Qed.

(** C27: a request that goes beyond the end of the device is cut there and still
    reported as completed without error.  Any list of bios whose ends do not wrap,
    with any number of segments, in either direction, does exactly what the request
    does in which each bio ends before its first segment that is not wholly inside
    the device; the status is BLK_STS_OK all the same; and when the first segment
    of every bio already goes beyond the end, no byte moves. *)
Theorem beyond_end_reported_ok s req :
  store_ok s → Forall (bio_fits s) req →
  let size := dev_size (st_dev s) in
  simple_queue_rq s req = simple_queue_rq s (cut_bio size <$> req) ∧
  (∃ s', simple_queue_rq s req = Some (BLK_STS_OK, s', [StartRequest; EndRequest BLK_STS_OK])) ∧
  (Forall (λ b, cut_segments size (bi_sector b) (bi_io_vec b) = []) req →
   simple_queue_rq s req = Some (BLK_STS_OK, s, [StartRequest; EndRequest BLK_STS_OK])).
Proof.
  intros Hok Hreq size. assert (simple_queue_rq s req = simple_queue_rq s (cut_bio size <$> req)) as Hcut.
  { unfold simple_queue_rq. by rewrite handle_bios_cut. }
  split; [done|]. split.
  - destruct (simple_queue_rq_spec s req) as (s' & -> & _); eauto.
  - intros Hall. rewrite Hcut. unfold simple_queue_rq.
    assert (handle_bios s BLK_STS_OK (cut_bio size <$> req) = Some (BLK_STS_OK, s)) as ->; [|done].
    clear Hcut Hreq. induction Hall as [|b req Hb _ IH]; [done|]. simpl. unfold simple_handle_bio. simpl.
    rewrite Hb. simpl. exact IH.
Qed.

(** The range check of simple_transfer adds offset and length modulo 2^64.
    For the last sector number before the wrap the sum is 0, the check passes,
    and the copy would start 512 bytes before the storage (here undefined). *)
Theorem range_check_wraps s page pg :
  store_ok s → st_pages s !! page = Some pg → 512 <= blen pg →
  u64 ((2^55 - 1) * KERNEL_SECTOR_SIZE) = 2^64 - 512 ∧
  simple_transfer s (2^55 - 1) 1 page 0 WRITE = None ∧
  simple_transfer s (2^55 - 1) 1 page 0 READ = None.
Proof.
  intros [Hl Hs] Hpg Hlen. split; [done|]. unfold simple_transfer. rewrite Hpg.
  change (u64 ((2^55 - 1) * KERNEL_SECTOR_SIZE)) with (2^64 - 512).
  change (u64 (1 * KERNEL_SECTOR_SIZE)) with 512.
  change (u64 (2^64 - 512 + 512)) with 0. rewrite (u64_small (dev_size _)) by wrap_lia.
  rewrite (proj2 (Z.ltb_ge _ 0)) by lia. simpl. rewrite (bread_Some pg) by lia. simpl.
  rewrite bwrite_None, bread_None by lia. done.
Qed.

(** *** Witnesses: a device of four sectors and two pages *)

Definition wdev : store :=
  Store (Dev 2048 (bfill 0 2048)) (<[1 := bfill 7 1024]> {[2 := bfill 9 4096]}).
Definition wbio : bio := Bio 1 WRITE [BioVec 1 512 512; BioVec 2 512 0].
Definition rbio : bio := Bio 1 READ [BioVec 2 1024 64].

Lemma wdev_ok : store_ok wdev.
Proof. split; [reflexivity|simpl; lia]. Qed.

Lemma wdev_vec_ok v :
  bv_page v = 1 ∧ 0 <= bv_offset v ∧ 0 <= bv_len v ∧ bv_offset v + bv_len v <= 1024 ∨
  bv_page v = 2 ∧ 0 <= bv_offset v ∧ 0 <= bv_len v ∧ bv_offset v + bv_len v <= 4096 →
  vec_ok (st_pages wdev) v.
Proof.
  intros [(Hp&?&?&?)|(Hp&?&?&?)]; split_and!; try lia; eexists;
    (split; [rewrite Hp; reflexivity|]); rewrite blen_bfill; lia.
Qed.

Lemma wbio_in_range : bio_in_range wdev wbio.
Proof.
  split_and!; [simpl; lia| | |vm_compute; discriminate].
  - repeat constructor; apply wdev_vec_ok; simpl; lia.
  - repeat constructor; by exists 1.
Qed.

Lemma rbio_in_range : bio_in_range wdev rbio.
Proof.
  split_and!; [simpl; lia| | |vm_compute; discriminate].
  - repeat constructor; apply wdev_vec_ok; simpl; lia.
  - repeat constructor; by exists 2.
Qed.

Lemma bio_in_range_fits s b : store_ok s → bio_in_range s b → bio_fits s b.
Proof. intros [? ?] (?&?&?&?). split_and!; [done..|lia]. Qed.

Lemma simple_queue_rq_safe_witness :
  ∃ s', simple_queue_rq wdev [wbio; rbio]
    = Some (BLK_STS_OK, s', [StartRequest; EndRequest BLK_STS_OK]).
Proof.
  destruct (simple_queue_rq_safe wdev [wbio; rbio]) as (s' & Hq & _); [apply wdev_ok| |].
  - constructor; [apply bio_in_range_fits; [apply wdev_ok|apply wbio_in_range]|].
    constructor; [apply bio_in_range_fits; [apply wdev_ok|apply rbio_in_range]|constructor].
  - exists s'. exact Hq.
Defined.

Lemma write_bio_correct_witness :
  ∃ d, bread d 512 1024 = Some (bfill 7 512 ++ bfill 9 512) ∧
    simple_queue_rq wdev [wbio] =
      Some (BLK_STS_OK, Store (Dev 2048 d) (st_pages wdev), [StartRequest; EndRequest BLK_STS_OK]).
Proof.
  destruct (write_bio_correct wdev wbio (bfill 7 512 ++ bfill 9 512)) as (d & Hq & Hr & _);
    [apply wdev_ok|apply wbio_in_range|discriminate|vm_compute; reflexivity|].
  exists d. split; [exact Hr|exact Hq].
Defined.

Lemma read_bio_correct_witness :
  ∃ ps', gather ps' (bi_io_vec rbio) = Some (bfill 0 1024) ∧
    simple_queue_rq wdev [rbio] =
      Some (BLK_STS_OK, Store (st_dev wdev) ps', [StartRequest; EndRequest BLK_STS_OK]).
Proof.
  destruct (read_bio_correct wdev rbio) as (ps' & Hq & Hg & _);
    [apply wdev_ok|apply rbio_in_range|reflexivity|apply NoDup_singleton|].
  exists ps'. split; [rewrite Hg; vm_compute; reflexivity|exact Hq].
Defined.

Lemma write_then_read_bio_witness :
  ∃ s1 l1 s2 l2, simple_queue_rq wdev [wbio] = Some (BLK_STS_OK, s1, l1) ∧
    simple_queue_rq s1 [rbio] = Some (BLK_STS_OK, s2, l2) ∧
    gather (st_pages s2) (bi_io_vec rbio) = Some (bfill 7 512 ++ bfill 9 512).
Proof.
  destruct (simple_queue_rq wdev [wbio]) as [[[st s1] l1]|] eqn:Hq; [|vm_compute in Hq; discriminate].
  assert (st = BLK_STS_OK) as -> by (vm_compute in Hq; by injection Hq as <- _ _).
  destruct (write_then_read_bio wdev wbio rbio (bfill 7 512 ++ bfill 9 512) s1 l1)
    as (s2 & l2 & Hr & Hg & _);
    [apply wdev_ok|apply wbio_in_range|apply rbio_in_range|reflexivity..|apply NoDup_singleton
    |vm_compute; reflexivity|exact Hq|].
  exists s1, l1, s2, l2. split_and!; [reflexivity|exact Hr|exact Hg].
Defined.

(** A write of two sectors, the second past the end of the device: only the first is
    stored; and one wholly past it. *)
Definition wcross : bio := Bio 3 WRITE [BioVec 1 512 0; BioVec 2 512 0].
Definition wbeyond : bio := Bio 4 WRITE [BioVec 1 512 0].

Lemma wcross_fits : bio_fits wdev wcross ∧ bio_fits wdev wbeyond.
Proof.
  split; split_and!; try (simpl; unfold KERNEL_SECTOR_SIZE; lia); repeat constructor; apply wdev_vec_ok; simpl; lia.
Qed.

Lemma beyond_end_reported_ok_witness :
  simple_queue_rq wdev [wcross] = simple_queue_rq wdev [Bio 3 WRITE [BioVec 1 512 0]] ∧
  simple_queue_rq wdev [wbeyond] = Some (BLK_STS_OK, wdev, [StartRequest; EndRequest BLK_STS_OK]).
Proof.
  split.
  - apply (beyond_end_reported_ok wdev [wcross]); [apply wdev_ok|apply Forall_singleton, wcross_fits].
  - apply (beyond_end_reported_ok wdev [wbeyond]);
      [apply wdev_ok|apply Forall_singleton, wcross_fits|apply Forall_singleton; reflexivity].
Defined.

Lemma range_check_wraps_witness :
  simple_transfer wdev (2^55 - 1) 1 1 0 WRITE = None.
Proof.
  apply (range_check_wraps wdev 1 (bfill 7 1024));
    [apply wdev_ok|reflexivity|vm_compute; discriminate].
Defined.

End IO.

(** ** Registration *)
Module Reg.
#[local] Open Scope kernel_scope.

(** The kernel calls of simple_block_init and simple_block_exit. *)
Inductive call :=
| Kzalloc | Kfree (p : Z)
| Vmalloc (n : Z) | Vfree (p : Z)
| RegisterBlkdev | UnregisterBlkdev (major : Z)
| AllocTagSet | FreeTagSet
| AllocDisk | PutDisk (gd : Z)
| LogicalBlockSize (queue n : Z) | PhysicalBlockSize (queue n : Z)
| SetCapacity (gd n : Z)
| AddDisk (gd : Z) | DelGendisk (gd : Z)
| GdQueue (gd : Z).

Inductive resource :=
| RMem (p : Z) | RVmem (p : Z) | RMajor (m : Z) | RTagSet | RDisk (gd : Z) | RAdded (gd : Z).

#[export] Instance resource_eq : EqDecision resource.
Proof. solve_decision. Defined.

(** What each call acquires when it answers [r], and releases. *)
Definition acq (c : call) (r : Z) : option resource :=
  match c with
  | Kzalloc => if r =? NULL then None else Some (RMem r)
  | Vmalloc _ => if r =? NULL then None else Some (RVmem r)
  | RegisterBlkdev => if r <? 0 then None else Some (RMajor r)
  | AllocTagSet => if r =? 0 then Some RTagSet else None
  | AllocDisk => if IS_ERR r then None else Some (RDisk r)
  | AddDisk gd => if r =? 0 then Some (RAdded gd) else None
  | _ => None
  end.

Definition rel (c : call) : option resource :=
  match c with
  | Kfree p => Some (RMem p)
  | Vfree p => Some (RVmem p)
  | UnregisterBlkdev m => Some (RMajor m)
  | FreeTagSet => Some RTagSet
  | PutDisk gd => Some (RDisk gd)
  | DelGendisk gd => Some (RAdded gd)
  | _ => None
  end.

(** struct blk_mq_tag_set, the fields the module sets. *)
Record tag_set := TagSet {
  nr_hw_queues : Z; queue_depth : Z; numa_node : Z; cmd_size : Z; flags : Z; driver_data : Z
}.

(** struct gendisk, the fields the module sets. *)
Record gendisk := Gendisk {
  major : Z; first_minor : Z; minors : Z; private_data : Z; disk_name : bytes
}.

(** The static variables, and the device structure Device points to. *)
Record state := State {
  Device : Z; major_num : Z;
  size : Z; data : Z; queue : Z; gd : Z; ts : tag_set; disk : gendisk
}.

Definition SIMPLE_BLOCK_MINORS : Z := 16.
Definition NUMA_NO_NODE : Z := -1.
Definition BLK_MQ_F_SHOULD_MERGE : Z := 1.

Definition set_Device p s := State p (major_num s) (size s) (data s) (queue s) (gd s) (ts s) (disk s).
Definition set_major m s := State (Device s) m (size s) (data s) (queue s) (gd s) (ts s) (disk s).
Definition set_size_data n p s := State (Device s) (major_num s) n p (queue s) (gd s) (ts s) (disk s).
Definition set_ts t s := State (Device s) (major_num s) (size s) (data s) (queue s) (gd s) t (disk s).
Definition set_gd p s := State (Device s) (major_num s) (size s) (data s) (queue s) p (ts s) (disk s).
Definition set_disk d s := State (Device s) (major_num s) (size s) (data s) (queue s) (gd s) (ts s) d.
Definition set_queue q s := State (Device s) (major_num s) (size s) (data s) q (gd s) (ts s) (disk s).

(** The labels at the end of simple_block_init, each falling through to the
    next. *)
Definition out_free_dev (ret : Z) : K call state Z :=
  p <-k kget Device; kcall (Kfree p) ;;k kmod (set_Device NULL) ;;k kret ret.
Definition out_free_data (ret : Z) : K call state Z :=
  p <-k kget data; kcall (Vfree p) ;;k out_free_dev ret.
Definition out_unreg_blk (ret : Z) : K call state Z :=
  m <-k kget major_num; kcall (UnregisterBlkdev m) ;;k out_free_data ret.
Definition out_free_tag_set (ret : Z) : K call state Z :=
  kcall FreeTagSet ;;k out_unreg_blk ret.
Definition out_cleanup_disk (ret : Z) : K call state Z :=
  p <-k kget gd; kcall (PutDisk p) ;;k out_free_tag_set ret.

Definition simple_block_init : K call state Z :=
  p <-k kcall Kzalloc;
  kmod (set_Device p) ;;k
  if p =? NULL then kret (- ENOMEM) else
  d <-k kcall (Vmalloc IO.SIMPLE_BLOCK_SIZE);
  kmod (set_size_data IO.SIMPLE_BLOCK_SIZE d) ;;k
  if d =? NULL then out_free_dev (- ENOMEM) else
  m <-k kcall RegisterBlkdev;
  kmod (set_major m) ;;k
  if m <? 0 then out_free_data m else
  kmod (λ s, set_ts (TagSet 1 128 NUMA_NO_NODE 0 BLK_MQ_F_SHOULD_MERGE (Device s)) s) ;;k
  ret <-k kcall AllocTagSet;
  if negb (ret =? 0) then out_unreg_blk ret else
  g <-k kcall AllocDisk;
  kmod (set_gd g) ;;k
  if IS_ERR g then out_free_tag_set (PTR_ERR g) else
  kmod (λ s, set_disk (Gendisk (major_num s) 0 SIMPLE_BLOCK_MINORS (Device s) (lit "simple_block")) s) ;;k
  q <-k kcall (GdQueue g);
  kmod (set_queue q) ;;k
  kcall (LogicalBlockSize q IO.KERNEL_SECTOR_SIZE) ;;k
  kcall (PhysicalBlockSize q IO.KERNEL_SECTOR_SIZE) ;;k
  kcall (SetCapacity g (IO.SIMPLE_BLOCK_SIZE / IO.KERNEL_SECTOR_SIZE)) ;;k
  ret <-k kcall (AddDisk g);
  if negb (ret =? 0) then out_cleanup_disk ret else
  kret 0.

Definition simple_block_exit : K call state unit :=
  p <-k kget Device;
  if negb (p =? NULL) then
    g <-k kget gd; d <-k kget data; m <-k kget major_num;
    kcall (DelGendisk g) ;;k kcall (PutDisk g) ;;k kcall FreeTagSet ;;k
    kcall (UnregisterBlkdev m) ;;k kcall (Vfree d) ;;k kcall (Kfree p) ;;k
    kmod (set_Device NULL)
  else kret tt.

(** Loading and unloading the block driver leaks nothing and releases
    nothing twice, whatever each kernel call answers: when init fails, everything
    it acquired is released, in reverse order, and Device is NULL again; when it
    returns 0, exactly the six acquisitions are held, the disk has the capacity
    of the storage in sectors, and exit releases them all in reverse order. *)
Theorem simple_block_init_exit (e : env call) (s : state) :
  Device s = NULL →
  let '(ret, w) := simple_block_init e (KWorld s []) in
  let '(_, w') := simple_block_exit e w in
  (ret ≠ 0 → held_run acq rel [] (ktr w) = Some [] ∧ Device (kst w) = NULL ∧ ktr w' = ktr w) ∧
  (ret = 0 →
     held_run acq rel [] (ktr w) =
       Some [RAdded (gd (kst w)); RDisk (gd (kst w)); RTagSet; RMajor (major_num (kst w));
             RVmem (data (kst w)); RMem (Device (kst w))] ∧
     Device (kst w) ≠ NULL ∧ size (kst w) = 1048576 ∧
     (SetCapacity (gd (kst w)) 2048) ∈ (ktr w).*1 ∧
     held_run acq rel [] (ktr w') = Some [] ∧ Device (kst w') = NULL).
Proof.
  intros Hs. unfold simple_block_init, out_cleanup_disk, out_free_tag_set, out_unreg_blk,
    out_free_data, out_free_dev.
  destruct s. simpl in Hs. subst.
  all: repeat kstep; unfold simple_block_exit; repeat kstep;
    cbn [Device major_num size data queue gd ts disk set_Device set_major set_size_data set_ts
         set_gd set_disk set_queue] in *.
  all: unfold acq, rel; split; intros Hret; kheld; zbool; split_and?; try done; try lia;
    try (by apply PTR_ERR_nonzero in Hret); try (apply list_elem_of_In; simpl; repeat first [left; reflexivity | right]).
Qed.

(** An environment in which everything succeeds, and one in which add_disk does
    not. *)
Definition good_env : env call := λ _ c,
  match c with Kzalloc => 100 | Vmalloc _ => 200 | RegisterBlkdev => 250 | AllocDisk => 300
  | GdQueue _ => 400 | _ => 0 end.

Lemma simple_block_init_exit_witness :
  let s := State NULL 0 0 0 0 0 (TagSet 0 0 0 0 0 0) (Gendisk 0 0 0 0 []) in
  let '(ret, w) := simple_block_init good_env (KWorld s []) in
  let '(_, w') := simple_block_exit good_env w in
  ret = 0 ∧ held_run acq rel [] (ktr w') = Some [].
Proof.
  intros s. pose proof (simple_block_init_exit good_env s eq_refl) as H.
  destruct (simple_block_init good_env (KWorld s [])) as [ret w] eqn:E.
  destruct (simple_block_exit good_env w) as [u w'].
  assert (ret = 0) as -> by (vm_compute in E; by injection E as <- _).
  split; [reflexivity|]. apply H. reflexivity.
Defined.
End Reg.
