(* ===== verification/VmaDev.v ===== *)
(** * The memory-mapped device (examples/class_7/02_vma_allocation/vma_allocation.c)

    A four-page kernel buffer that user code reads, writes and maps.  The file
    models the page-fault handler, mmap, read and write over the buffer, and the
    registration path. *)
From S2P Require Import Prelude Bytes Kernel CharDev.

Definition BUFFER_SIZE : Z := PAGE_SIZE * 4.
Definition VM_FAULT_SIGBUS : Z := 2.
Definition VM_DONTEXPAND : Z := 0x00040000.
Definition VM_DONTDUMP : Z := 0x04000000.

(** ** Mapping *)

Inductive vm_operations := no_vm_ops | example_vm_ops.

(** struct vm_area_struct, the fields the module uses. *)
Record vm_area := VmArea {
  vm_start : Z; vm_end : Z; vm_pgoff : Z; vm_flags : Z;
  vm_private_data : Z; vm_ops : vm_operations
}.

(** struct vm_fault: the faulting address and its page offset in the file. *)
Record vm_fault := VmFault { address : Z; pgoff : Z }.

(** What the handler did: its code, the page it stored in vmf->page (NULL if
    none) and the pages it took a reference to. *)
Record fault_result := FaultResult { code : Z; fault_page : Z; got : list Z }.

(** example_vma_fault.  [buffer] is the buffer's address; vmalloc_to_page is the
    kernel's. *)
Definition example_vma_fault (vmalloc_to_page : Z → Z) (buffer : Z) (vma : vm_area)
    (vmf : vm_fault) : fault_result :=
  let offset := u64 (u64 (address vmf - vm_start vma) + u64 (Z.shiftl (vm_pgoff vma) PAGE_SHIFT)) in
  if BUFFER_SIZE <=? offset then FaultResult VM_FAULT_SIGBUS NULL []
  else
    let page_ptr := u64 (buffer + u64 (pgoff vmf * PAGE_SIZE)) in
    let page := vmalloc_to_page page_ptr in
    if page =? NULL then FaultResult VM_FAULT_SIGBUS NULL []
    else FaultResult 0 page [page].

(** example_char_mmap; [dev] is vma_dev. *)
Definition example_char_mmap (dev : Z) (vma : vm_area) : Z * vm_area :=
  let size := u64 (vm_end vma - vm_start vma) in
  if BUFFER_SIZE <? size then (- EINVAL, vma)
  else (0, VmArea (vm_start vma) (vm_end vma) (vm_pgoff vma)
             (Z.lor (vm_flags vma) (Z.lor VM_DONTEXPAND VM_DONTDUMP)) dev example_vm_ops).

(** ** Reading and writing *)

Section rw.
Context {U M : Type} `{UserAccess U} `{Mutex M}.

(** example_char_read: the result, the position, the user memory and the mutex. *)
Definition example_char_read (buffer : bytes) (m : M) (u : U) (buf count ppos : Z)
    : option (Z * Z * U * M) :=
  let '(intr, m) := mutex_lock_interruptible m in
  if negb (intr =? 0) then Some (- ERESTARTSYS, ppos, u, m)
  else if BUFFER_SIZE <=? u64 ppos then Some (0, ppos, u, mutex_unlock m)
  else
    let count := if BUFFER_SIZE <? u64 (ppos + count) then u64 (BUFFER_SIZE - ppos) else count in
    bs ← bread buffer ppos count;
    let '(nleft, u') := copy_to_user u buf bs in
    if negb (nleft =? 0) then Some (- EFAULT, ppos, u', mutex_unlock m)
    else Some (s64 count, s64 (ppos + count), u', mutex_unlock m).

(** example_char_write: also the new buffer.  A copy that fails has already
    changed it. *)
Definition example_char_write (buffer : bytes) (m : M) (u : U) (buf count ppos : Z)
    : option (Z * Z * bytes * M) :=
  let '(intr, m) := mutex_lock_interruptible m in
  if negb (intr =? 0) then Some (- ERESTARTSYS, ppos, buffer, m)
  else if BUFFER_SIZE <=? u64 ppos then Some (- ENOSPC, ppos, buffer, mutex_unlock m)
  else
    let count := if BUFFER_SIZE <? u64 (ppos + count) then u64 (BUFFER_SIZE - ppos) else count in
    let '(nleft, bs) := copy_from_user u buf count in
    b' ← bwrite buffer ppos bs;
    if negb (nleft =? 0) then Some (- EFAULT, ppos, b', mutex_unlock m)
    else Some (s64 count, s64 (ppos + count), b', mutex_unlock m).
End rw.

(** The buffer as init leaves it: the pattern, then the greeting over it. *)
Definition greeting : bytes := chars "Hello from kernel VMA example!" ++ [10].
Definition init_buffer : option bytes :=
  '(_, b) ← sprintf (bfill 0x42 BUFFER_SIZE) 0 greeting; Some b.

(** ** Page faults *)

(** The offset in the buffer a virtual address of the mapping stands for. *)
Definition file_offset (vma : vm_area) (addr : Z) : Z :=
  u64 (addr - vm_start vma + vm_pgoff vma * PAGE_SIZE).

(** What the memory manager guarantees of a fault: the address lies in the area,
    the area starts on a page boundary, and pgoff is linear_page_index. *)
Definition fault_in (vma : vm_area) (vmf : vm_fault) : Prop :=
  0 <= vm_start vma ∧ vm_start vma <= address vmf < vm_end vma ∧ vm_end vma < 2^64 ∧
  (PAGE_SIZE | vm_start vma) ∧ is_u64 (vm_pgoff vma) ∧
  pgoff vmf = u64 (vm_pgoff vma + (address vmf - vm_start vma) / PAGE_SIZE).

Lemma fault_offset vma vmf :
  fault_in vma vmf →
  u64 (u64 (address vmf - vm_start vma) + u64 (Z.shiftl (vm_pgoff vma) PAGE_SHIFT))
    = file_offset vma (address vmf).
Proof.
  intros. unfold file_offset. rewrite u64_add_l, u64_add_r.
  by rewrite Z.shiftl_mul_pow2 by (unfold PAGE_SHIFT; lia).
Qed.

Lemma fault_page_offset vma vmf :
  fault_in vma vmf →
  u64 (pgoff vmf * PAGE_SIZE) = PAGE_SIZE * (file_offset vma (address vmf) / PAGE_SIZE).
Proof.
  intros (?&?&?&_&?&->). unfold file_offset. unfold is_u64 in *.
  generalize (address vmf - vm_start vma) (vm_pgoff vma). intros d g. wrap_lia.
Qed.

(** The page-fault handler never hands out a page outside the buffer.  For
    every fault the memory manager can raise, also where the offset computation
    wraps around 2^64, it signals SIGBUS, with no page and no reference taken,
    exactly when the offset of the address is outside the four pages or the page
    has no struct page; otherwise it returns the page of the buffer that contains
    the offset, with one reference. *)
Theorem example_vma_fault_correct vmalloc_to_page buffer vma vmf :
  fault_in vma vmf →
  let off := file_offset vma (address vmf) in
  let page := vmalloc_to_page (u64 (buffer + PAGE_SIZE * (off / PAGE_SIZE))) in
  example_vma_fault vmalloc_to_page buffer vma vmf =
    (if (BUFFER_SIZE <=? off) || (page =? NULL) then FaultResult VM_FAULT_SIGBUS NULL []
     else FaultResult 0 page [page]) ∧
  (off < BUFFER_SIZE → 0 <= off / PAGE_SIZE < 4).
Proof.
  intros Hf. simpl. unfold example_vma_fault.
  rewrite fault_offset, (fault_page_offset vma) by done. split.
  - destruct (BUFFER_SIZE <=? file_offset vma (address vmf)); simpl; [done|].
    by destruct (_ =? NULL).
  - intros Hoff. pose proof (u64_bound (address vmf - vm_start vma + vm_pgoff vma * PAGE_SIZE)).
    unfold file_offset, BUFFER_SIZE, is_u64, PAGE_SIZE in *. Z.to_euclidean_division_equations; lia.
Qed.

(** A mapping that mmap accepts at file offset 0 is backed completely: it is
    marked not expandable and not dumpable, gets the device's operations, and a
    fault at any of its addresses is served with the page of the buffer at that
    distance from the start; a mapping longer than the buffer is refused with
    -EINVAL and left as it was. *)
Theorem example_char_mmap_backed dev vma vma' r vmalloc_to_page buffer :
  0 <= vm_start vma <= vm_end vma → vm_end vma < 2^64 →
  (∀ k, 0 <= k < 4 → vmalloc_to_page (u64 (buffer + PAGE_SIZE * k)) ≠ NULL) →
  example_char_mmap dev vma = (r, vma') →
  (BUFFER_SIZE < vm_end vma - vm_start vma ∧ r = - EINVAL ∧ vma' = vma) ∨
  (vm_end vma - vm_start vma <= BUFFER_SIZE ∧ r = 0 ∧
   vm_ops vma' = example_vm_ops ∧ vm_private_data vma' = dev ∧
   Z.testbit (vm_flags vma') 18 = true ∧ Z.testbit (vm_flags vma') 26 = true ∧
   (vm_pgoff vma = 0 → ∀ vmf, fault_in vma' vmf →
      let page := vmalloc_to_page
        (u64 (buffer + PAGE_SIZE * ((address vmf - vm_start vma) / PAGE_SIZE))) in
      example_vma_fault vmalloc_to_page buffer vma' vmf = FaultResult 0 page [page])).
Proof.
  intros Hs He Hpages. unfold example_char_mmap. rewrite u64_small by (unfold is_u64; lia).
  destruct (Z.ltb_spec BUFFER_SIZE (vm_end vma - vm_start vma)); intros [= <- <-]; [by left|].
  right. split_and!; [lia|done..| | |].
  - cbn [vm_flags]. rewrite Z.lor_spec. by apply orb_true_intro; right.
  - cbn [vm_flags]. rewrite Z.lor_spec. by apply orb_true_intro; right.
  - intros Hg vmf Hf. simpl. unfold example_vma_fault.
    rewrite fault_offset by done. erewrite fault_page_offset by done.
    destruct Hf as (_ & Ha & _). unfold file_offset in *. simpl in *.
    rewrite Hg, Z.mul_0_l, Z.add_0_r in *. unfold BUFFER_SIZE, PAGE_SIZE in *.
    rewrite u64_small by (unfold is_u64; lia).
    rewrite (proj2 (Z.leb_gt _ _)) by lia.
    rewrite (proj2 (Z.eqb_neq _ NULL)); [done|].
    apply Hpages. Z.to_euclidean_division_equations; lia.
Qed.

Definition wvma : vm_area := VmArea 0x10000 0x14000 0 0 0 no_vm_ops.

Lemma example_vma_fault_correct_witness :
  example_vma_fault (λ p, p + 1) 0x100000 (VmArea 0x10000 0x14000 2 0 0 no_vm_ops)
    (VmFault 0x11004 3) = FaultResult 0 0x103001 [0x103001].
Proof.
  apply (example_vma_fault_correct (λ p, p + 1) 0x100000
    (VmArea 0x10000 0x14000 2 0 0 no_vm_ops) (VmFault 0x11004 3)).
  split_and!; simpl; try lia; [by exists 16|done|reflexivity].
Defined.

Lemma example_char_mmap_backed_witness :
  (example_char_mmap 7 wvma).1 = 0 ∧
  example_vma_fault (λ p, p + 1) 0x100000 (example_char_mmap 7 wvma).2 (VmFault 0x12000 2)
    = FaultResult 0 0x102001 [0x102001].
Proof.
  destruct (example_char_mmap_backed 7 wvma (example_char_mmap 7 wvma).2
    (example_char_mmap 7 wvma).1 (λ p, p + 1) 0x100000)
    as [(H & _)|(_ & Hr & _ & _ & _ & _ & Hf)]; simpl; try lia; [|reflexivity|vm_compute in H; discriminate|].
  - intros k Hk. rewrite u64_small by (unfold is_u64, PAGE_SIZE; lia). unfold NULL, PAGE_SIZE. lia.
  - split; [exact Hr|]. apply (Hf eq_refl (VmFault 0x12000 2)).
    split_and!; simpl; try lia; [by exists 16|done|reflexivity].
Defined.

(** ** Reading and writing the buffer *)

Section rw_facts.
Context {U M : Type} `{UserAccessLaws U} `{MutexLaws M}.
Implicit Types (u : U) (m : M).

(** How many bytes a transfer moves. *)
Definition xfer (count ppos : Z) : Z := Z.min count (BUFFER_SIZE - ppos).

Lemma clamp_xfer count ppos :
  0 <= ppos < BUFFER_SIZE → 0 <= count <= MAX_RW_COUNT →
  (if BUFFER_SIZE <? u64 (ppos + count) then u64 (BUFFER_SIZE - ppos) else count) = xfer count ppos
  ∧ 0 <= xfer count ppos ∧ ppos + xfer count ppos <= BUFFER_SIZE.
Proof.
  unfold xfer, BUFFER_SIZE, PAGE_SIZE, MAX_RW_COUNT. intros.
  rewrite !u64_small by (unfold is_u64; lia).
  destruct (Z.ltb_spec (4096 * 4) (ppos + count)); lia.
Qed.

(** What a read does once it has the mutex. *)
Definition read_spec (buffer : bytes) u (buf count ppos : Z) : Z * Z * U :=
  if BUFFER_SIZE <=? ppos then (0, ppos, u)
  else
    let '(nleft, u') := copy_to_user u buf
      (take (Z.to_nat (xfer count ppos)) (drop (Z.to_nat ppos) buffer)) in
    if negb (nleft =? 0) then (- EFAULT, ppos, u')
    else (xfer count ppos, ppos + xfer count ppos, u').

(** The device's read copies exactly the bytes of the buffer from the position
    on, clipped to its end, for any count the VFS passes; it returns 0 at or past
    the end, -EFAULT with the position unchanged when the copy fails, and
    -ERESTARTSYS, touching nothing, when the lock attempt is interrupted; on every
    path the mutex is free again. *)
Lemma example_char_read_spec buffer m u buf count ppos :
  blen buffer = BUFFER_SIZE → held m = false →
  0 <= ppos < 2^63 → 0 <= count <= MAX_RW_COUNT →
  ∃ m', held m' = false ∧
    example_char_read buffer m u buf count ppos =
      Some (if negb ((mutex_lock_interruptible m).1 =? 0) then (- ERESTARTSYS, ppos, u)
            else read_spec buffer u buf count ppos, m').
Proof.
  intros Hb Hm Hp Hc. unfold example_char_read, read_spec.
  pose proof (mutex_lock_interruptible_held m Hm) as Hok.
  pose proof (mutex_lock_interruptible_fail m) as Hfail.
  destruct (mutex_lock_interruptible m) as [intr m1]. simpl in *.
  destruct (Z.eqb_spec intr 0) as [->|Hi]; simpl; cycle 1.
  { exists m1. split; [|done]. by rewrite Hfail. }
  exists (mutex_unlock m1). split; [apply mutex_unlock_free; auto|].
  rewrite (u64_small ppos) by wrap_lia.
  destruct (Z.leb_spec BUFFER_SIZE ppos); [done|].
  destruct (clamp_xfer count ppos) as (-> & ? & ?); [lia|done|].
  rewrite bread_Some by lia. simpl.
  destruct (copy_to_user u buf _) as [nl u']. destruct (negb _); [done|].
  unfold BUFFER_SIZE, PAGE_SIZE in *. rewrite !s64_small by (unfold is_s64; lia). done.
Qed.

Lemma example_char_write_spec buffer m u buf count ppos :
  blen buffer = BUFFER_SIZE → held m = false →
  0 <= ppos < BUFFER_SIZE → 0 <= count <= MAX_RW_COUNT →
  (mutex_lock_interruptible m).1 = 0 →
  ∃ m' b', held m' = false ∧
    bwrite buffer ppos (copy_from_user u buf (xfer count ppos)).2 = Some b' ∧
    example_char_write buffer m u buf count ppos =
      Some (if negb ((copy_from_user u buf (xfer count ppos)).1 =? 0) then (- EFAULT, ppos, b', m')
            else (xfer count ppos, ppos + xfer count ppos, b', m')).
Proof.
  intros Hb Hm Hp Hc Hi. unfold example_char_write.
  pose proof (mutex_lock_interruptible_held m Hm Hi) as Hok.
  destruct (mutex_lock_interruptible m) as [intr m1]. simpl in *. subst intr. simpl.
  rewrite (u64_small ppos) by (unfold is_u64, BUFFER_SIZE, PAGE_SIZE in *; lia).
  rewrite (proj2 (Z.leb_gt _ _)) by lia.
  destruct (clamp_xfer count ppos) as (-> & ? & ?); [done..|].
  pose proof (copy_from_user_length u buf (xfer count ppos) ltac:(lia)) as Hl.
  destruct (copy_from_user u buf _) as [nl bs]. simpl in *.
  destruct (bwrite buffer ppos bs) as [b'|] eqn:Hw; cycle 1.
  { apply eq_None_not_Some in Hw. destruct Hw. apply bwrite_is_Some. lia. }
  exists (mutex_unlock m1), b'. split_and!; [apply mutex_unlock_free; auto|done|].
  simpl. destruct (negb _); [done|].
  unfold BUFFER_SIZE, PAGE_SIZE in *. rewrite !s64_small by (unfold is_s64; lia). done.
Qed.

(** What is written to the device is what is read from it.  A write at a
    position inside the buffer that reports r bytes has stored the first r bytes
    the user offered and no other byte has changed; a read of at least r bytes at
    the same position that reports success delivers them. *)
Theorem vma_write_then_read buffer m m' b' u u' v buf count buf' ppos r p' r2 p2 m2 :
  blen buffer = BUFFER_SIZE → held m = false → held m' = false →
  0 <= ppos < BUFFER_SIZE → 0 <= count <= MAX_RW_COUNT →
  (mutex_lock_interruptible m).1 = 0 →
  example_char_write buffer m u buf count ppos = Some (r, p', b', m') → 0 <= r →
  example_char_read b' m' v buf' r ppos = Some (r2, p2, u', m2) → 0 <= r2 →
  (mutex_lock_interruptible m').1 = 0 →
  r = Z.min count (BUFFER_SIZE - ppos) ∧ p' = ppos + r ∧ blen b' = BUFFER_SIZE ∧
  (∀ i : nat, Z.of_nat i < ppos ∨ ppos + r <= Z.of_nat i → b' !! i = buffer !! i) ∧
  r2 = r ∧ uload u' buf' r = uload u buf r.
Proof.
  intros Hb Hm Hm' Hp Hc Hi Hw Hr Hrd Hr2 Hi'.
  destruct (clamp_xfer count ppos) as (_ & Hx1 & Hx2); [done..|].
  destruct (example_char_write_spec buffer m u buf count ppos) as (m1 & b1 & _ & Hbw & Hs); try done.
  pose proof (copy_from_user_length u buf (xfer count ppos) ltac:(lia)) as Hl.
  pose proof (copy_from_user_ok u buf (xfer count ppos) ltac:(lia)) as Hcp.
  destruct (copy_from_user u buf _) as [nl bs]. simpl in *. rewrite Hs in Hw.
  destruct (Z.eqb_spec nl 0) as [Hnl|Hnl]; simpl in Hw; injection Hw as ? ? ? _; subst r p' b';
    [|unfold EFAULT in Hr; lia].
  pose proof (bwrite_length _ _ _ _ Hbw) as Hlen.
  destruct (example_char_read_spec b1 m' v buf' (xfer count ppos) ppos)
    as (m3 & _ & Hs2); [congruence|done|unfold BUFFER_SIZE, PAGE_SIZE in *; lia|unfold xfer in *; lia|].
  rewrite Hs2, Hi' in Hrd. simpl in Hrd. unfold read_spec in Hrd.
  rewrite (proj2 (Z.leb_gt _ _)) in Hrd by lia.
  assert (xfer (xfer count ppos) ppos = xfer count ppos) as Hxx by (unfold xfer; lia).
  assert (take (Z.to_nat (xfer count ppos)) (drop (Z.to_nat ppos) b1) = bs) as Ht.
  { pose proof (bwrite_bread_same _ _ _ _ Hbw) as Hrd'. rewrite Hl, bread_Some in Hrd' by lia.
    by injection Hrd'. }
  rewrite Hxx, Ht in Hrd. pose proof (copy_to_user_ok v buf' bs) as Hto.
  destruct (copy_to_user v buf' bs) as [nl2 u2]. simpl in *.
  destruct (Z.eqb_spec nl2 0) as [Hnl2|Hnl2]; simpl in Hrd; injection Hrd as ? ? ? _; subst r2 p2 u2;
    [|unfold EFAULT in Hr2; lia].
  split_and!; [done|done|lia| |done|].
  - rewrite <-Hl. intros j. by apply bwrite_lookup_ne.
  - rewrite <-Hcp by done. rewrite <-Hl. by apply Hto.
Qed.
End rw_facts.

Definition wmutex : ref_mutex := RefMutex false false.
Definition wuser : flat_user := FlatUser 1000 (chars "abcdef").

Lemma vma_write_then_read_witness :
  ∃ b' m' u' m2, example_char_write (bfill 7 BUFFER_SIZE) wmutex wuser 1000 6 16382
      = Some (2, 16384, b', m') ∧
    example_char_read b' m' (FlatUser 1000 (bfill 0 9)) 1001 2 16382 = Some (2, 16384, u', m2) ∧
    uload u' 1001 2 = chars "ab".
Proof.
  assert ((λ o, (o.1.1.1, o.1.1.2, o.2)) <$> example_char_write (bfill 7 BUFFER_SIZE) wmutex wuser 1000 6 16382
    = Some (2, 16384, wmutex)) as Hrw by (vm_compute; reflexivity).
  assert ((λ o, (o.1.1.1, o.1.1.2)) <$> (example_char_write (bfill 7 BUFFER_SIZE) wmutex wuser 1000 6 16382
    ≫= λ o, example_char_read o.1.2 wmutex (FlatUser 1000 (bfill 0 9)) 1001 2 16382)
    = Some (2, 16384)) as Hrr by (vm_compute; reflexivity).
  destruct (example_char_write (bfill 7 BUFFER_SIZE) wmutex wuser 1000 6 16382)
    as [[[[r p'] b'] m']|] eqn:Hw; [|discriminate].
  cbn [fmap option_fmap option_map mbind option_bind fst snd] in Hrw, Hrr. injection Hrw as -> -> ->.
  destruct (example_char_read b' wmutex (FlatUser 1000 (bfill 0 9)) 1001 2 16382)
    as [[[[r2 p2] u'] m2]|] eqn:Hr; [|discriminate].
  cbn [fmap option_fmap option_map fst snd] in Hrr. injection Hrr as -> ->.
  exists b', wmutex, u', m2. split_and!; [reflexivity|exact Hr|].
  destruct (vma_write_then_read (bfill 7 BUFFER_SIZE) wmutex wmutex b' wuser u'
    (FlatUser 1000 (bfill 0 9)) 1000 6 1001 16382 2 16384 2 16384 m2)
    as (_ & _ & _ & _ & _ & Hl);
    [by apply blen_bfill|reflexivity..|unfold BUFFER_SIZE, PAGE_SIZE; lia|unfold MAX_RW_COUNT; lia
    |reflexivity|exact Hw|lia|exact Hr|lia|reflexivity|].
  exact Hl.
Defined.

(** ** Registration *)
Module Reg.
#[local] Open Scope kernel_scope.

(** The static variables and the device structure vma_dev points to. *)
Record state := State {
  vma_dev : Z; dev_number : Z; major_number : Z; buffer : Z; class : Z; device : Z
}.
Definition set_dev p s := State p (dev_number s) (major_number s) (buffer s) (class s) (device s).
Definition set_number d s := State (vma_dev s) d (major_number s) (buffer s) (class s) (device s).
Definition set_major d s := State (vma_dev s) (dev_number s) d (buffer s) (class s) (device s).
Definition set_buffer p s := State (vma_dev s) (dev_number s) (major_number s) p (class s) (device s).
Definition set_class p s := State (vma_dev s) (dev_number s) (major_number s) (buffer s) p (device s).
Definition set_device p s := State (vma_dev s) (dev_number s) (major_number s) (buffer s) (class s) p.

(** MAJOR of include/linux/kdev_t.h. *)
Definition MAJOR (d : Z) : Z := Z.shiftr d 20.

Definition err_free_dev (ret : Z) : K call state Z :=
  p <-k kget vma_dev; kcall (Kfree p) ;;k kret ret.
Definition err_free_buffer (ret : Z) : K call state Z :=
  p <-k kget buffer; kcall (Vfree p) ;;k err_free_dev ret.
Definition err_unreg_chrdev (ret : Z) : K call state Z :=
  d <-k kget dev_number; kcall (UnregisterChrdevRegion d) ;;k err_free_buffer ret.
Definition err_del_cdev (ret : Z) : K call state Z :=
  kcall CdevDel ;;k err_unreg_chrdev ret.
Definition err_destroy_class (ret : Z) : K call state Z :=
  c <-k kget class; kcall (ClassDestroy c) ;;k err_del_cdev ret.

Definition simple_vma_init : K call state Z :=
  p <-k kcall KzallocDev;
  kmod (set_dev p) ;;k
  if p =? NULL then kret (- ENOMEM) else
  kcall MutexInit ;;k
  b <-k kcall (Vmalloc BUFFER_SIZE);
  kmod (set_buffer b) ;;k
  if b =? NULL then err_free_dev (- ENOMEM) else
  r <-k kcall AllocChrdevRegion;
  if region_ret r <? 0 then err_free_buffer (region_ret r) else
  kmod (set_number r) ;;k
  kmod (λ s, set_major (MAJOR (dev_number s)) s) ;;k
  kcall CdevInit ;;k
  r <-k kcall (CdevAdd r);
  if r <? 0 then err_unreg_chrdev r else
  c <-k kcall ClassCreate;
  kmod (set_class c) ;;k
  if IS_ERR c then err_del_cdev (PTR_ERR c) else
  n <-k kget dev_number;
  d <-k kcall (DeviceCreate c n);
  kmod (set_device d) ;;k
  if IS_ERR d then err_destroy_class (PTR_ERR d) else
  kret 0.

Definition simple_vma_exit : K call state unit :=
  p <-k kget vma_dev;
  if negb (p =? NULL) then
    c <-k kget class; n <-k kget dev_number; b <-k kget buffer;
    kcall (DeviceDestroy c n) ;;k kcall (ClassDestroy c) ;;k kcall CdevDel ;;k
    kcall (UnregisterChrdevRegion n) ;;k kcall (Vfree b) ;;k kcall (Kfree p) ;;k kret tt
  else kret tt.

(** Loading and unloading the module leaks nothing and releases nothing
    twice, whatever each kernel call answers: a failing init releases everything
    it acquired in reverse order and returns an error, a successful one holds
    exactly the device structure, buffer, device number, cdev, class and device
    node, and exit releases them in reverse order. *)
Theorem simple_vma_init_exit (e : env call) (s : state) :
  let '(ret, w) := simple_vma_init e (KWorld s []) in
  let '(_, w') := simple_vma_exit e w in
  (ret ≠ 0 ∧ held_run acq rel [] (ktr w) = Some []) ∨
  (ret = 0 ∧
     held_run acq rel [] (ktr w) =
       Some [RDevice (class (kst w)) (dev_number (kst w)); RClass (class (kst w)); RCdev;
             RRegion (dev_number (kst w)); RVmem (buffer (kst w)); RMem (vma_dev (kst w))] ∧
     held_run acq rel [] (ktr w') = Some []).
Proof.
  unfold simple_vma_init, err_destroy_class, err_del_cdev, err_unreg_chrdev, err_free_buffer,
    err_free_dev.
  destruct s.
  all: repeat kstep; unfold simple_vma_exit; repeat kstep;
    cbn [vma_dev dev_number major_number buffer class device set_dev set_number set_major
         set_buffer set_class set_device] in *; rewrite ?region_ret_neg in *.
  all: unfold acq, rel; kheld; first
    [ left; split; [first [done | by apply PTR_ERR_nonzero | zbool; unfold region_ret; split_ifs; zbool; lia]|done]
    | right; done | zbool; done ].
Qed.
End Reg.
