(* ===== verification/VmaMap.v ===== *)
(** * Memory mapped from the device (examples/class_7/02_vma_allocation)

    What user code sees through a mapping of the device's buffer.  The memory
    manager is part of the model as far as mmap(2) and the documentation of the
    fault method (Documentation/filesystems/locking.rst, include/linux/mm.h) say
    what it does: an access looks the page up in the process's page table; at the
    first access of a page it calls the module's fault handler and keeps the page
    the handler answers, with its reference.  A store through a shared area
    (VM_SHARED) goes to that page; a private area is copy-on-write: the first store
    to a page gives the process its own copy of the page, and the device's page back.
    A store needs VM_WRITE; areas are taken to be readable.  The contents of a page
    of the device are the part of the buffer it backs, so that stores through a
    mapping, through other mappings, and the read and write methods act on the same
    bytes. *)
From stdpp Require Import gmultiset.
From S2P Require Import Prelude Bytes Kernel CharDev VmaDev.

(** VM_WRITE and VM_SHARED of include/linux/mm.h are 2 and 8. *)
Definition writable (vma : vm_area) : bool := Z.testbit (vm_flags vma) 1.
Definition is_shared (vma : vm_area) : bool := Z.testbit (vm_flags vma) 3.

Section mapping.
(** vmalloc_to_page, and the buffer's kernel address. *)
Context (vmalloc_to_page : Z → Z) (base : Z).

(** The page that backs part [k] of the buffer. *)
Definition frame (k : Z) : Z := vmalloc_to_page (u64 (base + PAGE_SIZE * k)).

(** The part of the buffer a page backs, and what the page holds. *)
Definition part_of (page : Z) : option Z :=
  snd <$> list_find (λ k, frame k = page) [0; 1; 2; 3].
Definition contents_of (page : Z) (b : bytes) : option bytes :=
  k ← part_of page; bread b (PAGE_SIZE * k) PAGE_SIZE.

(** An entry of the page table: a page the handler gave, or the process's own copy. *)
Inductive pte := DevPage (page : Z) | OwnPage (pg : bytes).
Definition page_of (x : pte) : option Z := match x with DevPage page => Some page | OwnPage _ => None end.

(** One mapping: its area, the page table below it, and the references to pages of
    the device that are held for it. *)
Record mapping := Mapping { area : vm_area; table : gmap Z pte; refs : gmultiset Z }.

(** mmap(2): the process gets the area if the device's mmap accepts it. *)
Definition map_device (dev : Z) (vma : vm_area) : Z + mapping :=
  let '(r, vma) := example_char_mmap dev vma in
  if r =? 0 then inr (Mapping vma ∅ ∅) else inl r.

Inductive signal := SIGSEGV | SIGBUS.

(** The entry an access uses, [w] for a store.  At a page fault the handler is
    called with the start of the page and its linear index; [place] enters the page
    it answers, or a copy of it when the process stores to a private area. *)
Definition place (w : bool) (vpn page : Z) (b : bytes) (m : mapping) : option (pte * mapping) :=
  if w && negb (is_shared (area m)) then
    pg ← contents_of page b;
    Some (OwnPage pg, Mapping (area m) (<[vpn := OwnPage pg]> (table m)) (refs m ∖ {[+ page +]}))
  else Some (DevPage page, Mapping (area m) (<[vpn := DevPage page]> (table m)) (refs m)).

Definition touch (w : bool) (addr : Z) (b : bytes) (m : mapping) : option ((signal + pte) * mapping) :=
  let vma := area m in
  if (addr <? vm_start vma) || (vm_end vma <=? addr) then Some (inl SIGSEGV, m)
  else if w && negb (writable vma) then Some (inl SIGSEGV, m)
  else
    let vpn := addr / PAGE_SIZE in
    match table m !! vpn with
    | Some (OwnPage pg) => Some (inr (OwnPage pg), m)
    | Some (DevPage page) => '(x, m) ← place w vpn page b m; Some (inr x, m)
    | None =>
        let address := PAGE_SIZE * vpn in
        let vmf := VmFault address (u64 (vm_pgoff vma + (address - vm_start vma) / PAGE_SIZE)) in
        let r := example_vma_fault vmalloc_to_page base vma vmf in
        let m := Mapping vma (table m) (refs m ⊎ list_to_set_disj (got r)) in
        if code r =? 0 then '(x, m) ← place w vpn (fault_page r) b m; Some (inr x, m)
        else Some (inl SIGBUS, m)
    end.

(** Loading and storing a byte: of the buffer, or of the process's copy.  Undefined
    if the page is not one of the buffer's. *)
Definition load (addr : Z) (b : bytes) (m : mapping) : option ((signal + Z) * mapping) :=
  '(r, m) ← touch false addr b m;
  match r with
  | inl s => Some (inl s, m)
  | inr (DevPage page) => k ← part_of page; c ← b !! Z.to_nat (PAGE_SIZE * k + addr mod PAGE_SIZE); Some (inr c, m)
  | inr (OwnPage pg) => c ← pg !! Z.to_nat (addr mod PAGE_SIZE); Some (inr c, m)
  end.
Definition store (addr c : Z) (b : bytes) (m : mapping) : option (option signal * bytes * mapping) :=
  '(r, m) ← touch true addr b m;
  match r with
  | inl s => Some (Some s, b, m)
  | inr (DevPage page) => k ← part_of page; b ← bwrite b (PAGE_SIZE * k + addr mod PAGE_SIZE) [c]; Some (None, b, m)
  | inr (OwnPage pg) =>
      pg ← bwrite pg (addr mod PAGE_SIZE) [c];
      Some (None, b, Mapping (area m) (<[addr / PAGE_SIZE := OwnPage pg]> (table m)) (refs m))
  end.

(** Loading [n] bytes and storing bytes, one after the other. *)
Fixpoint mload (addr : Z) (n : nat) (b : bytes) (m : mapping) : option ((signal + bytes) * mapping) :=
  match n with
  | O => Some (inr [], m)
  | S n =>
      '(r, m) ← load addr b m;
      match r with
      | inl s => Some (inl s, m)
      | inr c =>
          '(r, m) ← mload (addr + 1) n b m;
          Some (match r with inl s => inl s | inr cs => inr (c :: cs) end, m)
      end
  end.

Fixpoint mstore (addr : Z) (bs b : bytes) (m : mapping) : option (option signal * bytes * mapping) :=
  match bs with
  | [] => Some (None, b, m)
  | c :: bs =>
      '(s, b, m) ← store addr c b m;
      match s with Some s => Some (Some s, b, m) | None => mstore (addr + 1) bs b m end
  end.

(** The pages of the device in a page table. *)
Definition pages (t : gmap Z pte) : gmultiset Z := list_to_set_disj (omap page_of (map_to_list t).*2).

(** munmap(2) drops one reference for every page of the device in the page table. *)
Definition unmap (m : mapping) : mapping := Mapping (area m) ∅ (refs m ∖ pages (table m)).

(** ** What a mapping keeps *)

(** The four pages exist and are different. *)
Definition backed : Prop :=
  ∀ j k, 0 <= j < 4 → 0 <= k < 4 → frame k ≠ NULL ∧ (frame j = frame k → j = k).

(** An area as the memory manager makes them. *)
Record area_ok (vma : vm_area) : Prop := {
  start_page : (PAGE_SIZE | vm_start vma);
  start_le : 0 <= vm_start vma <= vm_end vma;
  end_lt : vm_end vma < 2^64;
  pgoff_u64 : is_u64 (vm_pgoff vma)
}.

(** What an entry may be: the page of the buffer that belongs there, or a copy, in a
    private area. *)
Definition entry_ok (vma : vm_area) (vpn : Z) (x : pte) : Prop :=
  file_offset vma (PAGE_SIZE * vpn) < BUFFER_SIZE ∧
  match x with
  | DevPage page => page = frame (file_offset vma (PAGE_SIZE * vpn) / PAGE_SIZE)
  | OwnPage pg => blen pg = PAGE_SIZE ∧ is_shared vma = false
  end.

(** There is one reference for every page of the device in the table. *)
Record mapping_ok (m : mapping) : Prop := {
  ok_area : area_ok (area m);
  ok_table : map_Forall (entry_ok (area m)) (table m);
  ok_refs : refs m = pages (table m)
}.

(** What the process has at an address: its copy, or the byte of the buffer. *)
Definition view (m : mapping) (b : bytes) (addr : Z) : option Z :=
  match table m !! (addr / PAGE_SIZE) with
  | Some (OwnPage pg) => pg !! Z.to_nat (addr mod PAGE_SIZE)
  | _ => b !! Z.to_nat (file_offset (area m) addr)
  end.

Lemma pages_new t vpn x :
  t !! vpn = None → pages (<[vpn := x]> t) = list_to_set_disj (option_list (page_of x)) ⊎ pages t.
Proof.
  intros Hn. unfold pages. rewrite map_to_list_insert by done. cbn [fmap list_fmap snd]. simpl.
  destruct (page_of x); simpl; [by rewrite (right_id_L ∅ (⊎))|]. by rewrite (left_id_L ∅ (⊎)).
Qed.
Lemma pages_old t vpn x y :
  t !! vpn = Some x →
  ∃ s, pages t = list_to_set_disj (option_list (page_of x)) ⊎ s ∧
       pages (<[vpn := y]> t) = list_to_set_disj (option_list (page_of y)) ⊎ s.
Proof.
  intros Hx. exists (pages (delete vpn t)).
  rewrite <-!(pages_new (delete vpn t) vpn) by apply lookup_delete_eq. by rewrite !insert_delete_eq, insert_id.
Qed.

(** ** One access *)
Context (Hbacked : backed).

Lemma part_of_frame k : 0 <= k < 4 → part_of (frame k) = Some k.
Proof.
  intros Hk. unfold part_of.
  assert (∀ j, 0 <= j < 4 → j ≠ k → frame j ≠ frame k) as Hne by (intros j Hj Hjk E; by destruct Hjk; apply (proj2 (Hbacked j k Hj Hk))).
  assert (k = 0 ∨ k = 1 ∨ k = 2 ∨ k = 3) as Hc by lia. simpl.
  destruct Hc as [->|[->|[->| ->]]];
    repeat first [rewrite decide_True by done | rewrite decide_False by (apply Hne; lia)]; done.
Qed.

(** The offset of an address is that of its page plus the offset in the page. *)
Lemma file_offset_page vma addr :
  area_ok vma →
  file_offset vma addr = file_offset vma (PAGE_SIZE * (addr / PAGE_SIZE)) + addr mod PAGE_SIZE ∧
  file_offset vma (PAGE_SIZE * (addr / PAGE_SIZE)) mod PAGE_SIZE = 0.
Proof. intros [[s Hs] _ _ _]. unfold file_offset. rewrite Hs. clear. wrap_lia. Qed.

Lemma page_fault_in vma addr :
  area_ok vma → vm_start vma <= addr < vm_end vma →
  fault_in vma (VmFault (PAGE_SIZE * (addr / PAGE_SIZE))
    (u64 (vm_pgoff vma + (PAGE_SIZE * (addr / PAGE_SIZE) - vm_start vma) / PAGE_SIZE))).
Proof.
  intros [[s Hs] ? ? ?] Ha. split_and!; cbn [address pgoff]; try done; try lia; try by exists s.
  all: unfold PAGE_SIZE in *; Z.to_euclidean_division_equations; lia.
Qed.


(** Entering a page, or a copy of it: nothing the process sees changes. *)
Lemma place_spec w vpn b m :
  area_ok (area m) → map_Forall (entry_ok (area m)) (table m) → blen b = BUFFER_SIZE →
  let poff := file_offset (area m) (PAGE_SIZE * vpn) in
  let page := frame (poff / PAGE_SIZE) in
  poff < BUFFER_SIZE → poff mod PAGE_SIZE = 0 →
  (table m !! vpn = None ∧ refs m = {[+ page +]} ⊎ pages (table m) ∨
   table m !! vpn = Some (DevPage page) ∧ refs m = pages (table m)) →
  ∃ x m', place w vpn page b m = Some (x, m') ∧ mapping_ok m' ∧ area m' = area m ∧ table m' !! vpn = Some x ∧
    (∀ a, view m' b a = view m b a) ∧
    (x = DevPage page ∧ (w = true → is_shared (area m) = true) ∨
     (∃ pg, x = OwnPage pg) ∧ is_shared (area m) = false).
Proof.
  intros Ha Ht Hb poff page Hlt Hmod Hm.
  assert (0 <= poff) as H0 by apply u64_bound.
  assert (0 <= poff / PAGE_SIZE < 4) as Hk by (unfold BUFFER_SIZE, PAGE_SIZE in *; Z.to_euclidean_division_equations; lia).
  assert (PAGE_SIZE * (poff / PAGE_SIZE) = poff) as Hpoff by (unfold PAGE_SIZE in *; Z.to_euclidean_division_equations; lia).
  unfold place. destruct (w && negb (is_shared (area m))) eqn:Ew.
  - apply andb_true_iff in Ew as [-> Esh]. apply negb_true_iff in Esh.
    unfold contents_of, page. rewrite part_of_frame by done. fold page. cbn [mbind option_bind]. rewrite Hpoff.
    rewrite bread_Some by (unfold BUFFER_SIZE, PAGE_SIZE in *; Z.to_euclidean_division_equations; lia).
    cbn [mbind option_bind]. set (pg := take _ _). eexists _, _. split; [reflexivity|].
    assert (blen pg = PAGE_SIZE) as Hpg.
    { apply blen_take. unfold blen in *. rewrite length_drop. unfold BUFFER_SIZE, PAGE_SIZE in *.
      Z.to_euclidean_division_equations; lia. }
    split; [split; cbn [area table refs]; [done|apply map_Forall_insert_2; [by split_and!|done]|]|].
    { destruct Hm as [[Hn ->]|[Hd ->]].
      - rewrite pages_new by done. simpl. multiset_solver.
      - destruct (pages_old _ _ _ (OwnPage pg) Hd) as (t & -> & ->). simpl. multiset_solver. }
    cbn [area table]. split; [done|]. split; [apply lookup_insert_eq|]. split; [|right; eauto].
    intros a. unfold view. cbn [area table]. destruct (decide (a / PAGE_SIZE = vpn)) as [<-|Hne].
    + rewrite lookup_insert_eq. destruct (file_offset_page (area m) a Ha) as [Hfo _]. fold poff in Hfo.
      assert (0 <= a mod PAGE_SIZE < PAGE_SIZE) by (apply Z.mod_pos_bound; done).
      assert (pg !! Z.to_nat (a mod PAGE_SIZE) = b !! Z.to_nat (file_offset (area m) a)) as ->.
      { unfold pg. rewrite lookup_take, decide_True by lia. rewrite lookup_drop, Hfo. f_equal. lia. }
      by destruct Hm as [[-> _]|[-> _]].
    + by rewrite lookup_insert_ne by done.
  - eexists _, _. split; [reflexivity|].
    split; [split; cbn [area table refs]; [done|by apply map_Forall_insert_2|]|].
    { destruct Hm as [[Hn ->]|[Hd ->]]; [by rewrite pages_new by done; simpl; rewrite (right_id_L ∅ (⊎))|].
      by rewrite insert_id by done. }
    cbn [area table]. split; [done|]. split; [apply lookup_insert_eq|]. split.
    + intros a. unfold view. cbn [area table]. destruct (decide (a / PAGE_SIZE = vpn)) as [<-|Hne].
      * rewrite lookup_insert_eq. by destruct Hm as [[-> _]|[-> _]].
      * by rewrite lookup_insert_ne by done.
    + left. split; [done|]. intros ->. simpl in Ew. by apply negb_false_iff in Ew.
Qed.

(** The entry an access in the area gets, or a SIGBUS past the end of the buffer; the
    mapping stays well formed, and shows what it showed. *)
Lemma touch_spec w addr b m :
  mapping_ok m → blen b = BUFFER_SIZE → vm_start (area m) <= addr < vm_end (area m) → (w = true → writable (area m) = true) →
  let off := file_offset (area m) addr in
  if BUFFER_SIZE <=? off then touch w addr b m = Some (inl SIGBUS, m)
  else ∃ x m', touch w addr b m = Some (inr x, m') ∧ mapping_ok m' ∧ area m' = area m ∧
    table m' !! (addr / PAGE_SIZE) = Some x ∧ (∀ a, view m' b a = view m b a) ∧
    ((∃ page k, x = DevPage page ∧ part_of page = Some k ∧ PAGE_SIZE * k + addr mod PAGE_SIZE = off ∧
       (w = true → is_shared (area m) = true)) ∨
     (∃ pg, x = OwnPage pg ∧ blen pg = PAGE_SIZE ∧ is_shared (area m) = false)).
Proof.
  intros Hm Hlb Ha Hw off. pose proof (ok_area _ Hm) as Hao. destruct (file_offset_page _ addr Hao) as [Hoff Hmod].
  pose proof (page_fault_in _ addr Hao Ha) as Hf. fold off in Hoff.
  set (vpn := addr / PAGE_SIZE) in *. set (poff := file_offset (area m) (PAGE_SIZE * vpn)) in *.
  assert (0 <= addr mod PAGE_SIZE < PAGE_SIZE) as Hr by (apply Z.mod_pos_bound; done).
  assert (0 <= poff) as Hp0 by apply u64_bound.
  assert ((BUFFER_SIZE <=? off) = (BUFFER_SIZE <=? poff)) as Hb.
  { destruct (Z.leb_spec BUFFER_SIZE off), (Z.leb_spec BUFFER_SIZE poff); try done; exfalso;
      unfold BUFFER_SIZE, PAGE_SIZE in *; Z.to_euclidean_division_equations; lia. }
  assert (PAGE_SIZE * (poff / PAGE_SIZE) + addr mod PAGE_SIZE = off) as Hsum by (rewrite Hoff; unfold PAGE_SIZE in *; Z.to_euclidean_division_equations; lia).
  assert (poff < BUFFER_SIZE → 0 <= poff / PAGE_SIZE < 4) as Hk by (unfold BUFFER_SIZE, PAGE_SIZE; intros; Z.to_euclidean_division_equations; lia).
  unfold touch. rewrite (proj2 (Z.ltb_ge _ _)), (proj2 (Z.leb_gt (vm_end (area m)) addr)) by lia. cbn [orb]. fold vpn.
  assert (w && negb (writable (area m)) = false) as -> by (destruct w; [by rewrite Hw|done]).
  assert (∀ m1, area m1 = area m → table m1 = table m → poff < BUFFER_SIZE →
    (table m !! vpn = None ∧ refs m1 = {[+ frame (poff / PAGE_SIZE) +]} ⊎ pages (table m) ∨
     table m !! vpn = Some (DevPage (frame (poff / PAGE_SIZE))) ∧ refs m1 = pages (table m)) →
    ∃ x m', ('(x, m) ← place w vpn (frame (poff / PAGE_SIZE)) b m1; Some (inr x, m)) = Some (inr x : signal + pte, m') ∧
      mapping_ok m' ∧ area m' = area m ∧ table m' !! vpn = Some x ∧ (∀ a, view m' b a = view m b a) ∧
      ((∃ page k, x = DevPage page ∧ part_of page = Some k ∧ PAGE_SIZE * k + addr mod PAGE_SIZE = off ∧
         (w = true → is_shared (area m) = true)) ∨
       (∃ pg, x = OwnPage pg ∧ blen pg = PAGE_SIZE ∧ is_shared (area m) = false))) as Hplace.
  { intros m1 Em Et Hlt Hcase.
    destruct (place_spec w vpn b m1) as (x & m' & E & Hm' & Ea & Ex & Hv & Hx);
      [by rewrite Em|rewrite Em, Et; apply Hm|done|by rewrite Em|by rewrite Em|by rewrite Em, Et|].
    rewrite Em in E, Ea, Hx. fold poff in E, Hx. rewrite E. cbn [mbind option_bind]. exists x, m'.
    split; [done|]. split; [done|]. split; [done|]. split; [done|].
    split; [intros a; rewrite Hv; unfold view; by rewrite Em, Et|].
    destruct Hx as [[-> Hs]|[[pg ->] Hs]]; [left|right].
    - exists (frame (poff / PAGE_SIZE)), (poff / PAGE_SIZE). split; [done|]. split; [by apply part_of_frame, Hk|done].
    - exists pg. split; [done|]. split; [|done]. by apply (ok_table _ Hm' _ _ Ex). }
  destruct (table m !! vpn) as [[page|pg]|] eqn:E.
  - destruct (ok_table _ Hm _ _ E) as [Hlt ->]. fold poff. fold poff in E. rewrite Hb, (proj2 (Z.leb_gt _ _)) by exact Hlt.
    apply Hplace; [done|done|exact Hlt|right; split; [done|apply Hm]].
  - pose proof (ok_table _ Hm _ _ E) as [Hlt Hpg]. rewrite Hb, (proj2 (Z.leb_gt _ _)) by exact Hlt.
    exists (OwnPage pg), m. split; [done|]. split; [done|]. split; [done|]. split; [done|]. split; [done|].
    right. exists pg. split; [done|exact Hpg].
  - unfold example_vma_fault. rewrite fault_offset, (fault_page_offset (area m)) by exact Hf.
    cbn [address]. fold poff. rewrite Hb. destruct (Z.leb_spec BUFFER_SIZE poff) as [|Hlt].
    { destruct m. cbn. by rewrite (right_id_L ∅ (⊎)). }
    change (vmalloc_to_page (u64 (base + PAGE_SIZE * (poff / PAGE_SIZE)))) with (frame (poff / PAGE_SIZE)).
    specialize (Hk Hlt). destruct (Z.eqb_spec (frame (poff / PAGE_SIZE)) NULL) as [Hz|_].
    { destruct (Hbacked _ _ Hk Hk) as [[] _]. exact Hz. }
    cbn [code fault_page got]. rewrite Z.eqb_refl.
    apply Hplace; [done|done|exact Hlt|left; split; [done|]]. cbn [refs]. rewrite (ok_refs _ Hm).
    simpl. rewrite (right_id_L ∅ (⊎)). apply (comm_L (⊎)).
Qed.

(** A shared mapping has no copies. *)
Lemma view_shared m b addr :
  mapping_ok m → is_shared (area m) = true → view m b addr = b !! Z.to_nat (file_offset (area m) addr).
Proof.
  intros Hm Hs. unfold view. destruct (table m !! _) as [[page|pg]|] eqn:E; [done| |done].
  destruct (ok_table _ Hm _ _ E) as (_ & _ & ?). congruence.
Qed.

Lemma load_spec addr b m :
  mapping_ok m → blen b = BUFFER_SIZE → vm_start (area m) <= addr < vm_end (area m) →
  if BUFFER_SIZE <=? file_offset (area m) addr then load addr b m = Some (inl SIGBUS, m)
  else ∃ c m', load addr b m = Some (inr c, m') ∧ view m b addr = Some c ∧ mapping_ok m' ∧ area m' = area m ∧
    ∀ a, view m' b a = view m b a.
Proof.
  intros Hm Hb Ha. pose proof (touch_spec false addr b m Hm Hb Ha) as Ht. cbv zeta in Ht. unfold load.
  pose proof (u64_bound (addr - vm_start (area m) + vm_pgoff (area m) * PAGE_SIZE)) as [Ho _]. fold (file_offset (area m) addr) in Ho.
  destruct (Z.leb_spec BUFFER_SIZE (file_offset (area m) addr)) as [|Hlt]; [by rewrite Ht|].
  destruct Ht as (x & m' & -> & Hm' & Ea & Ex & Hv & Hx); [done|]. cbn [mbind option_bind].
  pose proof (Hv addr) as Hva. unfold view in Hva at 1. rewrite Ex in Hva.
  destruct Hx as [(page & k & -> & Hk & Hsum & _)|(pg & -> & Hpg & _)].
  - rewrite Hk. cbn [mbind option_bind]. rewrite Hsum. rewrite Ea in Hva.
    destruct (lookup_lt_is_Some_2 b (Z.to_nat (file_offset (area m) addr))) as [c Hc]; [unfold blen in *; lia|].
    rewrite Hc in *. exists c, m'. by split_and!.
  - pose proof (Z.mod_pos_bound addr PAGE_SIZE ltac:(done)) as Hr.
    destruct (lookup_lt_is_Some_2 pg (Z.to_nat (addr mod PAGE_SIZE))) as [c Hc]; [unfold blen in *; lia|].
    rewrite Hc in *. exists c, m'. by split_and!.
Qed.

(** A store of the process to its copy changes what it sees there, and nothing else. *)
Lemma own_store addr c b m pg :
  mapping_ok m → table m !! (addr / PAGE_SIZE) = Some (OwnPage pg) → blen pg = PAGE_SIZE →
  let m' := Mapping (area m) (<[addr / PAGE_SIZE := OwnPage (<[Z.to_nat (addr mod PAGE_SIZE) := c]> pg)]> (table m)) (refs m) in
  mapping_ok m' ∧ ∀ a, view m' b a = if a =? addr then Some c else view m b a.
Proof.
  intros Hm Ht Hpg m'. pose proof (ok_table _ Hm _ _ Ht) as (Hlt & _ & Hs). split.
  - split; cbn [m' area table refs]; [apply Hm|apply map_Forall_insert_2; [|apply Hm]|].
    + split; [done|]. split; [|done]. unfold blen in *. by rewrite length_insert.
    + destruct (pages_old _ _ _ (OwnPage (<[Z.to_nat (addr mod PAGE_SIZE):=c]> pg)) Ht) as (t & E & ->).
      by rewrite (ok_refs _ Hm).
  - pose proof (Z.mod_pos_bound addr PAGE_SIZE ltac:(done)) as Hr. intros a. unfold view. cbn [m' area table].
    pose proof (Z.mod_pos_bound a PAGE_SIZE ltac:(done)) as Hra.
    destruct (decide (a / PAGE_SIZE = addr / PAGE_SIZE)) as [E|Hne].
    + rewrite E, lookup_insert_eq, Ht. destruct (Z.eqb_spec a addr) as [->|Hne].
      * apply list_lookup_insert_eq. unfold blen in Hpg. lia.
      * apply list_lookup_insert_ne. unfold PAGE_SIZE in *. Z.to_euclidean_division_equations. lia.
    + rewrite lookup_insert_ne by done. destruct (Z.eqb_spec a addr) as [->|]; [done|done].
Qed.

(** A store through a shared area is one to the buffer; through a private one the
    process alone sees it. *)
Lemma store_spec addr c b m :
  mapping_ok m → blen b = BUFFER_SIZE → vm_start (area m) <= addr < vm_end (area m) → writable (area m) = true →
  if BUFFER_SIZE <=? file_offset (area m) addr then store addr c b m = Some (Some SIGBUS, b, m)
  else ∃ b' m', store addr c b m = Some (None, b', m') ∧ mapping_ok m' ∧ area m' = area m ∧
    if is_shared (area m) then bwrite b (file_offset (area m) addr) [c] = Some b'
    else b' = b ∧ ∀ a, view m' b a = if a =? addr then Some c else view m b a.
Proof.
  intros Hm Hb Ha Hw. pose proof (touch_spec true addr b m Hm Hb Ha (λ _, Hw)) as Ht. cbv zeta in Ht. unfold store.
  pose proof (u64_bound (addr - vm_start (area m) + vm_pgoff (area m) * PAGE_SIZE)) as [Ho _]. fold (file_offset (area m) addr) in Ho.
  destruct (Z.leb_spec BUFFER_SIZE (file_offset (area m) addr)) as [|Hlt]; [by rewrite Ht|].
  destruct Ht as (x & m' & -> & Hm' & Ea & Ex & Hv & Hx). cbn [mbind option_bind].
  destruct Hx as [(page & k & -> & Hk & Hsum & Hs)|(pg & -> & Hpg & Hs)].
  - rewrite Hk. cbn [mbind option_bind]. rewrite Hsum, bwrite_insert by lia. cbn [mbind option_bind].
    eexists _, m'. rewrite Hs by done. by split_and!.
  - pose proof (Z.mod_pos_bound addr PAGE_SIZE ltac:(done)) as Hr. rewrite bwrite_insert by lia. cbn [mbind option_bind].
    destruct (own_store addr c b m' pg Hm' Ex Hpg) as [Hm2 Hv2]. eexists _, _. split; [reflexivity|].
    rewrite Hs. split; [exact Hm2|]. split; [done|]. split; [done|]. intros a. by rewrite Hv2, Hv.
Qed.

(** ** Ranges *)

(** The [n] addresses from [a] on stand for the bytes of the buffer from [off] on. *)
Definition shows (m : mapping) (a n off : Z) : Prop :=
  vm_start (area m) <= a ∧ a + n <= vm_end (area m) ∧
  file_offset (area m) a = off ∧ off + n <= BUFFER_SIZE.

Lemma shows_bound m a n off : shows m a n off → 0 <= off.
Proof. intros (_ & _ & <- & _). apply u64_bound. Qed.

Lemma shows_next m a n off : 0 <= n → shows m a (n + 1) off → shows m (a + 1) n (off + 1).
Proof.
  intros Hn (? & ? & <- & Hb). split_and!; [lia|lia| |lia].
  assert (∀ x, u64 x + (n + 1) <= BUFFER_SIZE → u64 (x + 1) = u64 x + 1) as Hs.
  { clear -Hn. unfold BUFFER_SIZE. intros x. wrap_lia. }
  unfold file_offset in *. rewrite <-Hs by done. f_equal. lia.
Qed.

Lemma mload_spec n m a off b :
  mapping_ok m → is_shared (area m) = true → blen b = BUFFER_SIZE → shows m a (Z.of_nat n) off →
  ∃ m', mload a n b m = Some (inr (take n (drop (Z.to_nat off) b)), m') ∧ mapping_ok m' ∧ area m' = area m.
Proof.
  intros Hm Hsh Hb. revert m a off Hm Hsh. induction n as [|n IH]; intros m a off Hm Hsh Hs; [simpl; eauto|].
  pose proof (shows_bound _ _ _ _ Hs). replace (Z.of_nat (S n)) with (Z.of_nat n + 1) in Hs by lia.
  pose proof Hs as (? & ? & Ho & ?). pose proof (load_spec a b m Hm Hb ltac:(lia)) as Hl.
  rewrite Ho, (proj2 (Z.leb_gt _ _)) in Hl by lia. destruct Hl as (c & m1 & E1 & Hv & Hm1 & Ha1 & _).
  rewrite view_shared, Ho in Hv by done. simpl. rewrite E1. cbn [mbind option_bind].
  destruct (IH m1 (a + 1) (off + 1) Hm1) as (m2 & -> & Hm2 & Ha2).
  { by rewrite Ha1. }
  { apply shows_next in Hs; [|lia]. unfold shows in *. by rewrite Ha1. }
  cbn [mbind option_bind]. exists m2. split; [|split; [done|congruence]].
  replace (Z.to_nat (off + 1)) with (S (Z.to_nat off)) by lia. by rewrite <-(drop_take_cons _ _ _ _ Hv).
Qed.

Lemma mstore_spec bs m a off b :
  mapping_ok m → writable (area m) = true → is_shared (area m) = true → blen b = BUFFER_SIZE → shows m a (blen bs) off →
  ∃ b' m', mstore a bs b m = Some (None, b', m') ∧ bwrite b off bs = Some b' ∧
    mapping_ok m' ∧ area m' = area m.
Proof.
  revert m a off b. induction bs as [|c bs IH]; intros m a off b Hm Hw Hsh Hb Hs; pose proof (shows_bound _ _ _ _ Hs).
  { exists b, m. split; [done|]. split; [|done]. unfold bwrite.
    rewrite bool_decide_eq_true_2 by (destruct Hs as (_ & _ & _ & ?); lia). simpl.
    by rewrite Nat.add_0_r, take_drop. }
  replace (blen (c :: bs)) with (blen bs + 1) in Hs by (unfold blen; simpl; lia). pose proof (blen_nonneg bs).
  pose proof Hs as (? & ? & Ho & ?). pose proof (store_spec a c b m Hm Hb ltac:(lia) Hw) as Hst.
  rewrite Ho, (proj2 (Z.leb_gt _ _)), Hsh in Hst by lia. destruct Hst as (b1 & m1 & E1 & Hm1 & Ha1 & E).
  simpl. rewrite E1. cbn [mbind option_bind].
  destruct (IH m1 (a + 1) (off + 1) b1 Hm1) as (b2 & m2 & -> & E2 & Hm2 & Ha2); [by rewrite Ha1..|by rewrite (bwrite_length _ _ _ _ E)| |].
  { apply shows_next in Hs; [|done]. unfold shows in *. by rewrite Ha1. }
  exists b2, m2. rewrite <-(bwrite_cons _ _ _ _ _ E). split_and!; [done..|congruence].
Qed.

(** ** The device's promise to its users *)

(** What can happen: the process loads or stores anywhere, and others, through their
    mappings or with write, change the buffer. *)
Inductive mapping_step : mapping * bytes → mapping * bytes → Prop :=
| step_load addr r m m' b : load addr b m = Some (r, m') → mapping_step (m, b) (m', b)
| step_store addr c r m m' b b' : store addr c b m = Some (r, b', m') → mapping_step (m, b) (m', b')
| step_others m b b' : blen b' = blen b → mapping_step (m, b) (m, b').

(** The signal an access raises. *)
Definition access_signal (w : bool) (vma : vm_area) (addr : Z) : option signal :=
  if bool_decide (vm_start vma <= addr < vm_end vma) && negb (w && negb (writable vma)) then
    if BUFFER_SIZE <=? file_offset vma addr then Some SIGBUS else None
  else Some SIGSEGV.

Lemma touch_refused w addr b m :
  bool_decide (vm_start (area m) <= addr < vm_end (area m)) && negb (w && negb (writable (area m))) = false →
  touch w addr b m = Some (inl SIGSEGV, m).
Proof.
  intros Hr. unfold touch. destruct (Z.ltb_spec addr (vm_start (area m))), (Z.leb_spec (vm_end (area m)) addr); simpl; try done.
  rewrite bool_decide_eq_true_2 in Hr by lia. simpl in Hr. apply negb_false_iff in Hr. by rewrite Hr.
Qed.

Lemma load_all addr b m :
  mapping_ok m → blen b = BUFFER_SIZE →
  ∃ r m', load addr b m = Some (r, m') ∧ mapping_ok m' ∧ area m' = area m ∧
    match access_signal false (area m) addr with
    | Some s => r = inl s
    | None => ∃ c, r = inr c ∧ view m b addr = Some c
    end.
Proof.
  intros Hm Hb. unfold access_signal. destruct (_ && _) eqn:E.
  - apply andb_true_iff in E as [Ha%bool_decide_eq_true _]. pose proof (load_spec addr b m Hm Hb Ha) as Hl.
    destruct (BUFFER_SIZE <=? _); [by exists (inl SIGBUS), m|].
    destruct Hl as (c & m' & E & Hv & Hm' & Ea & _). exists (inr c), m'. eauto 10.
  - exists (inl SIGSEGV), m. unfold load. by rewrite touch_refused.
Qed.

Lemma store_all addr c b m :
  mapping_ok m → blen b = BUFFER_SIZE →
  let sig := access_signal true (area m) addr in
  ∃ b' m', store addr c b m = Some (sig, b', m') ∧ mapping_ok m' ∧ area m' = area m ∧ blen b' = blen b ∧
    match sig with
    | Some _ => b' = b ∧ m' = m
    | None => if is_shared (area m) then bwrite b (file_offset (area m) addr) [c] = Some b'
              else b' = b ∧ ∀ a, view m' b a = if a =? addr then Some c else view m b a
    end.
Proof.
  intros Hm Hb. unfold access_signal. destruct (_ && _) eqn:E; cbv zeta.
  - apply andb_true_iff in E as [Ha%bool_decide_eq_true Hw%negb_true_iff]. simpl in Hw. apply negb_false_iff in Hw.
    pose proof (store_spec addr c b m Hm Hb Ha Hw) as Hs. destruct (BUFFER_SIZE <=? _); [by exists b, m|].
    destruct Hs as (b' & m' & E & Hm' & Ea & Hs). exists b', m'. split_and!; [done..| |done].
    destruct (is_shared (area m)); [by eapply bwrite_length|by destruct Hs as [-> _]].
  - exists b, m. unfold store. by rewrite touch_refused.
Qed.

Lemma step_ok m b m' b' :
  mapping_step (m, b) (m', b') → mapping_ok m → blen b = BUFFER_SIZE →
  mapping_ok m' ∧ area m' = area m ∧ blen b' = BUFFER_SIZE.
Proof.
  intros Hst Hm Hb. inversion Hst as [addr r ? ? ? E|addr c r ? ? ? ? E|? ? ? E]; subst; [| |split_and!; congruence].
  - destruct (load_all addr b' m Hm Hb) as (r' & m1 & E1 & ? & ? & _). rewrite E in E1. by injection E1 as <- <-.
  - destruct (store_all addr c b m Hm Hb) as (b1 & m1 & E1 & ? & ? & ? & _). rewrite E in E1. injection E1 as _ <- <-.
    split_and!; congruence.
Qed.

Lemma steps_ok x y :
  rtc mapping_step x y → mapping_ok x.1 → blen x.2 = BUFFER_SIZE →
  mapping_ok y.1 ∧ area y.1 = area x.1 ∧ blen y.2 = BUFFER_SIZE.
Proof.
  intros Hr. induction Hr as [|[m b] [m1 b1] z H1 _ IH]; intros Hm Hb; [done|].
  destruct (step_ok _ _ _ _ H1 Hm Hb) as (Hm1 & Ea & Hb1). destruct (IH Hm1 Hb1) as (? & -> & ?). done.
Qed.

(** What mmap keeps of the area. *)
Lemma map_device_ok dev vma m :
  area_ok vma → map_device dev vma = inr m →
  mapping_ok m ∧ vm_start (area m) = vm_start vma ∧ vm_end (area m) = vm_end vma ∧ vm_pgoff (area m) = vm_pgoff vma ∧
  writable (area m) = writable vma ∧ is_shared (area m) = is_shared vma ∧ table m = ∅.
Proof.
  intros Hv Hm. unfold map_device, example_char_mmap in Hm. destruct (BUFFER_SIZE <? _); [done|]. simpl in Hm.
  injection Hm as <-. unfold writable, is_shared. cbn [area vm_flags vm_start vm_end vm_pgoff table].
  rewrite !Z.lor_spec. split; [destruct Hv; by split|]. split_and!; try done; by rewrite !orb_false_r.
Qed.

(** C16: however a process uses a mapping the device accepted, shared or private, and
    whatever others do to the buffer meanwhile, it reaches the buffer's memory and its
    own copies and nothing else.  After any accesses every access is defined: it
    raises SIGSEGV outside the area, and for a store to a read-only one, and SIGBUS
    past the end of the buffer; any other load gives what the process has there, and
    any other store goes, through a shared area, to the byte of the buffer at the
    file offset of its address, and through a private one to the process's copy: the
    buffer stays as it is and the process sees the new byte there and the rest as
    before.  What a process has at an address of a shared area is the buffer's byte;
    of a private one too, until it has stored to that page.  Unmapping gives back
    every reference the fault handler took. *)
Theorem mapping_confined dev vma m b m' b' :
  area_ok vma → map_device dev vma = inr m → blen b = BUFFER_SIZE → rtc mapping_step (m, b) (m', b') →
  refs (unmap m') = ∅ ∧
  ∀ addr c,
    (∃ r m'', load addr b' m' = Some (r, m'') ∧
       match access_signal false vma addr with
       | Some s => r = inl s
       | None => ∃ x, r = inr x ∧ view m' b' addr = Some x
       end) ∧
    (∃ b'' m'', store addr c b' m' = Some (access_signal true vma addr, b'', m'') ∧
       match access_signal true vma addr with
       | Some _ => b'' = b' ∧ m'' = m'
       | None => if is_shared vma then bwrite b' (file_offset vma addr) [c] = Some b''
                 else b'' = b' ∧ ∀ a, view m'' b' a = if a =? addr then Some c else view m' b' a
       end) ∧
    (is_shared vma = true ∨ (∀ pg, table m' !! (addr / PAGE_SIZE) ≠ Some (OwnPage pg)) →
     view m' b' addr = b' !! Z.to_nat (file_offset vma addr)).
Proof.
  intros Hv Hm Hb Hr. destruct (map_device_ok dev vma m Hv Hm) as (Hok & Es & Ee & Eg & Ew & Esh & _).
  destruct (steps_ok _ _ Hr Hok Hb) as (Hok' & Ea & Hb'). cbn [fst snd] in *. rewrite <-Ea in Es, Ee, Eg, Ew, Esh.
  split; [unfold unmap; cbn [refs]; rewrite (ok_refs _ Hok'); apply gmultiset_difference_diag|].
  intros addr c. assert (file_offset vma addr = file_offset (area m') addr) as -> by (unfold file_offset; by rewrite Es, Eg).
  assert (∀ w, access_signal w vma addr = access_signal w (area m') addr) as Hsig.
  { intros w. unfold access_signal, file_offset. by rewrite Es, Ee, Eg, Ew. }
  rewrite !Hsig, <-Esh. split_and!.
  - destruct (load_all addr b' m' Hok' Hb') as (r & m'' & E & _ & _ & H'). eauto.
  - destruct (store_all addr c b' m' Hok' Hb') as (b'' & m'' & E & _ & _ & _ & H'). eauto.
  - intros [Hsh|Hno]; [by apply view_shared|]. unfold view.
    destruct (table m' !! (addr / PAGE_SIZE)) as [[page|pg]|]; [done|by destruct (Hno pg)|done].
Qed.

(** C17: a shared mapping is the device's memory.  Bytes stored through one shared,
    writable mapping are
    stored in the buffer at the file offset of their address, and nothing else
    changes; they are what any other shared mapping, of this or another process, loads at
    that offset, whichever pages either has touched before, and what a read at that
    position delivers. *)
Theorem mapping_shared {U M} `{UserAccessLaws U} `{MutexLaws M} m1 m2 a1 a2 bs b off (mx : M) (u : U) buf :
  mapping_ok m1 → mapping_ok m2 → blen b = BUFFER_SIZE →
  writable (area m1) = true → is_shared (area m1) = true → is_shared (area m2) = true →
  0 < blen bs → shows m1 a1 (blen bs) off → shows m2 a2 (blen bs) off →
  held mx = false → (mutex_lock_interruptible mx).1 = 0 →
  ∃ b' m1' m2', mstore a1 bs b m1 = Some (None, b', m1') ∧ bwrite b off bs = Some b' ∧
    mload a2 (length bs) b' m2 = Some (inr bs, m2') ∧
    ∃ r p u' mx', example_char_read b' mx u buf (blen bs) off = Some (r, p, u', mx') ∧
      (r = - EFAULT ∨ r = blen bs ∧ p = off + blen bs ∧ uload u' buf (blen bs) = bs).
Proof.
  intros Hm1 Hm2 Hb Hw1 Hsh1 Hsh2 Hpos Hs1 Hs2 Hmx Hi. pose proof (shows_bound _ _ _ _ Hs1).
  destruct (mstore_spec bs m1 a1 off b) as (b' & m1' & E1 & Ew & _ & _); [done..|].
  pose proof (bwrite_length _ _ _ _ Ew) as Hl. pose proof (bwrite_bread_same _ _ _ _ Ew) as Hr.
  destruct (mload_spec (length bs) m2 a2 off b') as (m2' & E2 & _ & _); [done|done|congruence|exact Hs2|].
  destruct Hs1 as (_ & _ & _ & Hfit).
  rewrite bread_Some in Hr by (rewrite ?Hl; lia). injection Hr as Hr. unfold blen in Hr at 1. rewrite Nat2Z.id in Hr.
  rewrite Hr in E2. exists b', m1', m2'. split_and!; [done..|].
  destruct (example_char_read_spec b' mx u buf (blen bs) off) as (mx' & _ & ->);
    [congruence|done|unfold BUFFER_SIZE, PAGE_SIZE in *; lia|unfold BUFFER_SIZE, PAGE_SIZE, MAX_RW_COUNT in *; lia|].
  rewrite Hi. cbn [negb Z.eqb]. unfold read_spec. rewrite (proj2 (Z.leb_gt _ _)) by lia.
  replace (xfer (blen bs) off) with (blen bs) by (unfold xfer; lia).
  unfold blen at 1. rewrite Nat2Z.id, Hr. pose proof (copy_to_user_ok u buf bs) as Hc.
  destruct (copy_to_user u buf bs) as [left u']. simpl in *.
  destruct (Z.eqb_spec left 0); simpl; do 4 eexists; (split; [done|]); [right; auto|by left].
Qed.

(** What a write to the device stored is what a mapping shows.  After a write
    that reported r bytes, a process that maps the device shared loads those bytes of the
    writer at the addresses of the position the write was at. *)
Theorem write_then_load {U M} `{UserAccessLaws U} `{MutexLaws M} m a b (mx : M) (u : U) buf count ppos r p b' mx' :
  mapping_ok m → is_shared (area m) = true → blen b = BUFFER_SIZE → held mx = false →
  0 <= ppos < BUFFER_SIZE → 0 <= count <= MAX_RW_COUNT → (mutex_lock_interruptible mx).1 = 0 →
  example_char_write b mx u buf count ppos = Some (r, p, b', mx') → 0 <= r → shows m a r ppos →
  ∃ m', mload a (Z.to_nat r) b' m = Some (inr (uload u buf r), m') ∧ mapping_ok m'.
Proof.
  intros Hm Hsh Hb Hmx Hp Hc Hi Hw Hr Hs. destruct (clamp_xfer count ppos) as (_ & Hx & _); [done..|].
  destruct (example_char_write_spec b mx u buf count ppos) as (mx1 & b1 & _ & Hbw & Hspec); try done.
  pose proof (copy_from_user_length u buf (xfer count ppos) Hx) as Hl.
  pose proof (copy_from_user_ok u buf (xfer count ppos) Hx) as Hcp.
  destruct (copy_from_user u buf _) as [left bs]. simpl in *. rewrite Hspec in Hw.
  destruct (Z.eqb_spec left 0) as [Hz|Hz]; simpl in Hw; injection Hw as ? ? ? _; subst r p b';
    [|unfold EFAULT in Hr; lia].
  pose proof (bwrite_bread_same _ _ _ _ Hbw) as Hrd. pose proof (bwrite_length _ _ _ _ Hbw) as Hlen.
  destruct (mload_spec (Z.to_nat (xfer count ppos)) m a ppos b1) as (m' & E & Hm' & _);
    [done|done|congruence|by rewrite Z2Nat.id|].
  exists m'. split; [|done]. rewrite E. rewrite Hl in Hrd. apply bread_inv in Hrd as (_ & _ & _ & Hrd).
  rewrite <-Hrd, Hcp by done. done.
Qed.
End mapping.

(** ** Witnesses: the buffer at 0x100000, each page named by its kernel address;
    one process maps all of it shared at 0x10000, another its second and third page
    at 0x20000, and a third all of it, privately, at 0x10000 *)
Definition wpage : Z → Z := id.
Lemma wbacked : backed wpage 0x100000.
Proof.
  intros j k Hj Hk. unfold frame, wpage, id, NULL, PAGE_SIZE.
  rewrite !u64_small by (unfold is_u64; lia). lia.
Qed.

(** VM_READ, VM_WRITE and VM_SHARED, and an area without VM_SHARED. *)
Definition wshared : vm_area := VmArea 0x10000 0x14000 0 0xB 0 no_vm_ops.
Definition wprivate : vm_area := VmArea 0x10000 0x14000 0 0x3 0 no_vm_ops.
Definition wmap1 : mapping := Mapping (example_char_mmap 7 wshared).2 ∅ ∅.
Definition wmap2 : mapping := Mapping (VmArea 0x20000 0x22000 1 0xB 0 example_vm_ops) ∅ ∅.
Definition wmap3 : mapping := Mapping (example_char_mmap 7 wprivate).2 ∅ ∅.

Lemma wmap1_ok : mapping_ok wpage 0x100000 wmap1.
Proof. split; [|done|done]. split; simpl; [by exists 16|lia|lia|unfold is_u64; lia]. Qed.
Lemma wmap2_ok : mapping_ok wpage 0x100000 wmap2.
Proof. split; [|done|done]. split; simpl; [by exists 32|lia|lia|unfold is_u64; lia]. Qed.
Lemma wprivate_ok : area_ok wprivate.
Proof. split; simpl; [by exists 16|lia|lia|unfold is_u64; lia]. Qed.

(** A store to the private mapping leaves the buffer as it is; a load then gives the
    byte stored. *)
Lemma mapping_confined_witness :
  ∃ m' m'' r m3, map_device 7 wprivate = inr wmap3 ∧
    store wpage 0x100000 0x11004 65 (bfill 7 BUFFER_SIZE) wmap3 = Some (None, bfill 7 BUFFER_SIZE, m') ∧
    refs (unmap m') = ∅ ∧
    load wpage 0x100000 0x14000 (bfill 7 BUFFER_SIZE) m' = Some (inl SIGSEGV, m'') ∧
    load wpage 0x100000 0x11004 (bfill 7 BUFFER_SIZE) m' = Some (r, m3) ∧ r = inr 65.
Proof.
  pose proof (mapping_confined wpage 0x100000 wbacked 7 wprivate wmap3 (bfill 7 BUFFER_SIZE)) as Hall.
  assert (blen (bfill 7 BUFFER_SIZE) = BUFFER_SIZE) as Hb by (by apply blen_bfill).
  destruct (Hall _ _ wprivate_ok eq_refl Hb (rtc_refl _ _)) as [_ Ha].
  destruct (Ha 0x11004 65) as (_ & (b1 & m' & E & Hst) & _).
  change (b1 = bfill 7 BUFFER_SIZE ∧ ∀ a, view m' (bfill 7 BUFFER_SIZE) a =
    if a =? 0x11004 then Some 65 else view wmap3 (bfill 7 BUFFER_SIZE) a) in Hst.
  destruct Hst as [-> Hview]. change (access_signal true wprivate 0x11004) with (@None signal) in E.
  destruct (Hall m' (bfill 7 BUFFER_SIZE) wprivate_ok eq_refl Hb) as [Hr Ha'];
    [apply rtc_once; by eapply step_store|].
  destruct (Ha' 0x14000 0) as ((r1 & m'' & E1 & Er1) & _).
  destruct (Ha' 0x11004 0) as ((r2 & m3 & E2 & Er2) & _).
  change (r1 = inl SIGSEGV) in Er1. change (∃ x, r2 = inr x ∧ view m' (bfill 7 BUFFER_SIZE) 0x11004 = Some x) in Er2.
  destruct Er2 as (x & -> & Hx). rewrite Hview in Hx. simpl in Hx. injection Hx as <-. subst r1.
  exists m', m'', (inr 65), m3. split_and!; [reflexivity|exact E|exact Hr|exact E1|exact E2|reflexivity].
Defined.

(** Two bytes on both sides of a page boundary. *)
Lemma mapping_shared_witness :
  ∃ b' m1' m2', mstore wpage 0x100000 0x11fff (chars "hi") (bfill 7 BUFFER_SIZE) wmap1 = Some (None, b', m1') ∧
    mload wpage 0x100000 0x20fff 2 b' wmap2 = Some (inr (chars "hi"), m2').
Proof.
  destruct (mapping_shared wpage 0x100000 wbacked wmap1 wmap2 0x11fff 0x20fff (chars "hi") (bfill 7 BUFFER_SIZE)
    8191 wmutex wuser 1000) as (b' & m1' & m2' & E1 & _ & E2 & _);
    [exact wmap1_ok|exact wmap2_ok|by apply blen_bfill|reflexivity|reflexivity|reflexivity|reflexivity|
     by unfold shows; vm_compute|by unfold shows; vm_compute|reflexivity..|].
  exists b', m1', m2'. split; [exact E1|exact E2].
Defined.

Lemma write_then_load_witness :
  ∃ b' mx' m', example_char_write (bfill 7 BUFFER_SIZE) wmutex wuser 1000 6 8190 = Some (6, 8196, b', mx') ∧
    mload wpage 0x100000 0x20ffe 6 b' wmap2 = Some (inr (chars "abcdef"), m').
Proof.
  assert ((λ o, (o.1.1.1, o.1.1.2)) <$> example_char_write (bfill 7 BUFFER_SIZE) wmutex wuser 1000 6 8190
    = Some (6, 8196)) as Hw by (vm_compute; reflexivity).
  destruct (example_char_write (bfill 7 BUFFER_SIZE) wmutex wuser 1000 6 8190) as [[[[r p] b'] mx']|] eqn:E; [|discriminate].
  cbn [fmap option_fmap option_map fst snd] in Hw. injection Hw as -> ->.
  destruct (write_then_load wpage 0x100000 wbacked wmap2 0x20ffe (bfill 7 BUFFER_SIZE) wmutex wuser 1000 6 8190
    6 8196 b' mx') as (m' & El & _); [exact wmap2_ok|reflexivity|by apply blen_bfill|reflexivity
    |unfold BUFFER_SIZE, PAGE_SIZE; lia|unfold MAX_RW_COUNT; lia|reflexivity|exact E|lia|by unfold shows; vm_compute|].
  exists b', mx', m'. split; [reflexivity|exact El].
Defined.
