(* ===== verification/VmaAtomic.v ===== *)
(** * Concurrent reads and writes of the mapped device (examples/class_7/02_vma_allocation)

    The read and write methods of [VmaDev.v] copy byte by byte under the device's
    mutex.  Here any number of them run interleaved, one byte at a time, as
    programs of [Threads.v]; each behaves as if it ran alone, in the order in which
    the mutex was released.  Of a caller's buffer only a first part is mapped, so
    that copies can fail half way.  Stores through a mapping take no mutex, and are
    seen in the middle of a read. *)
From stdpp Require Import functions.
From S2P Require Import Prelude Bytes Kernel Threads CharDev VmaDev.

(** ** The methods as programs *)

(** The mutex; a byte of the device's buffer copied to place [j] of the caller's, or
    stored in the device's; and the assignment to *ppos. *)
Inductive act :=
| MutexLockInterruptible | MutexUnlock | CopyOut (off j : nat) | CopyIn (off : nat) (c : Z) | SetPos (p : Z).

(** The device's buffer, who holds the mutex, and each caller's buffer, as far as it
    is mapped, and file position. *)
Record mem := Mem { shared : bytes; owner : option nat; ubuf : nat → bytes; fpos : nat → Z }.

Inductive act_step (i : nat) : act → mem → mem → Z → Prop :=
| step_lock s :
    owner s = None → act_step i MutexLockInterruptible s (Mem (shared s) (Some i) (ubuf s) (fpos s)) 0
| step_interrupted s : act_step i MutexLockInterruptible s s (-4)
| step_unlock s : owner s = Some i → act_step i MutexUnlock s (Mem (shared s) None (ubuf s) (fpos s)) 0
| step_out off j c s :
    shared s !! off = Some c → is_Some (ubuf s i !! j) →
    act_step i (CopyOut off j) s (Mem (shared s) (owner s) (<[i := <[j := c]> (ubuf s i)]> (ubuf s)) (fpos s)) 0
| step_in off c s :
    is_Some (shared s !! off) →
    act_step i (CopyIn off c) s (Mem (<[off := c]> (shared s)) (owner s) (ubuf s) (fpos s)) 0
| step_pos p s : act_step i (SetPos p) s (Mem (shared s) (owner s) (ubuf s) (<[i := p]> (fpos s))) 0.

(** The bytes one by one, then [k]. *)
Fixpoint copy_out (off j n : nat) (k : prog act) : prog act :=
  match n with O => k | S n => Do (CopyOut off j) (λ _, copy_out (S off) (S j) n k) end.
Fixpoint copy_in (off : nat) (bs : bytes) (k : prog act) : prog act :=
  match bs with [] => k | c :: bs => Do (CopyIn off c) (λ _, copy_in (S off) bs k) end.

(** copy_to_user of [count] bytes at [off] to a buffer with [room] mapped bytes, and
    copy_from_user of [count] bytes of a buffer in which [bs] are mapped; [k] gets
    the number of bytes that could not be copied.  copy_from_user stores zeros for
    those. *)
Definition copy_to_user_bytes (off count : Z) (room : nat) (k : Z → prog act) : prog act :=
  let n := Nat.min (Z.to_nat count) room in
  copy_out (Z.to_nat off) 0 n (k (count - Z.of_nat n)).
Definition copy_from_user_bytes (off count : Z) (bs : bytes) (k : Z → prog act) : prog act :=
  copy_in (Z.to_nat off) (resize (Z.to_nat count) 0 bs) (k (Z.max 0 (count - blen bs))).

(** The label out. *)
Definition unlock (ret : Z) : prog act := Do MutexUnlock (λ _, Ret ret).

(** The critical sections of example_char_read and example_char_write. *)
Definition read_body (room : nat) (count ppos : Z) : prog act :=
  if BUFFER_SIZE <=? u64 ppos then unlock 0
  else
    let count := if BUFFER_SIZE <? u64 (ppos + count) then u64 (BUFFER_SIZE - ppos) else count in
    copy_to_user_bytes ppos count room (λ nleft,
      if negb (nleft =? 0) then unlock (- EFAULT)
      else Do (SetPos (s64 (ppos + count))) (λ _, unlock (s64 count))).
Definition write_body (bs : bytes) (count ppos : Z) : prog act :=
  if BUFFER_SIZE <=? u64 ppos then unlock (- ENOSPC)
  else
    let count := if BUFFER_SIZE <? u64 (ppos + count) then u64 (BUFFER_SIZE - ppos) else count in
    copy_from_user_bytes ppos count bs (λ nleft,
      if negb (nleft =? 0) then unlock (- EFAULT)
      else Do (SetPos (s64 (ppos + count))) (λ _, unlock (s64 count))).

(** A call of read or write: what is mapped of the caller's buffer, the count and the
    position. *)
Inductive op := Read (u : bytes) (count ppos : Z) | Write (u : bytes) (count ppos : Z).
Definition buf_of (o : op) : bytes := match o with Read u _ _ | Write u _ _ => u end.
Definition pos_of (o : op) : Z := match o with Read _ _ p | Write _ _ p => p end.
Definition body (o : op) : prog act :=
  match o with
  | Read u count ppos => read_body (length u) count ppos
  | Write u count ppos => write_body u count ppos
  end.
Definition call (o : op) : prog act :=
  Do MutexLockInterruptible (λ intr, if negb (intr =? 0) then Ret (- ERESTARTSYS) else body o).

(** The counts and positions the VFS passes. *)
Definition op_ok (o : op) : Prop :=
  match o with Read _ count ppos | Write _ count ppos => 0 <= count <= MAX_RW_COUNT ∧ 0 <= ppos < 2^63 end.

(** ** The calls one after the other

    A user buffer of which a first part is mapped: copies succeed as far as that
    goes. *)
#[local] Instance prefix_user : UserAccess bytes := {
  uload u _ n := resize (Z.to_nat n) 0 u;
  copy_from_user u _ n := (Z.max 0 (n - blen u), resize (Z.to_nat n) 0 u);
  copy_to_user u _ bs := (Z.max 0 (blen bs - blen u), take (length u) bs ++ drop (length bs) u)
}.
#[local] Instance prefix_user_laws : UserAccessLaws bytes.
Proof.
  split; simpl.
  - intros u _ n Hn. unfold blen. rewrite length_resize. lia.
  - intros u _ n Hn. unfold blen. rewrite length_resize. lia.
  - done.
  - intros u _ bs Hl. unfold blen in *. rewrite Nat2Z.id, (take_ge bs) by lia. by rewrite resize_app_le, resize_all.
Qed.

(** What a call gives its caller: the result, the position and the buffer. *)
Definition outcome : Type := Z * Z * bytes.

(** The methods of [VmaDev.v], called with the mutex free: the outcome and the
    device's new buffer. *)
Definition serial (o : op) (b : bytes) : option (outcome * bytes) :=
  match o with
  | Read u count ppos =>
      '(r, p, u', _) ← example_char_read b (RefMutex false false) u 0 count ppos; Some (r, p, u', b)
  | Write u count ppos =>
      '(r, p, b', _) ← example_char_write b (RefMutex false false) u 0 count ppos; Some (r, p, u, b')
  end.

(** A critical section that nothing disturbs. *)
Fixpoint alone (p : prog act) (b u : bytes) (pos : Z) : option (outcome * bytes) :=
  match p with
  | Do (CopyOut off j) k => c ← b !! off; _ ← u !! j; alone (k 0) b (<[j := c]> u) pos
  | Do (CopyIn off c) k => _ ← b !! off; alone (k 0) (<[off := c]> b) u pos
  | Do (SetPos pos) k => alone (k 0) b u pos
  | Do MutexUnlock k => match k 0 with Ret r => Some (r, pos, u, b) | _ => None end
  | _ => None
  end.

Lemma alone_copy_out off j n k b u pos :
  (off + n <= length b)%nat → (j + n <= length u)%nat →
  alone (copy_out off j n k) b u pos = alone k b (take j u ++ take n (drop off b) ++ drop (j + n) u) pos.
Proof.
  revert off j u. induction n as [|n IH]; intros off j u Hn Hj; cbn [copy_out alone].
  { by rewrite Nat.add_0_r, take_0, app_nil_l, take_drop. }
  destruct (lookup_lt_is_Some_2 b off) as [c Hc]; [lia|]. destruct (lookup_lt_is_Some_2 u j) as [x Hx]; [lia|].
  rewrite Hc, Hx. cbn [mbind option_bind]. rewrite IH by (rewrite ?length_insert; lia).
  rewrite (take_S_r _ _ c) by (apply list_lookup_insert_eq; lia).
  rewrite take_insert_ge, drop_insert_lt by lia. rewrite (drop_S _ _ _ Hc). cbn [take].
  rewrite <-app_assoc, Nat.add_succ_r. done.
Qed.

Lemma alone_copy_in bs off k b b' u pos :
  0 <= off → bwrite b off bs = Some b' → alone (copy_in (Z.to_nat off) bs k) b u pos = alone k b' u pos.
Proof.
  revert off b. induction bs as [|c bs IH]; intros off b Hoff Hw; cbn [copy_in alone].
  - apply bwrite_inv in Hw as (_ & _ & ->). cbn [length app]. by rewrite Nat.add_0_r, take_drop.
  - pose proof Hw as (_ & Hlen & _)%bwrite_inv. replace (blen (c :: bs)) with (blen bs + 1) in Hlen by (unfold blen; simpl; lia).
    pose proof (blen_nonneg bs). destruct (lookup_lt_is_Some_2 b (Z.to_nat off)) as [x Hx]; [unfold blen in *; lia|].
    destruct (bwrite b off [c]) as [b1|] eqn:E; cycle 1.
    { apply eq_None_not_Some in E. destruct E. apply bwrite_is_Some. change (blen [c]) with 1. lia. }
    rewrite <-(bwrite_cons _ _ _ _ _ E) in Hw. pose proof E as (_ & _ & Eb)%bwrite_inv.
    rewrite Hx. cbn [mbind option_bind]. replace (S (Z.to_nat off)) with (Z.to_nat (off + 1)) by lia.
    rewrite (insert_take_drop b (Z.to_nat off) c) by (unfold blen in *; lia).
    rewrite <-(IH (off + 1) b1) by (lia || done). f_equal. rewrite Eb. cbn [length app]. do 3 f_equal. lia.
Qed.

(** The copies as calls. *)
Lemma alone_to_user off count k b u pos :
  0 <= off → 0 <= count → off + count <= blen b →
  let r := copy_to_user u 0 (take (Z.to_nat count) (drop (Z.to_nat off) b)) in
  alone (copy_to_user_bytes off count (length u) k) b u pos = alone (k r.1) b r.2 pos.
Proof.
  intros Ho Hc Hb r. unfold copy_to_user_bytes. set (n := Nat.min (Z.to_nat count) (length u)).
  assert (length (take (Z.to_nat count) (drop (Z.to_nat off) b)) = Z.to_nat count) as Hl
    by (rewrite length_take, length_drop; unfold blen in *; lia).
  rewrite alone_copy_out by (unfold blen, n in *; lia). unfold r. cbn [copy_to_user prefix_user fst snd].
  rewrite take_take, Hl. replace (Nat.min (length u) (Z.to_nat count)) with n by (unfold n; lia).
  rewrite take_0, app_nil_l, Nat.add_0_l. unfold blen. rewrite Hl.
  f_equal; [f_equal; unfold n; lia|]. f_equal.
  destruct (decide (Z.to_nat count <= length u)%nat); [f_equal; unfold n; lia|]. rewrite !drop_ge by (unfold n; lia). done.
Qed.

Lemma alone_from_user off count k b b' u pos :
  0 <= off → bwrite b off (copy_from_user u 0 count).2 = Some b' →
  alone (copy_from_user_bytes off count u k) b u pos = alone (k (copy_from_user u 0 count).1) b' u pos.
Proof. intros Ho Hw. unfold copy_from_user_bytes. by apply alone_copy_in. Qed.

(** A call's critical section, run alone, does what the method does. *)
Lemma body_alone o b :
  op_ok o → blen b = BUFFER_SIZE →
  ∃ res b', serial o b = Some (res, b') ∧ alone (body o) b (buf_of o) (pos_of o) = Some (res, b') ∧ blen b' = BUFFER_SIZE.
Proof.
  intros Ho Hb. destruct o as [u count ppos|u count ppos]; destruct Ho as [Hc Hp]; cbn [serial body buf_of pos_of].
  - destruct (example_char_read_spec b (RefMutex false false) u 0 count ppos) as (m & _ & ->); [done|done|done|done|].
    cbn [mutex_lock_interruptible ref_mutex_ops rm_signal fst negb Z.eqb mbind option_bind]. unfold read_spec, read_body.
    rewrite (u64_small ppos) by wrap_lia. destruct (Z.leb_spec BUFFER_SIZE ppos); [by eauto 10|].
    destruct (clamp_xfer count ppos) as (-> & Hx & Hx'); [lia|done|]. rewrite alone_to_user by lia.
    destruct (copy_to_user u 0 _) as [nleft u']. cbn [fst snd].
    destruct (negb (nleft =? 0)); cbn [alone unlock mbind option_bind]; [by eauto 10|].
    rewrite !s64_small by (unfold is_s64, BUFFER_SIZE, PAGE_SIZE in *; lia). eauto 10.
  - unfold example_char_write, write_body. cbn [mutex_lock_interruptible ref_mutex_ops rm_signal fst negb Z.eqb].
    rewrite (u64_small ppos) by wrap_lia. destruct (Z.leb_spec BUFFER_SIZE ppos); [by eauto 10|].
    destruct (clamp_xfer count ppos) as (-> & Hx & Hx'); [lia|done|].
    pose proof (copy_from_user_length u 0 (xfer count ppos) Hx) as Hl.
    destruct (bwrite b ppos (copy_from_user u 0 (xfer count ppos)).2) as [b'|] eqn:E; cycle 1.
    { apply eq_None_not_Some in E. destruct E. apply bwrite_is_Some. rewrite Hl. lia. }
    rewrite (alone_from_user _ _ _ _ b') by (done || lia). pose proof (bwrite_length _ _ _ _ E).
    destruct (copy_from_user u 0 _) as [nleft bs]. cbn [fst snd] in *. rewrite E. cbn [mbind option_bind].
    destruct (negb (nleft =? 0)); cbn [alone unlock mbind option_bind]; do 2 eexists; (split; [reflexivity|]); (split; [reflexivity|]); congruence.
Qed.

(** A history of calls that ran one after the other, from the buffer [b0]: who
    called, and what it was given. *)
Inductive history (ops : list op) (b0 : bytes) : list (nat * outcome) → bytes → Prop :=
| history_nil : history ops b0 [] b0
| history_call h b i o res b' :
    history ops b0 h b → ops !! i = Some o → serial o b = Some (res, b') →
    history ops b0 (h ++ [(i, res)]) b'.
Abbreviation callers h := (h.*1).

(** ** What holds at every moment *)

(** Where call [i] is, after the history [h] that left the buffer [bc]: it has not
    begun, it has the mutex and, left alone, ends as the method would on [bc], it
    was interrupted, or it is in the history. *)
Inductive stage (h : list (nat * outcome)) (bc : bytes) (s : mem) (i : nat) (o : op) : prog act → Prop :=
| stage_before :
    owner s ≠ Some i → i ∉ callers h → ubuf s i = buf_of o → fpos s i = pos_of o → stage h bc s i o (call o)
| stage_inside p res :
    owner s = Some i → i ∉ callers h → serial o bc = Some res → blen res.2 = BUFFER_SIZE →
    alone p (shared s) (ubuf s i) (fpos s i) = Some res → stage h bc s i o p
| stage_interrupted :
    owner s ≠ Some i → i ∉ callers h → ubuf s i = buf_of o → fpos s i = pos_of o →
    stage h bc s i o (Ret (- ERESTARTSYS))
| stage_done r : owner s ≠ Some i → (i, (r, fpos s i, ubuf s i)) ∈ h → stage h bc s i o (Ret r).

Record inv (ops : list op) (b0 : bytes) (c : list (prog act) * mem) : Prop := Inv {
  inv_ops : Forall op_ok ops;
  inv_length : length c.1 = length ops;
  inv_history : ∃ h bc, history ops b0 h bc ∧ NoDup (callers h) ∧ blen bc = BUFFER_SIZE ∧
    (owner c.2 = None → shared c.2 = bc) ∧ (∀ j, owner c.2 = Some j → (j < length ops)%nat) ∧
    ∀ i o p, ops !! i = Some o → c.1 !! i = Some p → stage h bc c.2 i o p
}.

(** A step of another call. *)
Lemma stage_other h h' bc bc' s s' j o p :
  stage h bc s j o p → owner s ≠ Some j → owner s' ≠ Some j → ubuf s' j = ubuf s j → fpos s' j = fpos s j →
  (∀ x, x ∈ h → x ∈ h') → (j ∉ callers h → j ∉ callers h') → stage h' bc' s' j o p.
Proof.
  intros Hst Hs Hs' Hu Hp Hh Hj. inversion Hst; subst; [..|done| |].
  - apply stage_before; [done|auto|congruence..].
  - apply stage_interrupted; [done|auto|congruence..].
  - apply stage_done; [done|]. rewrite Hu, Hp. auto.
Qed.

(** The step of call [i] rearranges the stages: its own is given, the others' are
    framed. *)
Lemma stages_insert (ops : list op) h h' bc bc' s s' (ps : list (prog act)) i o p :
  (∀ j o p, ops !! j = Some o → ps !! j = Some p → stage h bc s j o p) → ops !! i = Some o →
  stage h' bc' s' i o p →
  (∀ j, j ≠ i → owner s ≠ Some j ∧ owner s' ≠ Some j ∧ ubuf s' j = ubuf s j ∧ fpos s' j = fpos s j) →
  (∀ x, x ∈ h → x ∈ h') → (∀ j, j ≠ i → j ∉ callers h → j ∉ callers h') →
  ∀ j o p', ops !! j = Some o → <[i := p]> ps !! j = Some p' → stage h' bc' s' j o p'.
Proof.
  intros Hall Hi Hst Hframe Hh Hc j o' p' Hj Hp. destruct (decide (i = j)) as [<-|Hne].
  - apply list_lookup_insert_Some in Hp as [(_ & -> & _)|[[] _]]; [|done]. congruence.
  - rewrite list_lookup_insert_ne in Hp by done. destruct (Hframe j) as (H1 & H2 & H3 & H4); [done|].
    eapply stage_other; eauto.
Qed.

Lemma inv_step ops b0 c c' : inv ops b0 c → tstep act_step c c' → inv ops b0 c'.
Proof.
  intros [Hok Hlen (h & bc & Hh & Hnd & Hbc & Hfree & Hown & Hst)] Hs.
  inversion Hs as [ps i a k s s' v Hi Ha]; subst. cbn [fst snd] in *.
  destruct (lookup_lt_is_Some_2 ops i) as [o Ho]; [rewrite <-Hlen; by eapply lookup_lt_Some|].
  split; [done|cbn [fst]; by rewrite length_insert|]. cbn [fst snd].
  assert (owner s = Some i → ∀ j, j ≠ i → owner s ≠ Some j) as Hother by congruence.
  pose proof (Hst i o _ Ho Hi) as Hsi.
  inversion Hsi as [Hni Hnh Hg Hp E|p res Hoi Hnh Hser Hres Hal|Hni Hnh Hg Hp|r Hni Hin]; subst.
  - inversion Ha as [s1 Hnone|s1| | | |]; subst; cbn [negb Z.eqb].
    + exists h, bc. split_and!; [done..|intros j [= <-]; by eapply lookup_lt_Some|].
      destruct (body_alone o bc) as (res & b' & Hser & Hal & Hlb); [by eapply (Forall_lookup_1 _ _ _ _ Hok)|done|].
      eapply (stages_insert ops h h bc bc s); [done|done| |intros j Hj; split_and!; [congruence|cbn; congruence|done|done]|done|done].
      eapply stage_inside; [done|done|exact Hser|done|]. cbn [shared ubuf fpos]. by rewrite Hg, Hp, Hfree.
    + exists h, bc. split_and!; [done..|]. intros j oj p Hj Hpj. destruct (decide (i = j)) as [<-|Hne].
      * apply list_lookup_insert_Some in Hpj as [(_ & <- & _)|[[] _]]; [|done].
        assert (oj = o) as -> by congruence. by apply stage_interrupted.
      * rewrite list_lookup_insert_ne in Hpj by done. by apply Hst.
  - destruct a as [| |off jx|off x|pos]; cbn [alone] in Hal; [done|..].
    + destruct (k 0) as [r|] eqn:Ek; [|done]. injection Hal as <-. cbn [fst snd] in *. inversion Ha; subst.
      exists (h ++ [(i, (r, fpos s i, ubuf s i))]), (shared s). split_and!; [by eapply history_call| |done|done|by intros j|].
      * rewrite !fmap_app. apply NoDup_app. split; [done|]. split; [set_solver|]. apply NoDup_singleton.
      * rewrite Ek. eapply (stages_insert ops h _ bc _ s); [done|done| |intros j Hj; split_and!; [by apply Hother|done|done|done]|set_solver|].
        { apply stage_done; [done|]. cbn [ubuf fpos]. set_solver. }
        intros j Hj Hnj. rewrite !fmap_app. set_solver.
    + destruct (shared s !! off) as [x|] eqn:Ex; [|done]. cbn [mbind option_bind] in Hal.
      destruct (ubuf s i !! jx) as [y|] eqn:Ey; [|done]. cbn [mbind option_bind] in Hal.
      inversion Ha as [| | |off' j' x' s1 Ex' Hy| |]; subst. simplify_eq. exists h, bc.
      split_and!; [done..|cbn [owner]; by intros; congruence|done|].
      eapply (stages_insert ops h h bc bc s); [done|done| | |done|done].
      { eapply stage_inside; [done|done|exact Hser|done|]. cbn [shared ubuf fpos]. by rewrite fn_lookup_insert. }
      intros j Hj. split_and!; [by apply Hother|by apply Hother| |done]. cbn [ubuf]. by rewrite fn_lookup_insert_ne.
    + destruct (shared s !! off) as [y|] eqn:Ey; [|done]. cbn [mbind option_bind] in Hal.
      inversion Ha; subst. exists h, bc. split_and!; [done..|cbn [owner]; by intros; congruence|done|].
      eapply (stages_insert ops h h bc bc s); [done|done| | |done|done].
      { eapply stage_inside; [done|done|exact Hser|done|exact Hal]. }
      intros j Hj. split_and!; [by apply Hother|by apply Hother|done|done].
    + inversion Ha; subst. exists h, bc. split_and!; [done..|].
      eapply (stages_insert ops h h bc bc s); [done|done| | |done|done].
      { eapply stage_inside; [done|done|exact Hser|done|]. cbn [shared ubuf fpos]. by rewrite fn_lookup_insert. }
      intros j Hj. split_and!; [by apply Hother|by apply Hother|done|]. cbn [fpos]. by rewrite fn_lookup_insert_ne.
Qed.

(** The state before any of the calls. *)
Definition start (ops : list op) (b : bytes) : list (prog act) * mem :=
  (call <$> ops, Mem b None (λ i, default [] (buf_of <$> ops !! i)) (λ i, default 0 (pos_of <$> ops !! i))).

Lemma inv_init ops b : Forall op_ok ops → blen b = BUFFER_SIZE → inv ops b (start ops b).
Proof.
  intros Hok Hb. split; [done|by unfold start; cbn [fst]; rewrite length_fmap|]. exists [], b.
  split_and!; [constructor|constructor|done..|].
  intros i o p Ho Hp. cbn [start fst] in Hp. rewrite list_lookup_fmap, Ho in Hp. injection Hp as <-.
  apply stage_before; [done|apply not_elem_of_nil|..]; cbn [start ubuf fpos snd]; by rewrite Ho.
Qed.

Lemma inv_run ops b0 c c' : inv ops b0 c → rtc (tstep act_step) c c' → inv ops b0 c'.
Proof. intros Hi Hr. induction Hr; eauto using inv_step. Qed.

(** The call that has the mutex can go on; when nobody has it, any can. *)
Lemma calls_progress ops b0 ps s : inv ops b0 (ps, s) → ¬ finished ps → ∃ c', tstep act_step (ps, s) c'.
Proof.
  intros [_ Hlen (h & bc & _ & _ & _ & _ & Hown & Hst)] Hn. cbn [fst snd] in *.
  destruct (owner s) as [j|] eqn:Ej.
  - destruct (lookup_lt_is_Some_2 ops j) as [o Ho]; [auto|].
    destruct (lookup_lt_is_Some_2 ps j) as [p Hp]; [rewrite Hlen; auto|].
    pose proof (Hst j o p Ho Hp) as Hsj. inversion Hsj as [| p' res _ _ _ _ Hal| |]; subst; try congruence.
    destruct p as [r|a k]; [done|]. destruct a as [| |off jx|off x|pos]; cbn [alone] in Hal; [done|..].
    + eexists. eapply (tstep_do _ _ j); [done|by constructor].
    + destruct (shared s !! off) as [x|] eqn:Ex; [|done]. cbn [mbind option_bind] in Hal.
      destruct (ubuf s j !! jx) as [y|] eqn:Ey; [|done]. eexists. eapply (tstep_do _ _ j); [done|]. constructor; [done|by eexists].
    + destruct (shared s !! off) as [y|] eqn:Ey; [|done]. eexists. eapply (tstep_do _ _ j); [done|]. constructor. by eexists.
    + eexists. eapply (tstep_do _ _ j); [done|by constructor].
  - destruct (not_finished ps Hn) as (i & a & k & Hi).
    destruct (lookup_lt_is_Some_2 ops i) as [o Ho]; [rewrite <-Hlen; by eapply lookup_lt_Some|].
    pose proof (Hst i o _ Ho Hi) as Hsi. inversion Hsi; subst; [|congruence].
    eexists. eapply (tstep_do _ _ i); [done|by constructor].
Qed.

Lemma bounded_copy_out off j n m k : bounded m k → bounded (n + m) (copy_out off j n k).
Proof. intros Hk. revert off j. induction n as [|n IH]; intros off j; simpl; [done|]. by constructor. Qed.
Lemma bounded_copy_in off bs m k : bounded m k → bounded (length bs + m) (copy_in off bs k).
Proof. intros Hk. revert off. induction bs as [|c bs IH]; intros off; simpl; [done|]. by constructor. Qed.

Lemma bounded_call o : op_ok o → bounded (Z.to_nat BUFFER_SIZE + 3) (call o).
Proof.
  intros Ho. rewrite Nat.add_comm. constructor. intros v. destruct (negb _); [constructor|].
  assert (∀ r, bounded 1 (unlock r)) as Hu by by repeat constructor.
  assert (∀ (x y z : Z) r, bounded 2 (if negb (x =? 0) then unlock r else Do (SetPos y) (λ _, unlock z))) as Hout.
  { intros x y z r. destruct (negb _); [by eapply bounded_le; [apply Hu|lia]|by constructor]. }
  destruct o as [u count ppos|u count ppos]; destruct Ho as [Hc Hp]; cbn [body]; unfold read_body, write_body;
    rewrite (u64_small ppos) by wrap_lia; (destruct (Z.leb_spec BUFFER_SIZE ppos); [apply (bounded_le 1); [done|lia]|]);
    (destruct (clamp_xfer count ppos) as (-> & ? & ?); [lia|done|]).
  - eapply bounded_le; [apply bounded_copy_out, Hout|]. lia.
  - eapply bounded_le; [apply bounded_copy_in, Hout|]. rewrite length_resize. lia.
Qed.

Lemma calls_bounded ops b n c :
  Forall op_ok ops → nsteps (tstep act_step) n (start ops b) c →
  (n <= length ops * (Z.to_nat BUFFER_SIZE + 3))%nat.
Proof.
  intros Hok Hn. eapply (nsteps_bounded _ _ (replicate (length ops) (Z.to_nat BUFFER_SIZE + 3)%nat)) in Hn.
  - enough (∀ k m, sum_list (replicate k m) = (k * m)%nat) as E by by rewrite E in Hn.
    clear. induction k as [|k IH]; intros m; simpl; [done|]. by rewrite IH.
  - clear -Hok. induction Hok; simpl; constructor; [by apply bounded_call|done].
Qed.

Lemma inv_nsteps ops b n c :
  Forall op_ok ops → blen b = BUFFER_SIZE →
  nsteps (tstep act_step) n (start ops b) c → inv ops b c.
Proof. intros Hok Hb Hn. eapply inv_run; [by apply inv_init|]. eapply rtc_nsteps. by eexists. Qed.


(** Some schedule lets all the calls return. *)
Lemma can_finish ops b :
  Forall op_ok ops → blen b = BUFFER_SIZE →
  ∃ n ps s, nsteps (tstep act_step) n (start ops b) (ps, s) ∧ finished ps.
Proof.
  intros Hok Hb. set (c0 := start ops b). set (N := (length ops * (Z.to_nat BUFFER_SIZE + 3))%nat).
  assert (∀ m n ps s, (N <= n + m)%nat → nsteps (tstep act_step) n c0 (ps, s) →
    ∃ n ps s, nsteps (tstep act_step) n c0 (ps, s) ∧ finished ps) as Hgo.
  { induction m as [|m IH]; intros n ps s Hm Hn; (destruct (finished_dec ps) as [Hf|Hf]; [by eauto|]);
      (destruct (calls_progress ops b ps s) as [[ps' s'] Hst]; [by eapply inv_nsteps|done|]);
      (assert (nsteps (tstep act_step) (S n) c0 (ps', s')) as Hn' by (by eapply nsteps_r)).
    - pose proof (calls_bounded ops b (S n) _ Hok Hn'). lia.
    - apply (IH (S n) ps' s'); [lia|done]. }
  apply (Hgo N 0%nat (start ops b).1 (start ops b).2); [lia|constructor].
Qed.


(** ** Stores through a mapping

    User code that stores two bytes through a mapping takes no mutex. *)
Definition mapped_stores (x y : Z) : prog act := Do (CopyIn 0 x) (λ _, Do (CopyIn 1 y) (λ _, Ret 0)).

(** A read of the two bytes can deliver one from before the stores and one from
    after them, a state the buffer was never in. *)
Theorem mapped_stores_tear b0 b1 rest x y :
  ∃ ps s, rtc (tstep act_step) ([call (Read [0; 0] 2 0); mapped_stores x y], Mem (b0 :: b1 :: rest) None (λ _, [0; 0]) (λ _, 0)) (ps, s) ∧
    finished ps ∧ ubuf s 0%nat = [b0; y] ∧ shared s = x :: y :: rest.
Proof.
  eexists _, _. split.
  - do 2 (eapply rtc_l; [eapply (tstep_do _ _ 0); [reflexivity|constructor; first [reflexivity|by eexists]]|]).
    do 2 (eapply rtc_l; [eapply (tstep_do _ _ 1); [reflexivity|constructor; by eexists]|]).
    do 3 (eapply rtc_l; [eapply (tstep_do _ _ 0); [reflexivity|constructor; first [reflexivity|by eexists]]|]).
    apply rtc_refl.
  - split; [|split; reflexivity]. repeat constructor; by eexists.
Qed.
