(* ===== verification/MemAlloc.v ===== *)
(** * The allocator comparison demo (examples/class_6/01_memory_allocator_demo/mem_allocator_demo.c)

    The three timed allocation tests, the fragmentation test, the failure test,
    the /proc command that starts them and the /proc text that reports them.  The
    kernel's allocator and its clock are the interfaces [Allocator] and [Clock]
    over one system state; nothing else is assumed of them than their laws, so a
    theorem that the live blocks are unchanged also says that no test frees a
    block twice or frees what it did not allocate: the laws say nothing about
    such a call. *)
From S2P Require Import Prelude Bytes Kernel.

(** ** The clock (ktime_get_ns of include/linux/timekeeping.h)

    [now s] is the time the state [s] has reached. *)
Class Clock (S : Type) := { now : S → Z; ktime_get_ns : S → Z * S }.

(** The clock is monotonic and reading it does not touch the heap. *)
Class ClockLaws (S : Type) `{Allocator S, Clock S} := {
  now_u64 s : is_u64 (now s);
  ktime_now s : (ktime_get_ns s).1 = now (ktime_get_ns s).2;
  ktime_live s : live (ktime_get_ns s).2 = live s;
  ktime_mono s : now s <= now (ktime_get_ns s).2;
  kmalloc_mono s n : now s <= now (kmalloc s n).2;
  vmalloc_mono s n : now s <= now (vmalloc s n).2;
  kmem_cache_alloc_mono s c : now s <= now (kmem_cache_alloc s c).2;
  kfree_mono s p : now s <= now (kfree s p);
  vfree_mono s p : now s <= now (vfree s p);
  kmem_cache_free_mono s c p : now s <= now (kmem_cache_free s c p)
}.

Definition TEST_ITERATIONS : nat := 1000.
Definition SMALL_SIZE : Z := 256.
Definition MEDIUM_SIZE : Z := 4 * 1024.
Definition LARGE_SIZE : Z := 128 * 1024.

(** ** Data *)

(** struct alloc_test_result *)
Record alloc_test_result := Result {
  kmalloc_time_ns : Z; vmalloc_time_ns : Z; slab_time_ns : Z;
  kmalloc_failures : Z; vmalloc_failures : Z; slab_failures : Z;
  test_size : Z
}.
Definition zero_result : alloc_test_result := Result 0 0 0 0 0 0 0.

(** struct demo_object: its data has SMALL_SIZE - sizeof(int) bytes. *)
Record demo_object := DemoObject { id : Z; data : bytes }.

(** The three static results. *)
Record results := Results {
  small_test_results : alloc_test_result;
  medium_test_results : alloc_test_result;
  large_test_results : alloc_test_result
}.

Section tests.
Context {S : Type} `{Allocator S, Clock S}.

Definition get_time_ns (s : S) : Z * S := ktime_get_ns s.

(** The allocating loop of the tests: the array of pointers and the counter of
    failures. *)
Fixpoint alloc_loop (alloc : S → Z * S) (n : nat) (failures : Z) (s : S) : list Z * Z * S :=
  match n with
  | O => ([], failures, s)
  | Datatypes.S n' =>
      let '(p, s) := alloc s in
      let failures := if p =? NULL then s32 (failures + 1) else failures in
      let '(ptrs, failures, s) := alloc_loop alloc n' failures s in
      (p :: ptrs, failures, s)
  end.

(** The freeing loop. *)
Fixpoint free_loop (free : S → Z → S) (ptrs : list Z) (s : S) : S :=
  match ptrs with
  | [] => s
  | p :: ptrs' => free_loop free ptrs' (if p =? NULL then s else free s p)
  end.

Definition test_kmalloc_performance (result : alloc_test_result) (size : Z) (s : S)
    : alloc_test_result * S :=
  let '(start_time, s) := get_time_ns s in
  let '(ptrs, failures, s) := alloc_loop (λ s, kmalloc s size) TEST_ITERATIONS 0 s in
  let s := free_loop kfree ptrs s in
  let '(end_time, s) := get_time_ns s in
  (Result (u64 (end_time - start_time)) (vmalloc_time_ns result) (slab_time_ns result)
     failures (vmalloc_failures result) (slab_failures result) (test_size result), s).

Definition test_vmalloc_performance (result : alloc_test_result) (size : Z) (s : S)
    : alloc_test_result * S :=
  let '(start_time, s) := get_time_ns s in
  let '(ptrs, failures, s) := alloc_loop (λ s, vmalloc s size) TEST_ITERATIONS 0 s in
  let s := free_loop vfree ptrs s in
  let '(end_time, s) := get_time_ns s in
  (Result (kmalloc_time_ns result) (u64 (end_time - start_time)) (slab_time_ns result)
     (kmalloc_failures result) failures (slab_failures result) (test_size result), s).

(** The slab test writes each object it gets: the loop also threads the contents
    of the objects. *)
Fixpoint slab_loop (demo_cache : Z) (n : nat) (i failures : Z) (objs : gmap Z demo_object) (s : S)
    : list Z * Z * gmap Z demo_object * S :=
  match n with
  | O => ([], failures, objs, s)
  | Datatypes.S n' =>
      let '(p, s) := kmem_cache_alloc s demo_cache in
      let '(failures, objs) :=
        if p =? NULL then (s32 (failures + 1), objs)
        else (failures, <[p := DemoObject i (bfill 0xAA (SMALL_SIZE - 4))]> objs) in
      let '(ptrs, failures, objs, s) := slab_loop demo_cache n' (s32 (i + 1)) failures objs s in
      (p :: ptrs, failures, objs, s)
  end.

Definition test_slab_performance (demo_cache : Z) (result : alloc_test_result)
    (objs : gmap Z demo_object) (s : S) : alloc_test_result * gmap Z demo_object * S :=
  let '(start_time, s) := get_time_ns s in
  let '(ptrs, failures, objs, s) := slab_loop demo_cache TEST_ITERATIONS 0 0 objs s in
  let s := free_loop (λ s p, kmem_cache_free s demo_cache p) ptrs s in
  let '(end_time, s) := get_time_ns s in
  (Result (kmalloc_time_ns result) (vmalloc_time_ns result) (u64 (end_time - start_time))
     (kmalloc_failures result) (vmalloc_failures result) failures (test_size result), objs, s).

(** result->test_size = size, and the reset of the slab fields. *)
Definition set_test_size (size : Z) (r : alloc_test_result) : alloc_test_result :=
  Result (kmalloc_time_ns r) (vmalloc_time_ns r) (slab_time_ns r)
    (kmalloc_failures r) (vmalloc_failures r) (slab_failures r) size.
Definition reset_slab (r : alloc_test_result) : alloc_test_result :=
  Result (kmalloc_time_ns r) (vmalloc_time_ns r) 0
    (kmalloc_failures r) (vmalloc_failures r) 0 (test_size r).

Definition run_performance_tests (demo_cache : Z) (g : results) (objs : gmap Z demo_object) (s : S)
    : results * gmap Z demo_object * S :=
  let small := set_test_size SMALL_SIZE (small_test_results g) in
  let '(small, s) := test_kmalloc_performance small SMALL_SIZE s in
  let '(small, s) := test_vmalloc_performance small SMALL_SIZE s in
  let '(small, objs, s) := test_slab_performance demo_cache small objs s in
  let medium := set_test_size MEDIUM_SIZE (medium_test_results g) in
  let '(medium, s) := test_kmalloc_performance medium MEDIUM_SIZE s in
  let '(medium, s) := test_vmalloc_performance medium MEDIUM_SIZE s in
  let medium := reset_slab medium in
  let large := set_test_size LARGE_SIZE (large_test_results g) in
  let '(large, s) := test_kmalloc_performance large LARGE_SIZE s in
  let '(large, s) := test_vmalloc_performance large LARGE_SIZE s in
  (Results small medium (reset_slab large), objs, s).

(** ** The fragmentation test *)

(** for (i = 0; i < 10; i += 2): frees the chunks at even indices and clears
    their pointers. *)
Fixpoint free_every_other (ptrs : list Z) (s : S) : list Z * S :=
  match ptrs with
  | p :: q :: ptrs' =>
      let '(p, s) := if p =? NULL then (p, s) else (NULL, kfree s p) in
      let '(ptrs', s) := free_every_other ptrs' s in
      (p :: q :: ptrs', s)
  | [p] => if p =? NULL then ([p], s) else ([NULL], kfree s p)
  | [] => ([], s)
  end.

Definition test_memory_fragmentation (s : S) : S :=
  let '(large_ptrs, _, s) := alloc_loop (λ s, kmalloc s (64 * 1024)) 10 0 s in
  let '(large_ptrs, s) := free_every_other large_ptrs s in
  let '(small_ptrs, _, s) := alloc_loop (λ s, kmalloc s 1024) 100 0 s in
  let s := free_loop kfree large_ptrs s in
  free_loop kfree small_ptrs s.

(** ** The failure test

    [ptrs] starts uninitialised ([None]); a read of an element that was never
    stored is undefined. *)
Fixpoint fail_loop (n : nat) (i : Z) (ptrs : list (option Z)) (allocated : Z) (s : S)
    : list (option Z) * Z * S :=
  match n with
  | O => (ptrs, allocated, s)
  | Datatypes.S n' =>
      let '(p, s) := kmalloc s (1024 * 1024) in
      let ptrs := <[Z.to_nat i := Some p]> ptrs in
      if p =? NULL then (ptrs, allocated, s)
      else fail_loop n' (s32 (i + 1)) ptrs (s32 (allocated + 1)) s
  end.

(** for (i = 0; i < allocated; i++) kfree(ptrs[i]); [n] bounds the iterations. *)
Fixpoint cleanup_loop (n : nat) (i allocated : Z) (ptrs : list (option Z)) (s : S) : option S :=
  if i <? allocated then
    match n with
    | O => None
    | Datatypes.S n' =>
        p ← mjoin (ptrs !! Z.to_nat i);
        cleanup_loop n' (s32 (i + 1)) allocated ptrs (kfree s p)
    end
  else Some s.

Definition test_allocation_failures (s : S) : option S :=
  let '(ptrs, allocated, s) := fail_loop 1000 0 (replicate 1000 None) 0 s in
  cleanup_loop 1000 0 allocated ptrs s.
End tests.

(** ** The /proc interface *)

(** Unsigned 64-bit division; undefined for a zero divisor. *)
Definition u64_div (a b : Z) : option Z := if b =? 0 then None else Some (a / b).

(** mem_demo_show: the text it prints. *)
Definition mem_demo_show (g : results) : option string :=
  let small := small_test_results g in
  let medium := medium_test_results g in
  let large := large_test_results g in
  let m := "Memory Allocator Performance Comparison" +:+ nl
    +:+ "========================================" +:+ nl +:+ nl
    +:+ "Test Parameters:" +:+ nl
    +:+ "- Iterations per test: " +:+ pretty (Z.of_nat TEST_ITERATIONS) +:+ nl
    +:+ "- Small size: " +:+ pretty SMALL_SIZE +:+ " bytes" +:+ nl
    +:+ "- Medium size: " +:+ pretty MEDIUM_SIZE +:+ " bytes" +:+ nl
    +:+ "- Large size: " +:+ pretty LARGE_SIZE +:+ " bytes" +:+ nl +:+ nl
    +:+ "Small Allocations (" +:+ pretty (test_size small) +:+ " bytes):" +:+ nl
    +:+ "  kmalloc: " +:+ pretty (kmalloc_time_ns small) +:+ " ns (failures: "
    +:+ pretty (kmalloc_failures small) +:+ ")" +:+ nl
    +:+ "  vmalloc: " +:+ pretty (vmalloc_time_ns small) +:+ " ns (failures: "
    +:+ pretty (vmalloc_failures small) +:+ ")" +:+ nl
    +:+ "  slab:    " +:+ pretty (slab_time_ns small) +:+ " ns (failures: "
    +:+ pretty (slab_failures small) +:+ ")" +:+ nl +:+ nl
    +:+ "Medium Allocations (" +:+ pretty (test_size medium) +:+ " bytes):" +:+ nl
    +:+ "  kmalloc: " +:+ pretty (kmalloc_time_ns medium) +:+ " ns (failures: "
    +:+ pretty (kmalloc_failures medium) +:+ ")" +:+ nl
    +:+ "  vmalloc: " +:+ pretty (vmalloc_time_ns medium) +:+ " ns (failures: "
    +:+ pretty (vmalloc_failures medium) +:+ ")" +:+ nl +:+ nl
    +:+ "Large Allocations (" +:+ pretty (test_size large) +:+ " bytes):" +:+ nl
    +:+ "  kmalloc: " +:+ pretty (kmalloc_time_ns large) +:+ " ns (failures: "
    +:+ pretty (kmalloc_failures large) +:+ ")" +:+ nl
    +:+ "  vmalloc: " +:+ pretty (vmalloc_time_ns large) +:+ " ns (failures: "
    +:+ pretty (vmalloc_failures large) +:+ ")" +:+ nl +:+ nl in
  let recommendations := "Recommendations:" +:+ nl
    +:+ "- Use kmalloc for small-medium allocations (< 128KB)" +:+ nl
    +:+ "- Use vmalloc for large allocations (> 128KB)" +:+ nl
    +:+ "- Use slab cache for frequently allocated fixed-size objects" +:+ nl
    +:+ "- Always check for allocation failures" +:+ nl in
  m ← (if negb (kmalloc_time_ns small =? 0) && negb (vmalloc_time_ns small =? 0) then
         ratio ← u64_div (vmalloc_time_ns small) (kmalloc_time_ns small);
         let m := m +:+ "Performance Analysis (Small Allocations):" +:+ nl
           +:+ "  vmalloc is " +:+ pretty ratio +:+ " times slower than kmalloc" +:+ nl in
         m ← (if negb (slab_time_ns small =? 0) then
                ratio ← u64_div (kmalloc_time_ns small) (slab_time_ns small);
                Some (m +:+ "  slab is " +:+ pretty ratio +:+ " times faster than kmalloc" +:+ nl)
              else Some m);
         Some (m +:+ nl)
       else Some m);
  Some (m +:+ recommendations).

Section write.
Context {S U : Type} `{Allocator S, Clock S, UserAccess U}.

(** mem_demo_write; [cmd] is the uninitialised stack array. *)
Definition mem_demo_write (demo_cache : Z) (cmd : bytes) (u : U) (buffer count : Z)
    (g : results) (objs : gmap Z demo_object) (s : S)
    : option (Z * (results * gmap Z demo_object * S)) :=
  if blen cmd <=? count then Some (- EINVAL, (g, objs, s))
  else
    let '(left_over, bs) := copy_from_user u buffer count in
    cmd ← bwrite cmd 0 bs;
    if negb (left_over =? 0) then Some (- EFAULT, (g, objs, s))
    else
      cmd ← bwrite cmd count [0];
      if strncmp_eq cmd (lit "test") 4 then
        Some (count, run_performance_tests demo_cache g objs s)
      else if strncmp_eq cmd (lit "frag") 4 then
        Some (count, (g, objs, test_memory_fragmentation s))
      else if strncmp_eq cmd (lit "fail") 4 then
        s ← test_allocation_failures s; Some (count, (g, objs, s))
      else Some (count, (g, objs, s)).
End write.

(** ** Registration *)

Module Reg.
#[local] Open Scope kernel_scope.

Inductive call :=
| KmemCacheCreate (size : Z) | KmemCacheDestroy (c : Z)
| ProcCreate | RemoveProcEntry
| RunTests (demo_cache : Z).

Inductive resource := RCache (c : Z) | RProc.
#[export] Instance call_eq : EqDecision call.
Proof. solve_decision. Defined.
#[export] Instance resource_eq : EqDecision resource.
Proof. solve_decision. Defined.

Definition acq (c : call) (r : Z) : option resource :=
  match c with
  | KmemCacheCreate _ => if r =? NULL then None else Some (RCache r)
  | ProcCreate => if r =? NULL then None else Some RProc
  | _ => None
  end.
Definition rel (c : call) : option resource :=
  match c with
  | KmemCacheDestroy c => Some (RCache c)
  | RemoveProcEntry => Some RProc
  | _ => None
  end.

(** The static variable demo_cache. *)
Record state := State { demo_cache : Z }.

(** The size of struct demo_object. *)
Definition demo_object_size : Z := 4 + (SMALL_SIZE - 4).

(** [RunTests] stands for the call of run_performance_tests, modelled above. *)
Definition mem_allocator_demo_init : K call state Z :=
  c <-k kcall (KmemCacheCreate demo_object_size);
  kmod (λ _, State c) ;;k
  if c =? NULL then kret (- ENOMEM) else
  p <-k kcall ProcCreate;
  if p =? NULL then
    c <-k kget demo_cache; kcall (KmemCacheDestroy c) ;;k kret (- ENOMEM)
  else
  c <-k kget demo_cache; kcall (RunTests c) ;;k kret 0.

Definition mem_allocator_demo_exit : K call state unit :=
  kcall RemoveProcEntry ;;k
  c <-k kget demo_cache;
  if negb (c =? NULL) then kcall (KmemCacheDestroy c) ;;k kret tt
  else kret tt.
End Reg.

(** ** Facts on the loops *)

Lemma TEST_ITERATIONS_val : Z.of_nat TEST_ITERATIONS = 1000.
Proof. reflexivity. Qed.

(** The pointers that are not NULL. *)
Definition nonnull (ptrs : list Z) : list Z := filter (λ p, p ≠ NULL) ptrs.

Lemma nonnull_cons p ptrs :
  nonnull (p :: ptrs) = if p =? NULL then nonnull ptrs else p :: nonnull ptrs.
Proof. unfold nonnull. rewrite filter_cons. by repeat case_decide; destruct (Z.eqb_spec p NULL). Qed.

Section facts.
Context {S : Type} `{ClockLaws S} `{!AllocatorLaws S}.
Implicit Types s : S.

(** What the laws give of one allocating and of one freeing call. *)
Definition alloc_ok (k : alloc_kind) (alloc : S → Z * S) : Prop :=
  ∀ s, alloc_spec k s (alloc s) ∧ now s <= now (alloc s).2.
Definition free_ok (k : alloc_kind) (free : S → Z → S) : Prop :=
  ∀ s p, ((k, p) ∈ live s → live (free s p) = live s ∖ {[(k, p)]}) ∧ now s <= now (free s p).

Lemma kmalloc_ok n : alloc_ok ByKmalloc (λ s, kmalloc s n).
Proof. intros s. split; [apply kmalloc_spec|apply kmalloc_mono]. Qed.
Lemma vmalloc_ok n : alloc_ok ByVmalloc (λ s, vmalloc s n).
Proof. intros s. split; [apply vmalloc_spec|apply vmalloc_mono]. Qed.
Lemma cache_ok c : alloc_ok (FromCache c) (λ s, kmem_cache_alloc s c).
Proof. intros s. split; [apply kmem_cache_alloc_spec|apply kmem_cache_alloc_mono]. Qed.
Lemma kfree_ok : free_ok ByKmalloc kfree.
Proof. intros s p. split; [apply kfree_live|apply kfree_mono]. Qed.
Lemma vfree_ok : free_ok ByVmalloc vfree.
Proof. intros s p. split; [apply vfree_live|apply vfree_mono]. Qed.
Lemma cache_free_ok c : free_ok (FromCache c) (λ s p, kmem_cache_free s c p).
Proof. intros s p. split; [apply kmem_cache_free_live|apply kmem_cache_free_mono]. Qed.

(** The blocks of one kind an array of pointers refers to. *)
Definition own (k : alloc_kind) (ptrs : list Z) : gset block := blocks k (nonnull ptrs).

Lemma own_cons k p ptrs : own k (p :: ptrs) = (if p =? NULL then ∅ else {[(k, p)]}) ∪ own k ptrs.
Proof. unfold own. rewrite nonnull_cons. destruct (p =? NULL); rewrite ?blocks_cons; set_solver. Qed.

(** [s'] is [s] with exactly the blocks of [ptrs] allocated, later in time. *)
Record grown (k : alloc_kind) s s' (ptrs : list Z) : Prop := {
  grown_nodup : NoDup (nonnull ptrs);
  grown_fresh p k' : p ∈ nonnull ptrs → (k', p) ∉ live s;
  grown_live : live s' = own k ptrs ∪ live s;
  grown_now : now s <= now s'
}.

Lemma grown_nil k s : grown k s s [].
Proof.
  split; cbn; [constructor|intros p k' Hp; by apply not_elem_of_nil in Hp|set_solver|lia].
Qed.

Lemma grown_cons k alloc s s' ptrs :
  alloc_ok k alloc → grown k (alloc s).2 s' ptrs → grown k s s' ((alloc s).1 :: ptrs).
Proof.
  intros Ha [Hnd Hf Hl Hn]. destruct (Ha s) as [Hs Ht].
  destruct (alloc s) as [p s1]. simpl in *.
  destruct Hs as [[Hp Hl1]|(Hp & Hfr & Hl1)]; simpl in *; rewrite Hl1 in *.
  - split; rewrite ?own_cons, ?nonnull_cons, ?Hp; simpl; try done; [|lia]. rewrite Hl. set_solver.
  - apply Z.eqb_neq in Hp. split; rewrite ?own_cons, ?nonnull_cons, ?Hp; simpl.
    + constructor; [|done]. intros Hin%(Hf _ k). set_solver.
    + intros q k' [->|Hq]%elem_of_cons; [done|]. apply (Hf _ k') in Hq. set_solver.
    + rewrite Hl. set_solver.
    + lia.
Qed.

Lemma grown_apart k s s' ptrs x : grown k s s' ptrs → x ∈ own k ptrs → x ∉ live s.
Proof. intros Hg. destruct x as [k' p]. unfold own. rewrite elem_of_blocks. intros [_ Hp]. by eapply grown_fresh. Qed.

(** Giving the new blocks back restores the heap. *)
Lemma grown_freed k s s' ptrs : grown k s s' ptrs → live s' ∖ own k ptrs = live s.
Proof.
  intros Hg. rewrite (grown_live _ _ _ _ Hg). apply set_eq. intros x. pose proof (grown_apart k s s' ptrs x Hg).
  rewrite elem_of_difference, elem_of_union. tauto.
Qed.

Lemma alloc_loop_spec k alloc n f s :
  alloc_ok k alloc → 0 <= f → f + Z.of_nat n < 2^31 →
  let '(ptrs, f', s') := alloc_loop alloc n f s in
  grown k s s' ptrs ∧ length ptrs = n ∧ f' = f + (blen ptrs - blen (nonnull ptrs)).
Proof.
  intros Ha. revert f s. induction n as [|n IH]; intros f s Hf Hn; simpl.
  { split_and!; [apply grown_nil|done|cbn; lia]. }
  pose proof (grown_cons k alloc s) as Hg. destruct (alloc s) as [p s1] eqn:E. simpl in Hg.
  specialize (IH (if p =? NULL then s32 (f + 1) else f) s1).
  destruct (alloc_loop alloc n _ s1) as [[ptrs f'] s'].
  destruct IH as (Hgr & Hlen & ->).
  1,2: destruct (p =? NULL); rewrite ?s32_small by (unfold is_s32; lia); lia.
  split_and!; [by apply Hg|simpl; congruence|].
  rewrite nonnull_cons. unfold blen in *. destruct (Z.eqb_spec p NULL); simpl; [|lia].
  rewrite s32_small by (unfold is_s32; lia). lia.
Qed.

Lemma free_loop_spec k free ptrs s :
  free_ok k free → NoDup (nonnull ptrs) → own k ptrs ⊆ live s →
  live (free_loop free ptrs s) = live s ∖ own k ptrs ∧
  now s <= now (free_loop free ptrs s).
Proof.
  intros Hfr. revert s. induction ptrs as [|p ptrs IH]; intros s Hnd Hsub; simpl.
  { split; [set_solver|lia]. }
  unfold own in *. rewrite nonnull_cons in *.
  destruct (Z.eqb_spec p NULL) as [Hp|Hp]; [by apply IH|].
  apply NoDup_cons in Hnd as [Hni Hnd].
  destruct (blocks_free_first _ _ _ _ Hni Hsub) as (Hin & Hrest & <-).
  destruct (Hfr s p) as [Hl Ht]. rewrite <-(Hl Hin) in *.
  destruct (IH (free s p) Hnd Hrest) as [HL HT]. split; [done|lia].
Qed.

(** Allocating in a loop and freeing what was allocated, by the call that goes
    with it, restores the heap. *)
Lemma alloc_free_loop k alloc free n f s ptrs f' s1 :
  alloc_ok k alloc → free_ok k free → 0 <= f → f + Z.of_nat n < 2^31 →
  alloc_loop alloc n f s = (ptrs, f', s1) →
  live (free_loop free ptrs s1) = live s ∧ now s <= now (free_loop free ptrs s1) ∧
  f' = f + (blen ptrs - blen (nonnull ptrs)) ∧ length ptrs = n.
Proof.
  intros Ha Hfr Hf Hn E. pose proof (alloc_loop_spec k alloc n f s Ha Hf Hn) as Hs.
  rewrite E in Hs. destruct Hs as (Hg & Hlen & ->). pose proof Hg as [Hnd _ Hl Ht].
  destruct (free_loop_spec k free ptrs s1 Hfr Hnd) as [HL HT].
  { rewrite Hl. apply union_subseteq_l. }
  rewrite HL, (grown_freed _ _ _ _ Hg). split_and!; try done. lia.
Qed.
End facts.

Section timed.
Context {S : Type} `{ClockLaws S} `{!AllocatorLaws S}.
Implicit Types s : S.

(** What a timed test leaves: the heap as it was, a time that fits in the time
    that passed, a failure count between 0 and the number of iterations. *)
Definition tested s s' (time failures : Z) : Prop :=
  live s' = live s ∧ 0 <= time ∧ now s + time <= now s' ∧ 0 <= failures <= 1000.

Lemma timed_tested k alloc free s ptrs failures s1 :
  alloc_ok k alloc → free_ok k free →
  alloc_loop alloc TEST_ITERATIONS 0 (ktime_get_ns s).2 = (ptrs, failures, s1) →
  let s2 := ktime_get_ns (free_loop free ptrs s1) in
  tested s s2.2 (u64 (s2.1 - (ktime_get_ns s).1)) failures.
Proof.
  intros Ha Hf E s2.
  pose proof TEST_ITERATIONS_val as Hn.
  eapply (alloc_free_loop k alloc free TEST_ITERATIONS 0) in E
    as (HL & HT & -> & Hlen); [|done..|lia].
  pose proof (ktime_mono s). pose proof (ktime_mono (free_loop free ptrs s1)).
  subst s2. set (s3 := free_loop free ptrs s1) in *. rewrite !ktime_now.
  pose proof (now_u64 (ktime_get_ns s).2) as [? _]. pose proof (now_u64 (ktime_get_ns s3).2) as [_ ?].
  rewrite u64_small by (unfold is_u64; lia).
  pose proof (length_filter (λ p, p ≠ NULL) ptrs). fold (nonnull ptrs) in *.
  unfold tested, blen. rewrite !ktime_live in *. rewrite Hlen in *.
  split_and!; try done; lia.
Qed.

Lemma test_kmalloc_spec r size s :
  let '(r', s') := test_kmalloc_performance r size s in
  tested s s' (kmalloc_time_ns r') (kmalloc_failures r') ∧
  r' = Result (kmalloc_time_ns r') (vmalloc_time_ns r) (slab_time_ns r)
         (kmalloc_failures r') (vmalloc_failures r) (slab_failures r) (test_size r).
Proof.
  unfold test_kmalloc_performance, get_time_ns.
  pose proof (timed_tested ByKmalloc (λ s, kmalloc s size) kfree s) as Ht.
  destruct (ktime_get_ns s) as [start s0].
  destruct (alloc_loop _ _ _ _) as [[ptrs f] s1] eqn:E.
  specialize (Ht _ _ _ (kmalloc_ok size) kfree_ok eq_refl). simpl in Ht.
  by destruct (ktime_get_ns (free_loop _ _ _)).
Qed.

Lemma test_vmalloc_spec r size s :
  let '(r', s') := test_vmalloc_performance r size s in
  tested s s' (vmalloc_time_ns r') (vmalloc_failures r') ∧
  r' = Result (kmalloc_time_ns r) (vmalloc_time_ns r') (slab_time_ns r)
         (kmalloc_failures r) (vmalloc_failures r') (slab_failures r) (test_size r).
Proof.
  unfold test_vmalloc_performance, get_time_ns.
  pose proof (timed_tested ByVmalloc (λ s, vmalloc s size) vfree s) as Ht.
  destruct (ktime_get_ns s) as [start s0].
  destruct (alloc_loop _ _ _ _) as [[ptrs f] s1] eqn:E.
  specialize (Ht _ _ _ (vmalloc_ok size) vfree_ok eq_refl). simpl in Ht.
  by destruct (ktime_get_ns (free_loop _ _ _)).
Qed.

(** The slab loop allocates as the plain loop does, and initialises every object
    it was given. *)
Lemma slab_loop_alloc c n i f objs s :
  let '(ptrs, f', objs', s') := slab_loop c n i f objs s in
  alloc_loop (λ s, kmem_cache_alloc s c) n f s = (ptrs, f', s').
Proof.
  revert i f objs s. induction n as [|n IH]; intros i f objs s; simpl; [done|].
  destruct (kmem_cache_alloc s c) as [p s1]. destruct (p =? NULL).
  - specialize (IH (s32 (i + 1)) (s32 (f + 1)) objs s1).
    destruct (slab_loop _ _ _ _ _ _) as [[[ptrs f'] objs'] s']. by rewrite IH.
  - specialize (IH (s32 (i + 1)) f (<[p := DemoObject i (bfill 0xAA (SMALL_SIZE - 4))]> objs) s1).
    destruct (slab_loop _ _ _ _ _ _) as [[[ptrs f'] objs'] s']. by rewrite IH.
Qed.

Lemma test_slab_spec c r objs s :
  let '(r', objs', s') := test_slab_performance c r objs s in
  tested s s' (slab_time_ns r') (slab_failures r') ∧
  r' = Result (kmalloc_time_ns r) (vmalloc_time_ns r) (slab_time_ns r')
         (kmalloc_failures r) (vmalloc_failures r) (slab_failures r') (test_size r).
Proof.
  unfold test_slab_performance, get_time_ns.
  pose proof (timed_tested (FromCache c) (λ s, kmem_cache_alloc s c) (λ s p, kmem_cache_free s c p) s) as Ht.
  destruct (ktime_get_ns s) as [start s0].
  pose proof (slab_loop_alloc c TEST_ITERATIONS 0 0 objs s0) as E.
  destruct (slab_loop _ _ _ _ _ _) as [[[ptrs f] objs'] s1].
  specialize (Ht _ _ _ (cache_ok c) (cache_free_ok c) E). simpl in Ht.
  by destruct (ktime_get_ns (free_loop _ _ _)).
Qed.

(** C10: the performance tests measure and clean up.  For every allocator and
    monotonic clock, whichever of the 7,000 allocations fail, afterwards exactly
    the blocks live before are live again; every failure count lies between 0 and
    1000; the reported times do not wrap and together fit in the time that passed;
    the sizes are those tested and the slab fields of the medium and large results
    are zero. *)
Theorem run_performance_tests_correct c g objs s :
  let '(g', objs', s') := run_performance_tests c g objs s in
  let small := small_test_results g' in
  let medium := medium_test_results g' in
  let large := large_test_results g' in
  live s' = live s ∧
  test_size small = 256 ∧ test_size medium = 4096 ∧ test_size large = 131072 ∧
  (∀ f, f ∈ [kmalloc_failures small; vmalloc_failures small; slab_failures small;
             kmalloc_failures medium; vmalloc_failures medium;
             kmalloc_failures large; vmalloc_failures large] → 0 <= f <= 1000) ∧
  (∀ t, t ∈ [kmalloc_time_ns small; vmalloc_time_ns small; slab_time_ns small;
             kmalloc_time_ns medium; vmalloc_time_ns medium;
             kmalloc_time_ns large; vmalloc_time_ns large] → 0 <= t) ∧
  now s + (kmalloc_time_ns small + vmalloc_time_ns small + slab_time_ns small +
           kmalloc_time_ns medium + vmalloc_time_ns medium +
           kmalloc_time_ns large + vmalloc_time_ns large) <= now s' ∧
  slab_time_ns medium = 0 ∧ slab_failures medium = 0 ∧
  slab_time_ns large = 0 ∧ slab_failures large = 0.
Proof.
  unfold run_performance_tests.
  repeat match goal with
  | |- context [test_kmalloc_performance ?r ?z ?s] =>
      pose proof (test_kmalloc_spec r z s); destruct (test_kmalloc_performance r z s)
  | |- context [test_vmalloc_performance ?r ?z ?s] =>
      pose proof (test_vmalloc_spec r z s); destruct (test_vmalloc_performance r z s)
  | |- context [test_slab_performance ?c ?r ?o ?s] =>
      pose proof (test_slab_spec c r o s); destruct (test_slab_performance c r o s) as [[??]?]
  end.
  unfold tested in *. destruct_and!.
  repeat match goal with H : _ = Result _ _ _ _ _ _ _ |- _ => rewrite H in *; clear H end. simpl in *.
  split_and!; try done; try congruence; try lia;
    intros x Hx; rewrite !elem_of_cons, elem_of_nil in Hx;
    repeat destruct Hx as [->|Hx]; try lia; done.
Qed.

Lemma run_performance_tests_live c g objs s :
  live (run_performance_tests c g objs s).2 = live s.
Proof.
  unfold run_performance_tests.
  repeat match goal with
  | |- context [test_kmalloc_performance ?r ?z ?s] =>
      pose proof (test_kmalloc_spec r z s); destruct (test_kmalloc_performance r z s)
  | |- context [test_vmalloc_performance ?r ?z ?s] =>
      pose proof (test_vmalloc_spec r z s); destruct (test_vmalloc_performance r z s)
  | |- context [test_slab_performance ?c ?r ?o ?s] =>
      pose proof (test_slab_spec c r o s); destruct (test_slab_performance c r o s) as [[??]?]
  end.
  unfold tested in *. destruct_and!. simpl. congruence.
Qed.
End timed.

(** ** The fragmentation and failure tests *)

Abbreviation kown := (own ByKmalloc).

Lemma NoDup_nonnull_cons p ptrs :
  NoDup (nonnull (p :: ptrs)) ↔ (p ≠ NULL → (ByKmalloc, p) ∉ kown ptrs) ∧ NoDup (nonnull ptrs).
Proof.
  unfold own. rewrite nonnull_cons, elem_of_blocks. simpl. destruct (Z.eqb_spec p NULL); [tauto|].
  rewrite NoDup_cons. tauto.
Qed.

Section stress.
Context {S : Type} `{ClockLaws S} `{!AllocatorLaws S}.
Implicit Types s : S.

(** Freeing a part of the chunks: what is freed is no longer in the array. *)
Lemma free_every_other_spec ptrs s :
  NoDup (nonnull ptrs) → kown ptrs ⊆ live s →
  let '(ptrs', s') := free_every_other ptrs s in
  NoDup (nonnull ptrs') ∧ kown ptrs' ⊆ kown ptrs ∧ live s' = live s ∖ (kown ptrs ∖ kown ptrs').
Proof.
  revert ptrs s. fix IH 1. intros [|p [|q ptrs]] s Hnd Hsub; simpl.
  - split_and!; [done|done|set_solver].
  - rewrite own_cons in Hsub. pose proof (kfree_live s p) as Hk.
    destruct (Z.eqb_spec p NULL) as [->|Hp].
    + split_and!; [done|done|set_solver].
    + rewrite Hk by set_solver. rewrite !own_cons, (proj2 (Z.eqb_neq _ _) Hp). simpl.
      split_and!; [constructor|set_solver|set_solver].
  - apply NoDup_nonnull_cons in Hnd as [Hp [Hq Hnd]%NoDup_nonnull_cons].
    rewrite !own_cons in *. pose proof (kfree_live s p) as Hk.
    assert (∃ p' s1, (if p =? NULL then (p, s) else (NULL, kfree s p)) = (p', s1) ∧ p' = NULL ∧
      live s1 = live s ∖ (if p =? NULL then ∅ else {[(ByKmalloc, p)]})) as (p' & s1 & -> & -> & Hl).
    { destruct (Z.eqb_spec p NULL); eexists _, _; split_and!; try done; [set_solver|].
      apply Hk. set_solver. }
    specialize (IH ptrs s1 Hnd). destruct (free_every_other ptrs s1) as [ptrs' s'].
    destruct IH as (HN & HO & HL).
    { rewrite Hl. destruct (Z.eqb_spec p NULL); set_solver. }
    rewrite !own_cons, HL, Hl. simpl. split_and!.
    + apply NoDup_nonnull_cons. split; [done|]. apply NoDup_nonnull_cons. split; [|done].
      intros Hn Hin%HO. by apply Hq.
    + set_solver.
    + apply set_eq. intros x. specialize (HO x).
      assert (p ≠ NULL → x = (ByKmalloc, p) → x ∉ (if q =? NULL then ∅ else {[(ByKmalloc, q)]}) ∪ kown ptrs) as Hp'
        by (intros ? ->; auto).
      assert (q ≠ NULL → x = (ByKmalloc, q) → x ∉ kown ptrs) as Hq' by (intros ? ->; auto).
      destruct (Z.eqb_spec p NULL), (Z.eqb_spec q NULL);
        rewrite ?elem_of_difference, ?elem_of_union, ?elem_of_singleton, ?elem_of_empty in *;
        destruct (decide (x ∈ kown ptrs')); tauto.
Qed.

Lemma test_memory_fragmentation_live s : live (test_memory_fragmentation s) = live s.
Proof.
  unfold test_memory_fragmentation.
  pose proof (alloc_loop_spec ByKmalloc (λ s, kmalloc s (64 * 1024)) 10 0 s (kmalloc_ok _)) as Hs1.
  destruct (alloc_loop _ 10 0 s) as [[large f1] s1].
  destruct Hs1 as (Hg1 & _ & _); [lia..|]. pose proof Hg1 as [Hnd1 _ Hl1 _].
  pose proof (free_every_other_spec large s1 Hnd1) as Hs2.
  destruct (free_every_other large s1) as [large' s2].
  destruct Hs2 as (Hnd2 & Ho & Hl2); [set_solver|].
  pose proof (alloc_loop_spec ByKmalloc (λ s, kmalloc s 1024) 100 0 s2 (kmalloc_ok _)) as Hs3.
  destruct (alloc_loop _ 100 0 s2) as [[small f3] s3].
  destruct Hs3 as (Hg3 & _ & _); [lia..|]. pose proof Hg3 as [Hnd3 _ Hl3 _].
  destruct (free_loop_spec ByKmalloc kfree large' s3 kfree_ok Hnd2) as [Hl4 _]; [set_solver|].
  assert (∀ x, x ∈ kown large → x ∉ live s) as Hfr1 by eauto using grown_apart.
  assert (∀ x, x ∈ kown small → x ∉ live s2) as Hfr3 by eauto using grown_apart.
  destruct (free_loop_spec ByKmalloc kfree small (free_loop kfree large' s3) kfree_ok Hnd3) as [-> _]; [set_solver|].
  rewrite Hl4, Hl3, Hl2, Hl1. rewrite Hl2, Hl1 in Hfr3. apply set_eq. intros x.
  specialize (Hfr1 x). specialize (Hfr3 x). specialize (Ho x).
  rewrite !elem_of_difference, !elem_of_union, !elem_of_difference, !elem_of_union in *.
  destruct (decide (x ∈ kown large')); tauto.
Qed.

(** The allocating loop of the failure test fills a prefix of the array. *)
Lemma fail_loop_spec n i ptrs s :
  0 <= i → i + Z.of_nat n < 2^31 → i + Z.of_nat n <= Z.of_nat (length ptrs) →
  let '(ptrs', allocated, s') := fail_loop n i ptrs i s in
  ∃ ps, grown ByKmalloc s s' ps ∧ allocated = i + blen ps ∧ (length ps <= n)%nat ∧
    (∀ p, p ∈ ps → p ≠ NULL) ∧
    (∀ j, (j < Z.to_nat i)%nat → ptrs' !! j = ptrs !! j) ∧
    (∀ k p, ps !! k = Some p → ptrs' !! (Z.to_nat i + k)%nat = Some (Some p)).
Proof.
  revert i ptrs s. induction n as [|n IH]; intros i ptrs s Hi Hn Hlen; simpl.
  { exists []. split_and!; try done; [apply grown_nil|unfold blen; simpl; lia|].
    intros p Hp. by apply not_elem_of_nil in Hp. }
  pose proof (grown_cons ByKmalloc (λ s, kmalloc s (1024 * 1024)) s) as Hg.
  pose proof (kmalloc_spec s (1024 * 1024)) as Hks. change (1024 * 1024) with 1048576 in *.
  destruct (kmalloc s 1048576) as [p s1] eqn:E. simpl in Hg, Hks.
  destruct (Z.eqb_spec p NULL) as [->|Hp].
  { exists []. split_and!; [|unfold blen; simpl; lia|simpl; lia|set_solver| |done].
    - rewrite E in Hg. by destruct (Hg s1 [] (kmalloc_ok _) (grown_nil _ _)).
    - intros j Hj. by rewrite list_lookup_insert_ne by lia. }
  rewrite s32_small by (unfold is_s32; lia).
  specialize (IH (i + 1) (<[Z.to_nat i := Some p]> ptrs) s1).
  destruct (fail_loop n (i + 1) _ (i + 1) s1) as [[ptrs' allocated] s'].
  destruct IH as (ps & Hgr & -> & Hle & Hnn & Hpre & Hps); [lia|lia|rewrite length_insert; lia|].
  exists (p :: ps). split_and!; [|unfold blen; simpl; lia|simpl; lia|..].
  - rewrite E in Hg. apply (Hg s' ps (kmalloc_ok _) Hgr).
  - intros x [->|Hx]%elem_of_cons; auto.
  - intros j Hj. rewrite Hpre by lia. by rewrite list_lookup_insert_ne by lia.
  - intros [|k] x Hx; simpl in Hx.
    + rewrite Nat.add_0_r, Hpre by lia. simplify_eq. by rewrite list_lookup_insert_eq by lia.
    + rewrite <-(Hps k x Hx). f_equal. lia.
Qed.

Lemma cleanup_loop_spec n i ptrs ps s :
  0 <= i → i + Z.of_nat n < 2^31 → (length ps <= n)%nat →
  (∀ k p, ps !! k = Some p → ptrs !! (Z.to_nat i + k)%nat = Some (Some p)) →
  NoDup ps → blocks ByKmalloc ps ⊆ live s →
  ∃ s', cleanup_loop n i (i + blen ps) ptrs s = Some s' ∧ live s' = live s ∖ blocks ByKmalloc ps.
Proof.
  revert i ps s. induction n as [|n IH]; intros i ps s Hi Hn Hle Hps Hnd Hsub.
  - destruct ps; simpl in Hle; [|lia]. exists s. cbn. rewrite Z.add_0_r, Z.ltb_irrefl.
    split; [done|set_solver].
  - destruct ps as [|p ps]; simpl.
    { exists s. cbn. rewrite Z.add_0_r, Z.ltb_irrefl. split; [done|set_solver]. }
    rewrite (proj2 (Z.ltb_lt _ _)) by (unfold blen; simpl; lia).
    pose proof (Hps 0%nat p eq_refl) as Hp0. rewrite Nat.add_0_r in Hp0. rewrite Hp0. simpl.
    rewrite s32_small by (unfold is_s32; lia).
    replace (i + blen (p :: ps)) with ((i + 1) + blen ps) by (unfold blen; simpl; lia).
    apply NoDup_cons in Hnd as [Hni Hnd]. simpl in *.
    destruct (blocks_free_first _ _ _ _ Hni Hsub) as (Hin & Hrest & <-).
    rewrite <-(kfree_live s p Hin) in *.
    destruct (IH (i + 1) ps (kfree s p)) as (s' & -> & Hl); try done; try lia; [|eauto].
    intros k x Hx. rewrite <-(Hps (Datatypes.S k) x Hx). f_equal. lia.
Qed.

Lemma nonnull_all ps : (∀ p, p ∈ ps → p ≠ NULL) → nonnull ps = ps.
Proof.
  induction ps as [|p ps IH]; intros Hn; [done|].
  rewrite nonnull_cons, (proj2 (Z.eqb_neq _ _)), IH; try done; [|apply Hn; set_solver].
  intros x Hx. apply Hn. set_solver.
Qed.

(** The failure test never reads a pointer it did not store, stops, and frees
    everything it allocated. *)
Lemma test_allocation_failures_live s :
  ∃ s', test_allocation_failures s = Some s' ∧ live s' = live s.
Proof.
  unfold test_allocation_failures.
  assert (Z.of_nat 1000 = 1000) as Hk by done. generalize dependent 1000%nat. intros n Hk.
  pose proof (fail_loop_spec n 0 (replicate n None) s) as Hf.
  destruct (fail_loop n 0 _ 0 s) as [[ptrs allocated] s1].
  destruct Hf as (ps & Hg & -> & Hle & Hnn & _ & Hps); rewrite ?length_replicate; try lia.
  pose proof Hg as [Hnd _ Hl _]. pose proof (grown_freed _ _ _ _ Hg) as Hfreed. unfold own in *.
  rewrite (nonnull_all ps Hnn) in *.
  destruct (cleanup_loop_spec n 0 ptrs ps s1) as (s' & -> & Hl'); try done; try lia.
  { rewrite Hl. apply union_subseteq_l. }
  exists s'. split; [done|]. by rewrite Hl'.
Qed.
End stress.

(** ** The command interface *)

Section command.
Context {S U : Type} `{ClockLaws S} `{!AllocatorLaws S} `{UserAccessLaws U}.

(** C32: the command file does what it is told and leaks nothing.  A write of 16
    bytes or more is refused with -EINVAL and one whose copy fails with -EFAULT,
    nothing changed; any other write returns its length after running the test
    the first four characters of the user's string name (none for another word),
    whatever the uninitialised command array held; after every command, whichever
    allocations failed, the same blocks are live as before, and the failure test
    ends without reading a pointer it did not store. *)
Theorem mem_demo_write_correct c cmd (u : U) buffer count g objs (s : S) :
  blen cmd = 16 → 0 <= count →
  let word := take 4 (c_str (uload u buffer count)) in
  ∃ r g' objs' s',
    mem_demo_write c cmd u buffer count g objs s = Some (r, (g', objs', s')) ∧
    live s' = live s ∧
    (if 16 <=? count then r = - EINVAL ∧ g' = g ∧ objs' = objs ∧ s' = s
     else if negb ((copy_from_user u buffer count).1 =? 0) then
       r = - EFAULT ∧ g' = g ∧ objs' = objs ∧ s' = s
     else r = count ∧
       (if decide (word = chars "test") then
          (g', objs', s') = run_performance_tests c g objs s
        else g' = g ∧ objs' = objs ∧
          (if decide (word = chars "frag") then s' = test_memory_fragmentation s
           else if decide (word = chars "fail") then test_allocation_failures s = Some s'
           else s' = s))).
Proof.
  intros Hc Hn word. unfold mem_demo_write. rewrite Hc.
  destruct (Z.leb_spec 16 count); [by eexists _, _, _, _|].
  pose proof (copy_from_user_length u buffer count Hn) as Hl.
  pose proof (copy_from_user_ok u buffer count Hn) as Hok.
  destruct (copy_from_user u buffer count) as [l bs]. simpl in *.
  destruct (store_terminated cmd bs) as (b1 & b2 & -> & Hb2 & Hs); [lia|]. simpl.
  destruct (Z.eqb_spec l 0) as [->|]; simpl; [|by eexists _, _, _, _].
  rewrite Hl in Hb2. rewrite Hb2. simpl. unfold strncmp_eq. rewrite Hs, (Hok eq_refl).
  change (Z.to_nat 4) with 4%nat. fold word. change (c_str (lit ?w)) with (chars w).
  change (take 4 (chars ?w)) with (chars w). rewrite !bool_decide_decide.
  destruct (decide (word = chars "test")).
  { pose proof (run_performance_tests_live c g objs s) as Hr.
    destruct (run_performance_tests c g objs s) as [[g' objs'] s'].
    simpl in Hr. by exists count, g', objs', s'. }
  destruct (decide (word = chars "frag")).
  { eexists _, _, _, _. split_and!; try done. apply test_memory_fragmentation_live. }
  destruct (decide (word = chars "fail")); [|by eexists _, _, _, _].
  destruct (test_allocation_failures_live s) as (s' & E & Hs').
  rewrite E. simpl. by eexists _, _, _, _.
Qed.
End command.

(** The report never divides by zero. *)
Lemma mem_demo_show_total g : is_Some (mem_demo_show g).
Proof.
  unfold mem_demo_show, u64_div.
  destruct (kmalloc_time_ns (small_test_results g) =? 0); [done|].
  destruct (vmalloc_time_ns (small_test_results g) =? 0); [done|].
  by destruct (slab_time_ns (small_test_results g) =? 0).
Qed.

(** ** A reference system: the bump allocator with a clock that ticks once a call
    and stops at the last 64-bit value *)

Record clocked := Clocked { heap : bump; ticks : positive }.

Definition tick (b : bump) (t : positive) : clocked := Clocked b (Pos.succ t).

#[export] Instance clocked_allocator : Allocator clocked := {
  live s := live (heap s);
  kmalloc s n := let '(p, b) := kmalloc (heap s) n in (p, tick b (ticks s));
  kfree s p := tick (kfree (heap s) p) (ticks s);
  vmalloc s n := let '(p, b) := vmalloc (heap s) n in (p, tick b (ticks s));
  vfree s p := tick (vfree (heap s) p) (ticks s);
  kmem_cache_alloc s c := let '(p, b) := kmem_cache_alloc (heap s) c in (p, tick b (ticks s));
  kmem_cache_free s c p := tick (kmem_cache_free (heap s) c p) (ticks s)
}.
#[export] Instance clocked_clock : Clock clocked := {
  now s := Z.min (Zpos (ticks s)) (2^64 - 1);
  ktime_get_ns s := (Z.min (Zpos (Pos.succ (ticks s))) (2^64 - 1), tick (heap s) (ticks s))
}.

#[export] Instance clocked_laws : AllocatorLaws clocked.
Proof.
  split; intros s; simpl; intros; try done.
  - pose proof (bump_alloc_spec ByKmalloc (heap s)). by destruct (bump_alloc _ (heap s)).
  - pose proof (bump_alloc_spec ByVmalloc (heap s)). by destruct (bump_alloc _ (heap s)).
  - pose proof (bump_alloc_spec (FromCache c) (heap s)). by destruct (bump_alloc _ (heap s)).
Qed.
#[export] Instance clocked_clock_laws : ClockLaws clocked.
Proof.
  split; intros s; simpl; intros; unfold is_u64; try destruct (bump_alloc _ (heap s)); simpl;
    try done; lia.
Qed.

Definition wsystem : clocked := Clocked (Bump {[(ByVmalloc, 7)]} 8 2) 1.
Definition wresults : results := Results zero_result zero_result zero_result.

Lemma run_performance_tests_correct_witness :
  live (run_performance_tests 5 wresults ∅ wsystem).2 = {[(ByVmalloc, 7)]}.
Proof.
  pose proof (run_performance_tests_correct 5 wresults ∅ wsystem) as Hw.
  destruct (run_performance_tests 5 wresults ∅ wsystem) as [[g' objs'] s'].
  destruct Hw as [Hw _]. exact Hw.
Defined.

Lemma mem_demo_write_correct_witness :
  ∃ s', mem_demo_write 5 (bfill 0xCC 16) (FlatUser 1000 (chars "frag it")) 1000 7 wresults ∅ wsystem
    = Some (7, (wresults, ∅, s')) ∧ live s' = {[(ByVmalloc, 7)]} ∧ s' = test_memory_fragmentation wsystem.
Proof.
  destruct (mem_demo_write_correct 5 (bfill 0xCC 16) (FlatUser 1000 (chars "frag it")) 1000 7
    wresults ∅ wsystem) as (r & g' & objs' & s' & Hw & Hl & Hs); [reflexivity|lia|].
  destruct Hs as (-> & -> & -> & Hs). exists s'. split; [exact Hw|]. split; [exact Hl|exact Hs].
Defined.

Module RegFacts.
Import Reg.

(** Loading and unloading the module leaks nothing, whatever the kernel
    answers: a failing init returns -ENOMEM and holds nothing, a successful one
    runs the tests once, with the cache it created, and holds exactly the slab
    cache and the /proc entry, which exit releases in reverse order. *)
Theorem mem_allocator_demo_init_exit (e : env call) (s : state) :
  let '(ret, w) := mem_allocator_demo_init e (KWorld s []) in
  let '(_, w') := mem_allocator_demo_exit e w in
  (ret = - ENOMEM ∧ held_run acq rel [] (ktr w) = Some [] ∧ ∀ c r, ¬ ((RunTests c, r) ∈ ktr w)) ∨
  (ret = 0 ∧ held_run acq rel [] (ktr w) = Some [RProc; RCache (demo_cache (kst w))] ∧
     (∃ r1 r2, ktr w = [(KmemCacheCreate demo_object_size, demo_cache (kst w)); (ProcCreate, r1);
                        (RunTests (demo_cache (kst w)), r2)]) ∧
     held_run acq rel [] (ktr w') = Some []).
Proof.
  unfold mem_allocator_demo_init. destruct s.
  all: repeat kstep; unfold mem_allocator_demo_exit; repeat kstep; cbn [demo_cache] in *.
  all: unfold acq, rel; kheld; first
    [ left; split_and!; [done|done|]; intros c q Hq;
      rewrite !elem_of_cons, elem_of_nil in Hq; naive_solver
    | right; split_and!; [done|done|by eexists _, _|done] | zbool; done ].
Qed.
End RegFacts.
