(* ===== verification/SharedMem.v ===== *)
(** * The shared-memory message device (examples/class_6/02_dma_buffer_demo/shared_memory_demo.c)

    An 8 KB buffer that user code maps: it writes a message into the first half,
    issues an ioctl, and reads the reply from the second half.  The file models
    the message handler, the ioctl dispatch, mmap and the registration path.  User
    code can write the buffer at any time, also while the handler runs:
    [process_message_with] takes what it writes between the handler's steps. *)
From S2P Require Import Prelude Bytes Kernel CharDev.

Definition BUFFER_SIZE : Z := 8 * 1024.
Definition MSG_SIZE : Z := 4 * 1024.

Definition SHARED_MEM_IOC_MAGIC : Z := 83.
Definition SHARED_MEM_SEND_MSG : Z := _IO SHARED_MEM_IOC_MAGIC 1.

(** ** Messages *)

Section messages.
Context {M : Type} `{Mutex M}.

(** struct shared_mem_device, the data part: user_to_kernel is offset 0 of the
    shared buffer, kernel_to_user is offset MSG_SIZE. *)
Record shared_mem_device := SharedMemDevice { shared_buffer : bytes; mutex : M; msg_count : Z }.

(** The string printed with %s from the input area.  The output area follows the
    input area: a string that does not end in the input area overlaps the
    destination of snprintf, which is undefined. *)
Definition input_string (buf : bytes) : option bytes :=
  strlen (take (Z.to_nat MSG_SIZE) buf) ≫= λ _, Some (c_str (take (Z.to_nat MSG_SIZE) buf)).

Definition echo_text (n : Z) (input : bytes) : bytes :=
  chars "Echo #" ++ dec n ++ chars ": " ++ input.

(** process_message, with what user code does to the buffer before the log line
    and before the reply is formatted. *)
Definition process_message_with (user1 user2 : bytes → bytes) (d : shared_mem_device)
    : option shared_mem_device :=
  let m := mutex_lock (mutex d) in
  let len := strnlen (shared_buffer d) (MSG_SIZE - 1) in
  buf ← bwrite (shared_buffer d) len [0];
  let buf := user1 buf in
  _ ← input_string buf;
  let msg_count := u64 (msg_count d + 1) in
  let buf := user2 buf in
  input ← input_string buf;
  '(_, buf) ← snprintf buf MSG_SIZE MSG_SIZE (echo_text msg_count input);
  Some (SharedMemDevice buf (mutex_unlock m) msg_count).

(** process_message, when user code leaves the buffer alone meanwhile. *)
Definition process_message : shared_mem_device → option shared_mem_device :=
  process_message_with id id.

Definition shared_mem_ioctl (cmd : Z) (d : shared_mem_device) : option (Z * shared_mem_device) :=
  if negb (_IOC_TYPE cmd =? SHARED_MEM_IOC_MAGIC) then Some (- ENOTTY, d)
  else if cmd =? SHARED_MEM_SEND_MSG then d ← process_message d; Some (0, d)
  else Some (- ENOTTY, d).
End messages.
Arguments shared_mem_device : clear implicits.

(** ** Mapping *)

(** struct vm_area_struct, the fields the module uses, and what it asks
    remap_pfn_range for. *)
Record vm_area := VmArea { vm_start : Z; vm_end : Z; vm_page_prot : Z }.
Record remap := Remap { r_addr : Z; r_pfn : Z; r_size : Z; r_prot : Z }.

(** shared_mem_mmap: its result and the mapping made.  virt_to_phys and
    remap_pfn_range are the kernel's. *)
Definition shared_mem_mmap (virt_to_phys : Z → Z) (remap_pfn_range : remap → Z)
    (buffer : Z) (vma : vm_area) : Z * option remap :=
  let size := u64 (vm_end vma - vm_start vma) in
  if BUFFER_SIZE <? size then (- EINVAL, None)
  else
    let pfn := Z.shiftr (virt_to_phys buffer) PAGE_SHIFT in
    let req := Remap (vm_start vma) pfn size (vm_page_prot vma) in
    if negb (remap_pfn_range req =? 0) then (- EAGAIN, None)
    else (0, Some req).

(** ** What a message exchange does *)

Lemma c_str_terminated a b n :
  0 ∉ a → (length a < n)%nat → c_str (take n (a ++ 0 :: b)) = a ∧ is_Some (strlen (take n (a ++ 0 :: b))).
Proof.
  intros Ha Hn. rewrite take_app, take_ge by lia.
  destruct (n - length a)%nat as [|k] eqn:E; [lia|]. simpl.
  split; [by apply c_str_app_nul|]. apply strlen_is_Some. set_solver.
Qed.

Lemma c_str_cut a b n : 0 ∉ a → (length a <= n)%nat → c_str (take n (a ++ 0 :: b)) = a.
Proof.
  intros Ha Hn. destruct (decide (length a = n)) as [<-|Hne].
  - rewrite take_app_exact by done. by apply c_str_id.
  - apply c_str_terminated; [done|lia].
Qed.

Lemma echo_text_no_nul n s : 0 ∉ s → 0 ∉ echo_text n s.
Proof.
  intros Hs. unfold echo_text. rewrite !not_elem_of_app.
  split_and!; [by apply (bool_decide_eq_true_1 _)|apply dec_no_nul|by apply (bool_decide_eq_true_1 _)|done].
Qed.

#[local] Opaque echo_text.

Section facts.
Context {M : Type} `{MutexLaws M}.
Implicit Types d : shared_mem_device M.

(** The device between two messages. *)
Definition idle d : Prop := blen (shared_buffer d) = BUFFER_SIZE ∧ held (mutex d) = false.

(** Terminating the message: the user's bytes up to the first NUL, or the first
    4095 of them, become the string in the message area. *)
Lemma terminate_message b :
  blen b = BUFFER_SIZE →
  let input := c_str (take 4095 b) in
  ∃ b1, bwrite b (blen input) [0] = Some b1 ∧ blen b1 = blen b ∧
    c_str (take 4096 b1) = input ∧ is_Some (strlen (take 4096 b1)) ∧
    ∀ i : nat, i ≠ length input → b1 !! i = b !! i.
Proof.
  intros Hb input. unfold BUFFER_SIZE in *. pose proof (c_str_le (take 4095 b)) as Hle.
  fold input in Hle. assert (blen (take 4095 b) = 4095) as Ht by (unfold blen in *; rewrite length_take; lia).
  assert (take (length input) b = input) as Hin.
  { unfold input at 2. rewrite c_str_take, take_take. fold input. f_equal. unfold blen in *. lia. }
  destruct (bwrite b (blen input) [0]) as [b1|] eqn:E; cycle 1.
  { apply eq_None_not_Some in E. destruct E. apply bwrite_is_Some.
    change (blen [0]) with 1. pose proof (blen_nonneg input). lia. }
  assert (c_str (take 4096 b1) = input ∧ is_Some (strlen (take 4096 b1))) as [Hc Hs].
  { apply bwrite_inv in E as (_ & _ & ->). unfold blen. rewrite Nat2Z.id, Hin. simpl.
    apply c_str_terminated; [apply c_str_no_nul|unfold blen in *; lia]. }
  exists b1. split_and!; [done|by eapply bwrite_length|done|done|].
  intros i Hi. eapply bwrite_lookup_ne; [done|]. change (blen [0]) with 1. unfold blen. lia.
Qed.

(** A message is echoed exactly.  When user code leaves the buffer alone
    while the handler runs, then for any contents of the buffer the handler is
    defined, counts the message, frees the mutex, cuts the message at 4095
    characters if it is not terminated before, and stores in the reply area the
    string "Echo #n: message", cut at 4095 characters and terminated; no other
    byte changes. *)
Lemma process_message_spec d :
  idle d →
  let input := c_str (take 4095 (shared_buffer d)) in
  let n := u64 (msg_count d + 1) in
  let reply := take 4095 (echo_text n input) in
  ∃ d', process_message d = Some d' ∧ idle d' ∧ msg_count d' = n ∧
    c_str (take 4096 (shared_buffer d')) = input ∧
    c_str (drop 4096 (shared_buffer d')) = reply ∧
    ∀ i : nat, i ≠ length input → Z.of_nat i < 4096 ∨ 4096 + blen reply < Z.of_nat i →
      shared_buffer d' !! i = shared_buffer d !! i.
Proof.
  intros [Hb Hm] input n reply. unfold process_message, process_message_with.
  change (strnlen _ (MSG_SIZE - 1)) with (blen input).
  destruct (terminate_message _ Hb) as (b1 & E1 & Hl1 & Hc & [len Hlen] & Hne1).
  fold input in E1, Hc, Hne1. rewrite E1. cbn [mbind option_bind].
  unfold input_string, id. change (Z.to_nat MSG_SIZE) with 4096%nat. rewrite Hlen.
  cbn [mbind option_bind]. rewrite Hc. fold n. unfold BUFFER_SIZE, MSG_SIZE in *. change (4 * 1024) with 4096.
  destruct (snprintf_at b1 4096 4096 (echo_text n input)) as (b2 & -> & Hl2 & Ht2 & Hd2 & Hne2);
    [lia..|apply echo_text_no_nul, c_str_no_nul|]. cbn [mbind option_bind].
  change (Z.to_nat 4096) with 4096%nat in *. change (Z.to_nat (4096 - 1)) with 4095%nat in *.
  fold reply in Hd2, Hne2.
  exists (SharedMemDevice b2 (mutex_unlock (mutex_lock (mutex d))) n). simpl.
  split_and!; [done| |done|by rewrite Ht2|done|].
  - split; simpl; [unfold BUFFER_SIZE; lia|]. by apply mutex_unlock_free, mutex_lock_held.
  - intros k Hk1 Hk2. by rewrite <-Hne1, Hne2.
Qed.

(** C28: the handler trusts memory it shares with user code.  It terminates the
    message and then reads it again: user code that overwrites the terminator in
    between, filling the message area, makes the handler read past it, into the
    reply it is writing; without such a write the same state is handled. *)
Theorem process_message_race d user2 :
  idle d → (∀ buf, 0 ∉ take 4096 (user2 buf)) →
  process_message_with id user2 d = None ∧ is_Some (process_message d).
Proof.
  intros Hd Hu. split.
  - assert (∀ buf, input_string (user2 buf) = None) as Hn.
    { intros buf. unfold input_string. change (Z.to_nat MSG_SIZE) with 4096%nat.
      by rewrite (proj2 (strlen_None _) (Hu _)). }
    unfold process_message_with. destruct (bwrite _ _ _) as [b|]; [|done]. cbn [mbind option_bind].
    rewrite Hn. by destruct (input_string (id b)).
  - destruct (process_message_spec d Hd) as (d' & -> & _). done.
Qed.

(** The ioctl handles exactly the command _IO('S', 1): every other 32-bit
    command is refused with -ENOTTY and changes nothing. *)
Theorem shared_mem_ioctl_correct cmd d :
  idle d → is_u32 cmd →
  ∃ r d', shared_mem_ioctl cmd d = Some (r, d') ∧ idle d' ∧
    (if cmd =? 0x5301 then r = 0 ∧ process_message d = Some d' else r = - ENOTTY ∧ d' = d).
Proof.
  intros Hd Hc. unfold shared_mem_ioctl. change SHARED_MEM_SEND_MSG with 0x5301.
  destruct (Z.eqb_spec cmd 0x5301) as [->|Hne]; simpl.
  - destruct (process_message_spec d Hd) as (d' & E & Hi & _). rewrite E. simpl. eauto 10.
  - destruct (negb _); eauto 10.
Qed.

(** ** Conversations *)

(** What a user program does for one message: write it, terminated, into the
    mapped buffer, issue the ioctl, read the reply. *)
Definition send (msg : bytes) d : option (bytes * shared_mem_device M) :=
  buf ← bwrite (shared_buffer d) 0 (msg ++ [0]);
  '(r, d) ← shared_mem_ioctl SHARED_MEM_SEND_MSG (SharedMemDevice buf (mutex d) (msg_count d));
  if r =? 0 then Some (c_str (drop (Z.to_nat MSG_SIZE) (shared_buffer d)), d) else None.

Fixpoint session (msgs : list bytes) d : option (list bytes * shared_mem_device M) :=
  match msgs with
  | [] => Some ([], d)
  | msg :: msgs =>
      '(reply, d) ← send msg d; '(replies, d) ← session msgs d; Some (reply :: replies, d)
  end.

Lemma send_correct msg d :
  idle d → 0 ∉ msg → blen msg < MSG_SIZE →
  ∃ d', send msg d = Some (take 4095 (echo_text (u64 (msg_count d + 1)) msg), d') ∧ idle d' ∧
    msg_count d' = u64 (msg_count d + 1).
Proof.
  intros [Hb Hm] Hmsg Hlen. unfold send.
  destruct (bwrite (shared_buffer d) 0 (msg ++ [0])) as [b1|] eqn:E; cycle 1.
  { apply eq_None_not_Some in E. destruct E. apply bwrite_is_Some.
    rewrite blen_app. change (blen [0]) with 1. unfold MSG_SIZE, BUFFER_SIZE in *. lia. }
  pose proof (bwrite_length _ _ _ _ E) as Hl. simpl.
  destruct (process_message_spec (SharedMemDevice b1 (mutex d) (msg_count d)))
    as (d' & Hp & Hd' & Hc & _ & Hr & _); [split; simpl; [lia|done]|].
  unfold shared_mem_ioctl. change (negb _) with false. rewrite Z.eqb_refl, Hp. simpl in *.
  exists d'. split_and!; [|done|done]. do 2 f_equal.
  change (Z.to_nat MSG_SIZE) with 4096%nat. rewrite Hr. do 2 f_equal.
  apply bwrite_inv in E as (_ & _ & ->). change (Z.to_nat 0) with 0%nat.
  rewrite take_0. simpl. rewrite <-app_assoc. simpl.
  apply c_str_cut; [done|unfold blen, MSG_SIZE in *; lia].
Qed.

(** C9: a conversation is answered message by message.  Whatever the buffer holds
    at first, the k-th message of any sequence of messages shorter than 4 KB gets
    the reply "Echo #n: message" with the count the device had plus k, modulo
    2^64, cut at 4095 characters. *)
Theorem session_correct msgs d :
  idle d → is_u64 (msg_count d) → Forall (λ msg, (0 ∉ msg) ∧ blen msg < MSG_SIZE) msgs →
  ∃ d', session msgs d =
      Some (imap (λ k msg, take 4095 (echo_text (u64 (msg_count d + 1 + Z.of_nat k)) msg)) msgs, d') ∧
    idle d' ∧ msg_count d' = u64 (msg_count d + Z.of_nat (length msgs)).
Proof.
  intros Hd Hc HF. revert d Hd Hc. induction HF as [|msg msgs [Hm0 Hlen] HF IH]; intros d Hd Hc.
  { exists d. split_and!; try done. simpl. rewrite Z.add_0_r. by rewrite u64_small. }
  simpl. destruct (send_correct msg d Hd Hm0 Hlen) as (d1 & -> & Hd1 & Hc1). simpl.
  destruct (IH d1 Hd1) as (d' & -> & Hd' & Hc'); [rewrite Hc1; apply u64_bound|]. simpl.
  exists d'. split_and!; [|done|].
  - rewrite Z.add_0_r. apply (f_equal (λ l, Some (_ :: l, d'))). apply imap_ext.
    intros k m _. simpl. do 2 f_equal.
    rewrite Hc1, <-(Z.add_assoc (u64 _)), u64_add_l. f_equal. lia.
  - rewrite Hc', Hc1, u64_add_l. f_equal. lia.
Qed.
End facts.

(** C29: mmap never maps memory outside the buffer.  A mapping longer than the
    buffer is refused with -EINVAL, a failed remap reported as -EAGAIN; otherwise
    exactly the requested length is mapped from the first physical page of the
    buffer on, so every physical address the user can reach is one of the 8 KB. *)
Theorem shared_mem_mmap_correct virt_to_phys remap_pfn_range buffer vma :
  0 <= vm_start vma <= vm_end vma → vm_end vma < 2^64 →
  (PAGE_SIZE | virt_to_phys buffer) →
  let phys := virt_to_phys buffer in
  let size := vm_end vma - vm_start vma in
  match shared_mem_mmap virt_to_phys remap_pfn_range buffer vma with
  | (r, None) => (r = - EINVAL ∧ BUFFER_SIZE < size) ∨ r = - EAGAIN
  | (r, Some q) => r = 0 ∧ r_addr q = vm_start vma ∧ r_size q = size ∧ remap_pfn_range q = 0 ∧
      ∀ a, vm_start vma <= a < vm_end vma →
        phys <= r_pfn q * PAGE_SIZE + (a - r_addr q) < phys + BUFFER_SIZE
  end.
Proof.
  intros Hs He [k Hk] phys size. unfold shared_mem_mmap.
  rewrite u64_small by (unfold is_u64; lia). fold size phys.
  destruct (Z.ltb_spec BUFFER_SIZE size); [by left|].
  destruct (Z.eqb_spec (remap_pfn_range (Remap (vm_start vma) (phys ≫ PAGE_SHIFT) size
    (vm_page_prot vma))) 0) as [Hr|Hr]; simpl; [|by right].
  split_and!; try done. intros a Ha.
  assert (Z.shiftr phys PAGE_SHIFT * PAGE_SIZE = phys) as ->; [|unfold size in *; lia].
  unfold phys. rewrite Hk, Z.shiftr_div_pow2 by (unfold PAGE_SHIFT; lia).
  change (2 ^ PAGE_SHIFT) with PAGE_SIZE. by rewrite Z.div_mul.
Qed.

(** ** Registration *)
Module Reg.
#[local] Open Scope kernel_scope.

(** The static pointer and the fields of the structure it points to. *)
Record state := State {
  demo_device : Z; device : Z; class : Z; devt : Z; buffer : Z;
  user_to_kernel : Z; kernel_to_user : Z
}.
Definition set_demo_device p s :=
  State p (device s) (class s) (devt s) (buffer s) (user_to_kernel s) (kernel_to_user s).
Definition set_device p s :=
  State (demo_device s) p (class s) (devt s) (buffer s) (user_to_kernel s) (kernel_to_user s).
Definition set_class p s :=
  State (demo_device s) (device s) p (devt s) (buffer s) (user_to_kernel s) (kernel_to_user s).
Definition set_devt d s :=
  State (demo_device s) (device s) (class s) d (buffer s) (user_to_kernel s) (kernel_to_user s).
Definition set_buffer p s :=
  State (demo_device s) (device s) (class s) (devt s) p (user_to_kernel s) (kernel_to_user s).
Definition set_areas s :=
  State (demo_device s) (device s) (class s) (devt s) (buffer s)
    (buffer s) (u64 (buffer s + MSG_SIZE)).

Definition err_free_device (ret : Z) : K call state Z :=
  p <-k kget demo_device; kcall (Kfree p) ;;k kret ret.
Definition err_free_buffer (ret : Z) : K call state Z :=
  p <-k kget buffer; kcall (Kfree p) ;;k err_free_device ret.
Definition err_unregister_chrdev (ret : Z) : K call state Z :=
  d <-k kget devt; kcall (UnregisterChrdevRegion d) ;;k err_free_buffer ret.
Definition err_cdev_del (ret : Z) : K call state Z :=
  kcall CdevDel ;;k err_unregister_chrdev ret.
Definition err_class_destroy (ret : Z) : K call state Z :=
  c <-k kget class; kcall (ClassDestroy c) ;;k err_cdev_del ret.

Definition shared_memory_demo_init : K call state Z :=
  p <-k kcall KzallocDev;
  kmod (set_demo_device p) ;;k
  if p =? NULL then kret (- ENOMEM) else
  kcall MutexInit ;;k
  b <-k kcall (Kzalloc BUFFER_SIZE);
  kmod (set_buffer b) ;;k
  if b =? NULL then err_free_device (- ENOMEM) else
  kmod set_areas ;;k
  r <-k kcall AllocChrdevRegion;
  if region_ret r <? 0 then err_free_buffer (region_ret r) else
  kmod (set_devt r) ;;k
  kcall CdevInit ;;k
  r <-k kcall (CdevAdd r);
  if r <? 0 then err_unregister_chrdev r else
  c <-k kcall ClassCreate;
  kmod (set_class c) ;;k
  if IS_ERR c then err_cdev_del (PTR_ERR c) else
  n <-k kget devt;
  d <-k kcall (DeviceCreate c n);
  kmod (set_device d) ;;k
  if IS_ERR d then err_class_destroy (PTR_ERR d) else
  kret 0.

Definition shared_memory_demo_exit : K call state unit :=
  p <-k kget demo_device;
  c <-k kget class; n <-k kget devt; b <-k kget buffer;
  kcall (DeviceDestroy c n) ;;k kcall (ClassDestroy c) ;;k kcall CdevDel ;;k
  kcall (UnregisterChrdevRegion n) ;;k kcall (Kfree b) ;;k kcall (Kfree p) ;;k kret tt.

(** Loading and unloading the module leaks nothing and releases nothing
    twice, whatever each kernel call answers: a failing init releases what it
    acquired in reverse order and returns an error; a successful one has set up
    the two message areas 4 KB apart and holds exactly the device structure,
    buffer, device number, cdev, class and device node, which exit releases in
    reverse order. *)
Theorem shared_memory_demo_init_exit (e : env call) (s : state) :
  let '(ret, w) := shared_memory_demo_init e (KWorld s []) in
  let '(_, w') := shared_memory_demo_exit e w in
  let s' := kst w in
  (ret ≠ 0 ∧ held_run acq rel [] (ktr w) = Some []) ∨
  (ret = 0 ∧ user_to_kernel s' = buffer s' ∧ kernel_to_user s' = u64 (buffer s' + 4096) ∧
     held_run acq rel [] (ktr w) =
       Some [RDevice (class s') (devt s'); RClass (class s'); RCdev;
             RRegion (devt s'); RMem (buffer s'); RMem (demo_device s')] ∧
     held_run acq rel [] (ktr w') = Some []).
Proof.
  unfold shared_memory_demo_init, err_class_destroy, err_cdev_del, err_unregister_chrdev,
    err_free_buffer, err_free_device.
  destruct s.
  all: repeat kstep; unfold shared_memory_demo_exit; repeat kstep;
    cbn [demo_device device class devt buffer user_to_kernel kernel_to_user set_demo_device
         set_device set_class set_devt set_buffer set_areas] in *;
    rewrite ?region_ret_neg in *.
  all: unfold acq, rel; kheld; first
    [ left; split; [first [done | by apply PTR_ERR_nonzero | zbool; unfold region_ret; split_ifs; zbool; lia]|done]
    | right; done | zbool; done ].
Qed.
End Reg.

(** ** Witnesses *)

Definition wdev : shared_mem_device ref_mutex :=
  SharedMemDevice (bfill 65 BUFFER_SIZE) (RefMutex false false) 41.
Lemma wdev_idle : idle wdev.
Proof. split; [by apply blen_bfill|reflexivity]. Qed.

Lemma process_message_race_witness :
  process_message_with id (λ _, bfill 66 BUFFER_SIZE) wdev = None.
Proof.
  apply (process_message_race wdev (λ _, bfill 66 BUFFER_SIZE)); [exact wdev_idle|].
  intros _. by apply (bool_decide_eq_true_1 _).
Defined.

Lemma shared_mem_ioctl_correct_witness :
  shared_mem_ioctl 0x5302 wdev = Some (- ENOTTY, wdev).
Proof.
  destruct (shared_mem_ioctl_correct 0x5302 wdev wdev_idle) as (r & d' & Hs & _ & Hr);
    [unfold is_u32; lia|]. destruct Hr as [-> ->]. exact Hs.
Defined.

Lemma session_correct_witness :
  ∃ d', session [chars "hello"; chars "again"] wdev
    = Some ([chars "Echo #42: hello"; chars "Echo #43: again"], d') ∧ idle d'.
Proof.
  destruct (session_correct [chars "hello"; chars "again"] wdev wdev_idle)
    as (d' & Hs & Hi & _); [unfold is_u64; simpl; lia| |].
  - repeat constructor; by apply (bool_decide_eq_true_1 _).
  - exists d'. split; [|exact Hi]. rewrite Hs. vm_compute. reflexivity.
Defined.

Lemma shared_mem_mmap_correct_witness :
  shared_mem_mmap (λ a, a - 2^40) (λ _, 0) (2^40 + 8192) (VmArea 0x10000 0x12000 7)
    = (0, Some (Remap 0x10000 2 0x2000 7)) ∧
  ∀ a, 0x10000 <= a < 0x12000 → 8192 <= 2 * PAGE_SIZE + (a - 0x10000) < 16384.
Proof.
  pose proof (shared_mem_mmap_correct (λ a, a - 2^40) (λ _, 0) (2^40 + 8192)
    (VmArea 0x10000 0x12000 7)) as Hm. simpl in Hm.
  destruct Hm as (_ & _ & _ & _ & Ha); [lia|lia|by exists 2|].
  split; [reflexivity|]. intros a H. specialize (Ha a H). exact Ha.
Defined.
