(* ===== verification/AtomicDemo.v ===== *)
(** * The atomic operations demo (examples/class_3/04_atomic_operations/atomic_demo.c)

    Command files over shared atomic counters and a word of flags.  A command is a
    program of atomic steps, so that the commands of several writers can
    interleave between any two steps; log lines, and the reads made only for them,
    are left out.  The atomic operations and sscanf are interfaces. *)
From S2P Require Import Prelude Bytes Kernel ProcFs Threads.

(** ** Atomic operations (Documentation/atomic_t.txt, atomic_bitops.txt)

    [atomic o v] is the new value of an atomic_t holding [v] and what the
    operation returns. *)
Inductive aop :=
| atomic_read | atomic_set (i : Z) | atomic_inc
| atomic_inc_return | atomic_dec_return | atomic_add_return (i : Z) | atomic_sub_return (i : Z)
| atomic_xchg (new : Z) | atomic_cmpxchg (old new : Z)
| atomic_dec_and_test | atomic_inc_and_test | atomic_sub_and_test (i : Z) | atomic_add_negative (i : Z).
Inductive a64op := atomic64_read | atomic64_inc_return | atomic64_add_return (i : Z).
Inductive bitop :=
| set_bit | clear_bit | change_bit | test_and_set_bit | test_and_clear_bit | test_and_change_bit | test_bit.

Class Atomics := {
  atomic : aop → Z → Z * Z;
  atomic64 : a64op → Z → Z * Z;
  bitops : bitop → Z → Z → Z * Z
}.

(** The documented behaviour: two's-complement wrap-around, the new value from
    the _return forms, the old one from xchg and cmpxchg, and a truth value from
    the tests. *)
Class AtomicsLaws `{Atomics} := {
  atomic_read_spec v : atomic atomic_read v = (v, v);
  atomic_set_new i v : (atomic (atomic_set i) v).1 = i;
  atomic_inc_new v : (atomic atomic_inc v).1 = s32 (v + 1);
  atomic_inc_return_spec v : atomic atomic_inc_return v = (s32 (v + 1), s32 (v + 1));
  atomic_dec_return_spec v : atomic atomic_dec_return v = (s32 (v - 1), s32 (v - 1));
  atomic_add_return_spec i v : atomic (atomic_add_return i) v = (s32 (v + i), s32 (v + i));
  atomic_sub_return_spec i v : atomic (atomic_sub_return i) v = (s32 (v - i), s32 (v - i));
  atomic_xchg_spec n v : atomic (atomic_xchg n) v = (n, v);
  atomic_cmpxchg_spec o n v : atomic (atomic_cmpxchg o n) v = ((if v =? o then n else v), v);
  atomic_dec_and_test_spec v :
    atomic atomic_dec_and_test v = (s32 (v - 1), Z.b2z (s32 (v - 1) =? 0));
  atomic_inc_and_test_spec v :
    atomic atomic_inc_and_test v = (s32 (v + 1), Z.b2z (s32 (v + 1) =? 0));
  atomic_sub_and_test_spec i v :
    atomic (atomic_sub_and_test i) v = (s32 (v - i), Z.b2z (s32 (v - i) =? 0));
  atomic_add_negative_spec i v :
    atomic (atomic_add_negative i) v = (s32 (v + i), Z.b2z (s32 (v + i) <? 0));
  atomic64_read_spec v : atomic64 atomic64_read v = (v, v);
  atomic64_inc_return_spec v : atomic64 atomic64_inc_return v = (s64 (v + 1), s64 (v + 1));
  atomic64_add_return_spec i v : atomic64 (atomic64_add_return i) v = (s64 (v + i), s64 (v + i));
  set_bit_new nr w : 0 <= nr < 64 → (bitops set_bit nr w).1 = Z.setbit w nr;
  clear_bit_new nr w : 0 <= nr < 64 → (bitops clear_bit nr w).1 = Z.clearbit w nr;
  change_bit_new nr w : 0 <= nr < 64 → (bitops change_bit nr w).1 = Z.lxor w (Z.shiftl 1 nr);
  test_and_set_bit_spec nr w : 0 <= nr < 64 →
    bitops test_and_set_bit nr w = (Z.setbit w nr, Z.b2z (Z.testbit w nr));
  test_and_clear_bit_spec nr w : 0 <= nr < 64 →
    bitops test_and_clear_bit nr w = (Z.clearbit w nr, Z.b2z (Z.testbit w nr));
  test_and_change_bit_spec nr w : 0 <= nr < 64 →
    bitops test_and_change_bit nr w = (Z.lxor w (Z.shiftl 1 nr), Z.b2z (Z.testbit w nr));
  test_bit_spec nr w : 0 <= nr < 64 → bitops test_bit nr w = (w, Z.b2z (Z.testbit w nr))
}.

(** ** sscanf(input, "%15s %d", operation, &value)

    The number of conversions, what is stored in [operation] and in [value]. *)
Record scanned := Scanned { conversions : Z; operation : bytes; value : option Z }.
Class Scanner := { sscanf_word_int : bytes → scanned }.

(** The second conversion stores a number exactly when it is made; the word and
    its NUL fit the 16 bytes the caller has; only the string counts, not the bytes
    after it. *)
Class ScannerLaws `{Scanner} := {
  scanned_value b : is_Some (value (sscanf_word_int b)) ↔ 2 <= conversions (sscanf_word_int b);
  scanned_word b : 1 <= conversions (sscanf_word_int b) →
    0 ∈ operation (sscanf_word_int b) ∧ blen (operation (sscanf_word_int b)) <= 16;
  scanned_string b b' : 0 ∈ b → 0 ∈ b' → c_str b = c_str b' → sscanf_word_int b = sscanf_word_int b';
  scanned_int b v : value (sscanf_word_int b) = Some v → is_s32 v
}.

(** ** State and atomic programs

    A command is a program of atomic steps ([Threads.prog]). *)

(** The static variables. *)
Record state := State {
  counter : Z; operations_count : Z; large_counter : Z; bit_flags : Z; ref_count : Z
}.
(** Their initialisers. *)
Definition init_state : state := State 0 0 0 0 1.

Definition FLAG_SYSTEM_READY : Z := 0.
Definition FLAG_HIGH_LOAD : Z := 1.
Definition FLAG_MAINTENANCE : Z := 2.
Definition FLAG_DEBUG_MODE : Z := 3.
Definition BITS_PER_LONG : Z := 64.

(** An atomic step: an operation on one of the variables. *)
Inductive atom :=
| Counter (o : aop) | Operations (o : aop) | Large (o : a64op) | Flags (o : bitop) (nr : Z)
| Ref (o : aop).

Section exec.
Context `{Atomics}.

Definition exec (a : atom) (s : state) : state * Z :=
  match a with
  | Counter o =>
      let '(v, r) := atomic o (counter s) in
      (State v (operations_count s) (large_counter s) (bit_flags s) (ref_count s), r)
  | Operations o =>
      let '(v, r) := atomic o (operations_count s) in
      (State (counter s) v (large_counter s) (bit_flags s) (ref_count s), r)
  | Large o =>
      let '(v, r) := atomic64 o (large_counter s) in
      (State (counter s) (operations_count s) v (bit_flags s) (ref_count s), r)
  | Flags o nr =>
      let '(v, r) := bitops o nr (bit_flags s) in
      (State (counter s) (operations_count s) (large_counter s) v (ref_count s), r)
  | Ref o =>
      let '(v, r) := atomic o (ref_count s) in
      (State (counter s) (operations_count s) (large_counter s) (bit_flags s) v, r)
  end.

(** Running a program alone. *)
Fixpoint run (p : prog atom) (s : state) : Z * state :=
  match p with
  | Ret r => (r, s)
  | Do a k => let '(s, r) := exec a s in run (k r) s
  end.

(** Programs of several writers, one atomic step of one of them at a time: every
    step is enabled and has one outcome. *)
Definition act_step (i : nat) (a : atom) (s s' : state) (v : Z) : Prop := exec a s = (s', v).
Definition step : list (prog atom) * state → list (prog atom) * state → Prop := tstep act_step.

Lemma step_do (ps : list (prog atom)) i a k s :
  ps !! i = Some (Do a k) → step (ps, s) (<[i := k (exec a s).2]> ps, (exec a s).1).
Proof. intros Hi. eapply tstep_do; [done|]. unfold act_step. by destruct (exec a s). Qed.
End exec.

(** ** The command files *)

(** Lines 43-76: the counter commands; [count] is what the write returns. *)
Definition basic_cmd (operation : bytes) (value count : Z) : prog atom :=
  Do (Operations atomic_inc) (λ _,
  if strcmp_eq operation (lit "inc") then
    Do (Counter atomic_inc_return) (λ _, Ret count)
  else if strcmp_eq operation (lit "dec") then
    Do (Counter atomic_dec_return) (λ _, Ret count)
  else if strcmp_eq operation (lit "add") then
    Do (Counter (atomic_add_return value)) (λ _, Ret count)
  else if strcmp_eq operation (lit "sub") then
    Do (Counter (atomic_sub_return value)) (λ _, Ret count)
  else if strcmp_eq operation (lit "set") then
    Do (Counter (atomic_set value)) (λ _, Ret count)
  else if strcmp_eq operation (lit "xchg") then
    Do (Counter (atomic_xchg value)) (λ _, Ret count)
  else if strcmp_eq operation (lit "cmpxchg") then
    Do (Counter atomic_read) (λ old_val,
    Do (Counter (atomic_cmpxchg old_val value)) (λ _, Ret count))
  else Ret (- EINVAL)).

(** Lines 123-162. *)
Definition advanced_cmd (operation : bytes) (value count : Z) : prog atom :=
  Do (Operations atomic_inc) (λ _,
  if strcmp_eq operation (lit "dec_and_test") then
    Do (Counter atomic_dec_and_test) (λ _, Ret count)
  else if strcmp_eq operation (lit "inc_and_test") then
    Do (Counter atomic_inc_and_test) (λ _, Ret count)
  else if strcmp_eq operation (lit "sub_and_test") then
    Do (Counter (atomic_sub_and_test value)) (λ _, Ret count)
  else if strcmp_eq operation (lit "add_negative") then
    Do (Counter (atomic_add_negative value)) (λ _, Ret count)
  else if strcmp_eq operation (lit "large_inc") then
    Do (Large atomic64_inc_return) (λ _, Ret count)
  else if strcmp_eq operation (lit "large_add") then
    Do (Large (atomic64_add_return value)) (λ _, Ret count)
  else if strcmp_eq operation (lit "ref_get") then
    Do (Ref atomic_inc) (λ _, Ret count)
  else if strcmp_eq operation (lit "ref_put") then
    Do (Ref atomic_dec_and_test) (λ zero,
    if negb (zero =? 0) then Do (Ref (atomic_set 1)) (λ _, Ret count)
    else Ret count)
  else Ret (- EINVAL)).

(** Lines 206-237. *)
Definition bits_cmd (operation : bytes) (bit_num count : Z) : prog atom :=
  if (bit_num <? 0) || (BITS_PER_LONG <=? bit_num) then Ret (- EINVAL)
  else
  Do (Operations atomic_inc) (λ _,
  if strcmp_eq operation (lit "set") then Do (Flags set_bit bit_num) (λ _, Ret count)
  else if strcmp_eq operation (lit "clear") then Do (Flags clear_bit bit_num) (λ _, Ret count)
  else if strcmp_eq operation (lit "change") then Do (Flags change_bit bit_num) (λ _, Ret count)
  else if strcmp_eq operation (lit "test_and_set") then
    Do (Flags test_and_set_bit bit_num) (λ _, Ret count)
  else if strcmp_eq operation (lit "test_and_clear") then
    Do (Flags test_and_clear_bit bit_num) (λ _, Ret count)
  else if strcmp_eq operation (lit "test_and_change") then
    Do (Flags test_and_change_bit bit_num) (λ _, Ret count)
  else Ret (- EINVAL)).

Section handlers.
Context {U : Type} `{UserAccess U, Scanner}.

(** Lines 26-41, shared by the three handlers: reading the command.  [input] is
    the uninitialised 32-byte stack array; the result is an error code or what
    sscanf found. *)
Definition read_command (input : bytes) (u : U) (buffer count : Z) : option (Z + scanned) :=
  if 32 - 1 <? count then Some (inl (- EINVAL))
  else
    let '(left_over, bs) := copy_from_user u buffer count in
    input ← bwrite input 0 bs;
    if negb (left_over =? 0) then Some (inl (- EFAULT))
    else
      input ← bwrite input count [0];
      Some (inr (sscanf_word_int input)).

Definition atomic_basic_write (input : bytes) (u : U) (buffer count : Z) : option (prog atom) :=
  c ← read_command input u buffer count;
  match c with
  | inl e => Some (Ret e)
  | inr sc =>
      if conversions sc <? 1 then Some (Ret (- EINVAL))
      else Some (basic_cmd (operation sc) (default 0 (value sc)) count)
  end.

Definition atomic_advanced_write (input : bytes) (u : U) (buffer count : Z) : option (prog atom) :=
  c ← read_command input u buffer count;
  match c with
  | inl e => Some (Ret e)
  | inr sc =>
      if conversions sc <? 1 then Some (Ret (- EINVAL))
      else Some (advanced_cmd (operation sc) (default 0 (value sc)) count)
  end.

Definition atomic_bits_write (input : bytes) (u : U) (buffer count : Z) : option (prog atom) :=
  c ← read_command input u buffer count;
  match c with
  | inl e => Some (Ret e)
  | inr sc =>
      if negb (conversions sc =? 2) then Some (Ret (- EINVAL))
      else Some (bits_cmd (operation sc) (default 0 (value sc)) count)
  end.
End handlers.

(** ** The report files: the text for a state no writer changes meanwhile *)

Definition atomic_basic_show (s : state) : string :=
  "=== Basic Atomic Operations ===" +:+ nl
  +:+ "Counter: " +:+ pretty (counter s) +:+ nl
  +:+ "Operations performed: " +:+ pretty (operations_count s) +:+ nl
  +:+ "Large counter (64-bit): " +:+ pretty (large_counter s) +:+ nl
  +:+ "Reference count: " +:+ pretty (ref_count s) +:+ nl
  +:+ nl +:+ "Supported operations:" +:+ nl
  +:+ "  echo 'inc' > /proc/atomic_demo/basic" +:+ nl
  +:+ "  echo 'dec' > /proc/atomic_demo/basic" +:+ nl
  +:+ "  echo 'add 5' > /proc/atomic_demo/basic" +:+ nl
  +:+ "  echo 'sub 3' > /proc/atomic_demo/basic" +:+ nl
  +:+ "  echo 'set 10' > /proc/atomic_demo/basic" +:+ nl
  +:+ "  echo 'xchg 20' > /proc/atomic_demo/basic" +:+ nl
  +:+ "  echo 'cmpxchg 25' > /proc/atomic_demo/basic" +:+ nl.

Definition atomic_advanced_show (s : state) : string :=
  "=== Advanced Atomic Operations ===" +:+ nl
  +:+ "Current counter: " +:+ pretty (counter s) +:+ nl
  +:+ "Large counter: " +:+ pretty (large_counter s) +:+ nl
  +:+ "Reference count: " +:+ pretty (ref_count s) +:+ nl
  +:+ nl +:+ "Test operations:" +:+ nl
  +:+ "  echo 'dec_and_test' > /proc/atomic_demo/advanced" +:+ nl
  +:+ "  echo 'inc_and_test' > /proc/atomic_demo/advanced" +:+ nl
  +:+ "  echo 'sub_and_test 5' > /proc/atomic_demo/advanced" +:+ nl
  +:+ "  echo 'add_negative -3' > /proc/atomic_demo/advanced" +:+ nl
  +:+ "64-bit operations:" +:+ nl
  +:+ "  echo 'large_inc' > /proc/atomic_demo/advanced" +:+ nl
  +:+ "  echo 'large_add 1000' > /proc/atomic_demo/advanced" +:+ nl
  +:+ "Reference counting:" +:+ nl
  +:+ "  echo 'ref_get' > /proc/atomic_demo/advanced" +:+ nl
  +:+ "  echo 'ref_put' > /proc/atomic_demo/advanced" +:+ nl.

Section show.
Context `{Atomics}.

Definition is_set (nr : Z) (flags : Z) : bool := negb ((bitops test_bit nr flags).2 =? 0).

(** for (i = BITS_PER_LONG - 1; i >= 0; i--): [n] is i + 1. *)
Fixpoint binary_loop (n : nat) (flags : Z) : string :=
  match n with
  | O => EmptyString
  | S n' =>
      let i := Z.of_nat n' in
      (if (i <? 8) || (i mod 4 =? 3) then (if is_set i flags then "1" else "0") else EmptyString)
      +:+ (if (0 <? i) && (i <? 8) && (i mod 4 =? 0) then " " else EmptyString)
      +:+ binary_loop n' flags
  end.

Definition flag_text (nr flags : Z) : string := if is_set nr flags then "SET" else "CLEAR".

Definition atomic_bits_show (s : state) : string :=
  "=== Atomic Bit Operations ===" +:+ nl
  +:+ "Bit flags: 0x" +:+ hex (bit_flags s) +:+ " (binary: "
  +:+ binary_loop (Z.to_nat BITS_PER_LONG) (bit_flags s)
  +:+ ")" +:+ nl +:+ nl
  +:+ "Named flags:" +:+ nl
  +:+ "  SYSTEM_READY:  " +:+ flag_text FLAG_SYSTEM_READY (bit_flags s)
  +:+ " (bit " +:+ pretty FLAG_SYSTEM_READY +:+ ")" +:+ nl
  +:+ "  HIGH_LOAD:     " +:+ flag_text FLAG_HIGH_LOAD (bit_flags s)
  +:+ " (bit " +:+ pretty FLAG_HIGH_LOAD +:+ ")" +:+ nl
  +:+ "  MAINTENANCE:   " +:+ flag_text FLAG_MAINTENANCE (bit_flags s)
  +:+ " (bit " +:+ pretty FLAG_MAINTENANCE +:+ ")" +:+ nl
  +:+ "  DEBUG_MODE:    " +:+ flag_text FLAG_DEBUG_MODE (bit_flags s)
  +:+ " (bit " +:+ pretty FLAG_DEBUG_MODE +:+ ")" +:+ nl
  +:+ nl +:+ "Bit operations:" +:+ nl
  +:+ "  echo 'set 1' > /proc/atomic_demo/bits" +:+ nl
  +:+ "  echo 'clear 1' > /proc/atomic_demo/bits" +:+ nl
  +:+ "  echo 'change 2' > /proc/atomic_demo/bits" +:+ nl
  +:+ "  echo 'test_and_set 3' > /proc/atomic_demo/bits" +:+ nl
  +:+ "  echo 'test_and_clear 3' > /proc/atomic_demo/bits" +:+ nl
  +:+ "  echo 'test_and_change 0' > /proc/atomic_demo/bits" +:+ nl.
End show.

Definition atomic_status_show (s : state) : string :=
  "=== Atomic Operations Status ===" +:+ nl
  +:+ "32-bit counter: " +:+ pretty (counter s) +:+ nl
  +:+ "64-bit counter: " +:+ pretty (large_counter s) +:+ nl
  +:+ "Operations count: " +:+ pretty (operations_count s) +:+ nl
  +:+ "Reference count: " +:+ pretty (ref_count s) +:+ nl
  +:+ "Bit flags: 0x" +:+ hex (bit_flags s) +:+ nl
  +:+ nl +:+ "Memory ordering guarantees:" +:+ nl
  +:+ "  All atomic operations provide memory barriers" +:+ nl
  +:+ "  Safe for SMP systems" +:+ nl
  +:+ "  No lost updates under high contention" +:+ nl
  +:+ nl +:+ "Performance characteristics:" +:+ nl
  +:+ "  Fastest: simple inc/dec operations" +:+ nl
  +:+ "  Moderate: read-modify-write operations" +:+ nl
  +:+ "  Consider per-CPU variables for high contention" +:+ nl.

(** ** No update is lost *)

(** What a step adds to the counter and to the count of operations, when it is an
    addition. *)
Definition addition (a : atom) : option (Z * Z) :=
  match a with
  | Counter atomic_inc_return => Some (1, 0)
  | Counter atomic_dec_return => Some (-1, 0)
  | Counter (atomic_add_return i) => Some (i, 0)
  | Counter (atomic_sub_return i) => Some (- i, 0)
  | Operations atomic_inc => Some (0, 1)
  | _ => None
  end.

(** [adds p (c, o) r]: whatever its steps return, [p] only adds, [c] to the
    counter and [o] to the count of operations in all, and ends with [r]. *)
Inductive adds : prog atom → Z * Z → Z → Prop :=
| adds_ret r : adds (Ret r) (0, 0) r
| adds_do a k dc do c o r :
    addition a = Some (dc, do) → (∀ x, adds (k x) (c, o) r) → adds (Do a k) (dc + c, do + o) r.

(** What a counter command adds to the counter. *)
Definition delta (op : bytes) (v : Z) : option Z :=
  if strcmp_eq op (lit "inc") then Some 1
  else if strcmp_eq op (lit "dec") then Some (-1)
  else if strcmp_eq op (lit "add") then Some v
  else if strcmp_eq op (lit "sub") then Some (- v)
  else None.

Lemma basic_cmd_adds op v count d : delta op v = Some d → adds (basic_cmd op v count) (d, 1) count.
Proof.
  unfold delta, basic_cmd. intros Hd.
  replace (d, 1) with (0 + d, 1 + 0) by (f_equal; lia). constructor; [done|]. intros _.
  replace (d, 0) with (d + 0, 0 + 0) by (f_equal; lia).
  repeat (case_match; [injection Hd as <-; by repeat econstructor|]). done.
Qed.

(** The sum of a list. *)
Definition sum (l : list Z) : Z := foldr Z.add 0 l.

Lemma sum_insert l i x y : l !! i = Some x → sum (<[i := y]> l) = sum l - x + y.
Proof.
  revert i. induction l as [|z l IH]; intros [|i]; simpl; intros Hi; simplify_eq; [lia|].
  rewrite (IH i Hi). lia.
Qed.

Section concurrent.
Context `{AtomicsLaws}.

(** An addition adds modulo 2^32 and touches nothing else. *)
Lemma exec_addition a dc do s :
  addition a = Some (dc, do) → is_s32 (counter s) → is_s32 (operations_count s) →
  let s' := (exec a s).1 in
  s32 (counter s') = s32 (counter s + dc) ∧ is_s32 (counter s') ∧
  s32 (operations_count s') = s32 (operations_count s + do) ∧ is_s32 (operations_count s') ∧
  large_counter s' = large_counter s ∧ bit_flags s' = bit_flags s ∧ ref_count s' = ref_count s.
Proof.
  intros Ha Hc Ho. pose proof (s32_bound (counter s + dc)). pose proof (s32_bound (operations_count s + do)).
  assert (∀ z, s32 (s32 z) = s32 z) as Hs by (intros; apply s32_small, s32_bound).
  destruct a as [[]|[]| | |]; simpl in Ha; simplify_eq; cbn [exec].
  - rewrite atomic_inc_return_spec. simpl. rewrite Hs, Z.add_0_r. done.
  - rewrite atomic_dec_return_spec. simpl. rewrite Hs, Z.add_0_r. done.
  - rewrite atomic_add_return_spec. simpl. rewrite Hs, Z.add_0_r. done.
  - rewrite atomic_sub_return_spec. simpl. rewrite Hs, Z.add_0_r. done.
  - pose proof (atomic_inc_new (operations_count s)) as Hi.
    destruct (atomic atomic_inc (operations_count s)). simpl in *. subst.
    rewrite Hs, Z.add_0_r. done.
Qed.

(** What holds of a pool of adding programs in every state it reaches: the
    counters plus what is still to be added are constant. *)
Definition pool_inv (C O : Z) (s0 : state) (rs : list Z) (c : list (prog atom) * state) : Prop :=
  ∃ cs os, Forall2 (λ p co, adds p co.1 co.2) c.1 (zip (zip cs os) rs) ∧
    length cs = length rs ∧ length os = length rs ∧
    s32 (counter c.2 + sum cs) = C ∧ is_s32 (counter c.2) ∧
    s32 (operations_count c.2 + sum os) = O ∧ is_s32 (operations_count c.2) ∧
    large_counter c.2 = large_counter s0 ∧ bit_flags c.2 = bit_flags s0 ∧
    ref_count c.2 = ref_count s0.

Lemma s32_cong a b c : s32 a = s32 b → s32 (a + c) = s32 (b + c).
Proof. intros Hab. rewrite <-(s32_add_l a), <-(s32_add_l b). by rewrite Hab. Qed.

Lemma pool_inv_step C O s0 rs c c' : pool_inv C O s0 rs c → step c c' → pool_inv C O s0 rs c'.
Proof.
  intros (cs & os & HF & Hlc & Hlo & HC & Hc & HO & Ho & Hrest) Hst.
  destruct Hst as [ps i a k s s1 v Hi Hact]. unfold act_step in Hact. simpl in *.
  destruct (Forall2_lookup_l _ _ _ _ _ HF Hi) as ([[ci oi] ri] & Hz & Hadds).
  apply lookup_zip_Some in Hz as [Hz Hri]. apply lookup_zip_Some in Hz as [Hci Hoi].
  simpl in *. inversion Hadds as [|? ? dc do c o ? Ha Hk]; subst.
  destruct (exec_addition a dc do s Ha Hc Ho) as (E1 & E2 & E3 & E4 & E5).
  rewrite Hact in E1, E2, E3, E4, E5. simpl in *.
  exists (<[i:=c]> cs), (<[i:=o]> os). simpl. split_and!.
  - assert (zip (zip (<[i:=c]> cs) (<[i:=o]> os)) rs = <[i:=(c, o, ri)]> (zip (zip cs os) rs)) as ->.
    { rewrite !insert_zip_with. do 2 f_equal. by rewrite list_insert_id. }
    apply Forall2_insert; [done|]. apply Hk.
  - by rewrite length_insert.
  - by rewrite length_insert.
  - erewrite (sum_insert cs) by done. etrans; [apply s32_cong, E1|]. f_equal. lia.
  - done.
  - erewrite (sum_insert os) by done. etrans; [apply s32_cong, E3|]. f_equal. lia.
  - done.
  - destruct_and!. congruence.
  - destruct_and!. congruence.
  - destruct_and!. congruence.
Qed.

Lemma pool_inv_run C O s0 rs c c' : pool_inv C O s0 rs c → rtc step c c' → pool_inv C O s0 rs c'.
Proof. intros Hi Hr. induction Hr; eauto using pool_inv_step. Qed.

(** Every pool of programs can be run to the end. *)
Lemma run_steps ps i p s :
  ps !! i = Some p → rtc step (ps, s) (<[i := Ret (run p s).1]> ps, (run p s).2).
Proof.
  revert ps s. induction p as [r|a k IH]; intros ps s Hi; simpl.
  - by rewrite list_insert_id.
  - eapply rtc_l; [by apply step_do|].
    pose proof (IH (exec a s).2 (<[i := k (exec a s).2]> ps) (exec a s).1) as Hk.
    rewrite list_lookup_insert_eq in Hk by (by eapply lookup_lt_Some).
    specialize (Hk eq_refl). destruct (exec a s) as [s' r]. simpl in *.
    by rewrite list_insert_insert_eq in Hk.
Qed.

Lemma pool_finishes ps s : ∃ ps' s', rtc step (ps, s) (ps', s') ∧ finished ps'.
Proof.
  assert (∀ n ps s, (n <= length ps)%nat → ∃ ps' s', rtc step (ps, s) (ps', s') ∧
    length ps' = length ps ∧ ∀ i, (i < n)%nat → ∃ r, ps' !! i = Some (Ret r)) as Hn.
  { induction n as [|n IH]; intros ps1 s1 Hlen.
    { exists ps1, s1. split_and!; [done|done|]. intros i Hi. lia. }
    destruct (IH ps1 s1) as (ps2 & s2 & Hr & Hl & Hf); [lia|].
    destruct (lookup_lt_is_Some_2 ps2 n) as [p Hp]; [lia|].
    exists (<[n := Ret (run p s2).1]> ps2), (run p s2).2. split_and!.
    - etrans; [done|]. by apply run_steps.
    - by rewrite length_insert.
    - intros i Hi. destruct (decide (i = n)) as [->|].
      + rewrite list_lookup_insert_eq by lia. eauto.
      + rewrite list_lookup_insert_ne by done. apply Hf. lia. }
  destruct (Hn (length ps) ps s) as (ps' & s' & Hr & Hl & Hf); [done|].
  exists ps', s'. split; [done|]. apply Forall_lookup. intros i p Hi.
  destruct (Hf i) as [r Hr']; [apply lookup_lt_Some in Hi; lia|]. exists r. congruence.
Qed.

Lemma finished_adds ps cs os rs :
  finished ps → length cs = length rs → length os = length rs →
  Forall2 (λ p co, adds p co.1 co.2) ps (zip (zip cs os) rs) →
  sum cs = 0 ∧ sum os = 0 ∧ ps = Ret <$> rs.
Proof.
  intros Hf. revert cs os rs. induction Hf as [|p ps [r ->] Hf IH]; intros cs os rs Hc Ho HF.
  - destruct cs, os, rs; simplify_eq/=; by inversion HF.
  - destruct cs as [|c cs], os as [|o os], rs as [|r' rs]; simplify_eq/=; try by inversion HF.
    apply Forall2_cons in HF as [Ha HF]. simpl in Ha. inversion Ha; subst.
    destruct (IH cs os rs) as (H1' & H2' & ->); auto.
Qed.

(** C4: no update is lost, whatever the contention.  Let any number of writers
    run inc, dec, add and sub commands concurrently, their atomic steps
    interleaved in any order.  Every partial run can be completed, and in every
    completed one the counter is the initial value plus the sum of what the
    commands add, modulo 2^32, the operations counter has counted each command
    once, nothing else has changed, and each write has returned its length. *)
Theorem no_lost_updates (cmds : list (bytes * Z * Z)) (ds : list Z) s ps s1 :
  is_s32 (counter s) → is_s32 (operations_count s) →
  Forall2 (λ c d, delta c.1.1 c.1.2 = Some d) cmds ds →
  rtc step ((λ c, basic_cmd c.1.1 c.1.2 c.2) <$> cmds, s) (ps, s1) →
  (∃ ps' s', rtc step (ps, s1) (ps', s') ∧ finished ps') ∧
  (finished ps →
     s1 = State (s32 (counter s + sum ds)) (s32 (operations_count s + Z.of_nat (length cmds)))
            (large_counter s) (bit_flags s) (ref_count s) ∧
     ps = (λ c, Ret c.2) <$> cmds).
Proof.
  intros Hc Ho HF Hr. split; [apply pool_finishes|]. intros Hfin.
  assert (sum (replicate (length cmds) 1) = Z.of_nat (length cmds)) as Hones.
  { generalize (length cmds). intros n. induction n as [|n IH]; simpl; [done|]. rewrite IH. lia. }
  assert (pool_inv (s32 (counter s + sum ds)) (s32 (operations_count s + Z.of_nat (length cmds)))
    s cmds.*2 ((λ c, basic_cmd c.1.1 c.1.2 c.2) <$> cmds, s)) as Hinv.
  { exists ds, (replicate (length cmds) 1). simpl. rewrite Hones, !length_fmap, length_replicate.
    split_and!; try done; [|by rewrite (Forall2_length _ _ _ HF)].
    clear -HF. induction HF as [|c d cmds ds Hd HF IH]; simpl; constructor; [|done].
    by apply basic_cmd_adds. }
  eapply pool_inv_run in Hinv; [|done].
  destruct Hinv as (cs & os & HF' & Hlc & Hlo & HC & Hc1 & HO & Ho1 & H1 & H2 & H3). simpl in *.
  destruct (finished_adds _ _ _ _ Hfin Hlc Hlo HF') as (Hcs & Hos & ->).
  rewrite Hcs, Z.add_0_r, s32_small in HC by done.
  rewrite Hos, Z.add_0_r, s32_small in HO by done.
  destruct s1. simpl in *. subst. split; [done|]. by rewrite <-list_fmap_compose.
Qed.

(** ** The reference count *)

(** Running programs one after the other. *)
Definition run_all (ps : list (prog atom)) (s : state) : state := foldl (λ s p, (run p s).2) s ps.

Definition ref_put (count : Z) : prog atom := advanced_cmd (lit "ref_put") 0 count.
Definition ref_get (count : Z) : prog atom := advanced_cmd (lit "ref_get") 0 count.

Lemma exec_operations_ref o s : ref_count (exec (Operations o) s).1 = ref_count s.
Proof. simpl. by destruct (atomic o (operations_count s)). Qed.

Lemma ref_get_eq n : ref_get n = Do (Operations atomic_inc) (λ _, Do (Ref atomic_inc) (λ _, Ret n)).
Proof. reflexivity. Qed.

Lemma ref_put_eq n :
  ref_put n = Do (Operations atomic_inc) (λ _, Do (Ref atomic_dec_and_test) (λ zero,
    if negb (zero =? 0) then Do (Ref (atomic_set 1)) (λ _, Ret n) else Ret n)).
Proof. reflexivity. Qed.

Lemma exec_ref_inc s : ref_count (exec (Ref atomic_inc) s).1 = s32 (ref_count s + 1).
Proof.
  simpl. pose proof (atomic_inc_new (ref_count s)) as Hi. by destruct (atomic atomic_inc (ref_count s)).
Qed.

Lemma exec_ref_set i s : ref_count (exec (Ref (atomic_set i)) s).1 = i.
Proof.
  simpl. pose proof (atomic_set_new i (ref_count s)) as Hi. by destruct (atomic (atomic_set i) (ref_count s)).
Qed.

Lemma run_ref_get n s : ref_count (run (ref_get n) s).2 = s32 (ref_count s + 1).
Proof.
  rewrite ref_get_eq. cbn [run]. pose proof (exec_operations_ref atomic_inc s) as Hs.
  destruct (exec (Operations atomic_inc) s) as [s' x]. simpl in Hs. rewrite <-Hs.
  pose proof (exec_ref_inc s'). by destruct (exec (Ref atomic_inc) s').
Qed.

Lemma run_ref_put n s :
  ref_count (run (ref_put n) s).2
    = if s32 (ref_count s - 1) =? 0 then 1 else s32 (ref_count s - 1).
Proof.
  rewrite ref_put_eq. cbn [run]. pose proof (exec_operations_ref atomic_inc s) as Hs.
  destruct (exec (Operations atomic_inc) s) as [s' x]. simpl in Hs. rewrite <-Hs.
  cbn [exec]. rewrite atomic_dec_and_test_spec.
  destruct (s32 (ref_count s' - 1) =? 0); cbn [negb Z.b2z Z.eqb run]; [|done].
  set (s2 := State _ _ _ _ _). pose proof (exec_ref_set 1 s2). by destruct (exec _ s2).
Qed.

(** C31: releasing the last reference is not atomic.  ref_put decrements the count
    and, when it reached zero, sets it back to 1 in a second step: two references
    acquired between the two are forgotten.  From a count of 1, one ref_put and
    two ref_get commands can end with a count of 1, although every order of
    running the three one after the other ends with at least 2. *)
Theorem ref_put_race s n1 n2 n3 :
  ref_count s = 1 →
  (∃ s', rtc step ([ref_put n1; ref_get n2; ref_get n3], s) ([Ret n1; Ret n2; Ret n3], s') ∧
     ref_count s' = 1) ∧
  (∀ ps, ps ∈ permutations [ref_put n1; ref_get n2; ref_get n3] → 2 <= ref_count (run_all ps s)).
Proof.
  intros Hs. split.
  - set (s1 := (exec (Operations atomic_inc) s).1).
    assert (ref_count s1 = 1) as Hr1 by (unfold s1; by rewrite exec_operations_ref).
    eexists. split.
    + rewrite ref_put_eq, !ref_get_eq.
      eapply rtc_l; [apply (step_do _ 0); reflexivity|]. cbn [insert list_insert]. fold s1.
      eapply rtc_l; [apply (step_do _ 0); reflexivity|]. cbn [insert list_insert].
      assert ((exec (Ref atomic_dec_and_test) s1).2 = 1) as ->.
      { cbn [exec]. by rewrite atomic_dec_and_test_spec, Hr1. }
      change (negb (1 =? 0)) with true. cbv iota.
      do 2 (eapply rtc_l; [apply (step_do _ 1); reflexivity|]; cbn [insert list_insert]).
      do 2 (eapply rtc_l; [apply (step_do _ 2); reflexivity|]; cbn [insert list_insert]).
      eapply rtc_l; [apply (step_do _ 0); reflexivity|]. cbn [insert list_insert]. apply rtc_refl.
    + apply exec_ref_set.
  - intros ps Hps. simpl in Hps. unfold run_all.
    repeat (apply elem_of_cons in Hps as [->|Hps]);
      [cbn [foldl]; repeat (rewrite run_ref_get || rewrite run_ref_put); rewrite Hs; by vm_compute..|].
    by apply not_elem_of_nil in Hps.
Qed.
End concurrent.

(** ** Commands one at a time *)

Section sequential.
Context {U : Type} `{UserAccessLaws U, AtomicsLaws, ScannerLaws}.

(** What the user's string scans to. *)
Definition user_scan (u : U) (buffer count : Z) : scanned :=
  sscanf_word_int (uload u buffer count ++ [0]).

Lemma read_command_correct input u buffer count :
  blen input = 32 → 0 <= count →
  read_command input u buffer count =
    Some (if 31 <? count then inl (- EINVAL)
          else if negb ((copy_from_user u buffer count).1 =? 0) then inl (- EFAULT)
          else inr (user_scan u buffer count)).
Proof.
  intros Hi Hc. unfold read_command. change (32 - 1) with 31.
  destruct (Z.ltb_spec 31 count); [done|].
  pose proof (copy_from_user_length u buffer count Hc) as Hl.
  pose proof (copy_from_user_ok u buffer count Hc) as Hok.
  destruct (copy_from_user u buffer count) as [l bs]. simpl in *.
  destruct (store_terminated input bs) as (b1 & b2 & -> & Hb2 & Hs); [lia|]. simpl.
  destruct (Z.eqb_spec l 0) as [->|]; simpl; [|done].
  rewrite Hl in Hb2. rewrite Hb2. simpl. do 2 f_equal. unfold user_scan. rewrite <-Hok by done.
  apply scanned_string; [|set_solver|].
  - apply bwrite_inv in Hb2 as (_ & _ & ->). set_solver.
  - rewrite Hs. by rewrite c_str_app_nul_c_str.
Qed.

(** What a bit command makes of the bit it names. *)
Definition bit_effect (op : bytes) : option (bool → bool) :=
  if strcmp_eq op (lit "set") then Some (λ _, true)
  else if strcmp_eq op (lit "clear") then Some (λ _, false)
  else if strcmp_eq op (lit "change") then Some negb
  else if strcmp_eq op (lit "test_and_set") then Some (λ _, true)
  else if strcmp_eq op (lit "test_and_clear") then Some (λ _, false)
  else if strcmp_eq op (lit "test_and_change") then Some negb
  else None.

(** The word [w'] is [w] with bit [nr] changed by [f]. *)
Definition bit_changed (nr : Z) (f : bool → bool) (w w' : Z) : Prop :=
  is_u64 w' ∧ ∀ i, 0 <= i → Z.testbit w' i = if i =? nr then f (Z.testbit w nr) else Z.testbit w i.

Lemma bit_changed_intro nr f w w' :
  0 <= nr < 64 → is_u64 w → 0 <= w' →
  (∀ i, 0 <= i → Z.testbit w' i = if i =? nr then f (Z.testbit w nr) else Z.testbit w i) →
  bit_changed nr f w w'.
Proof.
  intros Hn [Hw1 Hw2] Hw' Hb. split; [|done]. split; [done|].
  apply Z.bounded_iff_bits_nonneg; [lia|done|]. intros l Hl. rewrite Hb by lia.
  rewrite (proj2 (Z.eqb_neq _ _)) by lia.
  revert l Hl. by apply Z.bounded_iff_bits_nonneg.
Qed.

Lemma setbit_changed nr w : 0 <= nr < 64 → is_u64 w → bit_changed nr (λ _, true) w (Z.setbit w nr).
Proof.
  intros Hn Hw. apply bit_changed_intro; try done.
  - unfold Z.setbit. apply Z.lor_nonneg. unfold is_u64 in Hw. rewrite Z.shiftl_nonneg. lia.
  - intros i Hi. rewrite Z.setbit_eqb by lia. rewrite Z.eqb_sym. by destruct (i =? nr).
Qed.

Lemma clearbit_changed nr w : 0 <= nr < 64 → is_u64 w → bit_changed nr (λ _, false) w (Z.clearbit w nr).
Proof.
  intros Hn Hw. apply bit_changed_intro; try done.
  - unfold Z.clearbit. apply Z.ldiff_nonneg. unfold is_u64 in Hw. lia.
  - intros i Hi. rewrite Z.clearbit_eqb by lia. rewrite Z.eqb_sym.
    destruct (i =? nr); simpl; [by rewrite andb_false_r|by rewrite andb_true_r].
Qed.

Lemma flipbit_changed nr w :
  0 <= nr < 64 → is_u64 w → bit_changed nr negb w (Z.lxor w (Z.shiftl 1 nr)).
Proof.
  intros Hn Hw. apply bit_changed_intro; try done.
  - apply Z.lxor_nonneg. unfold is_u64 in Hw. rewrite Z.shiftl_nonneg. lia.
  - intros i Hi. rewrite Z.lxor_spec, Z.shiftl_1_l, Z.pow2_bits_eqb by lia. rewrite Z.eqb_sym.
    destruct (Z.eqb_spec i nr) as [->|]; [by rewrite xorb_true_r|by rewrite xorb_false_r].
Qed.

Lemma run_bits_cmd op nr count s :
  0 <= nr < 64 → is_u64 (bit_flags s) →
  ∃ r s', run (bits_cmd op nr count) s = (r, s') ∧
    counter s' = counter s ∧ operations_count s' = (atomic atomic_inc (operations_count s)).1 ∧
    large_counter s' = large_counter s ∧ ref_count s' = ref_count s ∧
    match bit_effect op with
    | None => r = - EINVAL ∧ bit_flags s' = bit_flags s
    | Some f => r = count ∧ bit_changed nr f (bit_flags s) (bit_flags s')
    end.
Proof.
  intros Hn Hw. unfold bits_cmd, bit_effect.
  rewrite (proj2 (Z.ltb_ge _ _)) by lia. unfold BITS_PER_LONG.
  rewrite (proj2 (Z.leb_gt _ _)) by lia. cbn [orb run exec].
  destruct (atomic atomic_inc (operations_count s)) as [ops x]. cbn [fst].
  pose proof (setbit_changed nr _ Hn Hw). pose proof (clearbit_changed nr _ Hn Hw).
  pose proof (flipbit_changed nr _ Hn Hw).
  pose proof (set_bit_new nr (bit_flags s) Hn). pose proof (clear_bit_new nr (bit_flags s) Hn).
  pose proof (change_bit_new nr (bit_flags s) Hn).
  repeat case_match; simplify_eq;
    cbn [run exec bit_flags]; rewrite ?test_and_set_bit_spec, ?test_and_clear_bit_spec,
      ?test_and_change_bit_spec by done; simpl;
    try match goal with |- context [bitops ?o nr ?w] => destruct (bitops o nr w) end;
    simpl in *; simplify_eq; by eexists _, _.
Qed.

(** The bits file changes exactly the bit it is told to.  A write of more
    than 31 bytes, one that is not a word and a number, and a bit number outside
    0..63 are refused with -EINVAL, and one whose copy fails with -EFAULT, nothing
    changed, not even the count of operations; an unknown word is counted and
    refused with -EINVAL; otherwise the write returns its length and the flags
    differ at most in the named bit, which is set, cleared or inverted as the word
    says. *)
Theorem atomic_bits_write_correct input u buffer count s :
  blen input = 32 → 0 <= count → is_u64 (bit_flags s) →
  let sc := user_scan u buffer count in
  let nr := default 0 (value sc) in
  ∃ p r s', atomic_bits_write input u buffer count = Some p ∧ run p s = (r, s') ∧
    if 31 <? count then r = - EINVAL ∧ s' = s
    else if negb ((copy_from_user u buffer count).1 =? 0) then r = - EFAULT ∧ s' = s
    else if negb (conversions sc =? 2) || (nr <? 0) || (64 <=? nr) then r = - EINVAL ∧ s' = s
    else
      counter s' = counter s ∧ operations_count s' = s32 (operations_count s + 1) ∧
      large_counter s' = large_counter s ∧ ref_count s' = ref_count s ∧
      match bit_effect (operation sc) with
      | None => r = - EINVAL ∧ bit_flags s' = bit_flags s
      | Some f => r = count ∧ bit_changed nr f (bit_flags s) (bit_flags s')
      end.
Proof.
  intros Hi Hc Hw sc nr. unfold atomic_bits_write. rewrite read_command_correct by done.
  destruct (31 <? count); [by eexists _, _, _|].
  destruct (negb ((copy_from_user u buffer count).1 =? 0)); [by eexists _, _, _|].
  cbn [mbind option_bind]. fold sc.
  destruct (conversions sc =? 2); cbn [negb orb]; [|by eexists _, _, _].
  fold nr. eexists (bits_cmd (operation sc) nr count).
  destruct ((nr <? 0) || (64 <=? nr)) eqn:Hr.
  { exists (- EINVAL), s. split_and!; try done. unfold bits_cmd, BITS_PER_LONG. by rewrite Hr. }
  zbool. destruct (run_bits_cmd (operation sc) nr count s) as (r & s' & Hrun & H1' & H2' & Hx);
    [lia|done|].
  exists r, s'. split_and!; try done; [by rewrite H2', atomic_inc_new|apply Hx..].
Qed.
End sequential.

(** ** Reference instances *)

Definition ref_atomic (o : aop) (v : Z) : Z * Z :=
  match o with
  | atomic_read => (v, v)
  | atomic_set i => (i, 0)
  | atomic_inc => (s32 (v + 1), 0)
  | atomic_inc_return => (s32 (v + 1), s32 (v + 1))
  | atomic_dec_return => (s32 (v - 1), s32 (v - 1))
  | atomic_add_return i => (s32 (v + i), s32 (v + i))
  | atomic_sub_return i => (s32 (v - i), s32 (v - i))
  | atomic_xchg n => (n, v)
  | atomic_cmpxchg o n => (if v =? o then n else v, v)
  | atomic_dec_and_test => (s32 (v - 1), Z.b2z (s32 (v - 1) =? 0))
  | atomic_inc_and_test => (s32 (v + 1), Z.b2z (s32 (v + 1) =? 0))
  | atomic_sub_and_test i => (s32 (v - i), Z.b2z (s32 (v - i) =? 0))
  | atomic_add_negative i => (s32 (v + i), Z.b2z (s32 (v + i) <? 0))
  end.

#[export] Instance ref_atomics : Atomics := {
  atomic := ref_atomic;
  atomic64 o v :=
    match o with
    | atomic64_read => (v, v)
    | atomic64_inc_return => (s64 (v + 1), s64 (v + 1))
    | atomic64_add_return i => (s64 (v + i), s64 (v + i))
    end;
  bitops o nr w :=
    match o with
    | set_bit => (Z.setbit w nr, 0)
    | clear_bit => (Z.clearbit w nr, 0)
    | change_bit => (Z.lxor w (Z.shiftl 1 nr), 0)
    | test_and_set_bit => (Z.setbit w nr, Z.b2z (Z.testbit w nr))
    | test_and_clear_bit => (Z.clearbit w nr, Z.b2z (Z.testbit w nr))
    | test_and_change_bit => (Z.lxor w (Z.shiftl 1 nr), Z.b2z (Z.testbit w nr))
    | test_bit => (w, Z.b2z (Z.testbit w nr))
    end
}.
#[export] Instance ref_atomics_laws : AtomicsLaws.
Proof. by split. Qed.

Definition is_space (c : Z) : bool := (c =? 32) || ((9 <=? c) && (c <=? 13)).
Definition is_digit (c : Z) : bool := (48 <=? c) && (c <=? 57).

Fixpoint skip_spaces (s : bytes) : bytes :=
  match s with
  | c :: s' => if is_space c then skip_spaces s' else s
  | [] => []
  end.
(** At most [n] characters that are not space, and the rest. *)
Fixpoint scan_word (n : nat) (s : bytes) : bytes * bytes :=
  match n, s with
  | S n', c :: s' => if is_space c then ([], s) else let '(w, r) := scan_word n' s' in (c :: w, r)
  | _, _ => ([], s)
  end.
Fixpoint scan_digits (s : bytes) (acc : Z) : Z :=
  match s with
  | c :: s' => if is_digit c then scan_digits s' (10 * acc + (c - 48)) else acc
  | [] => acc
  end.
Definition scan_int (s : bytes) : option Z :=
  match s with
  | c :: s' =>
      if is_digit c then Some (s32 (scan_digits s 0))
      else if c =? 45 then
        match s' with
        | c' :: _ => if is_digit c' then Some (s32 (- scan_digits s' 0)) else None
        | [] => None
        end
      else None
  | [] => None
  end.

#[export] Instance ref_scanner : Scanner := {
  sscanf_word_int b :=
    match skip_spaces (c_str b) with
    | [] => Scanned (-1) [] None
    | s =>
        let '(w, r) := scan_word 15 s in
        match scan_int (skip_spaces r) with
        | Some v => Scanned 2 (w ++ [0]) (Some v)
        | None => Scanned 1 (w ++ [0]) None
        end
    end
}.

Lemma scan_word_length n s : (length (scan_word n s).1 <= n)%nat.
Proof.
  revert s. induction n as [|n IH]; intros [|c s]; simpl; try lia.
  destruct (is_space c); simpl; [lia|]. specialize (IH s). destruct (scan_word n s). simpl in *. lia.
Qed.

Lemma scan_int_s32 s v : scan_int s = Some v → is_s32 v.
Proof.
  unfold scan_int. intros. repeat case_match; simplify_eq; apply s32_bound.
Qed.

#[export] Instance ref_scanner_laws : ScannerLaws.
Proof.
  split; cbn [sscanf_word_int ref_scanner]; intros b.
  - destruct (skip_spaces (c_str b)) as [|c s]; [by split; [intros []|]|].
    destruct (scan_word 15 (c :: s)). destruct (scan_int _); simpl; (split; [|lia || done]); done.
  - destruct (skip_spaces (c_str b)) as [|c s]; simpl; [lia|]. fold (scan_word 15 (c :: s)).
    pose proof (scan_word_length 15 (c :: s)) as Hl. destruct (scan_word 15 (c :: s)) as [w r].
    simpl in Hl. destruct (scan_int _); simpl; (split; [set_solver|]); rewrite blen_app;
      unfold blen; simpl; lia.
  - by intros b' _ _ ->.
  - intros v. destruct (skip_spaces (c_str b)) as [|c s]; [done|].
    destruct (scan_word 15 (c :: s)). destruct (scan_int _) eqn:E; simpl; [|done].
    intros [= <-]. by eapply scan_int_s32.
Qed.

(** ** Witnesses *)

Definition wcmds : list (bytes * Z * Z) := [(lit "inc", 0, 4); (lit "add", 2^31 - 1, 15); (lit "dec", 0, 4)].

Lemma no_lost_updates_witness :
  ∃ ps s1, rtc step ((λ c, basic_cmd c.1.1 c.1.2 c.2) <$> wcmds, init_state) (ps, s1) ∧
    finished ps ∧ counter s1 = 2^31 - 1 ∧ operations_count s1 = 3.
Proof.
  destruct (pool_finishes ((λ c, basic_cmd c.1.1 c.1.2 c.2) <$> wcmds) init_state)
    as (ps & s1 & Hr & Hf).
  destruct (no_lost_updates wcmds [1; 2^31 - 1; -1] init_state ps s1) as [_ Hs];
    [unfold is_s32; simpl; lia|unfold is_s32; simpl; lia| |exact Hr|].
  - repeat constructor; by vm_compute.
  - destruct (Hs Hf) as [-> _]. exists ps. eexists. split; [exact Hr|]. split; [exact Hf|].
    split; by vm_compute.
Defined.

Lemma ref_put_race_witness :
  ∃ s', rtc step ([ref_put 8; ref_get 8; ref_get 8], init_state) ([Ret 8; Ret 8; Ret 8], s') ∧
    ref_count s' = 1.
Proof. exact (proj1 (ref_put_race init_state 8 8 8 eq_refl)). Defined.

Lemma atomic_bits_write_correct_witness :
  ∃ p s', atomic_bits_write (bfill 0xCC 32) (FlatUser 1000 (chars "set 63")) 1000 6 = Some p ∧
    run p init_state = (6, s') ∧ bit_changed 63 (λ _, true) 0 (bit_flags s').
Proof.
  destruct (atomic_bits_write_correct (bfill 0xCC 32) (FlatUser 1000 (chars "set 63")) 1000 6
    init_state) as (p & r & s' & Hp & Hr & Hs); [reflexivity|lia|unfold is_u64; simpl; lia|].
  do 3 lazymatch type of Hs with
    | if ?b then _ else _ =>
        let E := fresh in assert (b = false) as E by (vm_compute; reflexivity); rewrite E in Hs
    end.
  replace (bit_effect _) with (Some (λ _ : bool, true)) in Hs by (vm_compute; reflexivity).
  replace (default 0 _) with 63 in Hs by (vm_compute; reflexivity).
  destruct Hs as (_ & _ & _ & _ & -> & Hs).
  exists p, s'. split; [exact Hp|]. split; [exact Hr|exact Hs].
Defined.

(** The comment on the bits file says it shows only the lower 8 bits; the
    condition lets one bit in four of the upper 56 through. *)
Lemma bits_show_upper_bits :
  binary_loop (Z.to_nat BITS_PER_LONG) (2^63 + 1) = "100000000000000000 0001"%string.
Proof. by vm_compute. Qed.

(** ** Registration *)
Module Reg.
#[local] Open Scope kernel_scope.

(** The static pointers. *)
Record statics := Statics {
  proc_dir : Z; proc_basic : Z; proc_advanced : Z; proc_bits : Z; proc_status : Z
}.
Definition set_dir p s := Statics p (proc_basic s) (proc_advanced s) (proc_bits s) (proc_status s).
Definition set_basic p s := Statics (proc_dir s) p (proc_advanced s) (proc_bits s) (proc_status s).
Definition set_advanced p s := Statics (proc_dir s) (proc_basic s) p (proc_bits s) (proc_status s).
Definition set_bits p s := Statics (proc_dir s) (proc_basic s) (proc_advanced s) p (proc_status s).
Definition set_status p s := Statics (proc_dir s) (proc_basic s) (proc_advanced s) (proc_bits s) p.

(** [SetBit] is set_bit on bit_flags; mode 438 is 0666, mode 292 is 0444. *)
Definition atomic_comprehensive_init : K call statics Z :=
  kcall (SetBit FLAG_SYSTEM_READY) ;;k
  p <-k kcall ProcMkdir;
  kmod (set_dir p) ;;k
  if p =? NULL then kret (- ENOMEM) else
  b <-k kcall (ProcCreate 438 p); kmod (set_basic b) ;;k
  a <-k kcall (ProcCreate 438 p); kmod (set_advanced a) ;;k
  f <-k kcall (ProcCreate 438 p); kmod (set_bits f) ;;k
  t <-k kcall (ProcCreate 292 p); kmod (set_status t) ;;k
  if (b =? NULL) || (a =? NULL) || (f =? NULL) || (t =? NULL) then
    d <-k kget proc_dir; kcall (ProcRemove d) ;;k kret (- ENOMEM)
  else kret 0.

Definition atomic_comprehensive_exit : K call statics unit :=
  d <-k kget proc_dir; kcall (ProcRemove d) ;;k kret tt.

(** Whatever the kernel answers, a failing init returns -ENOMEM and leaves no
    /proc entry behind, a successful one leaves the directory and its four
    files, and exit removes them all. *)
Theorem atomic_init_exit (e : env call) (s : statics) :
  let '(ret, w) := atomic_comprehensive_init e (KWorld s []) in
  let '(_, w') := atomic_comprehensive_exit e w in
  (ret = - ENOMEM ∧ entries (ktr w) = []) ∨
  (ret = 0 ∧ length (entries (ktr w)) = 5%nat ∧ entries (ktr w') = []).
Proof.
  unfold atomic_comprehensive_init. destruct s.
  all: repeat kstep; unfold atomic_comprehensive_exit; repeat kstep;
    cbn [proc_dir set_dir set_basic set_advanced set_bits set_status] in *.
  all: first [ left; split; [done|]; by entries_solve | right; split_and!; by entries_solve ].
Qed.
End Reg.
