(* ===== verification/VirtualLog.v ===== *)
(** * The virtual log (examples/class_3/02_advanced_procfs/pos_demo.c)

    A log of the last 100 messages, kept in a static array that is shifted when it
    is full, written through a /proc file and read through a seq_file iterator.
    The abstract log is a list of entries; the array operations refine it.
    Writers take no lock: their interleavings are a step relation. *)
From S2P Require Import Prelude Bytes Kernel ProcFs.

Definition MAX_LOG_ENTRIES : Z := 100.
Definition MESSAGE_SIZE : Z := 64.

(** struct log_entry *)
Record log_entry := LogEntry { timestamp : Z; entry_id : Z; message : bytes }.

(** The static variables. *)
Record log := Log { log_buffer : list log_entry; log_count : Z; next_id : Z }.

Definition zero_entry : log_entry := LogEntry 0 0 (bfill 0 MESSAGE_SIZE).
Definition init_log : log := Log (replicate 100 zero_entry) 0 1.

(** ** Adding an entry *)

(** The stores to one element: the time, the identifier, the text. *)
Definition fill_entry (jiffies id : Z) (msg : bytes) (e : log_entry) : option log_entry :=
  cs ← strncpy_bytes msg (MESSAGE_SIZE - 1);
  m ← bwrite (message e) 0 cs;
  m ← bwrite m (MESSAGE_SIZE - 1) [0];
  Some (LogEntry jiffies id m).

(** log_buffer[i] = ...: undefined out of the array. *)
Definition store_entry (i : Z) (jiffies : Z) (msg : bytes) (l : log) : option log :=
  if i <? 0 then None
  else
    e ← log_buffer l !! Z.to_nat i;
    e' ← fill_entry jiffies (next_id l) msg e;
    Some (Log (<[Z.to_nat i := e']> (log_buffer l)) (log_count l) (s32 (next_id l + 1))).

(** Lines 27-32: the array is not full. *)
Definition append_entry (jiffies : Z) (msg : bytes) (l : log) : option log :=
  l ← store_entry (log_count l) jiffies msg l;
  Some (Log (log_buffer l) (s32 (log_count l + 1)) (next_id l)).

(** memmove(&log_buffer[0], &log_buffer[1], ...): all but the first element move
    down by one, the last one keeps its contents. *)
Definition shift_buffer (b : list log_entry) : list log_entry :=
  match b with
  | [] => []
  | _ :: b' => b' ++ match last b with Some e => [e] | None => [] end
  end.

(** Lines 35-41: the array is full. *)
Definition overwrite_oldest (jiffies : Z) (msg : bytes) (l : log) : option log :=
  store_entry (MAX_LOG_ENTRIES - 1) jiffies msg
    (Log (shift_buffer (log_buffer l)) (log_count l) (next_id l)).

Definition add_log_entry (jiffies : Z) (msg : bytes) (l : log) : option log :=
  if log_count l <? MAX_LOG_ENTRIES then append_entry jiffies msg l
  else overwrite_oldest jiffies msg l.

(** ** The seq_file iterator

    A pointer to log_buffer[i] is the index i; NULL is [None]. *)
Definition log_seq_start (l : log) (pos : Z) : option Z :=
  if log_count l <=? pos then None else Some pos.

(** The new position and the next entry. *)
Definition log_seq_next (l : log) (pos : Z) : Z * option Z :=
  let pos := s64 (pos + 1) in
  if log_count l <=? pos then (pos, None) else (pos, Some pos).

Definition log_seq_show (l : log) (v : Z) : option bytes :=
  if v <? 0 then None
  else
    e ← log_buffer l !! Z.to_nat v;
    _ ← strlen (message e);
    Some (chars "[" ++ dec (timestamp e) ++ chars "] Entry #" ++ dec (entry_id e) ++ chars ": "
          ++ c_str (message e) ++ [10]).

(** What the kernel's seq_file does with the module's operations
    (Documentation/filesystems/seq_file.rst): start, then show and next until the
    iterator is NULL.  This loop is the caller's, not code of the module.  [None] is an undefined access or fuel that ran out; the
    result is what was shown and the final position. *)
Fixpoint seq_loop (fuel : nat) (l : log) (v : option Z) (pos : Z) : option (list bytes * Z) :=
  match v with
  | None => Some ([], pos)
  | Some i =>
      match fuel with
      | O => None
      | S fuel' =>
          txt ← log_seq_show l i;
          let '(pos, v) := log_seq_next l pos in
          '(out, pos) ← seq_loop fuel' l v pos;
          Some (txt :: out, pos)
      end
  end.
Definition seq_traverse (fuel : nat) (l : log) (pos : Z) : option (list bytes * Z) :=
  seq_loop fuel l (log_seq_start l pos) pos.

(** ** The /proc write *)

Section write.
Context {H U : Type} `{Allocator H, UserAccess U}.

(** log_proc_write; [block] is what the block kmalloc returns holds. *)
Definition log_proc_write (block : bytes) (jiffies : Z) (u : U) (buffer count : Z) (l : log) (h : H)
    : option (Z * log * H) :=
  if 63 <? count then Some (- EINVAL, l, h)
  else
    let '(kernel_buffer, h) := kmalloc h (count + 1) in
    if kernel_buffer =? NULL then Some (- ENOMEM, l, h)
    else
      let '(left_over, bs) := copy_from_user u buffer count in
      kb ← bwrite block 0 bs;
      if negb (left_over =? 0) then Some (- EFAULT, l, kfree h kernel_buffer)
      else
        kb ← bwrite kb count [0];
        c ← bread kb (count - 1) 1;
        kb ← (if bool_decide (c = [10]) then bwrite kb (count - 1) [0] else Some kb);
        l ← add_log_entry jiffies kb l;
        Some (count, l, kfree h kernel_buffer).
End write.

(** ** Loading *)

(** The entries pos_demo_init adds; [ts] is the time at each of them. *)
Definition first_entries (ts : Z * Z * Z * Z * Z) (l : log) : option log :=
  let '(t1, t2, t3, t4, t5) := ts in
  l ← add_log_entry t1 (lit "System started") l;
  l ← add_log_entry t2 (lit "Module loading") l;
  l ← add_log_entry t3 (lit "Initialization complete") l;
  l ← add_log_entry t4 (lit "Ready for operations") l;
  add_log_entry t5 (lit "First user access") l.

Section loading.
#[local] Open Scope kernel_scope.

(** The static variables: the log and proc_entry; mode 438 is 0666.  [None]: an
    access out of the array. *)
Definition pos_demo_init (ts : Z * Z * Z * Z * Z) : K call (log * Z) (option Z) :=
  l <-k kget fst;
  match first_entries ts l with
  | None => kret None
  | Some l =>
      kmod (λ s, (l, s.2)) ;;k
      p <-k kcall (ProcCreate 438 NULL); kmod (λ s, (s.1, p)) ;;k
      if p =? NULL then kret (Some (- ENOMEM)) else kret (Some 0)
  end.
Definition pos_demo_exit : K call (log * Z) unit := p <-k kget snd; kcall (ProcRemove p) ;;k kret tt.
End loading.

(** ** Concurrent writers

    A writer has yet to test whether the array is full, or has tested it. *)
Inductive writer := Testing (jiffies : Z) (msg : bytes) | Appending (jiffies : Z) (msg : bytes)
| Overwriting (jiffies : Z) (msg : bytes) | Done.

(** One step of one writer; the log is [None] after an undefined access. *)
Inductive wstep : list writer * option log → list writer * option log → Prop :=
| wstep_test ws i t m l :
    ws !! i = Some (Testing t m) →
    wstep (ws, Some l)
      (<[i := if log_count l <? MAX_LOG_ENTRIES then Appending t m else Overwriting t m]> ws, Some l)
| wstep_append ws i t m l :
    ws !! i = Some (Appending t m) →
    wstep (ws, Some l) (<[i := Done]> ws, append_entry t m l)
| wstep_overwrite ws i t m l :
    ws !! i = Some (Overwriting t m) →
    wstep (ws, Some l) (<[i := Done]> ws, overwrite_oldest t m l).

(** ** The abstract log *)

(** An entry as a reader sees it: time, identifier, text. *)
Abbreviation entry := (Z * Z * bytes)%type.

Definition view (e : log_entry) : entry := (timestamp e, entry_id e, c_str (message e)).
Definition contents (l : log) : list entry := view <$> take (Z.to_nat (log_count l)) (log_buffer l).

(** The last [n] elements of a list. *)
Definition keep {A} (n : nat) (xs : list A) : list A := drop (length xs - n) xs.

(** What holds of the array in every state: 100 elements, a count of at most
    100, and a 64-byte terminated text in every element. *)
Record log_ok (l : log) : Prop := {
  ok_length : length (log_buffer l) = 100%nat;
  ok_count : 0 <= log_count l <= 100;
  ok_id : is_s32 (next_id l);
  ok_text e : e ∈ log_buffer l → blen (message e) = 64 ∧ 0 ∈ message e
}.

Lemma init_log_ok : log_ok init_log.
Proof.
  split; simpl; [done|lia|unfold is_s32; lia|].
  intros e He. assert (e = zero_entry) as ->; [|by apply (bool_decide_eq_true_1 _)].
  change (e ∈ replicate 100 zero_entry) in He. by apply elem_of_replicate in He as [-> _].
Qed.

Lemma keep_app {A} n (xs ys : list A) : keep n (keep n xs ++ ys) = keep n (xs ++ ys).
Proof.
  unfold keep. rewrite !length_app, length_drop. destruct (decide (length xs <= n)%nat).
  - replace (length xs - n)%nat with 0%nat by lia. rewrite drop_0. do 2 f_equal. lia.
  - rewrite !drop_app, !drop_drop, length_drop. f_equal; f_equal; lia.
Qed.

Lemma keep_short {A} n (xs : list A) : (length xs <= n)%nat → keep n xs = xs.
Proof. intros. unfold keep. by replace (length xs - n)%nat with 0%nat by lia. Qed.

Lemma fill_entry_spec t id msg e :
  blen (message e) = 64 → 0 ∈ msg →
  ∃ m, fill_entry t id msg e = Some (LogEntry t id m) ∧ blen m = 64 ∧ 0 ∈ m ∧
    c_str m = take 63 (c_str msg).
Proof.
  intros He Hmsg. unfold fill_entry, strncpy_bytes. rewrite bool_decide_eq_true_2 by auto.
  change (Z.to_nat (MESSAGE_SIZE - 1)) with 63%nat. set (cs := resize 63 0 (c_str msg)).
  assert (length cs = 63%nat) as Hcs by apply length_resize. cbn [mbind option_bind].
  rewrite bwrite_Some by (unfold blen in *; lia). cbn [mbind option_bind].
  change (Z.to_nat 0) with 0%nat. rewrite take_0, Nat.add_0_l, app_nil_l.
  rewrite bwrite_Some; [|unfold MESSAGE_SIZE; lia|].
  2:{ unfold blen, MESSAGE_SIZE in *. rewrite length_app, length_drop. simpl. lia. }
  cbn [mbind option_bind]. change (Z.to_nat (MESSAGE_SIZE - 1)) with 63%nat.
  rewrite take_app_exact, drop_ge by (rewrite ?length_app, ?length_drop; unfold blen in *; simpl; lia).
  eexists. split; [done|]. rewrite app_nil_r, blen_app. split_and!.
  - unfold blen. rewrite Hcs. done.
  - set_solver.
  - apply c_str_strncpy, c_str_no_nul.
Qed.

Lemma shift_buffer_spec b :
  (0 < length b)%nat → length (shift_buffer b) = length b ∧
  take (length b - 1) (shift_buffer b) = drop 1 b ∧ ∀ e, e ∈ shift_buffer b → e ∈ b.
Proof.
  destruct b as [|e b]; simpl; [lia|]. intros _. rewrite Nat.sub_0_r.
  destruct (last (e :: b)) as [x|] eqn:Hl; [|by apply last_None in Hl].
  split_and!.
  - rewrite length_app. simpl. lia.
  - rewrite drop_0. by apply take_app_exact.
  - intros y [Hy|Hy]%elem_of_app; [set_solver|]. apply elem_of_cons in Hy as [->|Hy]; [|set_solver].
    rewrite last_lookup in Hl. by eapply list_elem_of_lookup_2.
Qed.

Lemma store_entry_spec i t msg l :
  log_ok l → 0 <= i < 100 → 0 ∈ msg →
  ∃ e, store_entry i t msg l =
      Some (Log (<[Z.to_nat i := e]> (log_buffer l)) (log_count l) (s32 (next_id l + 1))) ∧
    view e = (t, next_id l, take 63 (c_str msg)) ∧ blen (message e) = 64 ∧ 0 ∈ message e.
Proof.
  intros [Hlen Hc Hid Ht] Hi Hmsg. unfold store_entry. rewrite (proj2 (Z.ltb_ge _ _)) by lia.
  destruct (lookup_lt_is_Some_2 (log_buffer l) (Z.to_nat i)) as [e He]; [lia|].
  destruct (Ht e) as [He1 He2]; [by eapply list_elem_of_lookup_2|].
  destruct (fill_entry_spec t (next_id l) msg e He1 Hmsg) as (m & Hf & Hm1 & Hm2 & Hm3).
  rewrite He. cbn [mbind option_bind]. rewrite Hf. cbn [mbind option_bind].
  eexists. split; [done|]. unfold view. simpl. rewrite Hm3. done.
Qed.

(** Storing an element keeps the invariant. *)
Lemma log_ok_insert b i e n id :
  log_ok (Log b n id) → blen (message e) = 64 → 0 ∈ message e → 0 <= n <= 100 →
  ∀ n' id', 0 <= n' <= 100 → is_s32 id' → log_ok (Log (<[i := e]> b) n' id').
Proof.
  intros [Hlen _ _ Ht] He1 He2 _ n' id' Hn Hid. split; simpl in *; [by rewrite length_insert|done|done|].
  intros x Hx. apply list_elem_of_lookup_1 in Hx as [j Hj].
  destruct (decide (i = j)) as [->|].
  - destruct (decide (j < length b)%nat).
    + rewrite list_lookup_insert_eq in Hj by done. by simplify_eq.
    + rewrite list_insert_ge in Hj by lia. apply Ht. by eapply list_elem_of_lookup_2.
  - rewrite list_lookup_insert_ne in Hj by done. apply Ht. by eapply list_elem_of_lookup_2.
Qed.

(** The refinement: one added entry. *)
Lemma add_log_entry_spec t msg l :
  log_ok l → 0 ∈ msg →
  ∃ l', add_log_entry t msg l = Some l' ∧ log_ok l' ∧ next_id l' = s32 (next_id l + 1) ∧
    contents l' = keep 100 (contents l ++ [(t, next_id l, take 63 (c_str msg))]).
Proof.
  intros Hok Hmsg. destruct l as [b n id]. pose proof Hok as [Hlen Hc Hid Ht]. simpl in *.
  unfold add_log_entry, MAX_LOG_ENTRIES, contents. simpl.
  destruct (Z.ltb_spec n 100).
  - unfold append_entry. simpl.
    destruct (store_entry_spec n t msg (Log b n id) Hok) as (e & -> & Hv & He1 & He2); [lia|done|].
    simpl. eexists. split; [done|]. simpl. rewrite s32_small by (unfold is_s32; lia). split_and!.
    + eapply log_ok_insert; try done; [lia|apply s32_bound].
    + done.
    + rewrite keep_short by (rewrite length_app, length_fmap, length_take; simpl; lia).
      replace (Z.to_nat (n + 1)) with (S (Z.to_nat n)) by lia.
      rewrite (take_S_r _ _ e) by (apply list_lookup_insert_eq; lia).
      rewrite fmap_app, take_insert_ge by lia. simpl. by rewrite Hv.
  - unfold overwrite_oldest, MAX_LOG_ENTRIES. simpl. assert (n = 100) as -> by lia.
    destruct (shift_buffer_spec b) as (Hs1 & Hs2 & Hs3); [lia|].
    assert (log_ok (Log (shift_buffer b) 100 id)) as Hok'.
    { split; simpl; [congruence|lia|done|]. auto. }
    change (100 - 1) with 99.
    destruct (store_entry_spec 99 t msg _ Hok') as (e & -> & Hv & He1 & He2); [lia|done|]. simpl.
    eexists. split; [done|]. simpl. split_and!.
    + eapply log_ok_insert; try done; apply s32_bound.
    + done.
    + change (Z.to_nat 100) with 100%nat. change (Z.to_nat 99) with 99%nat.
      rewrite Hlen in Hs2. simpl in Hs2. rewrite (take_ge b) by lia.
      rewrite (take_S_r _ 99 e) by (apply list_lookup_insert_eq; lia).
      rewrite fmap_app, take_insert_ge, Hs2 by lia. simpl. rewrite Hv.
      unfold keep. rewrite length_app, length_fmap, Hlen. simpl.
      rewrite drop_app_le by (rewrite length_fmap; lia). by rewrite <-fmap_drop.
Qed.

(** ** What the log keeps *)

Lemma length_contents l : log_ok l → length (contents l) = Z.to_nat (log_count l).
Proof. intros []. unfold contents. rewrite length_fmap, length_take. lia. Qed.

Fixpoint add_all (ms : list (Z * bytes)) (l : log) : option log :=
  match ms with
  | [] => Some l
  | (t, msg) :: ms => l ← add_log_entry t msg l; add_all ms l
  end.

(** The entries messages become, numbered from [id] on. *)
Definition entries_from (id : Z) (ms : list (Z * bytes)) : list entry :=
  imap (λ k m, (m.1, s32 (id + Z.of_nat k), take 63 (c_str m.2))) ms.

Lemma entries_from_cons id m ms :
  is_s32 id →
  entries_from id (m :: ms) = (m.1, id, take 63 (c_str m.2)) :: entries_from (s32 (id + 1)) ms.
Proof.
  intros Hid. unfold entries_from. simpl. rewrite Z.add_0_r, s32_small by done. f_equal.
  apply imap_ext. intros k x _. simpl. do 2 f_equal.
  rewrite s32_add_l. f_equal. lia.
Qed.

(** Adding messages one after another, by induction on the messages. *)
Lemma add_all_spec ms l :
  log_ok l → Forall (λ m, 0 ∈ m.2) ms →
  ∃ l', add_all ms l = Some l' ∧ log_ok l' ∧
    next_id l' = s32 (next_id l + Z.of_nat (length ms)) ∧
    contents l' = keep 100 (contents l ++ entries_from (next_id l) ms).
Proof.
  intros Hok HF. revert l Hok. induction HF as [|[t msg] ms Hm HF IH]; intros l Hok; simpl.
  { exists l. split_and!; [done|done|rewrite Z.add_0_r; symmetry; apply s32_small, Hok|].
    unfold entries_from. simpl. rewrite app_nil_r, keep_short; [done|].
    rewrite length_contents by done. destruct Hok. lia. }
  destruct (add_log_entry_spec t msg l Hok Hm) as (l1 & -> & Hok1 & Hid1 & Hc1). simpl.
  destruct (IH l1 Hok1) as (l' & -> & Hok' & Hid' & Hc'). exists l'. split_and!; [done|done| |].
  - rewrite Hid', Hid1, s32_add_l. f_equal. lia.
  - rewrite Hc', Hc1, keep_app, <-app_assoc, Hid1. simpl.
    by rewrite (entries_from_cons (next_id l)) by apply Hok.
Qed.

(** C5: the log is a bounded queue of the last hundred messages.  From any state
    the module can be in, adding any sequence of strings succeeds and leaves
    exactly the last 100 of the entries there were and the new ones, in order,
    each with its time, the next identifier (wrapping at 2^31) and the first 63
    characters of its text. *)
Theorem log_keeps_last ms l :
  log_ok l → Forall (λ m, 0 ∈ m.2) ms →
  ∃ l', add_all ms l = Some l' ∧ log_ok l' ∧
    next_id l' = s32 (next_id l + Z.of_nat (length ms)) ∧
    contents l' = keep 100 (contents l ++ entries_from (next_id l) ms).
Proof. apply add_all_spec. Qed.

(** ** Reading *)

Definition render (e : entry) : bytes :=
  let '(t, id, txt) := e in
  chars "[" ++ dec t ++ chars "] Entry #" ++ dec id ++ chars ": " ++ txt ++ [10].

Lemma log_seq_show_spec l i e :
  log_ok l → 0 <= i → contents l !! Z.to_nat i = Some e → log_seq_show l i = Some (render e).
Proof.
  intros Hok Hi He. unfold contents in He. rewrite list_lookup_fmap in He.
  destruct (take _ _ !! _) as [x|] eqn:Hx; simplify_eq/=. apply lookup_take_Some in Hx as [Hx _].
  unfold log_seq_show. rewrite (proj2 (Z.ltb_ge _ _)), Hx by lia. cbn [mbind option_bind].
  destruct (ok_text l Hok x) as [_ H0]; [by eapply list_elem_of_lookup_2|].
  apply strlen_is_Some in H0 as [n ->]. done.
Qed.

Lemma seq_loop_spec fuel l pos :
  log_ok l → 0 <= pos < 2^62 → (length (contents l) - Z.to_nat pos < fuel)%nat →
  seq_loop fuel l (log_seq_start l pos) pos =
    Some (render <$> drop (Z.to_nat pos) (contents l), Z.max pos (log_count l)).
Proof.
  intros Hok. revert pos. induction fuel as [|fuel IH]; intros pos Hp Hf; [lia|].
  pose proof (length_contents l Hok) as Hl. pose proof (ok_count l Hok).
  unfold log_seq_start. destruct (Z.leb_spec (log_count l) pos).
  { simpl. rewrite drop_ge, Z.max_l by lia. done. }
  destruct (lookup_lt_is_Some_2 (contents l) (Z.to_nat pos)) as [e He]; [lia|].
  cbn [seq_loop]. rewrite (log_seq_show_spec l pos e) by (done || lia). cbn [mbind option_bind].
  assert (log_seq_next l pos = (pos + 1, log_seq_start l (pos + 1))) as ->.
  { unfold log_seq_next, log_seq_start. rewrite s64_small by (unfold is_s64; lia).
    by destruct (log_count l <=? pos + 1). }
  rewrite IH by lia. cbn [mbind option_bind]. rewrite (drop_S _ e (Z.to_nat pos)) by done.
  replace (Z.to_nat (pos + 1)) with (S (Z.to_nat pos)) by lia.
  rewrite fmap_cons. do 2 f_equal. lia.
Qed.

(** C30: a reader sees the log.  From any position the iterator terminates, within
    101 steps, having shown exactly the entries from that position on, each once
    and in order, formatted with its time, identifier and text, and leaves the
    position at the end of the log; a position at or past the end shows nothing. *)
Theorem seq_traverse_correct fuel l pos :
  log_ok l → 0 <= pos < 2^62 → (100 < fuel)%nat →
  seq_traverse fuel l pos =
    Some (render <$> drop (Z.to_nat pos) (contents l), Z.max pos (log_count l)).
Proof.
  intros Hok Hp Hf. apply seq_loop_spec; [done|done|].
  rewrite length_contents by done. destruct Hok. lia.
Qed.

(** ** The /proc write *)

(** The string a write stores: the user's bytes, without a final newline. *)
Definition written (bs : bytes) : bytes :=
  if bool_decide (last bs = Some 10) then c_str (removelast bs) else c_str bs.

Section proc.
Context {H U : Type} `{AllocatorLaws H, UserAccessLaws U}.

(** The text handed to add_log_entry. *)
Lemma strip_newline block bs :
  blen block = blen bs + 1 → bs ≠ [] →
  ∃ b1 b2 c b3, bwrite block 0 bs = Some b1 ∧ bwrite b1 (blen bs) [0] = Some b2 ∧
    bread b2 (blen bs - 1) 1 = Some c ∧
    (if bool_decide (c = [10]) then bwrite b2 (blen bs - 1) [0] else Some b2) = Some b3 ∧
    0 ∈ b3 ∧ c_str b3 = written bs.
Proof.
  intros Hb Hne. destruct (exists_last Hne) as (bs' & x & ->). rewrite blen_app in *.
  change (blen [x]) with 1 in *. pose proof (blen_nonneg bs') as Hn.
  assert (∃ y, drop (length (bs' ++ [x])) block = [y]) as [y Hy].
  { assert (length (drop (length (bs' ++ [x])) block) = 1%nat) as Hl.
    { rewrite length_drop, length_app. unfold blen in *. simpl. lia. }
    destruct (drop _ block) as [|y [|]]; [done|eauto|done]. }
  assert (bwrite block 0 (bs' ++ [x]) = Some (bs' ++ [x; y])) as ->.
  { rewrite bwrite_Some by (rewrite ?blen_app; change (blen [x]) with 1; lia).
    change (Z.to_nat 0) with 0%nat. rewrite take_0. simpl. rewrite Hy.
    by rewrite <-app_assoc. }
  exists (bs' ++ [x; y]), (bs' ++ [x; 0]), [x], (if bool_decide ([x] = [10]) then bs' ++ [0; 0] else bs' ++ [x; 0]).
  assert (∀ z w, blen (bs' ++ [z; w]) = blen bs' + 2) as Hl by (intros; by rewrite blen_app).
  replace (blen bs' + 1 - 1) with (blen bs') by lia.
  assert (Z.to_nat (blen bs') = length bs') as Hn1 by (unfold blen; lia).
  split_and!; [done|..].
  - rewrite bwrite_Some by (rewrite ?Hl; change (blen [0]) with 1; lia).
    replace (Z.to_nat (blen bs' + 1)) with (length (bs' ++ [x])) by (rewrite length_app; unfold blen; simpl; lia).
    replace (bs' ++ [x; y]) with ((bs' ++ [x]) ++ [y]) by (by rewrite <-app_assoc).
    rewrite take_app_exact, drop_ge by (rewrite ?length_app; simpl; lia).
    by rewrite app_nil_r, <-app_assoc.
  - rewrite bread_Some by (rewrite ?Hl; lia). rewrite Hn1, drop_app_exact; done.
  - case_bool_decide; [|done].
    rewrite bwrite_Some by (rewrite ?Hl; change (blen [0]) with 1; lia).
    rewrite Hn1, take_app_exact by done. f_equal. f_equal.
    rewrite drop_app. rewrite drop_ge by (simpl; lia). simpl.
    by replace (length bs' + 1 - length bs')%nat with 1%nat by lia.
  - case_bool_decide; set_solver.
  - unfold written. rewrite last_snoc, removelast_last.
    case_bool_decide as E1; case_bool_decide as E2; try (exfalso; congruence).
    + by rewrite c_str_app_nul_c_str.
    + replace (bs' ++ [x; 0]) with ((bs' ++ [x]) ++ 0 :: []) by (by rewrite <-app_assoc).
      by rewrite c_str_app_nul_c_str.
Qed.

(** A message written to the file becomes the newest entry.  For every length
    from 1 to 63 and whichever way the allocation and the copy go, the write
    returns its length, -ENOMEM or -EFAULT, frees the buffer it allocated, and on
    success leaves the log of at most 100 entries ending with the user's string,
    without its final newline; on failure, and for a length over 63, which gives
    -EINVAL, the log is unchanged. *)
Theorem log_proc_write_correct block t (u : U) buffer count l (h : H) :
  log_ok l → 1 <= count → blen block = count + 1 →
  ∃ r l' h', log_proc_write block t u buffer count l h = Some (r, l', h') ∧
    live h' = live h ∧ log_ok l' ∧
    if 63 <? count then r = - EINVAL ∧ l' = l
    else if (kmalloc h (count + 1)).1 =? NULL then r = - ENOMEM ∧ l' = l
    else if negb ((copy_from_user u buffer count).1 =? 0) then r = - EFAULT ∧ l' = l
    else r = count ∧ next_id l' = s32 (next_id l + 1) ∧
      contents l' = keep 100 (contents l ++ [(t, next_id l, written (uload u buffer count))]).
Proof.
  intros Hok Hc Hb. unfold log_proc_write.
  destruct (Z.ltb_spec 63 count) as [|Hle]; [by eexists _, _, _|].
  pose proof (kmalloc_spec h (count + 1)) as Hk. pose proof (kfree_live (kmalloc h (count + 1)).2) as Hfree.
  destruct (kmalloc h (count + 1)) as [p h1]. simpl in *.
  unfold alloc_spec in Hk. simpl in Hk.
  destruct Hk as [[-> Hl]|(Hp & Hfr & Hl)]; [by eexists _, _, _|].
  rewrite (proj2 (Z.eqb_neq p NULL)) by done.
  assert (live (kfree h1 p) = live h) as Hlive.
  { rewrite Hfree, Hl by (rewrite Hl; by apply elem_of_union_l, elem_of_singleton).
    apply difference_union_singleton_fresh, Hfr. }
  pose proof (copy_from_user_length u buffer count ltac:(lia)) as Hcl.
  pose proof (copy_from_user_ok u buffer count ltac:(lia)) as Hcp.
  destruct (copy_from_user u buffer count) as [lo bs]. simpl in *.
  assert (bs ≠ []) as Hne by (intros ->; unfold blen in Hcl; simpl in Hcl; lia).
  destruct (strip_newline block bs) as (b1 & b2 & c & b3 & E1 & E2 & E3 & E4 & Hn & Hw); [lia|done|].
  rewrite Hcl in *. rewrite E1. cbn [mbind option_bind].
  destruct (Z.eqb_spec lo 0) as [->|]; simpl; [|by eexists _, _, _].
  rewrite E2. cbn [mbind option_bind]. rewrite E3. cbn [mbind option_bind].
  rewrite E4. cbn [mbind option_bind].
  destruct (add_log_entry_spec t b3 l Hok Hn) as (l' & -> & Hok' & Hid & Hc'). simpl.
  eexists _, _, _. split_and!; [done|done|done|done|done|]. rewrite Hc', Hw, <-Hcp by done.
  do 4 f_equal. apply take_ge. unfold written.
  assert (∀ b, (length b <= 63)%nat → (length (c_str b) <= 63)%nat) as Hs.
  { intros b. pose proof (c_str_le b). unfold blen in *. lia. }
  unfold blen in Hcl. destruct (bool_decide (last bs = Some 10)) eqn:Hlast; apply Hs; [|lia].
  apply bool_decide_eq_true, last_Some in Hlast as [bs' ->]. rewrite removelast_last. rewrite length_app in Hcl.
  simpl in Hcl. lia.
Qed.

(** An empty write reads the byte before its buffer.  When the buffer is
    allocated, a write of length 0, whose copy cannot fail, looks for a final
    newline at index -1: the access is outside the block. *)
Theorem log_proc_write_empty block t (u : U) buffer l (h : H) :
  blen block = 1 → (kmalloc h 1).1 ≠ NULL → (copy_from_user u buffer 0).1 = 0 →
  log_proc_write block t u buffer 0 l h = None.
Proof.
  intros Hb Hk Hc. unfold log_proc_write. change (63 <? 0) with false. cbv iota.
  change (0 + 1) with 1. destruct (kmalloc h 1) as [p h1]. simpl in Hk.
  rewrite (proj2 (Z.eqb_neq p NULL)) by done.
  destruct (copy_from_user u buffer 0) as [lo bs]. simpl in Hc. subst lo.
  destruct (bwrite block 0 bs) as [b1|]; [|done]. simpl.
  by destruct (bwrite b1 0 [0]).
Qed.
End proc.

(** ** Concurrent writers *)

(** Two writers can write past the array.  Nothing serialises writers: with
    99 entries in the log both can find room for one more; the first takes the
    last element and the second stores to log_buffer[100].  One after the other
    the same two writes are handled. *)
Theorem add_log_entry_race t1 m1 t2 m2 l :
  log_ok l → log_count l = 99 → 0 ∈ m1 → 0 ∈ m2 →
  rtc wstep ([Testing t1 m1; Testing t2 m2], Some l) ([Done; Done], None) ∧
  ∃ l', add_all [(t1, m1); (t2, m2)] l = Some l' ∧ log_ok l'.
Proof.
  intros Hok Hn H1 H2. split.
  - assert ((log_count l <? MAX_LOG_ENTRIES) = true) as Ht by (by rewrite Hn).
    destruct (store_entry_spec 99 t1 m1 l Hok) as (e & He & _); [lia|done|].
    assert (append_entry t1 m1 l = Some (Log (<[99%nat := e]> (log_buffer l)) 100 (s32 (next_id l + 1)))) as E1.
    { unfold append_entry. rewrite Hn, He. simpl. by rewrite Hn. }
    assert (append_entry t2 m2 (Log (<[99%nat := e]> (log_buffer l)) 100 (s32 (next_id l + 1))) = None) as E2.
    { unfold append_entry, store_entry. simpl.
      rewrite (proj2 (lookup_ge_None _ _)); [done|]. rewrite length_insert, (ok_length l Hok). lia. }
    eapply rtc_l; [apply (wstep_test _ 0); reflexivity|]. rewrite Ht. cbn [insert list_insert].
    eapply rtc_l; [apply (wstep_test _ 1); reflexivity|]. rewrite Ht. cbn [insert list_insert].
    eapply rtc_l; [apply (wstep_append _ 0); reflexivity|]. rewrite E1. cbn [insert list_insert].
    eapply rtc_l; [apply (wstep_append _ 1); reflexivity|]. rewrite E2. apply rtc_refl.
  - destruct (add_all_spec [(t1, m1); (t2, m2)] l Hok) as (l' & He & Hok' & _); [|eauto].
    repeat constructor; done.
Qed.

(** ** Witnesses *)

Definition wlog : log := default init_log (add_all (repeat (5, lit "x") 99) init_log).
Lemma repeat_x_ok n : Forall (λ m : Z * bytes, 0 ∈ m.2) (repeat (5, lit "x") n).
Proof. induction n; constructor; [by apply (bool_decide_eq_true_1 _)|done]. Qed.
Lemma wlog_ok : log_ok wlog.
Proof.
  unfold wlog. destruct (add_all_spec (repeat (5, lit "x") 99) init_log init_log_ok)
    as (l' & -> & Hok & _); [apply repeat_x_ok|done].
Qed.

Lemma log_keeps_last_witness :
  ∃ l', add_all (repeat (5, lit "x") 101) init_log = Some l' ∧ next_id l' = 102 ∧
    head (contents l') = Some (5, 2, chars "x").
Proof.
  destruct (log_keeps_last (repeat (5, lit "x") 101) init_log init_log_ok)
    as (l' & Ha & _ & Hid & Hc); [apply repeat_x_ok|].
  exists l'. split; [exact Ha|]. split; [exact Hid|]. rewrite Hc. vm_compute. reflexivity.
Defined.

Lemma seq_traverse_correct_witness :
  ∃ out, seq_traverse 101 wlog 98 = Some (out, 99) ∧
    out = [chars "[5] Entry #99: x" ++ [10]].
Proof.
  pose proof (seq_traverse_correct 101 wlog 98 wlog_ok) as Ht.
  eexists. split; [rewrite Ht; [|lia|lia]|]; vm_compute; reflexivity.
Defined.

Lemma log_proc_write_correct_witness :
  ∃ l' h', log_proc_write (bfill 0xCC 4) 9 (FlatUser 1000 (chars "hi" ++ [10])) 1000 3 init_log
      (Bump ∅ 1 1) = Some (3, l', h') ∧ contents l' = [(9, 1, chars "hi")] ∧ live h' = ∅.
Proof.
  destruct (log_proc_write_correct (bfill 0xCC 4) 9 (FlatUser 1000 (chars "hi" ++ [10])) 1000 3
    init_log (Bump ∅ 1 1) init_log_ok) as (r & l' & h' & Hw & Hl & _ & Hr); [lia|reflexivity|].
  cbn -[written uload contents keep] in Hr. destruct Hr as (-> & _ & Hc).
  exists l', h'. split; [exact Hw|]. split; [rewrite Hc; vm_compute; reflexivity|exact Hl].
Defined.

Lemma log_proc_write_empty_witness :
  log_proc_write (bfill 0xCC 1) 9 (FlatUser 1000 []) 1000 0 init_log (Bump ∅ 1 1) = None.
Proof.
  apply (log_proc_write_empty (bfill 0xCC 1) 9 (FlatUser 1000 []) 1000 init_log (Bump ∅ 1 1));
    vm_compute; [reflexivity|discriminate|reflexivity].
Defined.

Lemma add_log_entry_race_witness :
  rtc wstep ([Testing 1 (lit "a"); Testing 2 (lit "b")], Some wlog) ([Done; Done], None).
Proof.
  apply (add_log_entry_race 1 (lit "a") 2 (lit "b") wlog wlog_ok); [vm_compute; reflexivity|..];
    by apply (bool_decide_eq_true_1 _).
Defined.

(** Loading: the five entries are the whole log, and the file is registered unless
    the load fails; unloading removes it. *)
Theorem pos_demo_init_exit ts (e : env call) p0 :
  let '(ret, w) := pos_demo_init ts e (KWorld (init_log, p0) []) in
  let '(_, w') := pos_demo_exit e w in
  let '(t1, t2, t3, t4, t5) := ts in
  log_ok (kst w).1 ∧
  contents (kst w).1 = [(t1, 1, chars "System started"); (t2, 2, chars "Module loading");
                        (t3, 3, chars "Initialization complete"); (t4, 4, chars "Ready for operations");
                        (t5, 5, chars "First user access")] ∧
  ((ret = Some (- ENOMEM) ∧ entries (ktr w) = []) ∨
   (ret = Some 0 ∧ length (entries (ktr w)) = 1%nat ∧ entries (ktr w') = [])).
Proof.
  destruct ts as [[[[t1 t2] t3] t4] t5].
  destruct (add_all_spec [(t1, lit "System started"); (t2, lit "Module loading");
    (t3, lit "Initialization complete"); (t4, lit "Ready for operations");
    (t5, lit "First user access")] init_log init_log_ok) as (l' & Ha & Hok & _ & Hc).
  { repeat constructor; by apply (bool_decide_eq_true_1 _). }
  assert (first_entries (t1, t2, t3, t4, t5) init_log = Some l') as El.
  { unfold first_entries. simpl in Ha.
    repeat match goal with
    | |- context [add_log_entry ?t ?m ?l] => destruct (add_log_entry t m l); [simpl in *|done]
    end. by simplify_eq. }
  unfold pos_demo_init. kstep. cbn [fst]. rewrite El. repeat kstep; unfold pos_demo_exit; repeat kstep; cbn [kst fst snd].
  all: split; [done|]; split; [by rewrite Hc|].
  all: first [ left; split; [done|]; by entries_solve | right; split_and!; by entries_solve ].
Qed.
