(* ===== verification/DeadlockDemo.v ===== *)
(** * The deadlock prevention demo (examples/class_3/09_deadlock_prevention/deadlock_demo.c)

    Readers take two mutexes with trylock and retry at most ten times.  A reader
    is a program of mutex actions; the pool of readers runs them interleaved. *)
From S2P Require Import Prelude Bytes Kernel ProcFs Threads.

Definition MAX_RETRIES : nat := 10.

(** ** The mutexes (mutex_trylock and mutex_unlock of include/linux/mutex.h) *)

Inductive lock := resource_a | resource_b.
Inductive act := Trylock (m : lock) | Unlock (m : lock) | Msleep.

(** Which program holds each mutex. *)
Record locks := Locks { owner_a : option nat; owner_b : option nat }.
Definition owner (m : lock) (s : locks) : option nat :=
  match m with resource_a => owner_a s | resource_b => owner_b s end.
Definition set_owner (m : lock) (o : option nat) (s : locks) : locks :=
  match m with resource_a => Locks o (owner_b s) | resource_b => Locks (owner_a s) o end.

(** mutex_trylock never waits: 1 if it took the mutex, 0 if someone holds it; a
    mutex is released only by its owner. *)
Inductive act_step (i : nat) : act → locks → locks → Z → Prop :=
| step_trylock m s : owner m s = None → act_step i (Trylock m) s (set_owner m (Some i) s) 1
| step_trylock_busy m s j : owner m s = Some j → act_step i (Trylock m) s s 0
| step_unlock m s : owner m s = Some i → act_step i (Unlock m) s (set_owner m None s) 0
| step_msleep s : act_step i Msleep s s 0.

(** ** The reader *)

(** safe_acquire_both_locks, followed by [k] with its result; [n] is
    MAX_RETRIES - retries. *)
Fixpoint safe_acquire_both_locks (n : nat) (k : Z → prog act) : prog act :=
  match n with
  | O => k (- EBUSY)
  | S n' =>
      let again := Do Msleep (λ _, safe_acquire_both_locks n' k) in
      Do (Trylock resource_a) (λ a,
        if negb (a =? 0) then
          Do (Trylock resource_b) (λ b,
            if negb (b =? 0) then k 0
            else Do (Unlock resource_a) (λ _, again))
        else again)
  end.

Definition release_both_locks (k : prog act) : prog act :=
  Do (Unlock resource_b) (λ _, Do (Unlock resource_a) (λ _, k)).

(** Lines 58-66, with both mutexes held. *)
Definition critical_section : prog act := Do Msleep (λ _, release_both_locks (Ret 1)).

(** Lines 50-72: 1 when both locks were acquired. *)
Definition deadlock_demo_locks : prog act :=
  safe_acquire_both_locks MAX_RETRIES (λ r, if r =? 0 then critical_section else Ret 0).

Section reply.
Context {U : Type} `{UserAccess U}.

Definition reply_text (acquired pid : Z) : bytes :=
  if negb (acquired =? 0) then
    chars "Successfully acquired both resources (PID: " ++ dec pid ++ chars ")" ++ [10]
  else chars "Failed to acquire resources - try again later" ++ [10].

(** deadlock_demo_read, [acquired] being the outcome of [deadlock_demo_locks]:
    its result, the new position and user memory.  [stack] is the uninitialised
    128-byte array. *)
Definition deadlock_demo_read (stack : bytes) (acquired pid : Z) (u : U) (buffer count pos : Z)
    : option (Z * Z * U) :=
  if 0 <? pos then Some (0, pos, u)
  else proc_reply stack (reply_text acquired pid) u buffer pos.
End reply.

(** ** Registration, over the static pointer proc_entry; mode 292 is 0444 *)
Module Reg.
#[local] Open Scope kernel_scope.

Definition deadlock_init : K call Z Z :=
  p <-k kcall (ProcCreate 292 NULL); kmod (λ _, p) ;;k
  if p =? NULL then kret (- ENOMEM) else kret 0.
Definition deadlock_exit : K call Z unit := p <-k kget id; kcall (ProcRemove p) ;;k kret tt.

Lemma deadlock_init_exit (e : env call) (s : Z) :
  let '(ret, w) := deadlock_init e (KWorld s []) in
  let '(_, w') := deadlock_exit e w in
  (ret = - ENOMEM ∧ entries (ktr w) = []) ∨
  (ret = 0 ∧ length (entries (ktr w)) = 1%nat ∧ entries (ktr w') = []).
Proof.
  unfold deadlock_init. repeat kstep; unfold deadlock_exit; repeat kstep; cbn [id].
  all: first [ left; split; [done|]; by entries_solve | right; split_and!; by entries_solve ].
Qed.
End Reg.

(** ** The lock discipline

    [typed ha hb p]: a program that holds resource_a iff [ha] and resource_b iff
    [hb] can run [p]: it takes each mutex only when it does not hold it, releases
    only what it holds, and ends holding nothing. *)
Inductive typed : bool → bool → prog act → Prop :=
| ty_ret r : typed false false (Ret r)
| ty_sleep ha hb k : (∀ v, typed ha hb (k v)) → typed ha hb (Do Msleep k)
| ty_try_a k : (∀ v, typed (negb (v =? 0)) false (k v)) → typed false false (Do (Trylock resource_a) k)
| ty_try_b k : (∀ v, typed true (negb (v =? 0)) (k v)) → typed true false (Do (Trylock resource_b) k)
| ty_unlock_b k : (∀ v, typed true false (k v)) → typed true true (Do (Unlock resource_b) k)
| ty_unlock_a k : (∀ v, typed false false (k v)) → typed true false (Do (Unlock resource_a) k).

Lemma typed_critical : typed true true critical_section.
Proof. repeat constructor. Qed.

Lemma typed_acquire n k :
  typed true true (k 0) → typed false false (k (- EBUSY)) →
  typed false false (safe_acquire_both_locks n k).
Proof.
  intros H1 H2. induction n as [|n IH]; simpl; [done|].
  constructor. intros a. destruct (a =? 0); simpl; [by constructor|].
  constructor. intros b. destruct (b =? 0); simpl; [|done].
  constructor. intros _. by constructor.
Qed.

Lemma typed_lock_reader : typed false false deadlock_demo_locks.
Proof. apply typed_acquire; [apply typed_critical|constructor]. Qed.

Lemma bounded_acquire n m k :
  (∀ v, bounded m (k v)) → bounded (4 * n + m) (safe_acquire_both_locks n k).
Proof.
  intros Hk. induction n as [|n IH]; [apply Hk|].
  replace (4 * S n + m)%nat with (S (S (S (S (4 * n + m))))) by lia. simpl.
  constructor. intros a. destruct (a =? 0); simpl.
  - constructor. intros _. apply (bounded_le _ _ _ IH). lia.
  - constructor. intros b. destruct (b =? 0); simpl; [by do 2 (constructor; intros _)|].
    apply (bounded_le _ _ _ (Hk 0)). lia.
Qed.

Lemma bounded_lock_reader : bounded 43 deadlock_demo_locks.
Proof.
  apply (bounded_acquire MAX_RETRIES 3). intros v. destruct (v =? 0); [|constructor].
  do 3 (constructor; intros _). constructor.
Qed.

(** ** The pool *)

(** What holds of a pool in every state it reaches: every program runs within the
    discipline, and the owners are those the discipline says. *)
Definition locks_inv (c : list (prog act) * locks) : Prop :=
  ∃ hs : list (bool * bool), Forall2 (λ h p, typed h.1 h.2 p) hs c.1 ∧
    (∀ i, owner_a c.2 = Some i ↔ ∃ h, hs !! i = Some h ∧ h.1 = true) ∧
    (∀ i, owner_b c.2 = Some i ↔ ∃ h, hs !! i = Some h ∧ h.2 = true).

Lemma owned_insert (f : bool * bool → bool) (hs : list (bool * bool)) (i : nat) h h' (o o' : option nat) :
  hs !! i = Some h → (∀ j, o = Some j ↔ ∃ x, hs !! j = Some x ∧ f x = true) →
  (f h' = f h ∧ o' = o ∨ f h' = true ∧ o = None ∧ o' = Some i ∨
   f h' = false ∧ o = Some i ∧ o' = None) →
  ∀ j, o' = Some j ↔ ∃ x, <[i := h']> hs !! j = Some x ∧ f x = true.
Proof.
  intros Hi Ho Hc j. pose proof (lookup_lt_Some _ _ _ Hi) as Hl.
  destruct (decide (i = j)) as [<-|Hne].
  - rewrite list_lookup_insert_eq by done.
    assert (o = Some i ↔ f h = true) as Hf.
    { rewrite Ho. split; [|by eauto]. intros (x & Hx & Hfx). congruence. }
    assert ((∃ x, Some h' = Some x ∧ f x = true) ↔ f h' = true) as ->.
    { split; [|by eauto]. intros (x & Hx & Hfx). congruence. }
    destruct Hc as [[-> ->]|[(-> & -> & ->)|(-> & -> & ->)]]; done.
  - rewrite list_lookup_insert_ne by done.
    specialize (Ho j). destruct Hc as [[_ ->]|[(_ & -> & ->)|(_ & -> & ->)]]; [done|..];
      (split; [by intros [= ?]|]); intros Hx; apply Ho in Hx; congruence.
Qed.

Lemma locks_inv_step c c' : locks_inv c → tstep act_step c c' → locks_inv c'.
Proof.
  intros (hs & HF & Ha & Hb) Hst. inversion Hst as [ps i a k s s' v Hi Hact]; subst. simpl in *.
  destruct (Forall2_lookup_r _ _ _ _ _ HF Hi) as ([ha hb] & Hh & Hty). simpl in Hty.
  assert (∀ h', typed h'.1 h'.2 (k v) →
    (h'.1 = ha ∧ owner_a s' = owner_a s ∨ h'.1 = true ∧ owner_a s = None ∧ owner_a s' = Some i ∨
     h'.1 = false ∧ owner_a s = Some i ∧ owner_a s' = None) →
    (h'.2 = hb ∧ owner_b s' = owner_b s ∨ h'.2 = true ∧ owner_b s = None ∧ owner_b s' = Some i ∨
     h'.2 = false ∧ owner_b s = Some i ∧ owner_b s' = None) →
    locks_inv (<[i := k v]> ps, s')) as Hdone.
  { intros h' Ht Hca Hcb. exists (<[i := h']> hs). simpl. split_and!.
    - by apply Forall2_insert.
    - by eapply (owned_insert fst).
    - by eapply (owned_insert snd). }
  destruct s as [oa ob].
  inversion Hty; subst; inversion Hact; subst; simpl in *.
  all: eapply (Hdone (_, _)); [match goal with H : ∀ v, typed _ _ _ |- _ => exact (H _) end|..];
    simpl; auto 10.
Qed.

Lemma locks_inv_run c c' : locks_inv c → rtc (tstep act_step) c c' → locks_inv c'.
Proof. intros Hi Hr. induction Hr; eauto using locks_inv_step. Qed.

Definition free : locks := Locks None None.

Lemma locks_inv_init n : locks_inv (replicate n deadlock_demo_locks, free).
Proof.
  exists (replicate n (false, false)). simpl. split_and!.
  - apply Forall2_replicate. apply typed_lock_reader.
  - intros i. split; [done|]. intros (h & [-> _]%lookup_replicate & Hh). done.
  - intros i. split; [done|]. intros (h & [-> _]%lookup_replicate & Hh). done.
Qed.

(** Every action of a disciplined program is enabled. *)
Lemma enabled c i a k : locks_inv c → c.1 !! i = Some (Do a k) → ∃ s' v, act_step i a c.2 s' v.
Proof.
  intros (hs & HF & Ha & Hb) Hi.
  destruct (Forall2_lookup_r _ _ _ _ _ HF Hi) as ([ha hb] & Hh & Hty). simpl in Hty.
  destruct a as [m|m|].
  - destruct (owner m c.2) as [j|] eqn:E; eauto using step_trylock, step_trylock_busy.
  - exists (set_owner m None c.2), 0. apply step_unlock.
    inversion Hty; subst; simpl; [apply Hb|apply Ha]; eauto.
  - eauto using step_msleep.
Qed.

(** C2: the readers cannot deadlock.  For any number of concurrent readers and
    any schedule: a run has at most 43 steps per reader, so none goes on for ever;
    as long as a reader has not returned, some reader can make a step; a reader in
    its critical section holds both mutexes, so no two are in it; and when all
    have returned both mutexes are free, whichever of them gave up. *)
Theorem readers_deadlock_free n steps ps s :
  nsteps (tstep act_step) steps (replicate n deadlock_demo_locks, free) (ps, s) →
  (steps <= 43 * n)%nat ∧
  (¬ finished ps → ∃ c', tstep act_step (ps, s) c') ∧
  (∀ i j, ps !! i = Some critical_section → ps !! j = Some critical_section → i = j) ∧
  (finished ps → s = free).
Proof.
  intros Hn. assert (locks_inv (ps, s)) as Hinv.
  { eapply locks_inv_run; [apply locks_inv_init|]. eapply rtc_nsteps; by eexists. }
  split_and!.
  - eapply (nsteps_bounded _ _ (replicate n 43%nat)) in Hn.
    + assert (sum_list (replicate n 43%nat) = 43 * n)%nat as Hs; [|lia].
      clear. induction n as [|n IH]; simpl; lia.
    + apply Forall2_replicate, bounded_lock_reader.
  - intros Hf. destruct (not_finished ps Hf) as (i & a & k & Hi).
    destruct (enabled (ps, s) i a k Hinv Hi) as (s' & v & Hact). eexists. by econstructor.
  - destruct Hinv as (hs & HF & Ha & Hb). simpl in *.
    assert (∀ i, ps !! i = Some critical_section → owner_b s = Some i) as Hown.
    { intros i Hi. destruct (Forall2_lookup_r _ _ _ _ _ HF Hi) as ([ha hb] & Hh & Hty).
      apply Hb. exists (ha, hb). split; [done|]. simpl in *. inversion Hty as [|? ? k Hk| | | |]; subst.
      specialize (Hk 0). unfold release_both_locks in Hk. by inversion Hk. }
    intros i j Hi%Hown Hj%Hown. congruence.
  - intros Hf. destruct Hinv as (hs & HF & Ha & Hb). simpl in *.
    assert (∀ i h, hs !! i = Some h → h = (false, false)) as Hall.
    { intros i [ha hb] Hi. destruct (Forall2_lookup_l _ _ _ _ _ HF Hi) as (p & Hp & Hty).
      destruct (proj1 (Forall_lookup _ _) Hf i p Hp) as [r ->]. simpl in Hty. by inversion Hty. }
    destruct s as [[i|] [j|]]; simpl in *; [..|done].
    all: try (destruct (proj1 (Ha i) eq_refl) as (h & Hh%Hall & Ht); by subst).
    destruct (proj1 (Hb j) eq_refl) as (h & Hh%Hall & Ht). by subst.
Qed.

(** ** The reply *)

(** The reply does not depend on how many bytes the reader asked for: the whole
    text is copied to its buffer. *)
Lemma deadlock_demo_read_ignores_count {U} `{UserAccess U} stack acquired pid (u : U) buffer count count' pos :
  deadlock_demo_read stack acquired pid u buffer count pos =
  deadlock_demo_read stack acquired pid u buffer count' pos.
Proof. reflexivity. Qed.

(** A reader that asks for one byte gets 46, over whatever follows its buffer. *)
Lemma deadlock_demo_read_overruns :
  ∃ u, deadlock_demo_read (bfill 0xCC 128) 0 1 (FlatUser 1000 (bfill 7 64)) 1000 1 0 = Some (46, 46, u) ∧
    uload u 1000 46 = chars "Failed to acquire resources - try again later" ++ [10].
Proof. eexists. split; [vm_compute; reflexivity|vm_compute; reflexivity]. Qed.

Lemma readers_deadlock_free_witness :
  ∃ ps s, nsteps (tstep act_step) 3 (replicate 2 deadlock_demo_locks, free) (ps, s) ∧
    ¬ finished ps ∧ ∃ c', tstep act_step (ps, s) c'.
Proof.
  assert (∃ ps s, nsteps (tstep act_step) 3 (replicate 2 deadlock_demo_locks, free) (ps, s) ∧
    ¬ finished ps) as (ps & s & Hn & Hf).
  { do 2 eexists. split.
    - eapply nsteps_l; [eapply (tstep_do _ _ 0); [reflexivity|by apply step_trylock]|].
      eapply nsteps_l; [eapply (tstep_do _ _ 1); [reflexivity|by eapply step_trylock_busy]|].
      eapply nsteps_l; [eapply (tstep_do _ _ 0); [reflexivity|by apply step_trylock]|].
      apply nsteps_O.
    - intros Hf. apply Forall_cons in Hf as [[r Hr] _]. discriminate. }
  exists ps, s. split; [exact Hn|]. split; [exact Hf|].
  apply (readers_deadlock_free 2 3 ps s Hn). exact Hf.
Defined.
