(* ===== verification/MutexSem.v ===== *)
(** * The mutex and semaphore demo (examples/class_3/07_mutex_semaphore/mutex_sem_demo.c)

    A pool of three resources behind a counting semaphore, shared data behind a
    mutex, and a status file.  The readers of the semaphore file are programs of
    shared-memory actions run interleaved; the mutex file is modelled as one
    reader sees it, since its critical section runs under the mutex. *)
From S2P Require Import Prelude Bytes Kernel ProcFs Threads.

Definition MAX_RESOURCES : Z := 3.

(** ** The resource pool *)

(** resource_pool's count, active_users, resource_id_counter, and the replies
    printed so far: resource, users. *)
Record pool := Pool {
  permits : Z; active_users : Z; resource_id_counter : Z; replies : list (Z * Z)
}.
Definition init_pool : pool := Pool MAX_RESOURCES 0 1 [].

(** resource_id_counter++ is a load and a store. *)
Inductive act :=
| DownInterruptible | IncReturnActive | LoadId | StoreId (v : Z) | Msleep
| Reply (id users : Z) | DecActive | Up.

(** down_interruptible takes a permit when there is one and waits otherwise; when
    signals are possible ([signals]) it may return an error instead. *)
Inductive act_step (signals : bool) (i : nat) : act → pool → pool → Z → Prop :=
| step_down s : 0 < permits s →
    act_step signals i DownInterruptible s
      (Pool (permits s - 1) (active_users s) (resource_id_counter s) (replies s)) 0
| step_interrupted s : signals = true → act_step signals i DownInterruptible s s (-4)
| step_inc s :
    act_step signals i IncReturnActive s
      (Pool (permits s) (s32 (active_users s + 1)) (resource_id_counter s) (replies s))
      (s32 (active_users s + 1))
| step_load s : act_step signals i LoadId s s (resource_id_counter s)
| step_store v s :
    act_step signals i (StoreId v) s (Pool (permits s) (active_users s) v (replies s)) 0
| step_msleep s : act_step signals i Msleep s s 0
| step_reply id users s :
    act_step signals i (Reply id users) s
      (Pool (permits s) (active_users s) (resource_id_counter s) (replies s ++ [(id, users)])) 0
| step_dec s :
    act_step signals i DecActive s
      (Pool (permits s) (s32 (active_users s - 1)) (resource_id_counter s) (replies s)) 0
| step_up s :
    act_step signals i Up s
      (Pool (permits s + 1) (active_users s) (resource_id_counter s) (replies s)) 0.

(** semaphore_demo_read, lines 88-113; [Reply] is the snprintf of lines 103-109.
    The result is 0, or -ERESTARTSYS. *)
Definition semaphore_demo_locks : prog act :=
  Do DownInterruptible (λ r,
  if negb (r =? 0) then Ret (- ERESTARTSYS)
  else
    Do IncReturnActive (λ user_count,
    Do LoadId (λ my_resource_id,
    Do (StoreId (s32 (my_resource_id + 1))) (λ _,
    Do Msleep (λ _,
    Do (Reply my_resource_id user_count) (λ _,
    Do DecActive (λ _,
    Do Up (λ _, Ret 0)))))))).

(** ** The files *)

(** The text of a line with a newline. *)
Definition line (s : string) : bytes := chars s ++ [10].

Definition semaphore_text (id pid users : Z) : bytes :=
  line "=== Semaphore Demo ===" ++
  chars "Resource ID: " ++ dec id ++ [10] ++
  chars "Used by PID: " ++ dec pid ++ [10] ++
  chars "Active users: " ++ dec users ++ chars "/" ++ dec MAX_RESOURCES ++ [10] ++
  line "Semaphore controls resource pool access".

Definition mutex_text (local_data : Z) (local_msg : bytes) (pid : Z) : bytes :=
  line "=== Mutex Demo ===" ++
  chars "Shared data: " ++ dec local_data ++ [10] ++
  chars "Message: " ++ local_msg ++ [10] ++
  chars "PID: " ++ dec pid ++ [10] ++
  line "Mutex allows sleeping in critical section".

Definition status_text (shared_data : Z) (shared_message : bytes) (active_users counter : Z) : bytes :=
  line "=== Mutex & Semaphore Status ===" ++
  chars "Shared data: " ++ dec shared_data ++ [10] ++
  chars "Shared message: " ++ shared_message ++ [10] ++
  chars "Active resource users: " ++ dec active_users ++ chars "/" ++ dec MAX_RESOURCES ++ [10] ++
  chars "Resource counter: " ++ dec (s32 (counter - 1)) ++ [10] ++
  [10] ++ line "Usage:" ++
  line "cat /proc/sync_demo/mutex    - Test mutex" ++
  line "cat /proc/sync_demo/semaphore - Test semaphore".

Section files.
Context {M U : Type} `{Mutex M, UserAccess U}.

(** shared_data and shared_message. *)
Record shared := Shared { shared_data : Z; shared_message : bytes }.
Definition init_shared : shared :=
  Shared 0 (chars "Initial state" ++ bfill 0 (64 - 13)).

(** mutex_demo_read: its result, the new position, the user memory, the shared
    data and the mutex.  [output] is the uninitialised 256-byte stack array; the
    64 bytes of local_msg are all overwritten. *)
Definition mutex_demo_read (pid : Z) (output : bytes) (u : U) (buffer count pos : Z)
    (d : shared) (m : M) : option (Z * Z * U * shared * M) :=
  if 0 <? pos then Some (0, pos, u, d, m)
  else
    let '(intr, m) := mutex_lock_interruptible m in
    if negb (intr =? 0) then Some (- ERESTARTSYS, pos, u, d, m)
    else
      let data := s32 (shared_data d + Z.rem pid 100) in
      '(_, message) ← snprintf (shared_message d) 0 64 (chars "Updated by PID " ++ dec pid);
      let d := Shared data message in
      local_msg ← strncpy_bytes message 64;
      let m := mutex_unlock m in
      _ ← strlen local_msg;
      '(r, pos, u) ← proc_reply output (mutex_text data (c_str local_msg) pid) u buffer pos;
      Some (r, pos, u, d, m).

(** semaphore_demo_read, the reply: lines 103-121. *)
Definition semaphore_demo_reply (pid id users : Z) (output : bytes) (u : U) (buffer count pos : Z)
    : option (Z * Z * U) :=
  if 0 <? pos then Some (0, pos, u)
  else proc_reply output (semaphore_text id pid users) u buffer pos.

(** status_read. *)
Definition status_read (output : bytes) (u : U) (buffer count pos : Z) (d : shared) (p : pool)
    : option (Z * Z * U) :=
  if 0 <? pos then Some (0, pos, u)
  else
    _ ← strlen (shared_message d);
    proc_reply output
      (status_text (shared_data d) (c_str (shared_message d)) (active_users p) (resource_id_counter p))
      u buffer pos.
End files.

(** ** Registration *)
Module Reg.
#[local] Open Scope kernel_scope.

(** The static pointers. *)
Record statics := Statics { proc_dir : Z; proc_mutex : Z; proc_semaphore : Z; proc_status : Z }.
Definition set_dir p s := Statics p (proc_mutex s) (proc_semaphore s) (proc_status s).
Definition set_mutex p s := Statics (proc_dir s) p (proc_semaphore s) (proc_status s).
Definition set_semaphore p s := Statics (proc_dir s) (proc_mutex s) p (proc_status s).
Definition set_status p s := Statics (proc_dir s) (proc_mutex s) (proc_semaphore s) p.

(** Mode 292 is 0444. *)
Definition mutex_sem_init : K call statics Z :=
  kcall (SemaInit MAX_RESOURCES) ;;k
  d <-k kcall ProcMkdir; kmod (set_dir d) ;;k
  if d =? NULL then kret (- ENOMEM) else
  m <-k kcall (ProcCreate 292 d); kmod (set_mutex m) ;;k
  s <-k kcall (ProcCreate 292 d); kmod (set_semaphore s) ;;k
  t <-k kcall (ProcCreate 292 d); kmod (set_status t) ;;k
  if (m =? NULL) || (s =? NULL) || (t =? NULL) then
    kcall (ProcRemove d) ;;k kret (- ENOMEM)
  else kret 0.

Definition mutex_sem_exit : K call statics unit :=
  d <-k kget proc_dir; kcall (ProcRemove d) ;;k kret tt.

(** Whatever the kernel answers, a failing init leaves no entry behind, a
    successful one leaves the directory and three files, and exit removes them. *)
Theorem mutex_sem_init_exit (e : env call) (s : statics) :
  let '(ret, w) := mutex_sem_init e (KWorld s []) in
  let '(_, w') := mutex_sem_exit e w in
  (ret = - ENOMEM ∧ entries (ktr w) = []) ∨
  (ret = 0 ∧ length (entries (ktr w)) = 4%nat ∧ entries (ktr w') = []).
Proof.
  unfold mutex_sem_init. destruct s.
  all: repeat kstep; unfold mutex_sem_exit; repeat kstep;
    cbn [proc_dir set_dir set_mutex set_semaphore set_status] in *.
  all: first [ left; split; [done|]; by entries_solve | right; split_and!; by entries_solve ].
Qed.
End Reg.

(** ** What the pool guarantees

    A reader is outside, has a permit, or has a permit and is counted. *)
Inductive phase := Outside | Permitted | Counted.
#[export] Instance phase_eq : EqDecision phase.
Proof. solve_decision. Defined.
Definition permit_of (ph : phase) : nat := match ph with Outside => 0 | _ => 1 end.
Definition counted_of (ph : phase) : nat := match ph with Counted => 1 | _ => 0 end.

(** [typed ph p]: a reader in phase [ph] can run [p]: it is counted only with a
    permit, gives back what it took, and reports between 1 and 3 users. *)
Inductive typed : phase → prog act → Prop :=
| ty_ret r : typed Outside (Ret r)
| ty_down k : (∀ v, typed (if v =? 0 then Permitted else Outside) (k v)) → typed Outside (Do DownInterruptible k)
| ty_inc k : (∀ v, 1 <= v <= MAX_RESOURCES → typed Counted (k v)) → typed Permitted (Do IncReturnActive k)
| ty_load ph k : (∀ v, typed ph (k v)) → typed ph (Do LoadId k)
| ty_store ph x k : (∀ v, typed ph (k v)) → typed ph (Do (StoreId x) k)
| ty_msleep ph k : (∀ v, typed ph (k v)) → typed ph (Do Msleep k)
| ty_reply ph id users k :
    1 <= users <= MAX_RESOURCES → (∀ v, typed ph (k v)) → typed ph (Do (Reply id users) k)
| ty_dec k : (∀ v, typed Permitted (k v)) → typed Counted (Do DecActive k)
| ty_up k : (∀ v, typed Outside (k v)) → typed Permitted (Do Up k).

Lemma typed_sem_reader : typed Outside semaphore_demo_locks.
Proof.
  constructor. intros v. destruct (v =? 0); simpl; [|constructor].
  constructor. intros users Hu. do 3 (constructor; intros _ || intros ?).
  constructor; [done|intros _]. do 2 (constructor; intros _). constructor.
Qed.

Lemma bounded_sem_reader : bounded 8 semaphore_demo_locks.
Proof. constructor. intros v. destruct (v =? 0); repeat (constructor; intros). Qed.

(** What holds of a pool of readers in every state it reaches. *)
Definition sem_inv (c : list (prog act) * pool) : Prop :=
  ∃ phs, Forall2 typed phs c.1 ∧
    permits c.2 + Z.of_nat (sum_list (permit_of <$> phs)) = MAX_RESOURCES ∧ 0 <= permits c.2 ∧
    active_users c.2 = Z.of_nat (sum_list (counted_of <$> phs)) ∧
    Forall (λ r, 1 <= r.2 <= MAX_RESOURCES) (replies c.2).

Lemma counted_le_permits phs :
  (sum_list (counted_of <$> phs) <= sum_list (permit_of <$> phs))%nat.
Proof. induction phs as [|[] phs IH]; csimpl; lia. Qed.

Lemma sem_inv_step signals c c' : sem_inv c → tstep (act_step signals) c c' → sem_inv c'.
Proof.
  intros (phs & HF & HP & H0 & HA & HR) Hst. inversion Hst as [ps i a k s s' v Hi Hact]; subst. simpl in *.
  destruct (Forall2_lookup_r _ _ _ _ _ HF Hi) as (ph & Hph & Hty).
  pose proof (counted_le_permits phs) as Hle.
  assert (∀ ph', typed ph' (k v) →
    permits s' = permits s + Z.of_nat (permit_of ph) - Z.of_nat (permit_of ph') → 0 <= permits s' →
    active_users s' = active_users s + Z.of_nat (counted_of ph') - Z.of_nat (counted_of ph) →
    Forall (λ r, 1 <= r.2 <= MAX_RESOURCES) (replies s') →
    sem_inv (<[i := k v]> ps, s')) as Hdone.
  { intros ph' Ht Hp Hp0 Ha Hr. exists (<[i := ph']> phs). simpl.
    pose proof (sum_fmap_insert permit_of phs i ph ph' Hph).
    pose proof (sum_fmap_insert counted_of phs i ph ph' Hph).
    split_and!; [by apply Forall2_insert|lia|done|lia|done]. }
  pose proof (sum_fmap_insert counted_of phs i ph Outside Hph) as Hc.
  pose proof (sum_fmap_insert permit_of phs i ph Outside Hph) as Hc'.
  pose proof (counted_le_permits (<[i := Outside]> phs)) as Hle'.
  unfold MAX_RESOURCES in *.
  inversion Hty; subst; inversion Hact; subst; simpl in *;
    rewrite ?s32_small in * by (unfold is_s32; lia);
    match goal with
    | H : ∀ v, 1 <= v <= _ → typed _ _ |- _ => eapply Hdone; [apply H|..]
    | H : ∀ v, typed _ _ |- _ => eapply Hdone; [apply H|..]
    end; simpl; unfold MAX_RESOURCES in *; try done; try lia.
  apply Forall_app. split; [done|]. by constructor.
Qed.

Lemma sem_inv_run signals c c' : sem_inv c → rtc (tstep (act_step signals)) c c' → sem_inv c'.
Proof. intros Hi Hr. induction Hr; eauto using sem_inv_step. Qed.

Lemma sem_inv_init n : sem_inv (replicate n semaphore_demo_locks, init_pool).
Proof.
  exists (replicate n Outside). simpl. split_and!; [apply Forall2_replicate, typed_sem_reader|..|constructor];
    induction n; csimpl in *; unfold MAX_RESOURCES in *; lia.
Qed.

(** A reader that is not waiting can go on; when all are waiting, there is a
    permit. *)
Lemma progress ps s : sem_inv (ps, s) → ¬ finished ps → ∃ c', tstep (act_step false) (ps, s) c'.
Proof.
  intros (phs & HF & HP & _) Hn. simpl in *.
  destruct (decide (Forall (λ ph, ph = Outside) phs)) as [Hall|Hsome].
  - destruct (not_finished ps Hn) as (i & a & k & Hi).
    destruct (Forall2_lookup_r _ _ _ _ _ HF Hi) as (ph & Hph & Hty).
    assert (sum_list (permit_of <$> phs) = 0)%nat as Hz.
    { clear -Hall. induction Hall as [|ph phs -> Hall IH]; csimpl; lia. }
    unfold MAX_RESOURCES in *.
    destruct a; eexists; (eapply (tstep_do _ _ i); [done|]); try by constructor.
    constructor. lia.
  - apply not_Forall_Exists, Exists_exists in Hsome as (ph & Hin & Hph); [|apply _]. simpl in Hph.
    apply list_elem_of_lookup_1 in Hin as [i Hi].
    destruct (Forall2_lookup_l _ _ _ _ _ HF Hi) as (p & Hp & Hty).
    destruct p as [r|a k]; [by inversion Hty; subst|].
    destruct a; [by inversion Hty; subst|..];
      eexists; (eapply (tstep_do _ _ i); [done|constructor]).
Qed.

(** C6: the pool is never overbooked and never stuck.  For any number of readers,
    any schedule, and with or without signals: a run has at most 8 steps per
    reader; at every moment at most three readers are counted as active and every
    reply reports between 1 and 3 users; as long as a reader has not returned some
    reader can go on, even when no signal comes; and when all have returned, all
    three permits are back and nobody is counted. *)
Theorem semaphore_pool_safe signals n steps ps s :
  nsteps (tstep (act_step signals)) steps (replicate n semaphore_demo_locks, init_pool) (ps, s) →
  (steps <= 8 * n)%nat ∧
  0 <= active_users s <= 3 ∧
  Forall (λ r, 1 <= r.2 <= 3) (replies s) ∧
  (¬ finished ps → ∃ c', tstep (act_step false) (ps, s) c') ∧
  (finished ps → permits s = 3 ∧ active_users s = 0).
Proof.
  intros Hn. assert (sem_inv (ps, s)) as Hinv.
  { eapply sem_inv_run; [apply sem_inv_init|]. eapply rtc_nsteps; by eexists. }
  split; [|split; [|split; [|split; [by apply progress|]]]].
  - eapply (nsteps_bounded _ _ (replicate n 8%nat)) in Hn.
    + assert (sum_list (replicate n 8%nat) = 8 * n)%nat as Hs; [|lia].
      clear. induction n as [|n IH]; simpl; lia.
    + apply Forall2_replicate, bounded_sem_reader.
  - destruct Hinv as (phs & _ & HP & H0 & HA & _). simpl in *.
    pose proof (counted_le_permits phs). unfold MAX_RESOURCES in *. lia.
  - by destruct Hinv as (phs & _ & _ & _ & _ & HR).
  - intros Hf. destruct Hinv as (phs & HF & HP & H0 & HA & _). simpl in *.
    assert (phs = replicate (length phs) Outside) as Hphs.
    { symmetry. apply replicate_as_elem_of. split; [done|]. intros ph Hin.
      apply list_elem_of_lookup_1 in Hin as [i Hi].
      destruct (Forall2_lookup_l _ _ _ _ _ HF Hi) as (p & Hp & Hty).
      destruct (proj1 (Forall_lookup _ _) Hf i p Hp) as [r ->]. by inversion Hty. }
    rewrite Hphs in HP, HA. clear -HP HA.
    assert (∀ k, sum_list (permit_of <$> replicate k Outside) = 0%nat ∧
                 sum_list (counted_of <$> replicate k Outside) = 0%nat) as Hk.
    { induction k; csimpl; lia. }
    destruct (Hk (length phs)) as [E1 E2]. rewrite E1 in HP. rewrite E2 in HA.
    unfold MAX_RESOURCES in *. lia.
Qed.

(** A counting semaphore does not protect the identifier counter.  Although
    the code calls it protected by the semaphore, two of the three readers it
    admits can load the counter before either stores it, and are told the same
    resource. *)
Theorem resource_id_race :
  ∃ ps s, rtc (tstep (act_step false)) (replicate 2 semaphore_demo_locks, init_pool) (ps, s) ∧
    replies s = [(1, 1); (1, 2)] ∧ resource_id_counter s = 2.
Proof.
  eexists _, _. split.
  - do 3 (eapply rtc_l; [eapply (tstep_do _ _ 0); [reflexivity|constructor; done]|]).
    do 3 (eapply rtc_l; [eapply (tstep_do _ _ 1); [reflexivity|constructor; done]|]).
    do 3 (eapply rtc_l; [eapply (tstep_do _ _ 0); [reflexivity|constructor; done]|]).
    do 3 (eapply rtc_l; [eapply (tstep_do _ _ 1); [reflexivity|constructor; done]|]).
    apply rtc_refl.
  - done.
Qed.

(** ** The replies fit their buffers *)

Lemma blen_line s : blen (line s) = Z.of_nat (String.length s) + 1.
Proof. unfold line. rewrite blen_app. unfold blen. rewrite chars_length. done. Qed.
Lemma blen_chars s : blen (chars s) = Z.of_nat (String.length s).
Proof. unfold blen. by rewrite chars_length. Qed.

(** Process identifiers are below PID_MAX_LIMIT. *)
Definition is_pid (pid : Z) : Prop := 0 <= pid < 4194304.
(** The shared message: 64 bytes with a text of at most 23 characters. *)
Definition message_ok (m : bytes) : Prop := blen m = 64 ∧ 0 ∈ m ∧ blen (c_str m) <= 23.

Lemma blen_s32 z : is_s32 z → blen (dec z) <= 11.
Proof. unfold is_s32. intros. pose proof (blen_dec 10 z). lia. Qed.
Lemma blen_pid z : is_pid z → blen (dec z) <= 8.
Proof. unfold is_pid. intros. pose proof (blen_dec 7 z). lia. Qed.

Ltac text_length :=
  rewrite ?blen_app, ?blen_line, ?blen_chars;
  repeat change (blen [10]) with 1; change (blen (dec MAX_RESOURCES)) with 1;
  cbn [String.length]; lia.

Lemma semaphore_text_fits id pid users :
  is_s32 id → is_pid pid → 0 <= users <= 3 → blen (semaphore_text id pid users) < 256.
Proof.
  intros H1%blen_s32 H2%blen_pid H3. pose proof (blen_dec 1 users). unfold semaphore_text. text_length.
Qed.

Lemma mutex_text_fits data msg pid :
  is_s32 data → blen msg <= 23 → is_pid pid → blen (mutex_text data msg pid) < 256.
Proof. intros H1%blen_s32 H2 H3%blen_pid. unfold mutex_text. text_length. Qed.

Lemma status_text_fits data msg users counter :
  is_s32 data → blen msg <= 23 → 0 <= users <= 3 → blen (status_text data msg users counter) < 256.
Proof.
  intros H1%blen_s32 H2 H3. pose proof (blen_dec 1 users).
  pose proof (blen_s32 _ (s32_bound (counter - 1))). unfold status_text. text_length.
Qed.

Section replies.
Context {M U : Type} `{MutexLaws M, UserAccess U}.

(** The mutex file updates the shared data under the mutex and reports what it
    wrote: for every process it is defined, the message it leaves is terminated
    and short, the reply fits its 256 bytes and is the text of the new data, and
    the mutex is free again; an interrupted wait changes nothing. *)
Theorem mutex_demo_read_correct pid output (u : U) buffer count d (m : M) :
  blen output = 256 → is_pid pid → message_ok (shared_message d) → held m = false →
  let d' := Shared (s32 (shared_data d + Z.rem pid 100)) in
  let txt := mutex_text (s32 (shared_data d + Z.rem pid 100)) (chars "Updated by PID " ++ dec pid) pid in
  ∃ r pos u' sd m', mutex_demo_read pid output u buffer count 0 d m = Some (r, pos, u', sd, m') ∧
    held m' = false ∧ message_ok (shared_message sd) ∧
    if negb ((mutex_lock_interruptible m).1 =? 0) then r = - ERESTARTSYS ∧ u' = u ∧ sd = d ∧ pos = 0
    else sd = d' (shared_message sd) ∧
      c_str (shared_message sd) = chars "Updated by PID " ++ dec pid ∧
      u' = (copy_to_user u buffer txt).2 ∧
      r = if negb ((copy_to_user u buffer txt).1 =? 0) then - EFAULT else blen txt.
Proof.
  intros Ho Hpid Hmsg Hm d' txt. unfold mutex_demo_read. change (0 <? 0) with false. cbv iota.
  pose proof (mutex_lock_interruptible_held m Hm) as Hok.
  pose proof (mutex_lock_interruptible_fail m) as Hfail.
  destruct (mutex_lock_interruptible m) as [intr m1]. simpl in Hok, Hfail.
  cbn [fst]. destruct (Z.eqb_spec intr 0) as [->|Hi]; cbn [negb]; cycle 1.
  { eexists _, _, _, _, _. split; [done|]. by rewrite Hfail. }
  set (upd := chars "Updated by PID " ++ dec pid) in *. destruct Hmsg as (Hl & _ & _).
  assert (blen upd <= 23) as Hu.
  { pose proof (blen_pid pid Hpid). unfold upd. rewrite blen_app, blen_chars. simpl. lia. }
  assert (0 ∉ upd) as Hu0.
  { unfold upd. rewrite not_elem_of_app. split; [by apply (bool_decide_eq_true_1 _)|apply dec_no_nul]. }
  destruct (snprintf_text (shared_message d) 64 upd) as (msg & -> & Hml & Hm0 & Hms); [lia|lia|done|].
  cbn [mbind option_bind]. unfold strncpy_bytes. rewrite bool_decide_eq_true_2 by auto.
  cbn [mbind option_bind]. rewrite Hms. change (Z.to_nat 64) with 64%nat.
  destruct (c_str_resize upd 64 Hu0) as [Hr1 Hr2]; [unfold blen in Hu; lia|].
  apply strlen_is_Some in Hr2 as [len ->]. cbn [mbind option_bind]. rewrite Hr1. simpl.
  fold txt. rewrite proc_reply_correct; cycle 1.
  { rewrite Ho. by apply mutex_text_fits; [apply s32_bound|..]. }
  cbn [mbind option_bind]. eexists _, _, _, _, _. split; [done|].
  split; [apply mutex_unlock_free; auto|]. unfold d', message_ok. simpl. rewrite Hms, Hml. done.
Qed.

(** The semaphore file's reply fits its buffer: a read from the start copies the
    text and moves past it. *)
Lemma semaphore_demo_reply_correct pid id users output (u : U) buffer count :
  blen output = 256 → is_s32 id → is_pid pid → 0 <= users <= 3 →
  let txt := semaphore_text id pid users in
  semaphore_demo_reply pid id users output u buffer count 0 =
    Some (if negb ((copy_to_user u buffer txt).1 =? 0) then - EFAULT else blen txt,
          if negb ((copy_to_user u buffer txt).1 =? 0) then 0 else blen txt, (copy_to_user u buffer txt).2).
Proof.
  intros Ho Hi Hp Hu txt. unfold semaphore_demo_reply. apply proc_reply_correct. rewrite Ho.
  by apply semaphore_text_fits.
Qed.

(** The status reply fits its 256 bytes, so that the number snprintf returns is
    the number of characters there are to copy: whatever the shared data and the
    counter are, whichever process wrote the message. *)
Theorem status_read_correct output (u : U) buffer count d p :
  blen output = 256 → is_s32 (shared_data d) → message_ok (shared_message d) → 0 <= active_users p <= 3 →
  let txt := status_text (shared_data d) (c_str (shared_message d)) (active_users p) (resource_id_counter p) in
  ∃ pos, status_read output u buffer count 0 d p =
    Some (if negb ((copy_to_user u buffer txt).1 =? 0) then - EFAULT else blen txt, pos,
          (copy_to_user u buffer txt).2).
Proof.
  intros Ho Hd (_ & [len Hm]%strlen_is_Some & Hs) Hp txt. unfold status_read. change (0 <? 0) with false.
  cbv iota. rewrite Hm. cbn [mbind option_bind]. fold txt.
  rewrite proc_reply_correct; [by eexists|]. rewrite Ho. by apply status_text_fits.
Qed.
End replies.

Lemma init_shared_ok : message_ok (shared_message init_shared).
Proof. split_and!; [reflexivity|by apply (bool_decide_eq_true_1 _)|by vm_compute]. Qed.

(** Process 4711 reads at the largest value shared_data can have: the sum wraps. *)
Lemma mutex_demo_read_correct_witness :
  ∃ r pos u' sd m', mutex_demo_read 4711 (bfill 0xCC 256) (FlatUser 1000 (bfill 7 300)) 1000 300 0
      (Shared (2^31 - 1) (shared_message init_shared)) (RefMutex false false) = Some (r, pos, u', sd, m') ∧
    held m' = false ∧ r = 125 ∧ shared_data sd = - 2^31 + 10 ∧
    c_str (shared_message sd) = chars "Updated by PID 4711".
Proof.
  destruct (mutex_demo_read_correct 4711 (bfill 0xCC 256) (FlatUser 1000 (bfill 7 300)) 1000 300
    (Shared (2^31 - 1) (shared_message init_shared)) (RefMutex false false))
    as (r & pos & u' & sd & m' & Hr & Hm & _ & Hs);
    [by apply blen_bfill|unfold is_pid; lia|apply init_shared_ok|reflexivity|].
  exists r, pos, u', sd, m'. split; [exact Hr|]. split; [exact Hm|].
  destruct Hs as (-> & Hc & _ & ->). split; [vm_compute; reflexivity|].
  split; [vm_compute; reflexivity|]. rewrite Hc. vm_compute. reflexivity.
Defined.

Lemma semaphore_pool_safe_witness :
  ∃ s, nsteps (tstep (act_step false)) 2
      ([semaphore_demo_locks], init_pool) ([Do LoadId (λ my_resource_id,
         Do (StoreId (s32 (my_resource_id + 1))) (λ _, Do Msleep (λ _,
         Do (Reply my_resource_id 1) (λ _, Do DecActive (λ _, Do Up (λ _, Ret 0))))))], s) ∧
    0 <= active_users s <= 3.
Proof.
  assert (nsteps (tstep (act_step false)) 2
      (replicate 1 semaphore_demo_locks, init_pool) ([Do LoadId (λ my_resource_id,
         Do (StoreId (s32 (my_resource_id + 1))) (λ _, Do Msleep (λ _,
         Do (Reply my_resource_id 1) (λ _, Do DecActive (λ _, Do Up (λ _, Ret 0))))))], Pool 2 1 1 []))
    as Hn.
  { eapply nsteps_l; [eapply (tstep_do _ _ 0); [reflexivity|constructor; done]|].
    eapply nsteps_l; [eapply (tstep_do _ _ 0); [reflexivity|constructor]|]. apply nsteps_O. }
  exists (Pool 2 1 1 []). split; [exact Hn|].
  apply (semaphore_pool_safe false 1 2 _ _ Hn).
Defined.
