(* ===== verification/SpinRw.v ===== *)
(** * The spinlock and reader-writer lock demos
    (examples/class_3/06_spinlock_demo/spinlock_demo.c and
    examples/class_3/08_rwlock_demo/rwlock_demo.c)

    Two /proc interfaces over shared data behind a spinning lock.  A critical
    section under the lock is one step on the shared data; every handler also
    gives the trace of its lock and sleep calls, so that holding a lock across a
    sleep shows.  kstrtoint is the kernel's: its value on success. *)
From S2P Require Import Prelude Bytes Kernel ProcFs.

(** ** Lock traces *)

Inductive lock_call := Lock | Unlock | Msleep (ms : Z).

(** [held_after n t]: how many locks are held after the calls [t], starting with
    [n]; [None] if one is released that is not held. *)
Fixpoint held_after (n : nat) (t : list lock_call) : option nat :=
  match t with
  | [] => Some n
  | Lock :: t => held_after (S n) t
  | Unlock :: t => match n with O => None | S n' => held_after n' t end
  | Msleep _ :: t => held_after n t
  end.

(** A spinning lock disables preemption: sleeping while one is held is forbidden
    (Documentation/locking/locktypes.rst). *)
Fixpoint sleeps_in_atomic (n : nat) (t : list lock_call) : bool :=
  match t with
  | [] => false
  | Lock :: t => sleeps_in_atomic (S n) t
  | Unlock :: t => sleeps_in_atomic (pred n) t
  | Msleep _ :: t => negb (Nat.eqb n 0) || sleeps_in_atomic n t
  end.

(** ** The spinlock demo *)
Module Spin.

(** shared_data and operation_count. *)
Record state := State { shared_data : Z; operation_count : Z }.
Definition init_state : state := State 0 0.

(** Lines 28-32: local_data, local_count and the new state. *)
Definition read_section (s : state) : Z * Z * state :=
  let s' := State (shared_data s) (u64 (operation_count s + 1)) in
  (shared_data s, operation_count s', s').
(** Lines 67-72. *)
Definition write_section (value : Z) (s : state) : state :=
  State value (u64 (operation_count s + 1)).

Definition read_text (local_data local_count : Z) : bytes :=
  chars "Shared data: " ++ dec local_data ++ [10] ++ chars "Operations: " ++ dec local_count ++ [10].

Section handlers.
Context {H U : Type} `{Allocator H, UserAccess U} (kstrtoint : bytes → option Z).

(** spinlock_read; [block] is what the 256-byte block kmalloc returns holds. *)
Definition spinlock_read (block : bytes) (u : U) (buffer count pos : Z) (s : state) (h : H)
    : option (Z * Z * U * state * H * list lock_call) :=
  if 0 <? pos then Some (0, pos, u, s, h, [])
  else
    let '(kernel_buffer, h) := kmalloc h 256 in
    if kernel_buffer =? NULL then Some (- ENOMEM, pos, u, s, h, [])
    else
      let '(local_data, local_count, s) := read_section s in
      '(r, pos, u) ← proc_reply block (read_text local_data local_count) u buffer pos;
      Some (r, pos, u, s, kfree h kernel_buffer, [Lock; Unlock]).

(** spinlock_write; [input] is the uninitialised 32-byte array. *)
Definition spinlock_write (input : bytes) (u : U) (buffer count : Z) (s : state)
    : option (Z * state * list lock_call) :=
  r ← read_input input u buffer count;
  match r with
  | inl e => Some (e, s, [])
  | inr b =>
      match kstrtoint b with
      | None => Some (- EINVAL, s, [])
      | Some value => Some (count, write_section value s, [Lock; Unlock])
      end
  end.
End handlers.

#[local] Open Scope kernel_scope.

(** spinlock_init and spinlock_exit, over the static pointer proc_entry. *)
Definition spinlock_init : K call Z Z :=
  p <-k kcall (ProcCreate 438 NULL); kmod (λ _, p) ;;k
  if p =? NULL then kret (- ENOMEM) else kret 0.
Definition spinlock_exit : K call Z unit := p <-k kget id; kcall (ProcRemove p) ;;k kret tt.
End Spin.

(** ** The reader-writer lock demo *)
Module Rw.

(** shared_data and last_update. *)
Record state := State { shared_data : Z; last_update : Z }.

Definition read_text (local_data local_time : Z) : bytes :=
  chars "Data: " ++ dec local_data ++ chars " (updated at jiffies: " ++ dec local_time ++ chars ")" ++ [10].

Section handlers.
Context {U : Type} `{UserAccess U} (kstrtoint : bytes → option Z).

(** reader_read; [stack] is the uninitialised 128-byte array. *)
Definition reader_read (stack : bytes) (u : U) (buffer count pos : Z) (s : state)
    : option (Z * Z * U * list lock_call) :=
  if 0 <? pos then Some (0, pos, u, [])
  else
    '(r, pos, u) ← proc_reply stack (read_text (shared_data s) (last_update s)) u buffer pos;
    Some (r, pos, u, [Lock; Msleep 1000; Unlock]).

(** writer_write. *)
Definition writer_write (input : bytes) (jiffies : Z) (u : U) (buffer count : Z) (s : state)
    : option (Z * state * list lock_call) :=
  r ← read_input input u buffer count;
  match r with
  | inl e => Some (e, s, [])
  | inr b =>
      match kstrtoint b with
      | None => Some (- EINVAL, s, [])
      | Some new_value => Some (count, State new_value jiffies, [Lock; Msleep 2000; Unlock])
      end
  end.
End handlers.

#[local] Open Scope kernel_scope.

(** The static pointers and last_update. *)
Record statics := Statics { proc_read_entry : Z; proc_write_entry : Z; updated : Z }.

Definition rw_lock_init (jiffies : Z) : K call statics Z :=
  r <-k kcall (ProcCreate 292 NULL);
  kmod (λ s, Statics r (proc_write_entry s) (updated s)) ;;k
  if r =? NULL then kret (- ENOMEM) else
  w <-k kcall (ProcCreate 146 NULL);
  kmod (λ s, Statics (proc_read_entry s) w (updated s)) ;;k
  if w =? NULL then kcall (ProcRemove r) ;;k kret (- ENOMEM) else
  kmod (λ s, Statics (proc_read_entry s) (proc_write_entry s) jiffies) ;;k kret 0.

Definition rw_lock_exit : K call statics unit :=
  r <-k kget proc_read_entry; w <-k kget proc_write_entry;
  kcall (ProcRemove r) ;;k kcall (ProcRemove w) ;;k kret tt.

(** Whatever the kernel answers, a failing init leaves no entry behind and exit
    removes both. *)
Theorem rw_lock_init_exit jiffies (e : env call) (s : statics) :
  let '(ret, w) := rw_lock_init jiffies e (KWorld s []) in
  let '(_, w') := rw_lock_exit e w in
  (ret = - ENOMEM ∧ entries (ktr w) = []) ∨
  (ret = 0 ∧ length (entries (ktr w)) = 2%nat ∧ entries (ktr w') = [] ∧ updated (kst w) = jiffies).
Proof.
  unfold rw_lock_init. destruct s.
  all: repeat kstep; unfold rw_lock_exit; repeat kstep;
    cbn [proc_read_entry proc_write_entry updated] in *.
  all: first
    [ left; split; [done|]; by entries_solve
    | right; split_and!; [done|by entries_solve|entries_solve|done];
      rewrite !filter_cons; repeat (case_decide || rewrite filter_cons); simpl in *;
      rewrite ?filter_nil; naive_solver ].
Qed.
End Rw.

(** ** What the handlers do *)

Module SpinFacts.
Import Spin.

(** The critical sections run one after the other: an operation is a read, which
    is told a value and a number, or a write. *)
Inductive op := Read (told_data told_count : Z) | Write (value : Z).

(** [history s ops s']: the operations take [s] to [s']. *)
Inductive history : state → list op → state → Prop :=
| history_nil s : history s [] s
| history_read s s' ops :
    history (read_section s).2 ops s' →
    history s (Read (read_section s).1.1 (read_section s).1.2 :: ops) s'
| history_write s s' v ops :
    history (write_section v s) ops s' → history s (Write v :: ops) s'.

(** The value the last write of a list left, or [v]. *)
Fixpoint last_written (v : Z) (ops : list op) : Z :=
  match ops with [] => v | Read _ _ :: ops => last_written v ops | Write w :: ops => last_written w ops end.

(** Every reader is told the value of the last write before it and its own place
    in the order of operations, modulo 2^64. *)
Theorem spinlock_history s ops s' k data number :
  history s ops s' → is_u64 (operation_count s) → ops !! k = Some (Read data number) →
  data = last_written (shared_data s) (take k ops) ∧
  number = u64 (operation_count s + Z.of_nat k + 1).
Proof.
  intros Hh. revert k. induction Hh as [s|s s' ops Hh IH|s s' v ops Hh IH]; intros [|k] Hu Hk; simpl in *;
    simplify_eq; rewrite ?Z.add_0_r; try done.
  - destruct (IH k) as [-> ->]; [apply u64_bound|done|]. split; [done|].
    rewrite <-Z.add_assoc, u64_add_l. f_equal. lia.
  - destruct (IH k) as [-> ->]; [apply u64_bound|done|]. split; [done|].
    rewrite <-Z.add_assoc, u64_add_l. f_equal. lia.
Qed.

Lemma read_text_short d c : is_s64 d → is_u64 c → (0 ∉ read_text d c) ∧ blen (read_text d c) < 256.
Proof.
  unfold is_s64, is_u64. intros Hd Hc. unfold read_text. split.
  - rewrite !not_elem_of_app. split_and!; first [apply dec_no_nul|by apply (bool_decide_eq_true_1 _)].
  - pose proof (blen_dec 20 d ltac:(lia) ltac:(lia)). pose proof (blen_dec 20 c ltac:(lia) ltac:(lia)).
    rewrite !blen_app. change (blen (chars "Shared data: ")) with 13. change (blen (chars "Operations: ")) with 12.
    change (blen [10]) with 1. lia.
Qed.

(** A read from the start of the file: the text of one critical section goes to
    the user, the block is given back on every path, the lock is held for the
    critical section only and nothing sleeps under it; without memory nothing
    happens.  A read from any other position is empty. *)
Theorem spinlock_read_correct {H U} `{AllocatorLaws H, UserAccess U} block (u : U) buffer count pos s (h : H) :
  blen block = 256 → is_s64 (shared_data s) →
  ∃ r pos' u' s' h' t, spinlock_read block u buffer count pos s h = Some (r, pos', u', s', h', t) ∧
    live h' = live h ∧ held_after 0 t = Some 0%nat ∧ sleeps_in_atomic 0 t = false ∧
    if (0 <? pos) then r = 0 ∧ s' = s
    else if (kmalloc h 256).1 =? NULL then r = - ENOMEM ∧ s' = s
    else
      let '(data, number, s1) := read_section s in
      let txt := read_text data number in
      s' = s1 ∧ u' = (copy_to_user u buffer txt).2 ∧
      r = if (copy_to_user u buffer txt).1 =? 0 then blen txt else - EFAULT.
Proof.
  intros Hb Hs. unfold spinlock_read. destruct (0 <? pos); [by do 6 eexists|].
  destruct (kmalloc_spec h 256) as [[E1 E2]|(E1 & E2 & E3)]; destruct (kmalloc h 256) as [p h1]; simpl in *.
  { subst p. by do 6 eexists. }
  rewrite (proj2 (Z.eqb_neq _ _)) by done.
  destruct (read_text_short (shared_data s) (u64 (operation_count s + 1)) Hs (u64_bound _)) as [_ Hl].
  rewrite proc_reply_correct by lia. simpl. do 6 eexists. split; [done|].
  rewrite kfree_live, E3 by (rewrite E3; by apply elem_of_union_l, elem_of_singleton).
  split; [apply difference_union_singleton_fresh, E2|]. do 4 (split; [done|]).
  by destruct (_ =? 0).
Qed.

(** A write stores the number under the lock, or changes nothing and says why. *)
Theorem spinlock_write_correct {U} `{UserAccessLaws U} kstrtoint input (u : U) buffer count s :
  0 <= count →
  ∃ r s' t, spinlock_write kstrtoint input u buffer count s = Some (r, s', t) ∧
    held_after 0 t = Some 0%nat ∧ sleeps_in_atomic 0 t = false ∧
    ((r < 0 ∧ s' = s) ∨ (r = count ∧ ∃ b v, c_str b = c_str (uload u buffer count) ∧
       kstrtoint b = Some v ∧ s' = write_section v s)).
Proof.
  intros Hc. unfold spinlock_write. destruct (read_input_correct input u buffer count Hc) as (r & -> & Hr).
  simpl. destruct (blen input <=? count); [by subst r; do 3 eexists; split_and!; [..|left]|].
  destruct (negb _); [by subst r; do 3 eexists; split_and!; [..|left]|]. destruct Hr as (b & -> & _ & Hb).
  destruct (kstrtoint b) as [v|] eqn:E; do 3 eexists; (split; [done|]); split_and!; try done; eauto 10.
  by left.
Qed.

Lemma spinlock_init_exit (e : env call) (s : Z) :
  let '(ret, w) := spinlock_init e (KWorld s []) in
  let '(_, w') := spinlock_exit e w in
  (ret = - ENOMEM ∧ entries (ktr w) = []) ∨
  (ret = 0 ∧ length (entries (ktr w)) = 1%nat ∧ entries (ktr w') = []).
Proof.
  unfold spinlock_init. repeat kstep; unfold spinlock_exit; repeat kstep; cbn [id].
  all: first [ left; split; [done|]; by entries_solve | right; split_and!; by entries_solve ].
Qed.
End SpinFacts.

Section rw_facts.
Context {U : Type} `{UserAccessLaws U} (kstrtoint : bytes → option Z).

(** The reader-writer lock demo sleeps while it holds a spinning lock.  Every
    read from the start of the file and every write that stores a value gives its
    lock back, but calls msleep in between, with preemption disabled; no other
    call takes the lock at all. *)
Theorem rwlock_sleeps_in_atomic stack input jiffies (u : U) buffer count pos s :
  0 <= count →
  (∀ r pos' u' t, Rw.reader_read stack u buffer count pos s = Some (r, pos', u', t) →
     held_after 0 t = Some 0%nat ∧ (sleeps_in_atomic 0 t = true ↔ pos <= 0)) ∧
  (∃ r s' t, Rw.writer_write kstrtoint input jiffies u buffer count s = Some (r, s', t) ∧
     held_after 0 t = Some 0%nat ∧
     if sleeps_in_atomic 0 t then r = count ∧ Rw.last_update s' = jiffies else s' = s ∧ r < 0).
Proof.
  intros Hc. split.
  - intros r pos' u' t. unfold Rw.reader_read. destruct (Z.ltb_spec 0 pos).
    + intros [= <- <- <- <-]. split; [done|]. simpl. split; [done|lia].
    + destruct (proc_reply _ _ _ _ _) as [[[??]?]|]; [|done]. simpl. intros [= <- <- <- <-]. done.
  - unfold Rw.writer_write. destruct (read_input_correct input u buffer count Hc) as (r & -> & Hr).
    simpl. destruct r as [e|b].
    + exists e, s, []. split_and!; try done. simpl.
      destruct (blen input <=? count); [by simplify_eq|].
      destruct (negb _); [by simplify_eq|]. by destruct Hr as (b & ? & _).
    + destruct (kstrtoint b) as [v|]; by eexists _, _, _.
Qed.
End rw_facts.

(** Decimal numbers, for the witness. *)
Definition wparse (b : bytes) : option Z :=
  match c_str b with [c] => if (48 <=? c) && (c <=? 57) then Some (c - 48) else None | _ => None end.

Lemma rwlock_sleeps_in_atomic_witness :
  ∃ r s' t, Rw.writer_write wparse (bfill 0xCC 32) 77 (FlatUser 1000 (chars "7")) 1000 1 (Rw.State 0 0)
    = Some (r, s', t) ∧ sleeps_in_atomic 0 t = true ∧ r = 1.
Proof.
  destruct (rwlock_sleeps_in_atomic wparse (bfill 0 128) (bfill 0xCC 32) 77 (FlatUser 1000 (chars "7"))
    1000 1 0 (Rw.State 0 0)) as [_ (r & s' & t & Hw & _ & Hr)]; [lia|].
  exists r, s', t. split; [exact Hw|]. vm_compute in Hw. injection Hw as <- <- <-. split; reflexivity.
Defined.
