(* ===== verification/ThreadedIrq.v ===== *)
(** * The threaded interrupt demo (examples/class_5/00_threaded_irq_demo/threaded_irq_demo.c)

    A primary handler that only counts and asks for its thread, a threaded handler
    that updates shared data under a mutex, and a /proc file whose writes call the
    handlers by hand and whose show function reads the shared data.  Handlers,
    writes and shows are programs of atomic actions run interleaved: interrupts
    arrive at any time, and users may call the handlers while they run. *)
From S2P Require Import Prelude Bytes Kernel Threads.

Definition IRQ_HANDLED : Z := 1.
Definition IRQ_WAKE_THREAD : Z := 2.

(** ** State *)

(** What one run of the show function prints of the variables. *)
Record report := Report {
  r_irq_counter : Z; r_primary : Z; r_thread : Z; r_counter : Z; r_message : bytes
}.

(** The static variables, which task holds shared_data_mutex, how many kmalloc'd
    buffers are live, and the reports printed so far. *)
Record state := State {
  irq_counter : Z; primary_handler_count : Z; thread_handler_count : Z;
  shared_counter : Z; shared_message : bytes;
  shared_data_mutex : option nat; buffers : nat; shown : list report
}.

(** Their values after my_init's strcpy; the rest of the static array is zero. *)
Definition init_state : state :=
  State 0 0 0 0 (chars "Initial message" ++ bfill 0 (256 - 15)) None 0 [].

Definition set_irq_counter v s :=
  State v (primary_handler_count s) (thread_handler_count s) (shared_counter s) (shared_message s)
    (shared_data_mutex s) (buffers s) (shown s).
Definition set_primary v s :=
  State (irq_counter s) v (thread_handler_count s) (shared_counter s) (shared_message s)
    (shared_data_mutex s) (buffers s) (shown s).
Definition set_thread v s :=
  State (irq_counter s) (primary_handler_count s) v (shared_counter s) (shared_message s)
    (shared_data_mutex s) (buffers s) (shown s).
Definition set_counter v s :=
  State (irq_counter s) (primary_handler_count s) (thread_handler_count s) v (shared_message s)
    (shared_data_mutex s) (buffers s) (shown s).
Definition set_message b s :=
  State (irq_counter s) (primary_handler_count s) (thread_handler_count s) (shared_counter s) b
    (shared_data_mutex s) (buffers s) (shown s).
Definition set_mutex o s :=
  State (irq_counter s) (primary_handler_count s) (thread_handler_count s) (shared_counter s)
    (shared_message s) o (buffers s) (shown s).
Definition set_buffers n s :=
  State (irq_counter s) (primary_handler_count s) (thread_handler_count s) (shared_counter s)
    (shared_message s) (shared_data_mutex s) n (shown s).
Definition add_report r s :=
  State (irq_counter s) (primary_handler_count s) (thread_handler_count s) (shared_counter s)
    (shared_message s) (shared_data_mutex s) (buffers s) (shown s ++ [r]).

(** Line 82. *)
Definition message_text (n : Z) : bytes := chars "Processed by thread handler #" ++ dec n.

(** ** Actions

    atomic_inc and atomic_read are one action each; an ordinary increment is a
    load and a store; mutex_lock waits. *)
Inductive act :=
| IncPrimary | IncThread | ReadPrimary | ReadThread
| LoadIrqCounter | StoreIrqCounter (v : Z) | LoadCounter | StoreCounter (v : Z)
| PrintMessage (n : Z) | MutexLock | MutexUnlock | Kmalloc | Kfree | Msleep
| Show (irqs primary thread counter : Z).

Inductive act_step (i : nat) : act → state → state → Z → Prop :=
| step_inc_primary s : act_step i IncPrimary s (set_primary (s32 (primary_handler_count s + 1)) s) 0
| step_inc_thread s : act_step i IncThread s (set_thread (s32 (thread_handler_count s + 1)) s) 0
| step_read_primary s : act_step i ReadPrimary s s (primary_handler_count s)
| step_read_thread s : act_step i ReadThread s s (thread_handler_count s)
| step_load_irq s : act_step i LoadIrqCounter s s (irq_counter s)
| step_store_irq v s : act_step i (StoreIrqCounter v) s (set_irq_counter v s) 0
| step_load_counter s : act_step i LoadCounter s s (shared_counter s)
| step_store_counter v s : act_step i (StoreCounter v) s (set_counter v s) 0
| step_print n s r b :
    snprintf (shared_message s) 0 256 (message_text n) = Some (r, b) →
    act_step i (PrintMessage n) s (set_message b s) r
| step_lock s : shared_data_mutex s = None → act_step i MutexLock s (set_mutex (Some i) s) 0
| step_unlock s : shared_data_mutex s = Some i → act_step i MutexUnlock s (set_mutex None s) 0
| step_kmalloc_fails s : act_step i Kmalloc s s NULL
| step_kmalloc s p : p ≠ NULL → act_step i Kmalloc s (set_buffers (S (buffers s)) s) p
| step_kfree s n : buffers s = S n → act_step i Kfree s (set_buffers n s) 0
| step_msleep s : act_step i Msleep s s 0
| step_show a b c d s :
    act_step i (Show a b c d) s (add_report (Report a b c d (c_str (shared_message s))) s) 0.

(** ** The handlers *)

(** my_interrupt, followed by [k] with its result. *)
Definition my_interrupt (k : Z → prog act) : prog act :=
  Do IncPrimary (λ _,
  Do LoadIrqCounter (λ v, Do (StoreIrqCounter (s32 (v + 1))) (λ _,
  k IRQ_WAKE_THREAD))).

(** my_threaded_interrupt.  The calculation of lines 101-107 touches only locals
    and is [complex_calculation] below; the text of line 90 goes to the buffer and
    the log only. *)
Definition my_threaded_interrupt (k : Z → prog act) : prog act :=
  Do IncThread (λ _,
  Do MutexLock (λ _,
  Do LoadCounter (λ c, Do (StoreCounter (s32 (c + 1))) (λ _,
  Do LoadCounter (λ local_counter,
  Do (PrintMessage local_counter) (λ _,
  Do MutexUnlock (λ _,
  Do Kmalloc (λ buffer,
  let rest := Do Msleep (λ _, k IRQ_HANDLED) in
  if negb (buffer =? NULL) then Do Kfree (λ _, rest) else rest)))))))).

(** advanced_threaded_irq_proc_show. *)
Definition advanced_threaded_irq_proc_show : prog act :=
  Do LoadIrqCounter (λ irqs, Do ReadPrimary (λ primary, Do ReadThread (λ thread,
  Do MutexLock (λ _, Do LoadCounter (λ counter, Do (Show irqs primary thread counter) (λ _,
  Do MutexUnlock (λ _, Ret 0))))))).

(** The switch of advanced_threaded_irq_proc_write, lines 162-178. *)
Definition trigger (value count : Z) : prog act :=
  if value =? 1 then my_interrupt (λ _, Ret count)
  else if value =? 2 then
    my_interrupt (λ r,
      if r =? IRQ_WAKE_THREAD then my_threaded_interrupt (λ _, Ret count) else Ret count)
  else Ret (- EINVAL).

Section write.
Context {U : Type} `{UserAccess U} (kstrtoint : bytes → option Z).

(** advanced_threaded_irq_proc_write; [input] is the uninitialised 8-byte array. *)
Definition advanced_threaded_irq_proc_write (input : bytes) (u : U) (buffer count : Z)
    : option (prog act) :=
  r ← read_input input u buffer count;
  match r with
  | inl e => Some (Ret e)
  | inr b =>
      match kstrtoint b with
      | None => Some (Ret (- EINVAL))
      | Some value => Some (trigger value count)
      end
  end.
End write.

(** Lines 101-107, from [i] on for [n] rounds; an int addition outside 32 bits is
    undefined. *)
Fixpoint complex_calculation (n : nat) (i result : Z) : option Z :=
  match n with
  | O => Some result
  | S n =>
      let result := result + i in
      if bool_decide (is_s32 result) then complex_calculation n (i + 1) result else None
  end.

(** The text of the show function. *)
Definition line (s : string) : bytes := chars s ++ [10].
Definition show_text (irq : Z) (r : report) : bytes :=
  line "echo 1 > /proc/threaded_test  # Primary only" ++
  line "echo 2 > /proc/threaded_test  # Full threaded" ++
  line "Advanced Threaded IRQ Demo" ++ line "==========================" ++
  chars "IRQ Number: " ++ dec irq ++ [10] ++
  chars "Total interrupts: " ++ dec (r_irq_counter r) ++ [10] ++
  chars "Primary handler executions: " ++ dec (r_primary r) ++ [10] ++
  chars "Thread handler executions: " ++ dec (r_thread r) ++ [10] ++
  [10] ++ line "Shared Data (protected by mutex):" ++
  chars "Shared counter: " ++ dec (r_counter r) ++ [10] ++
  chars "Last message: " ++ r_message r ++ [10] ++
  [10] ++ line "Context Capabilities Demonstrated:" ++
  line " Primary handler: Fast, minimal processing" ++
  line " Thread handler: Can sleep, use mutexes, allocate memory" ++
  line " Stack traces show different execution contexts" ++
  line " Shared data protection with mutexes" ++
  line " Complex processing without blocking interrupts".

(** ** Registration, over the static pointer proc_entry *)
Module Reg.
#[local] Open Scope kernel_scope.

Inductive call := RequestThreadedIrq (irq : Z) | FreeIrq (irq : Z) | SynchronizeIrq (irq : Z)
  | ProcCreate (mode : Z) | ProcRemove (p : Z).
Inductive resource := Irq (irq : Z) | Entry (p : Z).
#[export] Instance resource_eq : EqDecision resource.
Proof. solve_decision. Defined.

Definition acq (c : call) (r : Z) : option resource :=
  match c with
  | RequestThreadedIrq irq => if r =? 0 then Some (Irq irq) else None
  | ProcCreate _ => if r =? NULL then None else Some (Entry r)
  | _ => None
  end.
Definition rel (c : call) : option resource :=
  match c with FreeIrq irq => Some (Irq irq) | ProcRemove p => Some (Entry p) | _ => None end.

(** Mode 438 is 0666. *)
Definition my_init (irq : Z) : K call Z Z :=
  ret <-k kcall (RequestThreadedIrq irq);
  if negb (ret =? 0) then kret (-1)
  else
    proc_entry <-k kcall (ProcCreate 438); kmod (λ _, proc_entry) ;;k
    if proc_entry =? NULL then kcall (FreeIrq irq) ;;k kret (- ENOMEM)
    else kret 0.

Definition my_exit (irq : Z) : K call Z unit :=
  proc_entry <-k kget id; kcall (ProcRemove proc_entry) ;;k
  kcall (SynchronizeIrq irq) ;;k kcall (FreeIrq irq) ;;k kret tt.

(** Whatever the kernel answers, a failing load leaves neither the interrupt nor
    the entry, a successful one both, and unloading gives them back in reverse
    order, each once. *)
Theorem my_init_exit irq (e : env call) (p0 : Z) :
  let '(ret, w) := my_init irq e (KWorld p0 []) in
  let '(_, w') := my_exit irq e w in
  ((ret = -1 ∨ ret = - ENOMEM) ∧ held_run acq rel [] (ktr w) = Some []) ∨
  (ret = 0 ∧ held_run acq rel [] (ktr w) = Some [Entry (kst w); Irq irq] ∧
   held_run acq rel [] (ktr w') = Some []).
Proof.
  unfold my_init. repeat kstep; unfold my_exit; repeat kstep; cbn [id] in *.
  1, 2: left; split; [by auto|]; unfold acq, rel; kheld; done.
  right. split_and!; [done| |]; unfold acq, rel; kheld; done.
Qed.
End Reg.

(** ** The mutex discipline

    [Outside] the mutex; [Inside] it with the data consistent; having [Loaded] the
    counter; with the counter [Stored] and the message not yet printed; or with
    the new counter [Reloaded]. *)
Inductive stage := Outside | Inside | Loaded (c : Z) | Stored | Reloaded (c : Z).
#[export] Instance stage_eq : EqDecision stage.
Proof. solve_decision. Defined.

(** What a program still has to do: calls of the primary handler, calls of the
    thread handler, updates of the counter, buffers to free. *)
Record todo := Todo { t_primary : nat; t_thread : nat; t_update : nat; t_free : nat }.

(** [typed st t p]: a program in stage [st] can run [p], which does exactly [t]
    however its actions turn out. *)
Inductive typed : stage → todo → prog act → Prop :=
| ty_ret r : typed Outside (Todo 0 0 0 0) (Ret r)
| ty_inc_primary st p t u f k :
    (∀ v, typed st (Todo p t u f) (k v)) → typed st (Todo (S p) t u f) (Do IncPrimary k)
| ty_inc_thread st p t u f k :
    (∀ v, typed st (Todo p t u f) (k v)) → typed st (Todo p (S t) u f) (Do IncThread k)
| ty_read_primary st t k : (∀ v, typed st t (k v)) → typed st t (Do ReadPrimary k)
| ty_read_thread st t k : (∀ v, typed st t (k v)) → typed st t (Do ReadThread k)
| ty_load_irq st t k : (∀ v, typed st t (k v)) → typed st t (Do LoadIrqCounter k)
| ty_store_irq st t x k : (∀ v, typed st t (k v)) → typed st t (Do (StoreIrqCounter x) k)
| ty_lock t k : (∀ v, typed Inside t (k v)) → typed Outside t (Do MutexLock k)
| ty_unlock t k : (∀ v, typed Outside t (k v)) → typed Inside t (Do MutexUnlock k)
| ty_load t k : (∀ c, typed (Loaded c) t (k c)) → typed Inside t (Do LoadCounter k)
| ty_store c p t u f k :
    (∀ v, typed Stored (Todo p t u f) (k v)) →
    typed (Loaded c) (Todo p t (S u) f) (Do (StoreCounter (s32 (c + 1))) k)
| ty_reload t k : (∀ c, typed (Reloaded c) t (k c)) → typed Stored t (Do LoadCounter k)
| ty_print c t k : (∀ v, typed Inside t (k v)) → typed (Reloaded c) t (Do (PrintMessage c) k)
| ty_show c x y z t k : (∀ v, typed Inside t (k v)) → typed (Loaded c) t (Do (Show x y z c) k)
| ty_kmalloc st p t u f k :
    (∀ v, typed st (Todo p t u (if v =? NULL then f else S f)) (k v)) →
    typed st (Todo p t u f) (Do Kmalloc k)
| ty_kfree st p t u f k :
    (∀ v, typed st (Todo p t u f) (k v)) → typed st (Todo p t u (S f)) (Do Kfree k)
| ty_msleep st t k : (∀ v, typed st t (k v)) → typed st t (Do Msleep k).

Create HintDb typed discriminated.
#[local] Hint Constructors typed : typed.

Lemma typed_my_interrupt p t u f k :
  typed Outside (Todo p t u f) (k IRQ_WAKE_THREAD) → typed Outside (Todo (S p) t u f) (my_interrupt k).
Proof. intros. unfold my_interrupt. eauto 10 with typed. Qed.

Lemma typed_my_threaded_interrupt p t u f k :
  typed Outside (Todo p t u f) (k IRQ_HANDLED) →
  typed Outside (Todo p (S t) (S u) f) (my_threaded_interrupt k).
Proof.
  intros Hk. unfold my_threaded_interrupt.
  do 7 (constructor; intros ?). constructor. intros b.
  destruct (b =? NULL); simpl; eauto with typed.
Qed.

Lemma typed_show : typed Outside (Todo 0 0 0 0) advanced_threaded_irq_proc_show.
Proof. unfold advanced_threaded_irq_proc_show. eauto 20 with typed. Qed.

(** ** The tasks that run *)

(** A hardware interrupt, its thread, a write of [value], a show. *)
Inductive task := Interrupt | Thread | Write (value count : Z) | ShowTask.
Definition task_prog (x : task) : prog act :=
  match x with
  | Interrupt => my_interrupt Ret
  | Thread => my_threaded_interrupt Ret
  | Write value count => trigger value count
  | ShowTask => advanced_threaded_irq_proc_show
  end.
(** How often each calls the primary and the thread handler. *)
Definition primaries (x : task) : nat :=
  match x with
  | Interrupt => 1
  | Write value _ => if (value =? 1) || (value =? 2) then 1 else 0
  | _ => 0
  end.
Definition threads (x : task) : nat :=
  match x with Thread => 1 | Write value _ => if value =? 2 then 1 else 0 | _ => 0 end.

Lemma typed_task x : typed Outside (Todo (primaries x) (threads x) (threads x) 0) (task_prog x).
Proof.
  destruct x as [| |value count|]; simpl.
  - apply typed_my_interrupt. constructor.
  - apply typed_my_threaded_interrupt. constructor.
  - unfold trigger. destruct (Z.eqb_spec value 1) as [->|]; simpl.
    { apply typed_my_interrupt. constructor. }
    destruct (value =? 2); simpl; [|constructor].
    apply typed_my_interrupt, typed_my_threaded_interrupt. constructor.
  - apply typed_show.
Qed.

Lemma bounded_threaded k : (∀ v, bounded 0 (k v)) → bounded 10 (my_threaded_interrupt k).
Proof.
  intros Hk. unfold my_threaded_interrupt. do 7 (constructor; intros ?). constructor. intros b.
  destruct (b =? NULL); simpl; repeat (constructor; intros ?); (eapply bounded_le; [apply Hk|lia]).
Qed.

Lemma bounded_task x : bounded 13 (task_prog x).
Proof.
  destruct x as [| |value count|]; simpl.
  - unfold my_interrupt. repeat (constructor; intros ?).
  - eapply bounded_le; [apply bounded_threaded; constructor|lia].
  - unfold trigger, my_interrupt. destruct (value =? 1); [repeat (constructor; intros ?)|].
    destruct (value =? 2); [|constructor]. do 3 (constructor; intros ?).
    apply bounded_threaded. constructor.
  - unfold advanced_threaded_irq_proc_show. repeat (constructor; intros ?).
Qed.

(** ** What holds of every reachable pool *)

(** The message a reader should see with a counter: the text of the last update,
    or the first message when there was none. *)
Definition message_ok (counter : Z) (msg : bytes) : Prop :=
  msg = message_text counter ∨ (counter = 0 ∧ msg = chars "Initial message").
Definition report_ok (r : report) : Prop := message_ok (r_counter r) (r_message r).
Definition consistent (s : state) : Prop := message_ok (shared_counter s) (c_str (shared_message s)).

Definition stage_ok (st : stage) (s : state) : Prop :=
  match st with
  | Outside | Stored => True
  | Inside => consistent s
  | Loaded c => shared_counter s = c ∧ consistent s
  | Reloaded c => shared_counter s = c
  end.

(** The program that holds the mutex is the only one not outside. *)
Definition owner_ok (hs : list (stage * todo)) (s : state) : Prop :=
  (∀ j h, hs !! j = Some h → h.1 ≠ Outside → shared_data_mutex s = Some j) ∧
  match shared_data_mutex s with
  | None => consistent s
  | Some i => ∃ h, hs !! i = Some h ∧ h.1 ≠ Outside ∧ stage_ok h.1 s
  end.

Definition left_to (f : todo → nat) (hs : list (stage * todo)) : nat := sum_list ((λ h, f h.2) <$> hs).

(** [P], [T]: how often the pool calls the primary and the thread handler. *)
Definition irq_inv (P T : nat) (c : list (prog act) * state) : Prop :=
  ∃ hs, Forall2 (λ h p, typed h.1 h.2 p) hs c.1 ∧ owner_ok hs c.2 ∧
    blen (shared_message c.2) = 256 ∧ Forall report_ok (shown c.2) ∧
    primary_handler_count c.2 = s32 (Z.of_nat P - Z.of_nat (left_to t_primary hs)) ∧
    thread_handler_count c.2 = s32 (Z.of_nat T - Z.of_nat (left_to t_thread hs)) ∧
    shared_counter c.2 = s32 (Z.of_nat T - Z.of_nat (left_to t_update hs)) ∧
    buffers c.2 = left_to t_free hs.

(** What a step of program [i] may do to the mutex and what it protects. *)
Definition owner_change (i : nat) (st st' : stage) (s s' : state) : Prop :=
  (st' = st ∧ shared_data_mutex s' = shared_data_mutex s ∧ shared_counter s' = shared_counter s ∧
     shared_message s' = shared_message s) ∨
  (shared_data_mutex s = None ∧ shared_data_mutex s' = Some i ∧ st' ≠ Outside ∧
     (consistent s → stage_ok st' s')) ∨
  (st ≠ Outside ∧ st' ≠ Outside ∧ shared_data_mutex s' = shared_data_mutex s ∧
     (stage_ok st s → stage_ok st' s')) ∨
  (st ≠ Outside ∧ st' = Outside ∧ shared_data_mutex s' = None ∧ (stage_ok st s → consistent s')).

Lemma stage_ok_same st s s' :
  shared_counter s' = shared_counter s → shared_message s' = shared_message s →
  stage_ok st s → stage_ok st s'.
Proof. intros E1 E2. destruct st; unfold stage_ok, consistent; rewrite ?E1, ?E2; done. Qed.

Lemma owner_stage hs i st t s :
  hs !! i = Some (st, t) → owner_ok hs s → st ≠ Outside → shared_data_mutex s = Some i ∧ stage_ok st s.
Proof.
  intros Hi [Hown Hst] Hne. pose proof (Hown i _ Hi Hne) as Ho. rewrite Ho in Hst.
  destruct Hst as (h & Hh & _ & Hs). rewrite Hi in Hh. by simplify_eq.
Qed.

Lemma owner_ok_step hs i st t st' t' s s' :
  hs !! i = Some (st, t) → owner_ok hs s → owner_change i st st' s s' →
  owner_ok (<[i := (st', t')]> hs) s'.
Proof.
  intros Hi Ho Hc. pose proof (lookup_lt_Some _ _ _ Hi) as Hl.
  pose proof (owner_stage _ _ _ _ _ Hi Ho) as Hme. destruct Ho as [Hown Hst].
  split.
  - intros j h Hj Hne. destruct (decide (i = j)) as [<-|Hij].
    + rewrite list_lookup_insert_eq in Hj by done. simplify_eq. simpl in Hne.
      destruct Hc as [(-> & -> & _)|[(_ & -> & _)|[(? & _ & -> & _)|(_ & ? & _)]]]; [..|done]; [|done|];
        by apply Hme.
    + rewrite list_lookup_insert_ne in Hj by done. pose proof (Hown j h Hj Hne) as Ho.
      destruct Hc as [(_ & -> & _)|[(? & _)|[(? & _)|(? & _)]]]; [done|congruence|..];
        destruct Hme; congruence.
  - destruct Hc as [(-> & -> & E1 & E2)|[(Hn & -> & Hne & Hs)|[(H1 & H2 & -> & Hs)|(H1 & -> & -> & Hs)]]].
    + destruct (shared_data_mutex s) as [j|]; [|by apply (stage_ok_same Inside s)].
      destruct Hst as (h & Hh & Hne & Hs). destruct (decide (i = j)) as [<-|Hij].
      * exists (st, t'). rewrite list_lookup_insert_eq by done. rewrite Hi in Hh. simplify_eq. simpl in *.
        split_and!; [done|done|]. by eapply stage_ok_same.
      * exists h. rewrite list_lookup_insert_ne by done. split_and!; [done|done|]. by eapply stage_ok_same.
    + rewrite Hn in Hst. exists (st', t'). rewrite list_lookup_insert_eq by done. auto.
    + destruct (Hme H1) as [-> Hsi]. exists (st', t'). rewrite list_lookup_insert_eq by done. auto.
    + apply Hs, Hme, H1.
Qed.

Lemma left_to_insert f hs i h h' :
  hs !! i = Some h → (left_to f (<[i := h']> hs) + f h.2 = left_to f hs + f h'.2)%nat.
Proof. intros Hi. exact (sum_fmap_insert (λ h, f h.2) hs i h h' Hi). Qed.

(** Printing the message never fails and never cuts it. *)
Lemma print_message b c :
  blen b = 256 → is_s32 c →
  ∃ r b', snprintf b 0 256 (message_text c) = Some (r, b') ∧ blen b' = 256 ∧ c_str b' = message_text c.
Proof.
  intros Hb Hc. assert (blen (message_text c) < 256) as Hl.
  { unfold message_text. rewrite blen_app. change (blen (chars _)) with 29.
    pose proof (blen_dec 10 c). unfold is_s32 in Hc. lia. }
  destruct (snprintf_text b 256 (message_text c)) as (b' & -> & Hb' & _ & Hs); [lia|done| |].
  - unfold message_text. rewrite not_elem_of_app.
    split; [by apply (bool_decide_eq_true_1 _)|apply dec_no_nul].
  - exists (blen (message_text c)), b'. rewrite Hb', Hs. done.
Qed.

Lemma print_c_str b c r b' :
  blen b = 256 → is_s32 c → snprintf b 0 256 (message_text c) = Some (r, b') →
  blen b' = 256 ∧ c_str b' = message_text c.
Proof. intros Hb Hc Hs. destruct (print_message b c Hb Hc) as (? & ? & E & ? & ?). by simplify_eq. Qed.

Lemma irq_inv_step P T c c' : irq_inv P T c → tstep act_step c c' → irq_inv P T c'.
Proof.
  intros (hs & HF & Ho & Hb & Hsh & Hp & Ht & Hu & Hf) Hst.
  inversion Hst as [ps i a k s s' v Hi Hact]; subst. simpl in *.
  destruct (Forall2_lookup_r _ _ _ _ _ HF Hi) as ([st t] & Hh & Hty). simpl in Hty.
  assert (∀ st' t', typed st' t' (k v) → owner_change i st st' s s' → blen (shared_message s') = 256 →
    Forall report_ok (shown s') →
    s32 (primary_handler_count s + (Z.of_nat (t_primary t) - Z.of_nat (t_primary t'))) = primary_handler_count s' →
    s32 (thread_handler_count s + (Z.of_nat (t_thread t) - Z.of_nat (t_thread t'))) = thread_handler_count s' →
    s32 (shared_counter s + (Z.of_nat (t_update t) - Z.of_nat (t_update t'))) = shared_counter s' →
    (buffers s' + t_free t = buffers s + t_free t')%nat →
    irq_inv P T (<[i := k v]> ps, s')) as Hdone.
  { intros st' t' Ht' Hoc Hb' Hr' E1 E2 E3 E4. exists (<[i := (st', t')]> hs). simpl.
    pose proof (left_to_insert t_primary hs i _ (st', t') Hh).
    pose proof (left_to_insert t_thread hs i _ (st', t') Hh).
    pose proof (left_to_insert t_update hs i _ (st', t') Hh).
    pose proof (left_to_insert t_free hs i _ (st', t') Hh). simpl in *.
    split_and!; [by apply Forall2_insert|by eapply owner_ok_step|done|done|..|lia].
    - rewrite <-E1, Hp, s32_add_l. f_equal. lia.
    - rewrite <-E2, Ht, s32_add_l. f_equal. lia.
    - rewrite <-E3, Hu, s32_add_l. f_equal. lia. }
  assert (is_s32 (primary_handler_count s) ∧ is_s32 (thread_handler_count s) ∧ is_s32 (shared_counter s))
    as (Hs1 & Hs2 & Hs3) by (rewrite Hp, Ht, Hu; auto using s32_bound).
  assert (∀ st' x, is_s32 x → s32 (x + (Z.of_nat st' - Z.of_nat st')) = x) as Hsame.
  { intros n x Hx. rewrite Z.sub_diag, Z.add_0_r. by apply s32_small. }
  assert (∀ n x, s32 (x + (Z.of_nat (S n) - Z.of_nat n)) = s32 (x + 1)) as Hone.
  { intros n x. f_equal. lia. }
  pose proof (owner_stage _ _ _ _ _ Hh Ho) as Hme.
  inversion Hty; subst; inversion Hact; subst;
    (eapply Hdone; [match goal with H : ∀ v, typed _ _ _ |- _ => exact (H _) end|..]); simpl;
    rewrite ?Hsame, ?Hone; try done; try lia; try by left.
  all: try (destruct Hme as [Hmu Hstage]; [done|]; simpl in Hstage).
  - right; left. by auto.
  - right; right; right. by auto.
  - right; right; left. by auto.
  - right; right; left. by auto.
  - destruct Hstage as [-> _]. done.
  - right; right; left. by auto.
  - destruct (print_c_str (shared_message s) c v b) as [_ Hc]; [done|by rewrite <-Hstage|done|].
    right; right; left. split_and!; [done..|]. intros _. left. simpl. by rewrite Hstage.
  - destruct (print_c_str (shared_message s) c v b) as [? _]; [done|by rewrite <-Hstage|done|done].
  - right; right; left. split_and!; [done..|]. by intros [_ ?].
  - destruct Hstage as [<- Hc]. apply Forall_app. split; [done|]. by constructor.
  - rewrite (proj2 (Z.eqb_neq _ _)) by done. lia.
Qed.

Lemma irq_inv_run P T c c' : irq_inv P T c → rtc (tstep act_step) c c' → irq_inv P T c'.
Proof. intros Hi Hr. induction Hr; eauto using irq_inv_step. Qed.

Definition total (f : task → nat) (tasks : list task) : nat := sum_list (f <$> tasks).

Lemma irq_inv_init tasks :
  irq_inv (total primaries tasks) (total threads tasks) (task_prog <$> tasks, init_state).
Proof.
  exists ((λ x, (Outside, Todo (primaries x) (threads x) (threads x) 0)) <$> tasks).
  assert (∀ f : todo → nat, left_to f
    ((λ x, (Outside, Todo (primaries x) (threads x) (threads x) 0)) <$> tasks) =
    sum_list ((λ x, f (Todo (primaries x) (threads x) (threads x) 0)) <$> tasks)) as Hleft.
  { intros f. unfold left_to. by rewrite <-list_fmap_compose. }
  simpl. rewrite !Hleft. simpl. fold (total primaries tasks) (total threads tasks).
  rewrite !Z.sub_diag. split_and!; try done.
  - apply Forall2_fmap. clear Hleft. induction tasks; constructor; [apply typed_task|done].
  - split; [|right; split; [done|by vm_compute]].
    intros j h Hj Hne. rewrite list_lookup_fmap in Hj. destruct (tasks !! j); by simplify_eq/=.
  - clear Hleft. by induction tasks.
Qed.

(** Every action but waiting for a mutex that is held is enabled. *)
Lemma irq_enabled P T c i a k :
  irq_inv P T c → c.1 !! i = Some (Do a k) → (a = MutexLock → shared_data_mutex c.2 = None) →
  ∃ s' v, act_step i a c.2 s' v.
Proof.
  intros (hs & HF & Ho & Hb & _ & _ & _ & Hu & Hf) Hi Ha. destruct c as [ps s]. simpl in *.
  destruct (Forall2_lookup_r _ _ _ _ _ HF Hi) as ([st t] & Hh & Hty). simpl in Hty.
  pose proof (owner_stage _ _ _ _ _ Hh Ho) as Hme. pose proof (left_to_insert t_free hs i _ (st, Todo 0 0 0 0) Hh) as Hl.
  inversion Hty; subst; simpl in *; try (do 2 eexists; by constructor).
  - do 2 eexists. constructor. auto.
  - do 2 eexists. constructor. by apply Hme.
  - destruct Hme as [_ Hs]; [done|].
    destruct (print_message (shared_message s) c) as (r & b & Hp & _); [done| |do 2 eexists; by constructor].
    rewrite <-Hs, Hu. apply s32_bound.
  - destruct (buffers s) as [|n] eqn:E; [lia|]. do 2 eexists. by constructor.
Qed.

Lemma irq_progress P T ps s : irq_inv P T (ps, s) → ¬ finished ps → ∃ c', tstep act_step (ps, s) c'.
Proof.
  intros Hinv Hn.
  assert (∃ i a k, ps !! i = Some (Do a k) ∧ (a = MutexLock → shared_data_mutex s = None))
    as (i & a & k & Hi & Ha).
  { destruct (shared_data_mutex s) as [j|] eqn:E.
    - destruct Hinv as (hs & HF & [_ Ho] & _). simpl in *. rewrite E in Ho.
      destruct Ho as ([st t] & Hh & Hne & _).
      destruct (Forall2_lookup_l _ _ _ _ _ HF Hh) as (p & Hp & Hty). simpl in *.
      destruct p as [r|a k]; [by inversion Hty; subst|]. exists j, a, k. split; [done|].
      intros ->. by inversion Hty; subst.
    - destruct (not_finished ps Hn) as (i & a & k & Hi). by exists i, a, k. }
  destruct (irq_enabled _ _ _ _ _ _ Hinv Hi Ha) as (s' & v & Hact). eexists. by econstructor.
Qed.

(** What is left when every program has returned. *)
Lemma all_done P T ps s :
  irq_inv P T (ps, s) → finished ps →
  primary_handler_count s = s32 (Z.of_nat P) ∧ thread_handler_count s = s32 (Z.of_nat T) ∧
  shared_counter s = s32 (Z.of_nat T) ∧ consistent s ∧ shared_data_mutex s = None ∧ buffers s = 0%nat.
Proof.
  intros (hs & HF & [_ Ho] & _ & _ & Hp & Ht & Hu & Hf) Hfin. simpl in *.
  assert (∀ h, h ∈ hs → h = (Outside, Todo 0 0 0 0)) as Hall.
  { intros h [i Hi]%list_elem_of_lookup_1. destruct (Forall2_lookup_l _ _ _ _ _ HF Hi) as (p & Hpi & Hty).
    destruct (proj1 (Forall_lookup _ _) Hfin i p Hpi) as [r ->]. destruct h as [st t]. simpl in Hty. by inversion Hty. }
  assert (∀ f, f (Todo 0 0 0 0) = 0%nat → left_to f hs = 0%nat) as Hz.
  { intros f H0. unfold left_to. clear -Hall H0. induction hs as [|h hs IH]; csimpl; [done|].
    rewrite IH by set_solver. rewrite (Hall h) by set_solver. simpl. lia. }
  rewrite !Hz, !Z.sub_0_r in * by done.
  destruct (shared_data_mutex s) as [i|] eqn:E; [|done].
  destruct Ho as (h & Hh%list_elem_of_lookup_2%Hall & Hne & _). by subst.
Qed.

(** ** Properties *)

(** C12: Interrupts, their threads, writes to the file and shows are accounted for
    exactly, whatever their number and schedule.  A run has at most 13 steps per
    task and is never stuck; every report shows a message that belongs to the
    counter shown with it; and when all tasks have returned, the atomic counts are
    the numbers of calls of the two handlers, the shared counter is the number of
    calls of the thread handler, the message belongs to it, the mutex is free and
    every buffer freed. *)
Theorem threaded_irq_accounting tasks steps ps s :
  nsteps (tstep act_step) steps (task_prog <$> tasks, init_state) (ps, s) →
  (steps <= 13 * length tasks)%nat ∧
  (¬ finished ps → ∃ c', tstep act_step (ps, s) c') ∧
  Forall report_ok (shown s) ∧
  (finished ps →
    primary_handler_count s = s32 (Z.of_nat (total primaries tasks)) ∧
    thread_handler_count s = s32 (Z.of_nat (total threads tasks)) ∧
    shared_counter s = s32 (Z.of_nat (total threads tasks)) ∧
    message_ok (shared_counter s) (c_str (shared_message s)) ∧
    shared_data_mutex s = None ∧ buffers s = 0%nat).
Proof.
  intros Hn. assert (irq_inv (total primaries tasks) (total threads tasks) (ps, s)) as Hinv.
  { eapply irq_inv_run; [apply irq_inv_init|]. eapply rtc_nsteps; by eexists. }
  split_and!; [|by eapply irq_progress|by destruct Hinv as (? & _ & _ & _ & ? & _)|by apply all_done].
  eapply (nsteps_bounded _ _ (replicate (length tasks) 13%nat)) in Hn.
  - assert (∀ n, sum_list (replicate n 13%nat) = 13 * n)%nat as Hs; [|by rewrite Hs in Hn].
    induction n; simpl; lia.
  - apply Forall2_same_length_lookup_2; [by rewrite length_replicate, length_fmap|].
    intros i n p [-> _]%lookup_replicate Hp. rewrite list_lookup_fmap in Hp.
    destruct (tasks !! i); simplify_eq/=. apply bounded_task.
Qed.

(** The plain counter of the primary handler loses interrupts.  Two calls that
    overlap, such as an interrupt during a write of 1, can leave irq_counter one
    short of primary_handler_count. *)
Theorem irq_counter_race :
  ∃ ps s, rtc (tstep act_step) (task_prog <$> [Interrupt; Write 1 2], init_state) (ps, s) ∧ finished ps ∧
    primary_handler_count s = 2 ∧ irq_counter s = 1.
Proof.
  eexists _, _. split; [|split; [|split]].
  - eapply rtc_l; [eapply (tstep_do _ _ 1); [reflexivity|constructor]|].
    eapply rtc_l; [eapply (tstep_do _ _ 1); [reflexivity|constructor]|].
    do 3 (eapply rtc_l; [eapply (tstep_do _ _ 0); [reflexivity|constructor]|]).
    eapply rtc_l; [eapply (tstep_do _ _ 1); [reflexivity|constructor]|].
    apply rtc_refl.
  - repeat constructor; by eexists.
  - done.
  - done.
Qed.

(** The calculation of the thread handler stays inside an int at every addition. *)
Lemma complex_calculation_result : complex_calculation (Z.to_nat 10000) 0 0 = Some 49995000.
Proof. by vm_compute. Qed.

(** A write is refused when it is too long, unreadable or not a number, and
    otherwise is the switch on the number the user's string denotes. *)
Lemma advanced_threaded_irq_proc_write_correct {U} `{UserAccessLaws U} (kstrtoint : bytes → option Z)
    input (u : U) buffer count :
  blen input = 8 → 0 <= count →
  (∀ b b', 0 ∈ b → c_str b = c_str b' → kstrtoint b = kstrtoint b') →
  advanced_threaded_irq_proc_write kstrtoint input u buffer count = Some
    (if 8 <=? count then Ret (- EINVAL)
     else if negb ((copy_from_user u buffer count).1 =? 0) then Ret (- EFAULT)
     else match kstrtoint (c_str (uload u buffer count)) with
          | Some value => trigger value count
          | None => Ret (- EINVAL)
          end).
Proof.
  intros Hi Hc Hk. unfold advanced_threaded_irq_proc_write.
  destruct (read_input_correct input u buffer count Hc) as (r & -> & Hr). simpl. rewrite Hi in Hr.
  destruct (8 <=? count); [by subst|]. destruct (negb _); [by subst|].
  destruct Hr as (b & -> & Hnul & Hs). rewrite (Hk b (c_str (uload u buffer count))) by (rewrite ?c_str_idemp; done).
  by destruct (kstrtoint _).
Qed.

(** ** Witness *)

Lemma threaded_irq_accounting_witness :
  ∃ ps s, nsteps (tstep act_step) 3 (task_prog <$> [Interrupt], init_state) (ps, s) ∧
    primary_handler_count s = 1 ∧ thread_handler_count s = 0.
Proof.
  assert (∃ s, nsteps (tstep act_step) 3 (task_prog <$> [Interrupt], init_state) ([Ret IRQ_WAKE_THREAD], s))
    as [s Hn].
  { eexists. do 3 (eapply nsteps_l; [eapply (tstep_do _ _ 0); [reflexivity|constructor]|]). apply nsteps_O. }
  exists [Ret IRQ_WAKE_THREAD], s. split; [exact Hn|].
  destruct (threaded_irq_accounting [Interrupt] 3 [Ret IRQ_WAKE_THREAD] s Hn) as (_ & _ & _ & Hf).
  destruct Hf as (Hp & Ht & _); [by repeat (constructor || eexists)|]. split; [exact Hp|exact Ht].
Defined.
