(* ===== verification/Deferred.v ===== *)
(** * Deferred work

    The machine the timer, tasklet and work-queue demos run on.  A module owns
    some objects (timers, high-resolution timers, tasklets, work items); an object
    that has been queued is pending until the kernel takes it and runs its
    handler.  Init, exit, handlers and the users of the module's /proc file are
    programs of actions ([Threads.prog]) and run interleaved, as on several
    processors.

    The calls have the behaviour the kernel documents (Documentation/core-api/
    workqueue.rst, include/linux/timer.h, hrtimer.h, interrupt.h):
    - queueing an object that is pending leaves it pending; one that runs may be
      queued again, but no object runs twice at once;
    - del_timer_sync, hrtimer_cancel, cancel_work_sync and
      cancel_delayed_work_sync ([Cancel]) wait for a running handler and leave the
      object not pending;
    - tasklet_kill and flush_work ([Flush]) wait until the object is neither
      pending nor running.  That is concluded only of objects that nothing queues
      any more, for which that moment comes;
    - flush_workqueue waits for what was queued before: nothing is assumed of it;
    - destroy_workqueue drains the queue;
    - proc_create fails for a name that is taken; proc_remove waits for the users
      inside the file's methods;
    - timer_pending and a tasklet's TASKLET_STATE_SCHED bit ([IsPending]) say that
      the object is queued and its handler has not been started.
    seq_printf ([SeqPrintf]) appends a line to what readers of the file get.
    Queueing on a work queue that does not exist and removing an entry that is not
    registered are undefined. *)
From stdpp Require Import functions.
From S2P Require Import Prelude Bytes Kernel Threads.

(** The system's own queues, or the work queue of the module. *)
Inductive place := System | Custom.
#[export] Instance place_eq : EqDecision place.
Proof. solve_decision. Defined.

(** [Local f] is one access to the module's variables; [SetProcEntry] and
    [ProcRemoveEntry] assign and use the static variable proc_entry. *)
Inductive act (O V : Type) :=
| Local (f : V → V * Z)
| Queue (q : place) (o : O)
| Cancel (o : O)
| Flush (o : O)
| CreateQueue | FlushQueue | DestroyQueue
| ProcCreate | SetProcEntry (p : Z) | ProcRemoveEntry | ProcRemove (p : Z)
| Msleep
| IsPending (o : O)
| SeqPrintf (txt : bytes).
Arguments Local {O V} _.
Arguments Queue {O V} _ _.
Arguments Cancel {O V} _.
Arguments Flush {O V} _.
Arguments CreateQueue {O V}.
Arguments FlushQueue {O V}.
Arguments DestroyQueue {O V}.
Arguments ProcCreate {O V}.
Arguments SetProcEntry {O V} _.
Arguments ProcRemoveEntry {O V}.
Arguments ProcRemove {O V} _.
Arguments Msleep {O V}.
Arguments IsPending {O V} _.
Arguments SeqPrintf {O V} _.

(** Statements in sequence. *)
Declare Scope prog_scope.
Notation "a ;; p" := (Do a (λ _, p)) (at level 100, p at level 200, right associativity) : prog_scope.

(** A variable is read, or incremented as an int or an atomic_t, the new value
    being the result. *)
Definition read {O V} (get : V → Z) : act O V := Local (λ v, (v, get v)).
Definition increment {O V} (get : V → Z) (set : Z → V → V) : act O V :=
  Local (λ v, let n := s32 (get v + 1) in (set n v, n)).

(** seq_printf of a line, and of a line with a number in it. *)
Definition puts {O V} (s : string) : act O V := SeqPrintf (chars s ++ [10]).
Definition putn {O V} (s : string) (n : Z) (t : string) : act O V := SeqPrintf (chars s ++ dec n ++ chars t ++ [10]).

(** What runs when: the handler of each object, whether a handler's result
    requeues its object (HRTIMER_RESTART), and the programs a user of the /proc
    file may start. *)
Class Demo (O V : Type) := {
  handler : O → prog (act O V);
  restarts : O → Z → bool;
  user : prog (act O V) → Prop
}.

(** The state: what is pending and running and where, the users inside the file,
    whether the entry is registered and the work queue exists, whether something
    undefined has happened, the module's variables, and what readers have been
    given, line by line. *)
Record world (O V : Type) := World {
  pending : O → option place;
  running : O → option (place * prog (act O V));
  users : list (prog (act O V));
  proc : bool; proc_entry : Z; wq : bool; undefined : bool; vars : V; printed : list bytes
}.
Arguments World {O V} _ _ _ _ _ _ _ _ _.
Arguments pending {O V} _ _.
Arguments running {O V} _ _.
Arguments users {O V} _.
Arguments proc {O V} _.
Arguments proc_entry {O V} _.
Arguments wq {O V} _.
Arguments undefined {O V} _.
Arguments vars {O V} _.
Arguments printed {O V} _.

Section machine.
Context {O V : Type} `{EqDecision O} `{Demo O V}.
Implicit Types (w : world O V) (o : O).

Definition set_pending f w :=
  World f (running w) (users w) (proc w) (proc_entry w) (wq w) (undefined w) (vars w) (printed w).
Definition set_running f w :=
  World (pending w) f (users w) (proc w) (proc_entry w) (wq w) (undefined w) (vars w) (printed w).
Definition set_users l w :=
  World (pending w) (running w) l (proc w) (proc_entry w) (wq w) (undefined w) (vars w) (printed w).
Definition set_proc b w :=
  World (pending w) (running w) (users w) b (proc_entry w) (wq w) (undefined w) (vars w) (printed w).
Definition set_proc_entry p w :=
  World (pending w) (running w) (users w) (proc w) p (wq w) (undefined w) (vars w) (printed w).
Definition set_wq b w :=
  World (pending w) (running w) (users w) (proc w) (proc_entry w) b (undefined w) (vars w) (printed w).
Definition set_undefined w :=
  World (pending w) (running w) (users w) (proc w) (proc_entry w) (wq w) true (vars w) (printed w).
Definition set_vars v w :=
  World (pending w) (running w) (users w) (proc w) (proc_entry w) (wq w) (undefined w) v (printed w).
Definition set_printed l w :=
  World (pending w) (running w) (users w) (proc w) (proc_entry w) (wq w) (undefined w) (vars w) l.

(** A module that has just been loaded. *)
Definition loaded (v : V) : world O V := World (λ _, None) (λ _, None) [] false NULL false false v [].

Definition queue (q : place) o w : world O V :=
  if bool_decide (q = Custom) && negb (wq w) then set_undefined w
  else match pending w o with
       | Some _ => w
       | None => set_pending (<[o := Some q]> (pending w)) w
       end.
Definition remove (p : Z) w : world O V :=
  if p =? NULL then w
  else if proc w then set_proc false w else set_undefined w.

Inductive act_step : act O V → world O V → world O V → Z → Prop :=
| step_local f w : act_step (Local f) w (set_vars (f (vars w)).1 w) (f (vars w)).2
| step_queue q o w : act_step (Queue q o) w (queue q o w) 0
| step_cancel o w :
    running w o = None → act_step (Cancel o) w (set_pending (<[o := None]> (pending w)) w) 0
| step_flush o w : pending w o = None → running w o = None → act_step (Flush o) w w 0
| step_create_queue_fails w : act_step CreateQueue w w NULL
| step_create_queue w p : p ≠ NULL → act_step CreateQueue w (set_wq true w) p
| step_flush_queue w : act_step FlushQueue w w 0
| step_destroy_queue w :
    (∀ o, pending w o ≠ Some Custom ∧ ∀ p, running w o ≠ Some (Custom, p)) →
    act_step DestroyQueue w (set_wq false w) 0
| step_proc_create_fails w : act_step ProcCreate w w NULL
| step_proc_create w p : proc w = false → p ≠ NULL → act_step ProcCreate w (set_proc true w) p
| step_set_proc_entry p w : act_step (SetProcEntry p) w (set_proc_entry p w) 0
| step_proc_remove_entry w :
    users w = [] → act_step ProcRemoveEntry w (remove (proc_entry w) w) 0
| step_proc_remove p w : users w = [] → act_step (ProcRemove p) w (remove p w) 0
| step_msleep w : act_step Msleep w w 0
| step_is_pending o w : act_step (IsPending o) w w (Z.b2z (bool_decide (is_Some (pending w o))))
| step_seq_printf txt w : act_step (SeqPrintf txt) w (set_printed (printed w ++ [txt]) w) 0.

(** The program of init or exit, and the state. *)
Definition config : Type := prog (act O V) * world O V.

Inductive step : config → config → Prop :=
| step_main a k w w' v : act_step a w w' v → step (Do a k, w) (k v, w')
| step_fire m w o q :
    pending w o = Some q → running w o = None →
    step (m, w) (m, set_running (<[o := Some (q, handler o)]> (running w))
                      (set_pending (<[o := None]> (pending w)) w))
| step_handler m w w' o q a k v :
    running w o = Some (q, Do a k) → act_step a w w' v →
    step (m, w) (m, set_running (<[o := Some (q, k v)]> (running w')) w')
| step_handler_returns m w o q r :
    running w o = Some (q, Ret r) →
    step (m, w) (m, set_running (<[o := None]> (running w))
      (if restarts o r then queue System o w else w))
| step_user_enters m w p :
    proc w = true → user p → step (m, w) (m, set_users (users w ++ [p]) w)
| step_user m w w' i a k v :
    users w !! i = Some (Do a k) → act_step a w w' v →
    step (m, w) (m, set_users (<[i := k v]> (users w')) w')
| step_user_leaves m w i r :
    users w !! i = Some (Ret r) → step (m, w) (m, set_users (delete i (users w)) w).

(** Nothing of the module is left in the kernel: no handler pending or running,
    no file, no user in it, no work queue. *)
Definition idle w : Prop :=
  (∀ o, pending w o = None ∧ running w o = None) ∧ users w = [] ∧ proc w = false ∧ wq w = false ∧
  undefined w = false.
End machine.

(** ** Running a schedule

    A schedule says who goes next; for an allocating call, [p] is what it
    answers.  [objects] lists the module's objects. *)
Section schedule.
Context {O V : Type} `{EqDecision O} `{Demo O V} (objects : list O).
Implicit Types (w : world O V) (o : O).

Definition on_custom (x : option place) : bool := bool_decide (x = Some Custom).

Definition exec_act (a : act O V) (p : Z) w : option (world O V * Z) :=
  match a with
  | Local f => Some (set_vars (f (vars w)).1 w, (f (vars w)).2)
  | Queue q o => Some (queue q o w, 0)
  | Cancel o =>
      match running w o with
      | None => Some (set_pending (<[o := None]> (pending w)) w, 0)
      | Some _ => None
      end
  | Flush o =>
      match pending w o, running w o with None, None => Some (w, 0) | _, _ => None end
  | CreateQueue => if p =? NULL then Some (w, NULL) else Some (set_wq true w, p)
  | FlushQueue | Msleep => Some (w, 0)
  | DestroyQueue =>
      if forallb (λ o, negb (on_custom (pending w o)) && negb (on_custom (fst <$> running w o))) objects
      then Some (set_wq false w, 0) else None
  | ProcCreate =>
      if p =? NULL then Some (w, NULL) else if proc w then None else Some (set_proc true w, p)
  | SetProcEntry x => Some (set_proc_entry x w, 0)
  | ProcRemoveEntry => match users w with [] => Some (remove (proc_entry w) w, 0) | _ => None end
  | ProcRemove x => match users w with [] => Some (remove x w, 0) | _ => None end
  | IsPending o => Some (w, Z.b2z (bool_decide (is_Some (pending w o))))
  | SeqPrintf txt => Some (set_printed (printed w ++ [txt]) w, 0)
  end.

Inductive event :=
| Main (p : Z) | Fire (o : O) | Handler (o : O) | Enter (p : prog (act O V)) | User (i : nat).

Definition exec (e : event) (c : prog (act O V) * world O V) : option (prog (act O V) * world O V) :=
  let '(m, w) := c in
  match e with
  | Main p =>
      match m with
      | Do a k => '(w, v) ← exec_act a p w; Some (k v, w)
      | Ret _ => None
      end
  | Fire o =>
      match pending w o, running w o with
      | Some q, None =>
          Some (m, set_running (<[o := Some (q, handler o)]> (running w))
                     (set_pending (<[o := None]> (pending w)) w))
      | _, _ => None
      end
  | Handler o =>
      match running w o with
      | Some (q, Do a k) =>
          '(w, v) ← exec_act a NULL w; Some (m, set_running (<[o := Some (q, k v)]> (running w)) w)
      | Some (_, Ret r) =>
          Some (m, set_running (<[o := None]> (running w)) (if restarts o r then queue System o w else w))
      | None => None
      end
  | Enter p => if proc w then Some (m, set_users (users w ++ [p]) w) else None
  | User i =>
      match users w !! i with
      | Some (Do a k) => '(w, v) ← exec_act a NULL w; Some (m, set_users (<[i := k v]> (users w)) w)
      | Some (Ret _) => Some (m, set_users (delete i (users w)) w)
      | None => None
      end
  end.

Fixpoint exec_all (es : list event) c : option (prog (act O V) * world O V) :=
  match es with
  | [] => Some c
  | e :: es => c ← exec e c; exec_all es c
  end.

Context (objects_all : ∀ o, o ∈ objects).

Lemma exec_act_sound a p w w' v : exec_act a p w = Some (w', v) → act_step a w w' v.
Proof.
  destruct a; simpl; intros Hx; simplify_eq; try by constructor.
  - destruct (running w o) eqn:?; simplify_eq. by constructor.
  - destruct (pending w o) eqn:?, (running w o) eqn:?; simplify_eq. by constructor.
  - destruct (Z.eqb_spec p NULL); simplify_eq; by constructor.
  - destruct (forallb _ objects) eqn:E; simplify_eq. constructor. intros o.
    rewrite forallb_forall in E. specialize (E o). rewrite <-list_elem_of_In in E.
    destruct (andb_prop _ _ (E (objects_all o))) as [E1 E2].
    unfold on_custom in *. apply negb_true_iff, bool_decide_eq_false in E1, E2.
    split; [done|]. intros p' Hr. apply E2. by rewrite Hr.
  - destruct (Z.eqb_spec p NULL); simplify_eq; [by constructor|].
    destruct (proc w) eqn:?; simplify_eq. by constructor.
  - destruct (users w) eqn:?; simplify_eq. by constructor.
  - destruct (users w) eqn:?; simplify_eq. by constructor.
Qed.

Lemma exec_sound e c c' : (∀ p, e = Enter p → user p) → exec e c = Some c' → step c c'.
Proof.
  destruct c as [m w], e as [p|o|o|p|i]; simpl; intros Hu Hx.
  - destruct m as [|a k]; [done|]. destruct (exec_act a p w) as [[w' v]|] eqn:E; simplify_eq/=.
    apply step_main. by eapply exec_act_sound.
  - destruct (pending w o) as [q|] eqn:?, (running w o) eqn:?; simplify_eq. by apply step_fire.
  - destruct (running w o) as [[q [r|a k]]|] eqn:?; simplify_eq; [by eapply step_handler_returns|].
    destruct (exec_act a NULL w) as [[w' v]|] eqn:E; simplify_eq/=.
    eapply step_handler; [done|by eapply exec_act_sound].
  - destruct (proc w) eqn:?; simplify_eq. apply step_user_enters; auto.
  - destruct (users w !! i) as [[r|a k]|] eqn:?; simplify_eq; [by eapply step_user_leaves|].
    destruct (exec_act a NULL w) as [[w' v]|] eqn:E; simplify_eq/=.
    eapply step_user; [done|by eapply exec_act_sound].
Qed.

Lemma exec_all_sound es c c' :
  (∀ p, Enter p ∈ es → user p) → exec_all es c = Some c' → rtc step c c'.
Proof.
  revert c. induction es as [|e es IH]; intros c Hu Hx; simplify_eq/=; [apply rtc_refl|].
  destruct (exec e c) as [c1|] eqn:E; simplify_eq/=.
  eapply rtc_l; [|apply IH; [set_solver|done]].
  apply (exec_sound e); [|done]. intros p ->. apply Hu. set_solver.
Qed.

(** A schedule that ends in a state with a property is a run to one. *)
Lemma schedule_reaches es c r (P : world O V → Prop) :
  (∀ p, Enter p ∈ es → user p) →
  match exec_all es c with Some (Ret r', w) => r' = r ∧ P w | _ => False end →
  ∃ w, rtc step c (Ret r, w) ∧ P w.
Proof.
  intros Hu Hm. destruct (exec_all es c) as [[[r'|] w]|] eqn:E; try done.
  destruct Hm as [-> Hp]. exists w. split; [by eapply exec_all_sound|done].
Qed.

(** The same for a load followed by an unload. *)
Lemma schedules_reach es es' init exit w0 (P : world O V → Prop) :
  (∀ p, Enter p ∈ es ++ es' → user p) →
  match exec_all es (init, w0) with
  | Some (Ret r, w) =>
      r = 0 ∧ match exec_all es' (exit, w) with Some (Ret r', w') => r' = 0 ∧ P w' | _ => False end
  | _ => False
  end →
  ∃ w, rtc step (init, w0) (Ret 0, w) ∧ ∃ w', rtc step (exit, w) (Ret 0, w') ∧ P w'.
Proof.
  intros Hu Hm. apply (schedule_reaches es); [set_solver|].
  destruct (exec_all es (init, w0)) as [[[r|] w]|]; try done. destruct Hm as [-> Hm]. split; [done|].
  apply (schedule_reaches es'); [set_solver|done].
Qed.
End schedule.

(** ** Readers

    What a show function prints when nothing else runs meanwhile: the lines, and
    the state after it; [None] for a program that does more than read and print. *)
Section readers.
Context {O V : Type} `{EqDecision O} `{Demo O V}.
Implicit Types (w : world O V).

Fixpoint shown (p : prog (act O V)) w : option (list bytes) :=
  match p with
  | Ret _ => Some []
  | Do (Local f) k => shown (k (f (vars w)).2) (set_vars (f (vars w)).1 w)
  | Do (IsPending o) k => shown (k (Z.b2z (bool_decide (is_Some (pending w o))))) w
  | Do (SeqPrintf txt) k => lines ← shown (k 0) w; Some (txt :: lines)
  | Do _ _ => None
  end.

Lemma shown_ext p w w' : pending w = pending w' → vars w = vars w' → shown p w = shown p w'.
Proof.
  revert w w'. induction p as [r|[] k IH]; intros w w' Hp Hv; simpl; try done.
  - rewrite Hv. apply IH; simpl; by rewrite ?Hv.
  - rewrite Hp. by apply IH.
  - by rewrite (IH 0 w w').
Qed.

(** A reader in the file can print these lines and leave. *)
Lemma shown_inside p m w l lines :
  users w = p :: l → shown p w = Some lines →
  ∃ w', rtc step (m, w) (m, w') ∧ users w' = l ∧ printed w' = printed w ++ lines ∧
    running w' = running w ∧ pending w' = pending w.
Proof.
  revert w lines. induction p as [r|a k IH]; intros w lines Hu Hs.
  - injection Hs as <-. exists (set_users l w). split.
    + apply rtc_once. replace l with (delete 0%nat (users w)) by by rewrite Hu. eapply step_user_leaves. by rewrite Hu.
    + by rewrite app_nil_r.
  - assert (∀ w1 v, act_step a w w1 v → users w1 = users w →
      rtc step (m, w) (m, set_users (k v :: l) w1)) as Hstep.
    { intros w1 v Ha Hu1. apply rtc_once. replace (k v :: l) with (<[0%nat := k v]> (users w1)) by by rewrite Hu1, Hu.
      eapply step_user; [by rewrite Hu|done]. }
    destruct a as [f| | | | | | | | | | | |o|txt]; simpl in Hs; try done.
    + destruct (IH (f (vars w)).2 (set_users (k (f (vars w)).2 :: l) (set_vars (f (vars w)).1 w)) lines) as (w' & Hr & Hw); [done|by rewrite <-Hs; apply shown_ext|].
      exists w'. split; [|exact Hw]. etrans; [|exact Hr]. by apply Hstep; [constructor|].
    + destruct (IH (Z.b2z (bool_decide (is_Some (pending w o)))) (set_users (k (Z.b2z (bool_decide (is_Some (pending w o)))) :: l) w) lines) as (w' & Hr & Hw); [done|by rewrite <-Hs; apply shown_ext|].
      exists w'. split; [|exact Hw]. etrans; [|exact Hr]. by apply Hstep; [constructor|].
    + destruct (shown (k 0) w) as [lines'|] eqn:E; [|done]. injection Hs as <-.
      destruct (IH 0 (set_users (k 0 :: l) (set_printed (printed w ++ [txt]) w)) lines') as (w' & Hr & Hu' & Hp & Hw); [done|by rewrite <-E; apply shown_ext|].
      exists w'. split; [|split; [done|split; [by rewrite Hp; simpl; rewrite <-app_assoc|done]]]. etrans; [|exact Hr]. by apply Hstep; [constructor|].
Qed.
End readers.

(** ** The teardown discipline

    What a module's handlers and users may queue, and where: [queues o o'] when
    the handler of [o] may queue [o'], [user_queues o] when a user may, [custom o]
    when the handler of [o] may queue on the module's own work queue, and
    [custom_only o] when [o] is queued nowhere else. *)
Class Discipline (O V : Type) := {
  queues : O → O → bool;
  user_queues : O → bool;
  custom : O → bool;
  custom_only : O → bool
}.

Section discipline.
Context {O V : Type} `{EqDecision O} `{Demo O V} `{Discipline O V}.
Implicit Types (w : world O V) (o : O).

Definition place_ok (q : place) o : Prop := q = System → custom_only o = false.

(** [quiet D c p]: all that [p] does is to use the module's variables, sleep, print,
    and queue objects in [D], on the module's queue only if [c]. *)
Inductive quiet (D : O → bool) (c : bool) : prog (act O V) → Prop :=
| quiet_ret r : quiet D c (Ret r)
| quiet_local f k : (∀ v, quiet D c (k v)) → quiet D c (Do (Local f) k)
| quiet_msleep k : (∀ v, quiet D c (k v)) → quiet D c (Do Msleep k)
| quiet_queue q o k :
    D o = true → (q = Custom → c = true) → place_ok q o → (∀ v, quiet D c (k v)) →
    quiet D c (Do (Queue q o) k)
| quiet_is_pending o k : (∀ v, quiet D c (k v)) → quiet D c (Do (IsPending o) k)
| quiet_seq_printf txt k : (∀ v, quiet D c (k v)) → quiet D c (Do (SeqPrintf txt) k).

Class DisciplineLaws := {
  handler_quiet o : quiet (queues o) (custom o) (handler o);
  user_quiet p : user p → quiet user_queues false p;
  restarts_queues o r : restarts o r = true → queues o o = true ∧ custom_only o = false
}.

(** What is known while init or exit runs: the objects that are neither pending
    nor running and that nothing alive can queue, how far the file is ([Created]
    but not assigned to proc_entry, or [Assigned] whether or not it was created),
    and whether the work queue exists. *)
Inductive file := NoFile | Created | Assigned.
#[export] Instance file_eq : EqDecision file.
Proof. solve_decision. Defined.
Record phase := Phase { dead : O → bool; entry : file; has_wq : bool }.

Definition closed (φ : phase) : Prop :=
  (∀ o o', dead φ o = false → queues o o' = true → dead φ o' = false) ∧
  (entry φ ≠ NoFile → ∀ o, user_queues o = true → dead φ o = false) ∧
  (has_wq φ = false → ∀ o, custom o = true → dead φ o = true).

Record holds (φ : phase) w : Prop := {
  h_defined : undefined w = false;
  h_closed : closed φ;
  h_dead o : dead φ o = true → pending w o = None ∧ running w o = None;
  h_running o q p : running w o = Some (q, p) → quiet (queues o) (custom o) p ∧ place_ok q o;
  h_pending o q : pending w o = Some q → place_ok q o;
  h_users : Forall (quiet user_queues false) (users w);
  h_nobody : proc w = false → users w = [];
  h_file : match entry φ with
           | NoFile => proc w = false
           | Created => proc w = true
           | Assigned => proc w = bool_decide (proc_entry w ≠ NULL)
           end;
  h_wq : wq w = has_wq φ;
  h_custom : wq w = false → ∀ o, pending w o ≠ Some Custom ∧ ∀ p, running w o ≠ Some (Custom, p)
}.

Definition with_dead D φ := Phase D (entry φ) (has_wq φ).
Definition with_entry e φ := Phase (dead φ) e (has_wq φ).
Definition with_wq b φ := Phase (dead φ) (entry φ) b.

(** [typed φ Q p]: init or exit may run [p] when [φ] is known, and when it
    returns [r] some phase [φ'] with [Q r φ'] is known. *)
Inductive typed (Q : Z → phase → Prop) : phase → prog (act O V) → Prop :=
| ty_ret φ r : Q r φ → typed Q φ (Ret r)
| ty_weaken φ D p :
    (∀ o, D o = true → dead φ o = true) → closed (with_dead D φ) →
    typed Q (with_dead D φ) p → typed Q φ p
| ty_local φ f k : (∀ v, typed Q φ (k v)) → typed Q φ (Do (Local f) k)
| ty_msleep φ k : (∀ v, typed Q φ (k v)) → typed Q φ (Do Msleep k)
| ty_flush_queue φ k : (∀ v, typed Q φ (k v)) → typed Q φ (Do FlushQueue k)
| ty_queue φ q o k :
    dead φ o = false → (q = Custom → has_wq φ = true) → place_ok q o →
    (∀ v, typed Q φ (k v)) → typed Q φ (Do (Queue q o) k)
| ty_cancel φ o k :
    closed (with_dead (<[o := true]> (dead φ)) φ) →
    (∀ v, typed Q (with_dead (<[o := true]> (dead φ)) φ) (k v)) → typed Q φ (Do (Cancel o) k)
| ty_flush φ o k :
    queues o o = false → closed (with_dead (<[o := true]> (dead φ)) φ) →
    (∀ v, typed Q (with_dead (<[o := true]> (dead φ)) φ) (k v)) → typed Q φ (Do (Flush o) k)
| ty_flush_only φ o k :
    queues o o = false → (∀ v, typed Q φ (k v)) → typed Q φ (Do (Flush o) k)
| ty_create_queue φ k :
    has_wq φ = false → typed Q φ (k NULL) → (∀ v, v ≠ NULL → typed Q (with_wq true φ) (k v)) →
    typed Q φ (Do CreateQueue k)
| ty_destroy_queue φ D k :
    (∀ o, D o = true → dead φ o = true ∨ custom_only o = true) →
    (∀ o, dead φ o = false → custom o = false) →
    has_wq φ = true → closed (with_wq false (with_dead D φ)) →
    (∀ v, typed Q (with_wq false (with_dead D φ)) (k v)) → typed Q φ (Do DestroyQueue k)
| ty_proc_create φ k :
    entry φ = NoFile → closed (with_entry Created φ) → typed Q φ (k NULL) →
    (∀ v, v ≠ NULL → typed Q (with_entry Created φ) (k v)) → typed Q φ (Do ProcCreate k)
| ty_proc_create_again φ k :
    entry φ = Created → typed Q φ (k NULL) → typed Q φ (Do ProcCreate k)
| ty_set_entry φ v k :
    (entry φ = NoFile ∧ v = NULL ∧ closed (with_entry Assigned φ)) ∨ (entry φ = Created ∧ v ≠ NULL) →
    (∀ u, typed Q (with_entry Assigned φ) (k u)) → typed Q φ (Do (SetProcEntry v) k)
| ty_set_entry_null φ v k :
    entry φ = NoFile → (∀ u, typed Q φ (k u)) → typed Q φ (Do (SetProcEntry v) k)
| ty_remove_entry φ k :
    entry φ = Assigned → (∀ v, typed Q (with_entry NoFile φ) (k v)) → typed Q φ (Do ProcRemoveEntry k)
| ty_remove_null φ k : (∀ v, typed Q φ (k v)) → typed Q φ (Do (ProcRemove NULL) k).

(** ** Soundness of the discipline *)

Lemma queue_cases q o w :
  (q = Custom → wq w = true) →
  queue q o w = match pending w o with
                | Some _ => w
                | None => set_pending (<[o := Some q]> (pending w)) w
                end.
Proof.
  intros Hq. unfold queue. case_bool_decide as E; simpl; [|done]. by rewrite Hq.
Qed.

Lemma holds_queue φ w q o :
  holds φ w → dead φ o = false → (q = Custom → wq w = true) → place_ok q o → holds φ (queue q o w).
Proof.
  intros Hh Ho Hq Hp. rewrite queue_cases by done. destruct (pending w o) as [q'|] eqn:E; [done|].
  destruct Hh as [Hu Hc Hd Hr Hpe Hus Hn Hf Hw Hcu]. constructor; simpl; try done.
  - intros o' Ho'. destruct (decide (o = o')) as [<-|Hne]; [congruence|].
    rewrite fn_lookup_insert_ne by done. auto.
  - intros o' q'. destruct (decide (o = o')) as [<-|Hne].
    + rewrite fn_lookup_insert. by intros [= <-].
    + rewrite fn_lookup_insert_ne by done. apply Hpe.
  - intros Hwq o'. destruct (Hcu Hwq o') as [H1 H2]. split; [|done].
    destruct (decide (o = o')) as [<-|Hne]; [|by rewrite fn_lookup_insert_ne].
    rewrite fn_lookup_insert. intros [= ->]. rewrite Hq in Hwq; done.
Qed.

(** A quiet action keeps what is known. *)
Lemma holds_quiet φ w w' D c a k v :
  holds φ w → quiet D c (Do a k) → (∀ o, D o = true → dead φ o = false) → (c = true → wq w = true) →
  act_step a w w' v →
  holds φ w' ∧ quiet D c (k v) ∧ running w' = running w ∧ users w' = users w ∧ proc w' = proc w.
Proof.
  intros Hh Hq HD Hc Hst. inversion Hq; subst; inversion Hst; subst.
  - split; [|done]. by destruct Hh; constructor.
  - done.
  - rewrite queue_cases by auto. split; [rewrite <-queue_cases by auto; apply holds_queue; auto|].
    split; [done|]. by destruct (pending w o).
  - done.
  - split; [|done]. by destruct Hh; constructor.
Qed.

Lemma holds_running φ w o x :
  holds φ w → dead φ o = false →
  (∀ q p, x = Some (q, p) → quiet (queues o) (custom o) p ∧ place_ok q o ∧ (q = Custom → wq w = true)) →
  holds φ (set_running (<[o := x]> (running w)) w).
Proof.
  intros [Hu Hc Hd Hr Hpe Hus Hn Hf Hw Hcu] Ho Hx. constructor; simpl; try done.
  - intros o' Ho'. rewrite fn_lookup_insert_ne by congruence. auto.
  - intros o' q p. destruct (decide (o = o')) as [<-|Hne].
    + rewrite fn_lookup_insert. intros E. by destruct (Hx q p E) as (? & ? & _).
    + rewrite fn_lookup_insert_ne by done. apply Hr.
  - intros Hwq o'. destruct (Hcu Hwq o') as [H1 H2]. split; [done|]. intros p.
    destruct (decide (o = o')) as [<-|Hne]; [|by rewrite fn_lookup_insert_ne].
    rewrite fn_lookup_insert. intros E. destruct (Hx _ _ E) as (_ & _ & Hq).
    rewrite Hq in Hwq; done.
Qed.

Lemma holds_unqueue φ w o : holds φ w → holds φ (set_pending (<[o := None]> (pending w)) w).
Proof.
  intros [Hu Hc Hd Hr Hpe Hus Hn Hf Hw Hcu].
  assert (∀ o' q, <[o := None]> (pending w) o' = Some q → pending w o' = Some q) as Hsub.
  { intros o' q. destruct (decide (o = o')) as [<-|Hne];
      [by rewrite fn_lookup_insert|by rewrite fn_lookup_insert_ne]. }
  constructor; simpl; try done.
  - intros o' Ho'. destruct (Hd o' Ho') as [H1 H2]. split; [|done].
    destruct (<[o:=None]> (pending w) o') eqn:E; [|done]. apply Hsub in E. congruence.
  - eauto.
  - intros Hwq o'. destruct (Hcu Hwq o') as [H1 H2]. split; [|done]. eauto.
Qed.

Lemma holds_users φ w l :
  holds φ w → Forall (quiet user_queues false) l → (proc w = false → l = []) → holds φ (set_users l w).
Proof. intros [] Hl Hn. by constructor. Qed.

Context `{!DisciplineLaws}.

(** Handlers and users keep what is known. *)
Lemma holds_other_step φ m m' w w' :
  holds φ w → step (m, w) (m', w') → m' = m ∧ holds φ w' ∨
  ∃ a k v, m = Do a k ∧ m' = k v ∧ act_step a w w' v.
Proof.
  intros Hh Hst. pose proof Hh as Hh'. destruct Hh' as [Hu Hc Hd Hr Hpe Hus Hn Hf Hw Hcu].
  assert (∀ o x, running w o = Some x → dead φ o = false) as Hlive.
  { intros o x Hx. destruct (dead φ o) eqn:E; [|done]. destruct (Hd o E). congruence. }
  assert (∀ o, dead φ o = false → custom o = true → wq w = true) as Hcw.
  { intros o Ho Hco. rewrite Hw. destruct (has_wq φ) eqn:E; [done|].
    destruct Hc as (_ & _ & Hc). rewrite (Hc E o Hco) in Ho. done. }
  inversion Hst as [a k ? ? v Ha|? ? o q Hp Hro|? ? w1 o q a k v Hro Ha|? ? o q r Hro|? ? p Hpr Hup
    |? ? w1 i a k v Hi Ha|? ? i r Hi]; subst; [right; by exists a, k, v|..]; left; (split; [done|]).
  - assert (dead φ o = false) as Ho.
    { destruct (dead φ o) eqn:E; [|done]. destruct (Hd o E). congruence. }
    eapply (holds_running φ (set_pending (<[o := None]> (pending w)) w)); [by apply holds_unqueue|done|].
    intros q' p [= <- <-]. split; [apply handler_quiet|]. split; [by eauto|]. intros ->. simpl.
    destruct (wq w) eqn:E; [done|]. by destruct (proj1 (Hcu eq_refl o)).
  - destruct (Hr o q _ Hro) as [Hq Hpl]. pose proof (Hlive o _ Hro) as Ho.
    destruct (holds_quiet φ w w1 _ _ a k v Hh Hq) as (Hh1 & Hk & Er & _); [|by eauto|done|].
    { intros o' Ho'. by apply (proj1 Hc o). }
    apply holds_running; [done|done|]. intros q' p [= <- <-]. split_and!; [done|done|].
    intros ->. destruct Hh1 as [_ _ _ _ _ _ _ _ _ Hcu1]. destruct (wq w1); [done|].
    exfalso. apply (proj2 (Hcu1 eq_refl o) (Do a k)). by rewrite Er.
  - pose proof (Hlive o _ Hro) as Ho.
    assert (holds φ (if restarts o r then queue System o w else w)) as Hh1.
    { destruct (restarts o r) eqn:E; [|done]. destruct (restarts_queues o r E) as [_ ?].
      apply holds_queue; [done..|by intros _]. }
    assert (running (if restarts o r then queue System o w else w) = running w) as Er.
    { destruct (restarts o r); [|done]. unfold queue. simpl. by destruct (pending w o). }
    rewrite <-Er. by apply holds_running.
  - apply holds_users; [done| |congruence]. apply Forall_app. split; [done|]. constructor; [by apply user_quiet|done].
  - pose proof (proj1 (Forall_lookup _ _) Hus _ _ Hi) as Hq. simpl in Hq.
    assert (proc w = true) as Hpr.
    { destruct (proc w); [done|]. by rewrite Hn in Hi. }
    assert (entry φ ≠ NoFile) as Hen.
    { intros E. rewrite E in Hf. congruence. }
    destruct (holds_quiet φ w w1 _ _ a k v Hh Hq) as (Hh1 & Hk & _ & Eu & Ep); [|done|done|].
    { intros o. by apply (proj1 (proj2 Hc)). }
    rewrite Eu. apply holds_users; [done| |congruence]. by apply Forall_insert.
  - apply holds_users; [done|by apply Forall_delete|]. intros Hpr. by rewrite (Hn Hpr) in Hi.
Qed.

Lemma holds_weaken φ D w :
  holds φ w → (∀ o, D o = true → dead φ o = true) → closed (with_dead D φ) → holds (with_dead D φ) w.
Proof. intros [] HD Hc. constructor; simpl; auto. Qed.

(** After waiting for an object that is not pending. *)
Lemma holds_dead φ w o :
  holds φ w → pending w o = None → running w o = None →
  closed (with_dead (<[o := true]> (dead φ)) φ) → holds (with_dead (<[o := true]> (dead φ)) φ) w.
Proof.
  intros [Hu Hc Hd Hr Hpe Hus Hn Hf Hw Hcu] Hp Hro Hcl. constructor; simpl; try done.
  intros o' Ho'. destruct (decide (o = o')) as [<-|Hne]; [done|].
  rewrite fn_lookup_insert_ne in Ho' by done. auto.
Qed.

Lemma typed_step Q φ w w' a k v :
  holds φ w → typed Q φ (Do a k) → act_step a w w' v → ∃ φ', holds φ' w' ∧ typed Q φ' (k v).
Proof.
  intros Hh Hty. remember (Do a k) as p eqn:Ep. revert Hh Ep.
  induction Hty as [|φ D p HD Hc Hty IH|φ f k' Hk|φ k' Hk|φ k' Hk|φ q o k' Ho Hq Hp Hk|φ o k' Hc Hk
    |φ o k' Hs Hc Hk|φ o k' Hs Hk|φ k' He Hk0 _ Hk|φ D k' HD _ He Hc Hk|φ k' He Hc Hk0 _ Hk|φ k' He Hk0 _
    |φ x k' Hx Hk|φ x k' He Hk|φ k' He Hk|φ k' Hk]; intros Hh Ep; simplify_eq; intros Hst.
  { apply IH; [by apply holds_weaken|done|done]. }
  all: inversion Hst; subst; try (eexists; split; [exact Hh|by auto]).
  - eexists. split; [|by auto]. by destruct Hh; constructor.
  - eexists. split; [|by auto]. apply holds_queue; [done..| |done]. intros E. rewrite (h_wq _ _ Hh). auto.
  - eexists. split; [|by auto].
    apply (holds_dead _ (set_pending (<[o := None]> (pending w)) w)); [by apply holds_unqueue| |done|done].
    simpl. apply fn_lookup_insert.
  - eexists. split; [|by auto]. by apply holds_dead.
  - exists (with_wq true φ). split; [|by auto]. destruct Hh as [Hu [Hc1 [Hc2 _]] Hd Hr Hpe Hus Hn Hf Hw Hcu].
    by constructor.
  - exists (with_wq false (with_dead D φ)). split; [|by auto].
    destruct Hh as [Hu Hcl Hd Hr Hpe Hus Hn Hf Hw Hcu]. constructor; simpl; try done.
    intros o Ho. destruct (HD o Ho) as [?|Hco]; [by apply Hd|].
    match goal with H : ∀ o, pending w o ≠ Some Custom ∧ (∀ p, running w o ≠ Some (Custom, p)) |- _ =>
      destruct (H o) as [Hp1 Hp2] end. split.
    + destruct (pending w o) as [[]|] eqn:E; [|done|done]. by rewrite (Hpe o System E eq_refl) in Hco.
    + destruct (running w o) as [[[] p]|] eqn:E; [|by destruct (Hp2 p)|done].
      destruct (Hr o System p E) as [_ Hpl]. by rewrite (Hpl eq_refl) in Hco.
  - exists (with_entry Created φ). split; [|by auto]. destruct Hh as [Hu Hcl Hd Hr Hpe Hus Hn Hf Hw Hcu].
    rewrite He in Hf. constructor; simpl; try done.
  - pose proof (h_file _ _ Hh) as Hf. rewrite He in Hf. congruence.
  - eexists. split; [|by auto]. destruct Hh as [Hu Hcl Hd Hr Hpe Hus Hn Hf Hw Hcu].
    destruct Hx as [(He & -> & Hc)|[He Hne]]; rewrite He in Hf; constructor; simpl; try done.
    { destruct Hcl as (?&Hcl&?). split_and!; simpl; [done| |done]. intros _. apply Hcl. by rewrite He. }
    by rewrite bool_decide_eq_true_2.
  - exists φ. split; [|by auto]. destruct Hh as [Hu Hcl Hd Hr Hpe Hus Hn Hf Hw Hcu]. rewrite He in Hf.
    constructor; simpl; try done. by rewrite He.
  - exists (with_entry NoFile φ). split; [|by auto].
    destruct Hh as [Hu Hcl Hd Hr Hpe Hus Hn Hf Hw Hcu]. rewrite He in Hf. unfold remove.
    destruct Hcl as (?&?&?).
    destruct (Z.eqb_spec (proc_entry w) NULL) as [E|E].
    + rewrite bool_decide_eq_false_2 in Hf by auto. by constructor.
    + rewrite Hf, bool_decide_eq_true_2 by done. by constructor.
Qed.

Lemma typed_returns Q φ w r : holds φ w → typed Q φ (Ret r) → ∃ φ', holds φ' w ∧ Q r φ'.
Proof.
  intros Hh Hty. remember (Ret r) as p eqn:Ep. revert Hh Ep.
  induction Hty; intros Hh Ep; simplify_eq; eauto using holds_weaken.
Qed.

(** What holds of init or exit and the state throughout a run. *)
Definition on_course (Q : Z → phase → Prop) (c : prog (act O V) * world O V) : Prop :=
  ∃ φ, holds φ c.2 ∧ typed Q φ c.1.

Lemma on_course_step Q c c' : on_course Q c → step c c' → on_course Q c'.
Proof.
  destruct c as [m w], c' as [m' w']. intros (φ & Hh & Hty) Hst. simpl in *.
  destruct (holds_other_step φ m m' w w' Hh Hst) as [[-> Hh1]|(a & k & v & -> & -> & Ha)].
  - by exists φ.
  - by eapply typed_step.
Qed.

Lemma on_course_run Q c c' : on_course Q c → rtc step c c' → on_course Q c'.
Proof. intros Hc Hrun. induction Hrun; eauto using on_course_step. Qed.

(** Whatever the schedule, a typed init or exit returns only in a phase it may. *)
Lemma typed_run Q φ p w r w' :
  holds φ w → typed Q φ p → rtc step (p, w) (Ret r, w') → ∃ φ', holds φ' w' ∧ Q r φ'.
Proof.
  intros Hh Hty Hrun. destruct (on_course_run Q (p, w) (Ret r, w')) as (φ' & Hh' & Hty');
    [by exists φ|done|].
  by eapply typed_returns.
Qed.

(** ** Init and exit can always return

    [reaches w w']: handlers and users alone can take the state there. *)
Definition reaches w w' : Prop := ∀ m, rtc step (m, w) (m, w').

Lemma reaches_refl w : reaches w w.
Proof. intros m. apply rtc_refl. Qed.
Lemma reaches_trans w1 w2 w3 : reaches w1 w2 → reaches w2 w3 → reaches w1 w3.
Proof. intros Hr1 Hr2 m. etrans; [apply Hr1|apply Hr2]. Qed.
Lemma reaches_step w w' : (∀ m, step (m, w) (m, w')) → reaches w w'.
Proof. intros Hs m. by apply rtc_once. Qed.

Lemma reaches_holds φ w w' : holds φ w → reaches w w' → holds φ w'.
Proof.
  intros Hh Hr. destruct (typed_run (λ _ φ', φ' = φ) φ (Ret 0) w 0 w' Hh) as (φ' & Hh' & ->);
    [by constructor|by apply Hr|done].
Qed.

(** A handler can run to its end by itself. *)
Lemma run_handler φ w o q p :
  holds φ w → running w o = Some (q, p) →
  ∃ w', reaches w w' ∧ running w' o = None ∧ (∀ o', o' ≠ o → running w' o' = running w o') ∧
    users w' = users w ∧ (∀ o', queues o o' = false → pending w' o' = pending w o') ∧
    (custom o = false → ∀ o', pending w' o' = Some Custom → pending w o' = Some Custom).
Proof.
  revert w. induction p as [r|a k IH]; intros w Hh Hro.
  - eexists. split; [apply reaches_step; intros m; by eapply step_handler_returns|]. simpl.
    split; [apply fn_lookup_insert|].
    split; [intros o' Hne; by rewrite fn_lookup_insert_ne by done|].
    destruct (restarts o r) eqn:E; [|done]. destruct (restarts_queues o r E) as [Hqo _].
    rewrite queue_cases by done. destruct (pending w o); [done|]. simpl. split; [done|].
    split; [intros o' Ho'|intros _ o'].
    + rewrite fn_lookup_insert_ne by congruence. done.
    + destruct (decide (o = o')) as [<-|Hne]; [by rewrite fn_lookup_insert|by rewrite fn_lookup_insert_ne].
  - destruct (h_running _ _ Hh o q _ Hro) as [Hq _].
    assert (∃ w1 v, act_step a w w1 v ∧ running w1 = running w ∧ users w1 = users w ∧
      (∀ o', queues o o' = false → pending w1 o' = pending w o') ∧
      (custom o = false → ∀ o', pending w1 o' = Some Custom → pending w o' = Some Custom))
      as (w1 & v & Ha & E1 & E2 & E3 & E4).
    { inversion Hq as [|f k' Hk|k' Hk|q' o1 k' Hqo Hc Hp Hk|o1 k' Hk|t k' Hk]; subst; do 2 eexists;
        (split; [by constructor|]); try done. unfold queue.
      destruct (bool_decide (q' = Custom) && negb (wq w)); [done|]. destruct (pending w o1) eqn:E; [done|].
      simpl. split_and!; [done|done|intros o' Ho'|intros Hco o'].
      - rewrite fn_lookup_insert_ne by congruence. done.
      - destruct (decide (o1 = o')) as [<-|Hne]; [|by rewrite fn_lookup_insert_ne].
        rewrite fn_lookup_insert. intros [= ->]. by rewrite Hc in Hco. }
    set (w2 := set_running (<[o := Some (q, k v)]> (running w1)) w1).
    assert (reaches w w2) as Hr by (apply reaches_step; intros m; by eapply step_handler).
    destruct (IH v w2) as (w' & Hr' & F1 & F2 & F3 & F4 & F5).
    { by eapply reaches_holds. }
    { apply fn_lookup_insert. }
    exists w'. split; [by eapply reaches_trans|]. split; [done|]. simpl in *. split_and!.
    + intros o' Hne. rewrite F2, fn_lookup_insert_ne by done. by rewrite E1.
    + congruence.
    + intros o' Ho'. rewrite F4, E3; done.
    + auto.
Qed.

Lemma run_user φ w p l :
  holds φ w → users w = p :: l → ∃ w', reaches w w' ∧ users w' = l ∧ running w' = running w.
Proof.
  revert w. induction p as [r|a k IH]; intros w Hh Hu.
  - eexists. split; [apply reaches_step; intros m; apply (step_user_leaves _ _ 0 r); by rewrite Hu|].
    simpl. by rewrite Hu.
  - pose proof (h_users _ _ Hh) as Hus. rewrite Hu in Hus. apply Forall_cons in Hus as [Hq _].
    assert (∃ w1 v, act_step a w w1 v ∧ running w1 = running w ∧ users w1 = users w)
      as (w1 & v & Ha & E1 & E2).
    { inversion Hq as [|f k' Hk|k' Hk|q' o1 k' Hqo Hc Hp Hk|o1 k' Hk|t k' Hk]; subst; do 2 eexists;
        (split; [by constructor|]); try done. unfold queue.
      destruct (bool_decide (q' = Custom) && negb (wq w)); [done|]. by destruct (pending w o1). }
    set (w2 := set_users (<[0%nat := k v]> (users w1)) w1).
    assert (reaches w w2) as Hr.
    { apply reaches_step. intros m. eapply step_user; [by rewrite Hu|done]. }
    destruct (IH v w2) as (w' & Hr' & F1 & F2).
    { by eapply reaches_holds. }
    { simpl. by rewrite E2, Hu. }
    exists w'. split; [by eapply reaches_trans|]. split; [done|]. simpl in *. congruence.
Qed.

Lemma drain_users φ w : holds φ w → ∃ w', reaches w w' ∧ users w' = [] ∧ running w' = running w.
Proof.
  remember (users w) as l eqn:E. revert w E. induction l as [|p l IH]; intros w E Hh.
  { exists w. split; [apply reaches_refl|done]. }
  destruct (run_user φ w p l) as (w1 & Hr & Hu & Hro); [done..|].
  destruct (IH w1) as (w' & Hr' & Hu' & Hro'); [done|by eapply reaches_holds|].
  exists w'. split; [by eapply reaches_trans|]. split; [done|congruence].
Qed.

Lemma drain_object φ w o :
  holds φ w → ∃ w', reaches w w' ∧ running w' o = None ∧
    (∀ o', running w o' = None → running w' o' = None).
Proof.
  intros Hh. destruct (running w o) as [[q p]|] eqn:E; [|exists w; split; [apply reaches_refl|done]].
  destruct (run_handler φ w o q p Hh E) as (w' & Hr & Ho & Hne & _). exists w'. split_and!; [done|done|].
  intros o' Ho'. destruct (decide (o' = o)) as [->|]; [done|]. by rewrite Hne.
Qed.

(** The objects of a module are finitely many. *)
Context (objects : list O) (objects_all : ∀ o, o ∈ objects).

Lemma drain_running φ w : holds φ w → ∃ w', reaches w w' ∧ ∀ o, running w' o = None.
Proof.
  intros Hh. assert (∀ l : list O, ∃ w', reaches w w' ∧ ∀ o, o ∈ l → running w' o = None) as Hl.
  { induction l as [|o l (w1 & Hr & Hall)].
    { exists w. split; [apply reaches_refl|]. set_solver. }
    destruct (drain_object φ w1 o) as (w' & Hr' & Ho & Hk); [by eapply reaches_holds|].
    exists w'. split; [by eapply reaches_trans|]. intros o' [->|Ho']%elem_of_cons; auto. }
  destruct (Hl objects) as (w' & Hr & Hall). eauto.
Qed.

(** An idle object can be fired and run. *)
Lemma fire φ w o q :
  holds φ w → (∀ o, running w o = None) → pending w o = Some q →
  ∃ w', reaches w w' ∧ (∀ o, running w' o = None) ∧
    (queues o o = false → pending w' o = None) ∧
    (custom o = false → ∀ o', pending w' o' = Some Custom → pending w o' = Some Custom ∧ o' ≠ o).
Proof.
  intros Hh Hro Hp.
  set (w1 := set_running (<[o := Some (q, handler o)]> (running w)) (set_pending (<[o := None]> (pending w)) w)).
  assert (reaches w w1) as Hr by (apply reaches_step; intros m; by apply step_fire).
  destruct (run_handler φ w1 o q (handler o)) as (w' & Hr' & E1 & E2 & _ & E4 & E5).
  { by eapply reaches_holds. }
  { apply fn_lookup_insert. }
  exists w'. split; [by eapply reaches_trans|]. simpl in *. split_and!.
  - intros o'. destruct (decide (o' = o)) as [->|Hne]; [done|].
    rewrite E2 by done. by rewrite fn_lookup_insert_ne.
  - intros Hq. rewrite E4 by done. apply fn_lookup_insert.
  - intros Hc o' Ho'. apply E5 in Ho'; [|done]. destruct (decide (o = o')) as [<-|Hne].
    + by rewrite fn_lookup_insert in Ho'.
    + by rewrite fn_lookup_insert_ne in Ho'.
Qed.

Lemma drain_custom φ w :
  holds φ w → (∀ o, dead φ o = false → custom o = false) →
  ∃ w', reaches w w' ∧ ∀ o, running w' o = None ∧ pending w' o ≠ Some Custom.
Proof.
  intros Hh Hc. assert (∀ l : list O, ∃ w', reaches w w' ∧ (∀ o, running w' o = None) ∧
    ∀ o, o ∈ l → pending w' o ≠ Some Custom) as Hl.
  { induction l as [|o l (w1 & Hr & Hro & Hp)].
    { destruct (drain_running φ w Hh) as (w' & ? & ?). exists w'. split_and!; [done|done|set_solver]. }
    destruct (decide (pending w1 o = Some Custom)) as [E|E]; cycle 1.
    { exists w1. split_and!; [done|done|]. by intros o' [->|Ho']%elem_of_cons; auto. }
    assert (holds φ w1) as Hh1 by (by eapply reaches_holds).
    assert (custom o = false) as Hco.
    { apply Hc. destruct (dead φ o) eqn:Ed; [|done]. destruct (h_dead _ _ Hh1 o Ed). congruence. }
    destruct (fire φ w1 o Custom) as (w' & Hr' & Hro' & _ & Hp'); [done..|].
    exists w'. split_and!; [by eapply reaches_trans|done|].
    intros o' Ho' Hpo. destruct (Hp' Hco o' Hpo) as [Hpo1 Hne].
    apply elem_of_cons in Ho' as [->|Ho']; [done|]. by apply (Hp o'). }
  destruct (Hl objects) as (w' & Hr & Hro & Hp). eauto 10.
Qed.

Lemma can_flush φ w o :
  holds φ w → queues o o = false → ∃ w', reaches w w' ∧ pending w' o = None ∧ running w' o = None.
Proof.
  intros Hh Hs. destruct (drain_running φ w Hh) as (w1 & Hr & Hro).
  destruct (pending w1 o) as [q|] eqn:E; [|by eauto].
  destruct (fire φ w1 o q) as (w2 & Hr2 & Hro2 & Hp2 & _); [by eapply reaches_holds|done|done|].
  exists w2. split; [by eapply reaches_trans|auto].
Qed.

(** What init or exit wants to do next, it can do after the handlers and users
    inside have finished. *)
Lemma typed_progress Q φ w a k :
  holds φ w → typed Q φ (Do a k) → ∃ w1 w2 v, reaches w w1 ∧ act_step a w1 w2 v.
Proof.
  intros Hh Hty. remember (Do a k) as p eqn:Ep. revert Hh Ep.
  induction Hty as [|φ D p HD Hc Hty IH|φ f k' Hk|φ k' Hk|φ k' Hk|φ q o k' Ho Hq Hp Hk|φ o k' Hc Hk
    |φ o k' Hs Hc Hk|φ o k' Hs Hk|φ k' He Hk0 _ Hk|φ D k' HD Hcu He Hc Hk|φ k' He Hc Hk0 _ Hk|φ k' He Hk0 _
    |φ x k' Hx Hk|φ x k' He Hk|φ k' He Hk|φ k' Hk]; intros Hh Ep; simplify_eq.
  { apply IH; [by apply holds_weaken|done]. }
  all: try (by do 3 eexists; split; [apply reaches_refl|constructor]).
  - destruct (drain_object φ w o Hh) as (w1 & Hr & Ho & _). do 3 eexists. split; [done|by constructor].
  - destruct (can_flush φ w o Hh Hs) as (w1 & Hr & ? & ?). do 3 eexists. split; [done|by constructor].
  - destruct (can_flush φ w o Hh Hs) as (w1 & Hr & ? & ?). do 3 eexists. split; [done|by constructor].
  - destruct (drain_custom φ w Hh Hcu) as (w1 & Hr & Hall). do 3 eexists. split; [done|].
    constructor. intros o. destruct (Hall o) as [-> ?]. done.
  - destruct (drain_users φ w Hh) as (w1 & Hr & Hus & _). do 3 eexists. split; [done|by constructor].
  - destruct (drain_users φ w Hh) as (w1 & Hr & Hus & _). do 3 eexists. split; [done|by constructor].
Qed.

Lemma can_return Q m w : on_course Q (m, w) → ∃ r w', rtc step (m, w) (Ret r, w').
Proof.
  revert w. induction m as [r|a k IH]; intros w Hc; [by exists r, w; apply rtc_refl|].
  destruct Hc as (φ & Hh & Hty). simpl in *.
  destruct (typed_progress Q φ w a k Hh Hty) as (w1 & w2 & v & Hr & Ha).
  assert (holds φ w1) as Hh1 by (by eapply reaches_holds).
  destruct (IH v w2) as (r & w' & Hrun).
  - destruct (typed_step Q φ w1 w2 a k v Hh1 Hty Ha) as (φ' & ? & ?). by exists φ'.
  - exists r, w'. etrans; [apply Hr|]. eapply rtc_l; [by apply step_main|done].
Qed.

(** A phase in which nothing is left. *)
Definition all_dead (φ : phase) : Prop := (∀ o, dead φ o = true) ∧ entry φ = NoFile ∧ has_wq φ = false.
Definition unloaded : phase := Phase (λ _, true) NoFile false.

Lemma holds_idle φ w : holds φ w → all_dead φ → idle w.
Proof.
  intros [Hu Hcl Hd Hr Hpe Hus Hn Hf Hw Hcu] (Hall & He & Hq). rewrite He in Hf. split_and!; try auto.
  by rewrite Hw.
Qed.

Lemma holds_loaded v : holds unloaded (loaded v).
Proof. by constructor. Qed.

(** What a module owes the kernel.  From the moment it is loaded, init can always
    return; when it fails, [failed] holds; when it succeeds, exit can be run at any
    later time, can always return, and returns only in a state where [finally]. *)
Definition lifecycle (init exit : prog (act O V)) (v0 : V) (failed finally : world O V → Prop) : Prop :=
  ∀ m w, rtc step (init, loaded v0) (m, w) →
    (∃ r w', rtc step (m, w) (Ret r, w')) ∧
    ∀ r, m = Ret r →
      (r ≠ 0 ∧ failed w) ∨
      (r = 0 ∧ ∀ m' w', rtc step (exit, w) (m', w') →
        (∃ r' w'', rtc step (m', w') (Ret r', w'')) ∧ ∀ r', m' = Ret r' → finally w').

(** [φ] is what a successful init leaves, [F] what a failing one may leave, [L]
    what exit may leave. *)
Lemma lifecycle_intro init exit v0 φ (F L : phase → Prop) (failed finally : world O V → Prop) :
  typed (λ r φ', (r ≠ 0 ∧ F φ') ∨ (r = 0 ∧ φ' = φ)) unloaded init →
  typed (λ _, L) φ exit →
  (∀ φ' w, holds φ' w → F φ' → failed w) → (∀ φ' w, holds φ' w → L φ' → finally w) →
  lifecycle init exit v0 failed finally.
Proof.
  intros Hi He HF HL m w Hrun.
  assert (on_course (λ r φ', (r ≠ 0 ∧ F φ') ∨ (r = 0 ∧ φ' = φ)) (m, w)) as Hc.
  { eapply on_course_run; [|done]. exists unloaded. split; [apply holds_loaded|done]. }
  split; [by eapply can_return|]. intros r ->. destruct Hc as (φ1 & Hh & Hty).
  destruct (typed_returns _ _ _ _ Hh Hty) as (φ' & Hh' & [[Hr HF']|[-> ->]]); [by left; eauto|right].
  split; [done|]. intros m' w' Hrun'. assert (on_course (λ _, L) (m', w')) as Hc'.
  { eapply on_course_run; [|done]. by exists φ. }
  split; [by eapply can_return|]. intros r' ->. destruct Hc' as (φ2 & Hh2 & Hty2).
  destruct (typed_returns _ _ _ _ Hh2 Hty2) as (φ3 & Hh3 & HL'). eauto.
Qed.
End discipline.

(** ** Variables that one handler owns

    [I] is what holds of the variables while the handler of [o] does not run, [T p]
    what holds when it runs and has [p] left to do.  If the handler keeps this and
    no other program disturbs it, it holds in every reachable state. *)
Section owner.
Context {O V : Type} `{EqDecision O} `{Demo O V} (o : O) (I : V → Prop) (T : prog (act O V) → V → Prop).
Implicit Types (w : world O V).

(** A program none of whose accesses disturbs [I] and [T]. *)
Inductive framed : prog (act O V) → Prop :=
| framed_ret r : framed (Ret r)
| framed_local f k :
    (∀ v, I v → I (f v).1) → (∀ p v, T p v → T p (f v).1) → (∀ r, framed (k r)) →
    framed (Do (Local f) k)
| framed_do a k : (∀ f, a ≠ Local f) → (∀ r, framed (k r)) → framed (Do a k).

Class Owner := {
  owner_start v : I v → T (handler o) v;
  owner_ret r v : T (Ret r) v → I v;
  owner_local f k v : T (Do (Local f) k) v → T (k (f v).2) (f v).1;
  owner_other a k v r : (∀ f, a ≠ Local f) → T (Do a k) v → T (k r) v;
  others_framed o' : o' ≠ o → framed (handler o');
  users_framed p : user p → framed p
}.

Record owned (m : prog (act O V)) w : Prop := {
  o_vars : match running w o with None => I (vars w) | Some (_, p) => T p (vars w) end;
  o_others o' q p : o' ≠ o → running w o' = Some (q, p) → framed p;
  o_users : Forall framed (users w);
  o_main : framed m
}.

(** What an action does to the variables and to who runs. *)
Lemma act_step_vars a w w' r :
  act_step a w w' r →
  running w' = running w ∧ users w' = users w ∧
  ((∃ f, a = Local f ∧ vars w' = (f (vars w)).1 ∧ r = (f (vars w)).2) ∨
   ((∀ f, a ≠ Local f) ∧ vars w' = vars w)).
Proof.
  intros Ha. inversion Ha; subst; simpl; try by eauto 10.
  - unfold queue. destruct (bool_decide _ && _); [by eauto|]. by destruct (pending w _); eauto.
  - unfold remove. destruct (proc_entry w =? NULL); [by eauto|]. by destruct (proc w); eauto.
  - unfold remove. destruct (p =? NULL); [by eauto|]. by destruct (proc w); eauto.
Qed.

Lemma framed_act a k w w' r :
  framed (Do a k) → act_step a w w' r →
  framed (k r) ∧ running w' = running w ∧ users w' = users w ∧
  (I (vars w) → I (vars w')) ∧ ∀ p, T p (vars w) → T p (vars w').
Proof.
  intros Hf Ha. destruct (act_step_vars _ _ _ _ Ha) as (Hr & Hu & Hv).
  inversion Hf as [|f k' HI HT Hk|a' k' Hn Hk]; subst.
  - destruct Hv as [(g & [= <-] & -> & _)|[Hn _]]; [by split_and!; auto|by destruct (Hn f)].
  - destruct Hv as [(g & -> & _)|[_ ->]]; [by destruct (Hn g)|by split_and!; auto].
Qed.

Lemma owned_step m w m' w' : Owner → owned m w → step (m, w) (m', w') → owned m' w'.
Proof.
  intros Ho [Hv Hot Hus Hm] Hst.
  inversion Hst as [a k ? ? r Ha|? ? o1 q Hp Hro|? ? w1 o1 q a k r Hro Ha|? ? o1 q r Hro|? ? p Hpr Hup
    |? ? w1 i a k r Hi Ha|? ? i r Hi]; subst.
  - destruct (framed_act _ _ _ _ _ Hm Ha) as (Hk & Er & Eu & HI & HT).
    constructor; rewrite ?Er, ?Eu; try done. destruct (running w o) as [[? ?]|]; auto.
  - constructor; simpl; try done.
    + destruct (decide (o1 = o)) as [->|Hne]; [|by rewrite fn_lookup_insert_ne].
      rewrite fn_lookup_insert. rewrite Hro in Hv. by apply owner_start.
    + intros o' q' p' Hne. destruct (decide (o1 = o')) as [<-|Hne'].
      * rewrite fn_lookup_insert. intros [= <- <-]. by apply others_framed.
      * rewrite fn_lookup_insert_ne by done. by apply Hot.
  - destruct (decide (o1 = o)) as [->|Hne].
    + destruct (act_step_vars _ _ _ _ Ha) as (Er & Eu & Hva). rewrite Hro in Hv.
      constructor; simpl; rewrite ?Er, ?Eu; try done.
      * rewrite fn_lookup_insert. destruct Hva as [(f & -> & -> & ->)|[Hn ->]].
        -- by apply owner_local.
        -- by eapply owner_other.
      * intros o' q' p' Hne. rewrite fn_lookup_insert_ne by done. by apply Hot.
    + destruct (framed_act _ _ _ _ _ (Hot o1 q _ Hne Hro) Ha) as (Hk & Er & Eu & HI & HT).
      constructor; simpl; rewrite ?Er, ?Eu; try done.
      * rewrite fn_lookup_insert_ne by done. destruct (running w o) as [[? ?]|]; auto.
      * intros o' q' p' Hne'. destruct (decide (o1 = o')) as [<-|Hne2].
        -- rewrite fn_lookup_insert. by intros [= <- <-].
        -- rewrite fn_lookup_insert_ne by done. by apply Hot.
  - assert (∀ b : bool, vars (if b then queue System o1 w else w) = vars w ∧
      users (if b then queue System o1 w else w) = users w) as Hq.
    { intros []; [|done]. unfold queue. simpl. by destruct (pending w o1). }
    constructor; simpl; rewrite ?(proj1 (Hq (restarts o1 r))), ?(proj2 (Hq (restarts o1 r))); try done.
    + destruct (decide (o1 = o)) as [->|Hne]; [|by rewrite fn_lookup_insert_ne].
      rewrite fn_lookup_insert. rewrite Hro in Hv. by eapply owner_ret.
    + intros o' q' p' Hne. destruct (decide (o1 = o')) as [<-|Hne2]; [by rewrite fn_lookup_insert|].
      rewrite fn_lookup_insert_ne by done. by apply Hot.
  - constructor; simpl; try done. apply Forall_app. split; [done|]. constructor; [by apply users_framed|done].
  - pose proof (proj1 (Forall_lookup _ _) Hus _ _ Hi) as Hf.
    destruct (framed_act _ _ _ _ _ Hf Ha) as (Hk & Er & Eu & HI & HT).
    constructor; simpl; rewrite ?Er, ?Eu; try done.
    + destruct (running w o) as [[? ?]|]; auto.
    + by apply Forall_insert.
  - constructor; simpl; try done. by apply Forall_delete.
Qed.

Lemma owned_run m w m' w' : Owner → owned m w → rtc step (m, w) (m', w') → owned m' w'.
Proof.
  intros Ho Hw Hrun. change (owned (m', w').1 (m', w').2). change (owned (m, w).1 (m, w).2) in Hw.
  induction Hrun as [|[m1 w1] [m2 w2] c3 Hst Hrun IH]; [done|]. apply IH. by eapply owned_step.
Qed.

(** Loading, anything, then unloading, anything: what holds of the variables when
    nothing runs. *)
Lemma owner_lifecycle init exit v0 r w m w' :
  Owner → I v0 → framed init → framed exit →
  rtc step (init, loaded v0) (Ret r, w) → rtc step (exit, w) (m, w') → running w' o = None → I (vars w').
Proof.
  intros Ho Hi Hin Hex Hr1 Hr2 Hro.
  assert (owned init (loaded v0)) as H0 by by constructor.
  pose proof (owned_run _ _ _ _ Ho H0 Hr1) as [Hv1 Ho1 Hu1 _].
  assert (owned exit w) as H1 by by constructor.
  pose proof (owned_run _ _ _ _ Ho H1 Hr2) as [Hv2 _ _ _]. by rewrite Hro in Hv2.
Qed.
End owner.

(** ** Proof of typing *)

Ltac solve_closed :=
  split_and!; [intros [] []|intros ? []|intros ? []]; by vm_compute.

Ltac typed_call :=
  first [ apply ty_local; intros ? | apply ty_msleep; intros ? | apply ty_flush_queue; intros ?
        | apply ty_queue; [reflexivity|by intros|by intros|intros ?]
        | apply ty_remove_entry; [reflexivity|intros ?]
        | apply ty_cancel; [solve_closed|intros ?]
        | apply ty_flush; [reflexivity|solve_closed|intros ?] ].

(** The last calls of an init that ignores whether its file was created. *)
Ltac typed_file :=
  apply ty_proc_create; [done|by split_and!| |intros ? ?];
  [ apply ty_set_entry; [left; by split_and!|intros _]
  | apply ty_set_entry; [by right|intros _] ]; apply ty_ret; by right.

Ltac quiet_call :=
  first [ apply quiet_ret | apply quiet_local; intros ? | apply quiet_msleep; intros ?
        | apply quiet_seq_printf; intros ? | apply quiet_is_pending; intros ?
        | apply quiet_queue; [reflexivity|by intros|by intros|intros ?] ].

(** [framed] for a program that, but for the given accesses, is plain. *)
Ltac framed_call :=
  first [ apply framed_ret
        | apply framed_do; [done|intros ?]
        | apply framed_local; [by intros []|by intros ? []|intros ?] ].
