(* ===== verification/TimerDemos.v ===== *)
(** * The deferred-work demos

    examples/class_5: ioctl_demo.c (08_IOCTL; the interrupt and timer demo),
    interrupt_processing.c, raising_softirqs.c, tasklet_proirity.c, work_queues.c,
    basic_timer.c and timer_implementation.c.  Each is a Module: its objects, its
    static variables, its handlers, init and exit as programs for the machine of
    [Deferred.v], and what they promise.  Log lines, and the reads made only for
    them, are left out. *)
From stdpp Require Import functions.
From S2P Require Import Prelude Bytes Kernel Threads Deferred.

(** ** Basic timer (06_basic_timer/basic_timer.c) *)
Module BasicTimer.
#[local] Open Scope prog_scope.

Inductive obj := demo_timer.
#[export] Instance obj_eq : EqDecision obj.
Proof. solve_decision. Defined.

(** The only variable is timer_count. *)
Definition timer_callback : prog (act obj Z) :=
  Do (increment id (λ n _, n)) (λ timer_count,
  if timer_count <? 5 then Queue System demo_timer ;; Ret 0 else Ret 0).

Definition timer_init : prog (act obj Z) := Queue System demo_timer ;; Ret 0.
Definition timer_exit : prog (act obj Z) := Cancel demo_timer ;; Ret 0.

#[export] Instance demo : Demo obj Z := {
  handler _ := timer_callback; restarts _ _ := false; user _ := False
}.
#[export] Instance discipline : Discipline obj Z := {
  queues _ _ := true; user_queues _ := false; custom _ := false; custom_only _ := false
}.
#[export] Instance laws : DisciplineLaws (O := obj) (V := Z).
Proof.
  split; [|done|done]. intros []. simpl. unfold timer_callback. quiet_call. cbv beta.
  destruct (_ <? 5); repeat quiet_call.
Qed.

Lemma basic_timer_lifecycle : lifecycle timer_init timer_exit 0 (λ _, False) idle.
Proof.
  eapply (lifecycle_intro [demo_timer]) with (φ := Phase (λ _, false) NoFile false) (F := λ _, False) (L := all_dead).
  - by intros []; apply list_elem_of_singleton.
  - eapply (ty_weaken _ _ (λ _, false)); [done|solve_closed|]. typed_call. apply ty_ret. by right.
  - typed_call. apply ty_ret. split_and!; [by intros []|done|done].
  - done.
  - intros. by eapply holds_idle.
Qed.

(** Where the module is after [n] steps: the program of init, the timer's pending
    and running state, and timer_count. *)
Inductive reached : nat → prog (act obj Z) → option place → option (place * prog (act obj Z)) → Z → Prop :=
| reached_load : reached 0 timer_init None None 0
| reached_pending n : (n <= 4)%nat → reached (1 + 4 * n) (Ret 0) (Some System) None (Z.of_nat n)
| reached_fired n :
    (n <= 4)%nat → reached (2 + 4 * n) (Ret 0) None (Some (System, timer_callback)) (Z.of_nat n)
| reached_again n :
    (n <= 3)%nat →
    reached (3 + 4 * n) (Ret 0) None (Some (System, Queue System demo_timer ;; Ret 0)) (Z.of_nat n + 1)
| reached_queued n :
    (n <= 3)%nat → reached (4 + 4 * n) (Ret 0) (Some System) (Some (System, Ret 0)) (Z.of_nat n + 1)
| reached_last : reached 19 (Ret 0) None (Some (System, Ret 0)) 5
| reached_end : reached 20 (Ret 0) None None 5.

Definition reached_by (n : nat) (c : prog (act obj Z) * world obj Z) : Prop :=
  reached n c.1 (pending c.2 demo_timer) (running c.2 demo_timer) (vars c.2) ∧ users c.2 = [] ∧ proc c.2 = false.

#[local] Ltac rewrite_state :=
  repeat match goal with
  | E : _ = pending _ _ |- _ => progress rewrite <-E
  | E : _ = running _ _ |- _ => progress rewrite <-E
  | E : _ = vars _ |- _ => progress rewrite <-E
  end.

Lemma reached_step n c c' : reached_by n c → step c c' → reached_by (S n) c'.
Proof.
  destruct c as [m w], c' as [m' w']. intros (Hr & Hu & Hp) Hst. unfold reached_by. simpl in *.
  inversion Hst as [a k ? ? v Ha|? ? [] q1 Hpe Hro|? ? w1 [] q1 a k v Hro Ha|? ? [] q1 r Hro|? ? p Hpr Hup
    |? ? w1 i a k v Hi Ha|? ? i r Hi]; subst; [..|done|by rewrite Hu in Hi|by rewrite Hu in Hi].
  - inversion Hr; subst. inversion Ha; subst. unfold queue. simpl.
    destruct o. rewrite_state. simpl. rewrite fn_lookup_insert. rewrite_state.
    split; [|done]. apply (reached_pending 0). lia.
  - rewrite Hpe, Hro in Hr. simpl. rewrite !fn_lookup_insert. split; [|done].
    inversion Hr as [|n1 Hn| | | | |]; subst. by apply reached_fired.
  - rewrite Hro in Hr. simpl. rewrite fn_lookup_insert. inversion Hr as [| |n1 Hn|n1 Hn| | |]; subst.
    + inversion Ha; subst. simpl. rewrite_state. rewrite (s32_small (Z.of_nat n1 + 1)) by wrap_lia.
      split; [|done]. destruct (Z.ltb_spec (Z.of_nat n1 + 1) 5).
      * apply reached_again. lia.
      * replace n1 with 4%nat by lia. apply reached_last.
    + inversion Ha; subst. unfold queue. simpl. destruct o. rewrite_state. simpl. rewrite fn_lookup_insert. rewrite_state. split; [|done]. by apply reached_queued.
  - rewrite Hro in Hr. simpl. rewrite fn_lookup_insert. split; [|done].
    inversion Hr as [| | | |n1 Hn| |]; subst; rewrite_state.
    +
      replace (S (4 + 4 * n1)) with (1 + 4 * S n1)%nat by lia.
      replace (Z.of_nat n1 + 1) with (Z.of_nat (S n1)) by lia. apply reached_pending. lia.
    + apply reached_end.
Qed.

(** C34: The basic timer fires five times and stops.  Every run of the module has at
    most 20 steps; timer_count never exceeds 5; and when nothing is left to run,
    the timer is not pending and timer_count is 5. *)
Theorem fires_five_times n m w :
  nsteps step n (timer_init, loaded 0) (m, w) →
  (n <= 20)%nat ∧ 0 <= vars w <= 5 ∧
  ((∀ c, ¬ step (m, w) c) → n = 20%nat ∧ vars w = 5 ∧ pending w demo_timer = None ∧ running w demo_timer = None).
Proof.
  intros Hn. assert (reached_by n (m, w)) as (Hr & Hu & Hp).
  { assert (∀ k c c', nsteps step k c c' → ∀ j, reached_by j c → reached_by (j + k) c') as Hgen.
    { intros k c c' Hk. induction Hk as [c|k c1 c2 c3 Hst Hk IH]; intros j Hj; [by rewrite Nat.add_0_r|].
      rewrite Nat.add_succ_r. apply (IH (S j)). by eapply reached_step. }
    apply (Hgen n _ _ Hn 0%nat). split_and!; [constructor|done|done]. }
  simpl in *. inversion Hr; subst; (split; [lia|]); (split; [lia|]); intros Hstuck.
  - exfalso. eapply Hstuck. apply step_main. constructor.
  - exfalso. eapply Hstuck. by eapply step_fire.
  - exfalso. eapply Hstuck. eapply step_handler; [done|constructor].
  - exfalso. eapply Hstuck. eapply step_handler; [done|constructor].
  - exfalso. eapply Hstuck. by eapply step_handler_returns.
  - exfalso. eapply Hstuck. by eapply step_handler_returns.
  - done.
Qed.

Lemma fires_five_times_witness :
  ∃ n w, nsteps step n (timer_init, loaded 0) (Ret 0, w) ∧ (n <= 20)%nat ∧ vars w = 5.
Proof.
  assert (∀ o : obj, o ∈ [demo_timer]) as Hall by (by intros []; apply list_elem_of_singleton).
  destruct (schedule_reaches [demo_timer] Hall
    (Main 0 :: concat (replicate 4 [Fire demo_timer; Handler demo_timer; Handler demo_timer; Handler demo_timer]) ++
     [Fire demo_timer; Handler demo_timer; Handler demo_timer])
    (timer_init, loaded 0) 0 (λ w, vars w = 5)) as (w & H1 & H2);
    [intros p Hp; simpl in Hp; repeat (apply elem_of_cons in Hp as [Hp|Hp]; [done|]); by apply elem_of_nil in Hp
    |by vm_compute|].
  apply rtc_nsteps in H1 as [n H1]. exists n, w. split; [exact H1|]. split; [|exact H2].
  apply (proj1 (fires_five_times n (Ret 0) w H1)).
Defined.
End BasicTimer.

(** ** Interrupts and timers (08_IOCTL/ioctl_demo.c) *)
Module TimerDemo.
#[local] Open Scope prog_scope.

Inductive obj := demo_timer | demo_tasklet | demo_work | hr_timer.
#[export] Instance obj_eq : EqDecision obj.
Proof. solve_decision. Defined.

Record counts := Counts { timer_count : Z; tasklet_count : Z; work_count : Z; hrtimer_count : Z }.
Definition set_timer n c := Counts n (tasklet_count c) (work_count c) (hrtimer_count c).
Definition set_tasklet n c := Counts (timer_count c) n (work_count c) (hrtimer_count c).
Definition set_work n c := Counts (timer_count c) (tasklet_count c) n (hrtimer_count c).
Definition set_hrtimer n c := Counts (timer_count c) (tasklet_count c) (work_count c) n.
Definition init_counts : counts := Counts 0 0 0 0.

Definition HRTIMER_RESTART : Z := 1.

(** demo_interrupt_handler, followed by [k]. *)
Definition demo_interrupt_handler (k : prog (act obj counts)) : prog (act obj counts) :=
  Queue System demo_tasklet ;; Queue Custom demo_work ;; k.

Definition demo_tasklet_handler : prog (act obj counts) := increment tasklet_count set_tasklet ;; Ret 0.
Definition demo_work_handler : prog (act obj counts) := increment work_count set_work ;; Msleep ;; Ret 0.
Definition demo_timer_callback : prog (act obj counts) :=
  increment timer_count set_timer ;; demo_interrupt_handler (Queue System demo_timer ;; Ret 0).
Definition hr_timer_callback : prog (act obj counts) :=
  increment hrtimer_count set_hrtimer ;; Ret HRTIMER_RESTART.

Section demo.
Context `{JiffiesApi}.

(** [j1] and [j2] are its two reads of jiffies. *)
Definition demo_proc_show (j1 j2 : Z) : prog (act obj counts) :=
  puts "Timer and Interrupt Demo Statistics" ;;
  puts "====================================" ;;
  putn "Current jiffies: " j1 "" ;; putn "HZ value: " HZ "" ;;
  Do (read timer_count) (λ n, putn "Traditional timer count: " n "" ;;
  Do (read hrtimer_count) (λ n, putn "High-res timer count: " n "" ;;
  Do (read tasklet_count) (λ n, putn "Tasklet count: " n "" ;;
  Do (read work_count) (λ n, putn "Work queue count: " n "" ;;
  puts (nl +:+ "Time Conversions:") ;;
  putn "1000ms = " (msecs_to_jiffies 1000) " jiffies" ;;
  putn "Current uptime: " (jiffies_to_msecs j2 / 1000) " seconds" ;; Ret 0)))).

Definition timer_demo_init : prog (act obj counts) :=
  Do CreateQueue (λ demo_wq,
  if demo_wq =? NULL then Ret (- ENOMEM)
  else
    Queue System demo_timer ;; Queue System hr_timer ;;
    Do ProcCreate (λ p,
    SetProcEntry p ;;
    if p =? NULL then
      Cancel demo_timer ;; Cancel hr_timer ;; DestroyQueue ;; Ret (- ENOMEM)
    else Ret 0)).

Definition timer_demo_exit : prog (act obj counts) :=
  ProcRemoveEntry ;; Cancel demo_timer ;; Cancel hr_timer ;; Flush demo_tasklet ;;
  FlushQueue ;; DestroyQueue ;; Ret 0.

#[export] Instance demo : Demo obj counts := {
  handler o :=
    match o with
    | demo_timer => demo_timer_callback
    | demo_tasklet => demo_tasklet_handler
    | demo_work => demo_work_handler
    | hr_timer => hr_timer_callback
    end;
  restarts o r := match o with hr_timer => r =? HRTIMER_RESTART | _ => false end;
  user p := ∃ j1 j2, p = demo_proc_show j1 j2
}.
#[export] Instance discipline : Discipline obj counts := {
  queues o o' :=
    match o, o' with
    | demo_timer, hr_timer => false
    | demo_timer, _ => true
    | hr_timer, hr_timer => true
    | _, _ => false
    end;
  user_queues _ := false;
  custom o := match o with demo_timer => true | _ => false end;
  custom_only o := match o with demo_work => true | _ => false end
}.
#[export] Instance laws : DisciplineLaws (O := obj) (V := counts).
Proof.
  split.
  - intros []; repeat quiet_call.
  - intros p (j1 & j2 & ->). repeat quiet_call.
  - intros [] r; done.
Qed.

Definition objects : list obj := [demo_timer; demo_tasklet; demo_work; hr_timer].
Lemma timer_objects o : o ∈ objects.
Proof. destruct o; set_solver. Qed.

(** What a failed load may leave: the tasklet. *)
Definition only_tasklet (w : world obj counts) : Prop :=
  (∀ o, o ≠ demo_tasklet → pending w o = None ∧ running w o = None) ∧ users w = [] ∧ proc w = false ∧
  wq w = false ∧ undefined w = false.

Lemma timer_demo_init_typed :
  typed (λ r φ, (r ≠ 0 ∧ (∀ o, o ≠ demo_tasklet → dead φ o = true) ∧ entry φ = NoFile ∧ has_wq φ = false) ∨
    (r = 0 ∧ φ = Phase (λ _, false) Assigned true)) unloaded timer_demo_init.
Proof.
  apply ty_create_queue; [done|by apply ty_ret; left|]. intros v Hv. rewrite (proj2 (Z.eqb_neq _ _)) by done.
  eapply (ty_weaken _ _ (λ _, false)); [done|solve_closed|]. do 2 typed_call.
  apply ty_proc_create; [done|solve_closed|..].
  - apply ty_set_entry_null; [done|intros _]. simpl. do 2 typed_call.
    apply (ty_destroy_queue _ _ (λ o, match o with demo_tasklet => false | _ => true end)).
    + intros []; by vm_compute; auto.
    + intros []; by vm_compute.
    + done.
    + solve_closed.
    + intros _. apply ty_ret. left. split_and!; [done|by intros []|done|done].
  - intros p Hp. rewrite (proj2 (Z.eqb_neq p _)) by done.
    apply ty_set_entry; [by right|intros _]. apply ty_ret. by right.
Qed.

Lemma timer_demo_exit_typed : typed (λ _, all_dead) (Phase (λ _, false) Assigned true) timer_demo_exit.
Proof.
  do 5 typed_call. apply (ty_destroy_queue _ _ (λ _, true)).
  - intros []; by vm_compute; auto.
  - intros []; by vm_compute.
  - done.
  - solve_closed.
  - intros _. by apply ty_ret.
Qed.

Lemma holds_only_tasklet φ w :
  holds φ w → (∀ o, o ≠ demo_tasklet → dead φ o = true) ∧ entry φ = NoFile ∧ has_wq φ = false → only_tasklet w.
Proof.
  intros Hh (Hd & He & Hq). split_and!; [| | |by rewrite (h_wq _ _ Hh)|apply Hh].
  - intros o Ho. apply (h_dead _ _ Hh). auto.
  - apply (h_nobody _ _ Hh). pose proof (h_file _ _ Hh) as Hf. by rewrite He in Hf.
  - pose proof (h_file _ _ Hh) as Hf. by rewrite He in Hf.
Qed.

(** C13: The interrupt demo unloads cleanly.  Whatever timers, tasklet and work do
    meanwhile: loading can always finish; after a load that succeeded, at any later
    time, unloading can always finish and leaves nothing of the module in the
    kernel: no timer, no tasklet, no work, no file, no reader in it, no work queue;
    nothing undefined happens; and a load that fails leaves at most the tasklet. *)
Theorem timer_demo_unloads : lifecycle timer_demo_init timer_demo_exit init_counts only_tasklet idle.
Proof.
  eapply (lifecycle_intro objects timer_objects).
  - apply timer_demo_init_typed.
  - apply timer_demo_exit_typed.
  - intros φ w Hh Hd. by eapply holds_only_tasklet.
  - intros. by eapply holds_idle.
Qed.

(** The error path of timer_demo_init does not kill the tasklet.  When
    proc_create fails after the timer has fired once, the load fails with -ENOMEM
    and the tasklet is still scheduled: its handler will run in a module that is
    gone. *)
Theorem failed_load_leaves_tasklet :
  ∃ w, rtc step (timer_demo_init, loaded init_counts) (Ret (- ENOMEM), w) ∧
    pending w demo_tasklet = Some System.
Proof.
  apply (schedule_reaches objects timer_objects
    ([Main 1; Main 0; Main 0; Fire demo_timer] ++ replicate 5 (Handler demo_timer) ++
     Fire demo_work :: replicate 3 (Handler demo_work) ++ replicate 5 (Main NULL)));
    [set_solver|by vm_compute].
Qed.
End demo.
End TimerDemo.

(** ** Two repeating timers (07_timer_implementation/timer_implementation.c) *)
Module SimpleTimer.
#[local] Open Scope prog_scope.

Inductive obj := periodic_timer | hr_timer.
#[export] Instance obj_eq : EqDecision obj.
Proof. solve_decision. Defined.

(** periodic_count and hr_count. *)
Record counts := Counts { periodic_count : Z; hr_count : Z }.
Definition set_periodic n c := Counts n (hr_count c).
Definition set_hr n c := Counts (periodic_count c) n.

Definition HRTIMER_RESTART : Z := 1.
Definition periodic_timer_callback : prog (act obj counts) :=
  increment periodic_count set_periodic ;; Queue System periodic_timer ;; Ret 0.
Definition hr_timer_callback : prog (act obj counts) :=
  increment hr_count set_hr ;; Ret HRTIMER_RESTART.

Definition timer_interval_ms : Z := 1000.
Section demo.
Context `{JiffiesApi}.

(** [jiffies] is its read of jiffies. *)
Definition timer_proc_show (jiffies : Z) : prog (act obj counts) :=
  puts "Simple Timer Demo Status" ;;
  puts "========================" ;;
  putn "Timer interval: " timer_interval_ms " ms" ;;
  Do (read periodic_count) (λ n, putn "Periodic timer fires: " n "" ;;
  Do (read hr_count) (λ n, putn "HR timer fires: " n "" ;;
  putn "Current jiffies: " jiffies "" ;; putn "HZ value: " HZ "" ;; Ret 0)).

(** The entry's address is tested and not kept. *)
Definition simple_timer_init : prog (act obj counts) :=
  Do ProcCreate (λ p,
  if p =? NULL then Ret (- ENOMEM)
  else Queue System periodic_timer ;; Queue System hr_timer ;; Ret 0).

(** proc_remove(proc_create(...)). *)
Definition simple_timer_exit : prog (act obj counts) :=
  Cancel periodic_timer ;; Cancel hr_timer ;;
  Do ProcCreate (λ p, ProcRemove p ;; read periodic_count ;; read hr_count ;; Ret 0).

#[export] Instance demo : Demo obj counts := {
  handler o := match o with periodic_timer => periodic_timer_callback | hr_timer => hr_timer_callback end;
  restarts o r := match o with hr_timer => r =? HRTIMER_RESTART | _ => false end;
  user p := ∃ j, p = timer_proc_show j
}.
#[export] Instance discipline : Discipline obj counts := {
  queues o o' := match o, o' with periodic_timer, periodic_timer | hr_timer, hr_timer => true | _, _ => false end;
  user_queues _ := false; custom _ := false; custom_only _ := false
}.
#[export] Instance laws : DisciplineLaws (O := obj) (V := counts).
Proof.
  split.
  - intros []; repeat quiet_call.
  - intros p [j ->]. repeat quiet_call.
  - intros [] r; done.
Qed.

Definition objects : list obj := [periodic_timer; hr_timer].
Lemma simple_timer_objects o : o ∈ objects.
Proof. destruct o; set_solver. Qed.

(** The timers are gone but the file is registered. *)
Definition file_left (w : world obj counts) : Prop :=
  (∀ o, pending w o = None ∧ running w o = None) ∧ proc w = true ∧ undefined w = false.

(** Unloading the timer module leaves its file behind.  simple_timer_exit
    removes what a second proc_create of the same name returns, which is NULL
    because the name is taken: after every successful load, every run of exit
    that returns has stopped both timers, and /proc/simple_timer is still
    registered, with methods of a module that is gone.  Load and unload can always
    finish, and a load that fails leaves nothing. *)
Theorem simple_timer_leaves_file v :
  lifecycle simple_timer_init simple_timer_exit v idle file_left.
Proof.
  eapply (lifecycle_intro objects simple_timer_objects) with (φ := Phase (λ _, false) Created false)
    (F := all_dead) (L := λ φ, (∀ o, dead φ o = true) ∧ entry φ = Created).
  - apply ty_proc_create; [done|by split_and!|by apply ty_ret; left|]. intros p Hp.
    rewrite (proj2 (Z.eqb_neq p _)) by done.
    eapply (ty_weaken _ _ (λ _, false)); [done|solve_closed|]. do 2 typed_call. apply ty_ret. by right.
  - do 2 typed_call. apply ty_proc_create_again; [done|]. apply ty_remove_null. intros _.
    do 2 typed_call. apply ty_ret. split; [by intros []|done].
  - intros. by eapply holds_idle.
  - intros φ w Hh [Hd He]. split_and!; [|pose proof (h_file _ _ Hh) as Hf; by rewrite He in Hf|apply Hh].
    intros o. apply (h_dead _ _ Hh), Hd.
Qed.
End demo.
End SimpleTimer.

(** ** Top and bottom halves (01_interrupt_processing/interrupt_processing.c) *)
Module TopBottom.
#[local] Open Scope prog_scope.

Inductive obj := irq_simulator | bottom_half_work.
#[export] Instance obj_eq : EqDecision obj.
Proof. solve_decision. Defined.

(** The variables, and the clock: its readings, and how many were taken. *)
Record vars := Vars {
  top_count : Z; bottom_count : Z; top_half_time : Z; bottom_half_time : Z;
  clock : nat → Z; reads : nat
}.
Definition set_top n v := Vars n (bottom_count v) (top_half_time v) (bottom_half_time v) (clock v) (reads v).
Definition set_bottom n v := Vars (top_count v) n (top_half_time v) (bottom_half_time v) (clock v) (reads v).
Definition set_top_time t v := Vars (top_count v) (bottom_count v) t (bottom_half_time v) (clock v) (reads v).
Definition set_bottom_time t v := Vars (top_count v) (bottom_count v) (top_half_time v) t (clock v) (reads v).

Definition ktime_get : act obj vars :=
  Local (λ v, (Vars (top_count v) (bottom_count v) (top_half_time v) (bottom_half_time v) (clock v)
                 (S (reads v)), clock v (reads v))).
Definition store (set : Z → vars → vars) (t : Z) : act obj vars := Local (λ v, (set t v, t)).

(** demo_top_half, followed by [k]. *)
Definition demo_top_half (k : prog (act obj vars)) : prog (act obj vars) :=
  Do ktime_get (λ start,
  increment top_count set_top ;; Queue System bottom_half_work ;;
  Do ktime_get (λ now, store set_top_time (s64 (now - start)) ;; k)).
Definition demo_bottom_half : prog (act obj vars) :=
  Do ktime_get (λ start,
  increment bottom_count set_bottom ;; Msleep ;;
  Do ktime_get (λ now, store set_bottom_time (s64 (now - start)) ;; Ret 0)).
Definition irq_simulator_callback : prog (act obj vars) :=
  demo_top_half (Queue System irq_simulator ;; Ret 0).

(** A reader's lines.  top_half_time is a plain variable: the value tested on line
    69 is the one divided by. *)
Definition times (what : string) (n t : Z) : act obj vars :=
  SeqPrintf (chars what ++ dec n ++ chars " (last: " ++ dec t ++ chars " ns)" ++ [10]).
Definition demo_proc_show : prog (act obj vars) :=
  puts "Top-half vs Bottom-half Demo" ;;
  Do (read top_count) (λ n, Do (read top_half_time) (λ t, times "Top-half executions: " n t ;;
  Do (read bottom_count) (λ n, Do (read bottom_half_time) (λ t, times "Bottom-half executions: " n t ;;
  Do (read top_half_time) (λ t,
  let ratio r := putn "Speed ratio: " r ":1 (bottom vs top)" ;; Ret 0 in
  if negb (t =? 0) then Do (read bottom_half_time) (λ b, ratio (s64 (Z.quot b t))) else ratio 0))))).

Definition demo_init : prog (act obj vars) :=
  Queue System irq_simulator ;; Do ProcCreate (λ p, SetProcEntry p ;; Ret 0).
Definition demo_exit : prog (act obj vars) :=
  Cancel irq_simulator ;; Flush bottom_half_work ;; ProcRemoveEntry ;; Ret 0.

#[export] Instance demo : Demo obj vars := {
  handler o := match o with irq_simulator => irq_simulator_callback | bottom_half_work => demo_bottom_half end;
  restarts _ _ := false;
  user p := p = demo_proc_show
}.
#[export] Instance discipline : Discipline obj vars := {
  queues o _ := match o with irq_simulator => true | _ => false end;
  user_queues _ := false; custom _ := false; custom_only _ := false
}.
#[export] Instance laws : DisciplineLaws (O := obj) (V := vars).
Proof.
  split; [|intros p ->|done].
  - intros []; repeat quiet_call.
  - unfold demo_proc_show. do 7 quiet_call. quiet_call. cbv zeta. destruct (negb _); repeat quiet_call.
Qed.

Definition objects : list obj := [irq_simulator; bottom_half_work].
Lemma top_bottom_objects o : o ∈ objects.
Proof. destruct o; set_solver. Qed.

(** The interrupt-processing demo, whether or not its file could be created,
    unloads cleanly: at any time, exit can finish and leaves no timer, no work, no
    file and no reader in it. *)
Theorem top_bottom_unloads v : lifecycle demo_init demo_exit v (λ _, False) idle.
Proof.
  eapply (lifecycle_intro objects top_bottom_objects) with (φ := Phase (λ _, false) Assigned false)
    (F := λ _, False) (L := all_dead).
  - eapply (ty_weaken _ _ (λ _, false)); [done|solve_closed|]. typed_call.
    typed_file.
  - do 3 typed_call. apply ty_ret. split_and!; [by intros []|done|done].
  - done.
  - intros. by eapply holds_idle.
Qed.
End TopBottom.

(** ** Raising softirqs (02_softirqs/raising_softirqs.c) *)
Module SoftirqDemo.
#[local] Open Scope prog_scope.

Inductive obj := softirq_timer.
#[export] Instance obj_eq : EqDecision obj.
Proof. solve_decision. Defined.

(** Softirq numbers (include/linux/interrupt.h). *)
Definition TIMER_SOFTIRQ : Z := 1.
Definition NET_RX_SOFTIRQ : Z := 3.
Definition TASKLET_SOFTIRQ : Z := 6.

(** count, the per-CPU counters, the softirqs raised so far, and on which CPU the
    callback runs each time. *)
Record vars := Vars {
  count : Z; softirq_cpu_count : Z → Z; raised : list Z; cpus : nat → Z; reads : nat
}.
Definition set_count n v := Vars n (softirq_cpu_count v) (raised v) (cpus v) (reads v).

Definition smp_processor_id : act obj vars :=
  Local (λ v, (Vars (count v) (softirq_cpu_count v) (raised v) (cpus v) (S (reads v)), cpus v (reads v))).
(** The timer callback does not change CPU. *)
Definition this_cpu_inc (cpu : Z) : act obj vars :=
  Local (λ v, (Vars (count v) (<[cpu := s32 (softirq_cpu_count v cpu + 1)]> (softirq_cpu_count v))
                 (raised v) (cpus v) (reads v), 0)).
Definition raise_softirq (nr : Z) : act obj vars :=
  Local (λ v, (Vars (count v) (softirq_cpu_count v) (raised v ++ [nr]) (cpus v) (reads v), 0)).

Definition raise_softirq_timer : prog (act obj vars) :=
  Do smp_processor_id (λ cpu,
  increment count set_count ;; this_cpu_inc cpu ;;
  Do (read count) (λ count,
  let rest := Queue System softirq_timer ;; Ret 0 in
  if Z.rem count 3 =? 0 then raise_softirq NET_RX_SOFTIRQ ;; rest
  else if Z.rem count 3 =? 1 then raise_softirq TASKLET_SOFTIRQ ;; rest
  else if Z.rem count 3 =? 2 then raise_softirq TIMER_SOFTIRQ ;; rest
  else rest)).

(** [online] are the CPUs online. *)
Fixpoint show_cpus (online : list Z) (k : prog (act obj vars)) : prog (act obj vars) :=
  match online with
  | [] => k
  | cpu :: online =>
      Do (read (λ v, softirq_cpu_count v cpu)) (λ n,
      SeqPrintf (chars "CPU " ++ dec cpu ++ chars ": " ++ dec n ++ chars " raises" ++ [10]) ;;
      show_cpus online k)
  end.
Definition softirq_proc_show (online : list Z) : prog (act obj vars) :=
  puts "Softirq Raising Demo" ;;
  Do (read count) (λ n, putn "Total softirqs raised: " n "" ;;
  puts (nl +:+ "Per-CPU raises:") ;;
  show_cpus online (puts (nl +:+ "Check system softirq stats:") ;; puts "cat /proc/softirqs" ;; Ret 0)).

Definition demo_softirq_init : prog (act obj vars) :=
  Queue System softirq_timer ;; Do ProcCreate (λ p, SetProcEntry p ;; Ret 0).
Definition demo_softirq_exit : prog (act obj vars) :=
  Cancel softirq_timer ;; ProcRemoveEntry ;; read count ;; Ret 0.

#[export] Instance demo : Demo obj vars := {
  handler _ := raise_softirq_timer; restarts _ _ := false; user p := ∃ online, p = softirq_proc_show online
}.
#[export] Instance discipline : Discipline obj vars := {
  queues _ _ := true; user_queues _ := false; custom _ := false; custom_only _ := false
}.
#[export] Instance laws : DisciplineLaws (O := obj) (V := vars).
Proof.
  split; [intros []|intros p [online ->]|done]; simpl.
  - unfold raise_softirq_timer. do 4 quiet_call. simpl. split_ifs; repeat quiet_call.
  - unfold softirq_proc_show. do 4 quiet_call. induction online; simpl; repeat quiet_call. done.
Qed.
Definition objects : list obj := [softirq_timer].
Lemma softirq_objects o : o ∈ objects.
Proof. destruct o; set_solver. Qed.

Lemma softirq_unloads v : lifecycle demo_softirq_init demo_softirq_exit v (λ _, False) idle.
Proof.
  eapply (lifecycle_intro objects softirq_objects) with (φ := Phase (λ _, false) Assigned false)
    (F := λ _, False) (L := all_dead).
  - eapply (ty_weaken _ _ (λ _, false)); [done|solve_closed|]. typed_call.
    typed_file.
  - do 3 typed_call. apply ty_ret. split_and!; [by intros []|done|done].
  - done.
  - intros. by eapply holds_idle.
Qed.

Section totals.
Context (online : list Z) (Honline : NoDup online) (ids : nat → Z) (Hids : ∀ k, ids k ∈ online).

Definition total (f : Z → Z) : Z := foldr (λ c n, f c + n) 0 online.

Lemma total_insert f c x : c ∈ online → total (<[c := x]> f) = total f - f c + x.
Proof.
  unfold total. clear Hids. induction Honline as [|d l Hd Hl IH]; intros Hc; [by apply elem_of_nil in Hc|].
  simpl. apply elem_of_cons in Hc as [->|Hc].
  - rewrite fn_lookup_insert. assert (foldr (λ c n, <[d := x]> f c + n) 0 l = foldr (λ c n, f c + n) 0 l) as ->; [|lia].
    clear -Hd. induction l as [|e l IH]; [done|]. simpl. rewrite IH by set_solver.
    by rewrite fn_lookup_insert_ne by set_solver.
  - rewrite IH by done. rewrite fn_lookup_insert_ne by set_solver. lia.
Qed.

(** How often the first [n] callbacks ran on a CPU. *)
Fixpoint runs_on (n : nat) (c : Z) : Z :=
  match n with O => 0 | S n => runs_on n c + (if decide (ids n = c) then 1 else 0) end.

Lemma total_runs_on n : total (runs_on n) = Z.of_nat n.
Proof.
  induction n as [|n IH]; [unfold total; clear; by induction online|].
  assert (total (runs_on (S n)) = total (<[ids n := runs_on n (ids n) + 1]> (runs_on n))) as ->.
  { unfold total. clear. induction online as [|c l IH]; [done|]. cbn [foldr]. rewrite IH. f_equal. cbn [runs_on].
    destruct (decide (ids n = c)) as [<-|]; [by rewrite fn_lookup_insert|].
    rewrite fn_lookup_insert_ne by done. lia. }
  rewrite total_insert, IH by done. lia.
Qed.

Lemma total_s32 f : s32 (total (λ c, s32 (f c))) = s32 (total f).
Proof.
  unfold total. clear. induction online as [|c l IH]; [done|]. simpl.
  rewrite s32_add_l, (Z.add_comm (f c)), <-s32_add_l, IH, s32_add_l. f_equal. lia.
Qed.

(** Where the callback is: not running; on a CPU, and not counted yet; counted, and
    not on its CPU's counter yet. *)
Inductive phase := Idle | Started (c : Z) | Counted (c : Z).

(** The counters are exact: [reads] is how often the callback has been run. *)
Definition counted (ph : phase) (v : vars) : Prop :=
  cpus v = ids ∧
  match ph with
  | Idle => count v = s32 (Z.of_nat (reads v)) ∧ ∀ c, softirq_cpu_count v c = s32 (runs_on (reads v) c)
  | Started c => ∃ n, reads v = S n ∧ c = ids n ∧ count v = s32 (Z.of_nat n) ∧
      ∀ c, softirq_cpu_count v c = s32 (runs_on n c)
  | Counted c => ∃ n, reads v = S n ∧ c = ids n ∧ count v = s32 (Z.of_nat (S n)) ∧
      ∀ c, softirq_cpu_count v c = s32 (runs_on n c)
  end.

(** [stage ph p]: what the callback has left to do in each phase. *)
Inductive stage : phase → prog (act obj vars) → Prop :=
| stage_ret r : stage Idle (Ret r)
| stage_id k : (∀ c, stage (Started c) (k c)) → stage Idle (Do smp_processor_id k)
| stage_count c k : (∀ r, stage (Counted c) (k r)) → stage (Started c) (Do (increment count set_count) k)
| stage_cpu c k : (∀ r, stage Idle (k r)) → stage (Counted c) (Do (this_cpu_inc c) k)
| stage_keep ph f k :
    (∀ v, count (f v).1 = count v ∧ softirq_cpu_count (f v).1 = softirq_cpu_count v ∧
          cpus (f v).1 = cpus v ∧ reads (f v).1 = reads v) →
    (∀ r, stage ph (k r)) → stage ph (Do (Local f) k)
| stage_do ph a k : (∀ f, a ≠ Local f) → (∀ r, stage ph (k r)) → stage ph (Do a k).

Lemma stage_callback : stage Idle raise_softirq_timer.
Proof.
  unfold raise_softirq_timer. apply stage_id. intros c. apply stage_count. intros _.
  apply stage_cpu; intros _. apply stage_keep; [done|intros n]. simpl.
  split_ifs; repeat first [apply stage_keep; [done|intros _]|apply stage_do; [done|intros _]|apply stage_ret].
Qed.

Definition between (p : prog (act obj vars)) (v : vars) : Prop := ∃ ph, stage ph p ∧ counted ph v.

Lemma stage_step ph f k v :
  stage ph (Do (Local f) k) → counted ph v → ∃ ph', stage ph' (k (f v).2) ∧ counted ph' (f v).1.
Proof.
  intros Hs [Hi Hc]. inversion Hs as [|k' Hk|c k' Hk|c k' Hk|ph' f' k' Hf Hk|ph' a k' Hn Hk]; subst.
  - exists (Started (ids (reads v))). simpl. rewrite Hi. split; [done|]. split; [done|].
    destruct Hc as [Hc Hp]. by exists (reads v).
  - destruct Hc as (n & Hr & Hcpu & Hc & Hp). exists (Counted c). split; [done|]. split; [done|].
    exists n. simpl. rewrite Hc, s32_add_l. split_and!; [done..| |done]. f_equal. lia.
  - destruct Hc as (n & Hr & -> & Hc & Hp). exists Idle. split; [done|]. split; [done|].
    simpl. rewrite Hr. split; [done|]. intros c. simpl. rewrite !Hp.
    destruct (decide (ids n = c)) as [<-|]; [by rewrite fn_lookup_insert, s32_add_l|].
    by rewrite fn_lookup_insert_ne, Hp, Z.add_0_r by done.
  - destruct (Hf v) as (E1 & E2 & E3 & E4). exists ph. split; [done|]. unfold counted. by rewrite E1, E2, E3, E4.
  - by destruct (Hn f).
Qed.

Instance softirq_owner : Owner softirq_timer (counted Idle) between.
Proof.
  split.
  - intros v Hv. exists Idle. split; [apply stage_callback|done].
  - intros r v (d & Hs & Hv). inversion Hs; by subst.
  - intros f k v (d & Hs & Hv). by apply (stage_step d).
  - intros a k v r Hn (d & Hs & Hv). exists d. split; [|done].
    inversion Hs; subst; [by edestruct Hn..|done].
  - by intros [].
  - intros p [cpus ->]. unfold softirq_proc_show. do 4 framed_call. induction cpus; simpl; repeat framed_call. done.
Qed.

Lemma counted_loaded : counted Idle (Vars 0 (λ _, 0) [] ids 0).
Proof. done. Qed.

(** The counters add up, over the online CPUs and modulo 2^32. *)
Lemma counted_total v : counted Idle v → count v = s32 (total (softirq_cpu_count v)).
Proof.
  intros (_ & -> & Hp). rewrite <-total_runs_on, <-total_s32. f_equal.
  unfold total. clear -Hp. induction online as [|c l IH]; [done|]. simpl. by rewrite Hp, IH.
Qed.

(** The softirq demo counts every callback twice, consistently: whatever CPUs
    it runs on, whenever the callback is not running the per-CPU counters add up to
    the total, modulo 2^32, over the online CPUs, while the module is loaded and
    while it is unloaded. *)
Theorem softirq_counts_add_up r w m w' :
  rtc step (demo_softirq_init, loaded (Vars 0 (λ _, 0) [] ids 0)) (Ret r, w) →
  rtc step (demo_softirq_exit, w) (m, w') → running w' softirq_timer = None →
  count (Deferred.vars w') = s32 (total (softirq_cpu_count (Deferred.vars w'))).
Proof.
  intros H1 H2 Hr. apply counted_total.
  apply (owner_lifecycle softirq_timer (counted Idle) between demo_softirq_init demo_softirq_exit
    (Vars 0 (λ _, 0) [] ids 0) r w m w');
    try done; [apply softirq_owner|repeat framed_call|repeat framed_call].
Qed.
(** The lines of the file for a total and per-CPU counters. *)
Definition cpu_line (f : Z → Z) (cpu : Z) : bytes :=
  chars "CPU " ++ dec cpu ++ chars ": " ++ dec (f cpu) ++ chars " raises" ++ [10].
Definition softirq_lines (n : Z) (f : Z → Z) : list bytes :=
  [chars ("Softirq Raising Demo" +:+ nl); chars "Total softirqs raised: " ++ dec n ++ [10];
   chars (nl +:+ "Per-CPU raises:" +:+ nl)] ++ (cpu_line f <$> online) ++
  [chars (nl +:+ "Check system softirq stats:" +:+ nl); chars ("cat /proc/softirqs" +:+ nl)].

Lemma shown_cpus l k (w : world obj vars) :
  shown (show_cpus l k) w = app (cpu_line (softirq_cpu_count (Deferred.vars w)) <$> l) <$> shown k w.
Proof.
  clear. revert w. induction l as [|c l IH]; intros w; [by simpl; destruct (shown k w)|].
  cbn [show_cpus shown read]. rewrite IH, (shown_ext k _ w) by done. by destruct (shown k w).
Qed.

Lemma softirq_shown w :
  shown (softirq_proc_show online) w =
    Some (softirq_lines (count (Deferred.vars w)) (softirq_cpu_count (Deferred.vars w))).
Proof. unfold softirq_proc_show. cbn [shown read]. by rewrite shown_cpus. Qed.

(** C33: the file shows exactly how often the callback has run.  Whatever CPUs the
    callbacks run on, in every state the module reaches in which the callback is not
    running, a reader of the file that nothing disturbs prints one text: the total
    is the number of callbacks so far, the number of each online CPU is how many of
    them ran there, both as an int, and the per-CPU numbers add up to the total,
    modulo 2^32; and a reader that has just opened the file can print it. *)
Theorem softirq_file_adds_up m w :
  rtc step (demo_softirq_init, loaded (Vars 0 (λ _, 0) [] ids 0)) (m, w) →
  running w softirq_timer = None →
  let n := reads (Deferred.vars w) in
  let lines := softirq_lines (s32 (Z.of_nat n)) (λ c, s32 (runs_on n c)) in
  shown (softirq_proc_show online) w = Some lines ∧
  s32 (total (λ c, s32 (runs_on n c))) = s32 (Z.of_nat n) ∧
  ∀ rest, users w = softirq_proc_show online :: rest →
    ∃ w', rtc step (m, w) (m, w') ∧ users w' = rest ∧ printed w' = printed w ++ lines.
Proof.
  intros H1 Hr n lines.
  assert (counted Idle (Deferred.vars w)) as (_ & Hc & Hp).
  { assert (owned softirq_timer (counted Idle) between m w) as [Hv _ _ _].
    { eapply owned_run; [apply softirq_owner| |exact H1]. constructor; [|done|done|repeat framed_call].
      apply counted_loaded. }
    by rewrite Hr in Hv. }
  assert (shown (softirq_proc_show online) w = Some lines) as Hs.
  { rewrite softirq_shown, Hc. unfold lines, softirq_lines.
    assert (cpu_line (softirq_cpu_count (Deferred.vars w)) <$> online =
      cpu_line (λ c, s32 (runs_on n c)) <$> online) as ->; [|done].
    apply list_fmap_ext. intros i c _. unfold cpu_line. by rewrite Hp. }
  split; [done|]. split; [by rewrite total_s32, total_runs_on|]. intros rest Hu.
  destruct (shown_inside (softirq_proc_show online) m w rest _ Hu Hs) as (w' & Hst & Hu' & Hpr & _). eauto.
Qed.
End totals.

Lemma softirq_counts_add_up_witness :
  let v := Vars 0 (λ _, 0) [] (λ k, Z.of_nat k mod 2) 0 in
  ∃ w w', rtc step (demo_softirq_init, loaded v) (Ret 0, w) ∧
    rtc step (demo_softirq_exit, w) (Ret 0, w') ∧
    count (Deferred.vars w') = s32 (total [0; 1] (softirq_cpu_count (Deferred.vars w'))) ∧
    count (Deferred.vars w') = 1.
Proof.
  intros v.
  destruct (schedules_reach objects softirq_objects
    ([Main 0; Main NULL; Main 0; Fire softirq_timer] ++ replicate 7 (Handler softirq_timer))
    (replicate 3 (Main 0)) demo_softirq_init demo_softirq_exit (loaded v)
    (λ w, running w softirq_timer = None ∧ count (Deferred.vars w) = 1))
    as (w & H1 & w' & H2 & H3 & H4); [set_solver|by vm_compute|].
  exists w, w'. split; [exact H1|]. split; [exact H2|]. split; [|exact H4].
  apply (softirq_counts_add_up [0; 1]) with (ids := λ k, Z.of_nat k mod 2) (r := 0) (w := w) (m := Ret 0);
    [| |exact H1|exact H2|exact H3].
  - apply (bool_decide_eq_true_1 _). reflexivity.
  - intros k. pose proof (Z.mod_pos_bound (Z.of_nat k) 2). rewrite !elem_of_cons. lia.
Defined.
(** Two CPUs; the callback has run once, on CPU 1, when the file is read. *)
Lemma softirq_file_adds_up_witness :
  let v := Vars 0 (λ _, 0) [] (λ k, Z.of_nat (S k) mod 2) 0 in
  ∃ w w', rtc step (demo_softirq_init, loaded v) (Ret 0, w) ∧
    shown (softirq_proc_show [0; 1]) w = Some (softirq_lines [0; 1] 1 (λ c, c)) ∧
    rtc step (Ret 0, w) (Ret 0, w') ∧ printed w' = softirq_lines [0; 1] 1 (λ c, c).
Proof.
  intros v. set (show := softirq_proc_show [0; 1]).
  destruct (schedule_reaches objects softirq_objects
    ([Main 0; Main 1; Main 0; Fire softirq_timer] ++ replicate 7 (Handler softirq_timer) ++ [Enter show])
    (demo_softirq_init, loaded v) 0
    (λ w, (running w softirq_timer = None ∧ users w = [show]) ∧ printed w = [] ∧ reads (Deferred.vars w) = 1%nat))
    as (w & H1 & (H2 & H3) & H4 & H5).
  - intros p Hp. exists [0; 1]. by assert (p = show) as -> by set_solver.
  - by vm_compute.
  - destruct (softirq_file_adds_up [0; 1]) with (ids := λ k, Z.of_nat (S k) mod 2) (m := Ret 0 : prog (act obj vars)) (w := w)
      as (Hs & _ & Hrun).
    + apply (bool_decide_eq_true_1 _). reflexivity.
    + intros k. pose proof (Z.mod_pos_bound (Z.of_nat (S k)) 2). rewrite !elem_of_cons. lia.
    + exact H1.
    + exact H2.
    + destruct (Hrun [] H3) as (w' & Hst & _ & Hp). rewrite H5 in Hs, Hp. rewrite H4 in Hp.
      exists w, w'. split; [exact H1|]. split; [etrans; [exact Hs|reflexivity]|]. split; [exact Hst|].
      etrans; [exact Hp|reflexivity].
Defined.
End SoftirqDemo.

(** ** The interrupt guide's test module (interrupt_handler_guide/irq_test.c) *)
Module IrqTest.
#[local] Open Scope prog_scope.

Inductive obj := test_timer.
#[export] Instance obj_eq : EqDecision obj.
Proof. solve_decision. Defined.

(** The only variable is irq_count; test_handler followed by [k]. *)
Definition test_handler (k : prog (act obj Z)) : prog (act obj Z) := increment id (λ n _, n) ;; k.
Definition timer_func : prog (act obj Z) := test_handler (Queue System test_timer ;; Ret 0).
Definition proc_show : prog (act obj Z) := Do (read id) (λ n, putn "IRQ count: " n "" ;; Ret 0).
Definition test_init : prog (act obj Z) :=
  Queue System test_timer ;; Do ProcCreate (λ p, SetProcEntry p ;; Ret 0).
Definition test_exit : prog (act obj Z) := Cancel test_timer ;; ProcRemoveEntry ;; read id ;; Ret 0.

#[export] Instance demo : Demo obj Z := {
  handler _ := timer_func; restarts _ _ := false; user p := p = proc_show
}.
#[export] Instance discipline : Discipline obj Z := {
  queues _ _ := true; user_queues _ := false; custom _ := false; custom_only _ := false
}.
#[export] Instance laws : DisciplineLaws (O := obj) (V := Z).
Proof. split; [intros []|intros p ->|done]; repeat quiet_call. Qed.

Lemma irq_test_unloads v : lifecycle test_init test_exit v (λ _, False) idle.
Proof.
  eapply (lifecycle_intro [test_timer]) with (φ := Phase (λ _, false) Assigned false)
    (F := λ _, False) (L := all_dead).
  - by intros []; apply list_elem_of_singleton.
  - eapply (ty_weaken _ _ (λ _, false)); [done|solve_closed|]. typed_call. typed_file.
  - do 3 typed_call. apply ty_ret. split_and!; [by intros []|done|done].
  - done.
  - intros. by eapply holds_idle.
Qed.
End IrqTest.
