(* ===== verification/QueueDemos.v ===== *)
(** * The tasklet, work-queue and timer-interrupt demos

    examples/class_5/04_work_queues/work_queues.c, 03_tasklet/tasklet_proirity.c
    and examples/class_4/01_interrupt_demo/interrupt_demo.c, on the machine of
    [Deferred.v].  The last two let users of their files queue deferred work, and
    remove the file only after the work was stopped. *)
From stdpp Require Import functions.
From S2P Require Import Prelude Bytes Kernel Threads Deferred.

(** ** Work queues (work_queues.c) *)
Module WorkDemo.
#[local] Open Scope prog_scope.

Inductive obj := work_timer | demo_work | delayed_work.
#[export] Instance obj_eq : EqDecision obj.
Proof. solve_decision. Defined.

(** The variables, schedule_work_timer's own counter, and the heap. *)
Record vars (H : Type) := Vars { work_count : Z; delayed_count : Z; counter : Z; heap : H }.
Arguments Vars {H} _ _ _ _.
Arguments work_count {H} _.
Arguments delayed_count {H} _.
Arguments counter {H} _.
Arguments heap {H} _.

Section work.
Context {H : Type} `{Allocator H}.
#[local] Abbreviation code := (prog (act obj (vars H))).

Definition set_work n (v : vars H) := Vars n (delayed_count v) (counter v) (heap v).
Definition set_delayed n (v : vars H) := Vars (work_count v) n (counter v) (heap v).
Definition set_counter n (v : vars H) := Vars (work_count v) (delayed_count v) n (heap v).
Definition set_heap (h : H) (v : vars H) := Vars (work_count v) (delayed_count v) (counter v) h.

Definition Kmalloc (n : Z) : act obj (vars H) :=
  Local (λ v, (set_heap (kmalloc (heap v) n).2 v, (kmalloc (heap v) n).1)).
Definition Kfree (p : Z) : act obj (vars H) := Local (λ v, (set_heap (kfree (heap v) p) v, 0)).

(** The text of line 27 goes to the buffer and the log only. *)
Definition demo_work_handler : code :=
  increment work_count set_work ;;
  Do (Kmalloc 256) (λ buffer,
  let rest := Msleep ;; Ret 0 in
  if negb (buffer =? NULL) then read work_count ;; Kfree buffer ;; rest else rest).

Definition delayed_work_handler : code :=
  increment delayed_count set_delayed ;; Queue System delayed_work ;; Ret 0.

Definition schedule_work_timer : code :=
  Do (increment counter set_counter) (λ counter,
  (if Z.rem counter 2 =? 0 then Queue System demo_work else Queue Custom demo_work) ;;
  Queue System work_timer ;; Ret 0).

Definition work_proc_show : code :=
  puts "Work Queue Demo" ;;
  Do (read work_count) (λ n, putn "Normal work executions: " n "" ;;
  Do (read delayed_count) (λ n, putn "Delayed work executions: " n "" ;;
  puts (nl +:+ "Work Queue Features:") ;;
  puts "- Runs in process context" ;;
  puts "- Can sleep and allocate memory" ;;
  puts "- Can be delayed/scheduled" ;;
  puts "- Custom workqueues available" ;; Ret 0)).

Definition work_init : code :=
  Do CreateQueue (λ custom_wq,
  if custom_wq =? NULL then Ret (- ENOMEM)
  else
    Queue System delayed_work ;; Queue System work_timer ;;
    Do ProcCreate (λ p, SetProcEntry p ;; Ret 0)).

Definition work_exit : code :=
  Cancel work_timer ;; Cancel demo_work ;; Cancel delayed_work ;; DestroyQueue ;; ProcRemoveEntry ;;
  read work_count ;; read delayed_count ;; Ret 0.

#[export] Instance demo : Demo obj (vars H) := {
  handler o :=
    match o with
    | work_timer => schedule_work_timer
    | demo_work => demo_work_handler
    | delayed_work => delayed_work_handler
    end;
  restarts _ _ := false;
  user p := p = work_proc_show
}.
#[export] Instance discipline : Discipline obj (vars H) := {
  queues o o' :=
    match o, o' with
    | work_timer, (work_timer | demo_work) => true
    | delayed_work, delayed_work => true
    | _, _ => false
    end;
  user_queues _ := false;
  custom o := match o with work_timer => true | _ => false end;
  custom_only _ := false
}.
#[export] Instance laws : DisciplineLaws (O := obj) (V := vars H).
Proof.
  split; [|intros p ->; repeat quiet_call|done].
  intros []; simpl.
  - unfold schedule_work_timer. quiet_call. destruct (Z.rem v 2 =? 0); repeat quiet_call.
  - unfold demo_work_handler. do 2 quiet_call. destruct (negb _); repeat quiet_call.
  - repeat quiet_call.
Qed.

Definition objects : list obj := [work_timer; demo_work; delayed_work].
Lemma work_objects o : o ∈ objects.
Proof. destruct o; set_solver. Qed.

Lemma work_init_typed :
  typed (λ r φ, (r ≠ 0 ∧ all_dead φ) ∨ (r = 0 ∧ φ = Phase (λ _, false) Assigned true)) unloaded work_init.
Proof.
  apply ty_create_queue; [done|by apply ty_ret; left|]. intros v Hv. rewrite (proj2 (Z.eqb_neq _ _)) by done.
  eapply (ty_weaken _ _ (λ _, false)); [done|solve_closed|]. do 2 typed_call.
  typed_file.
Qed.

Lemma work_exit_typed : typed (λ _, all_dead) (Phase (λ _, false) Assigned true) work_exit.
Proof.
  do 3 typed_call. apply (ty_destroy_queue _ _ (λ _, true)).
  - intros []; by vm_compute; auto.
  - intros []; by vm_compute.
  - done.
  - solve_closed.
  - intros _. do 3 typed_call. by apply ty_ret.
Qed.

(** C14: The work-queue demo unloads cleanly.  However the timer, the work on either
    queue, the delayed work that requeues itself and the readers interleave:
    loading can finish and leaves nothing when it fails; after a successful load,
    at any time, unloading can finish and leaves nothing pending or running, no
    file and no work queue, and no work was ever queued on a queue that is gone. *)
Theorem work_demo_unloads (h : H) : lifecycle work_init work_exit (Vars 0 0 0 h) idle idle.
Proof.
  eapply (lifecycle_intro objects work_objects).
  - apply work_init_typed.
  - apply work_exit_typed.
  - intros. by eapply holds_idle.
  - intros. by eapply holds_idle.
Qed.

(** The buffer of the work handler: [None], or the block it holds. *)
Inductive holding : option Z → code → Prop :=
| hold_ret r : holding None (Ret r)
| hold_local o f k :
    (∀ v, heap (f v).1 = heap v) → (∀ r, holding o (k r)) → holding o (Do (Local f) k)
| hold_do o a k : (∀ f, a ≠ Local f) → (∀ r, holding o (k r)) → holding o (Do a k)
| hold_kmalloc n k :
    holding None (k NULL) → (∀ b, b ≠ NULL → holding (Some b) (k b)) → holding None (Do (Kmalloc n) k)
| hold_kfree b k : (∀ r, holding None (k r)) → holding (Some b) (Do (Kfree b) k).

Lemma holding_work : holding None demo_work_handler.
Proof.
  unfold demo_work_handler. apply hold_local; [done|intros _]. apply hold_kmalloc; simpl.
  - by repeat first [apply hold_do; [done|intros _]|apply hold_ret].
  - intros b Hb. rewrite (proj2 (Z.eqb_neq _ _)) by done. simpl.
    apply hold_local; [done|intros _]. apply hold_kfree. intros _.
    by repeat first [apply hold_do; [done|intros _]|apply hold_ret].
Qed.

Section heap.
Context `{!AllocatorLaws H} (h0 : H).

(** The live blocks are those at load, and the buffer. *)
Definition heap_ok (o : option Z) (v : vars H) : Prop :=
  match o with
  | None => live (heap v) = live h0
  | Some b => ((ByKmalloc, b) ∉ live h0) ∧ live (heap v) = {[(ByKmalloc, b)]} ∪ live h0
  end.
Definition work_holds (p : code) (v : vars H) : Prop := ∃ o, holding o p ∧ heap_ok o v.

Lemma heap_ok_step o f k v :
  holding o (Do (Local f) k) → heap_ok o v → ∃ o', holding o' (k (f v).2) ∧ heap_ok o' (f v).1.
Proof.
  intros Ht Hv. inversion Ht as [|o1 f' k' Hf Hk|o1 a k' Hn Hk|n k' Hk0 Hk|b k' Hk]; subst.
  - exists o. split; [done|]. unfold heap_ok in *. by rewrite Hf.
  - by destruct (Hn f).
  - destruct (kmalloc_spec (heap v) n) as [[E1 E2]|(E1 & E2 & E3)]; simpl in *.
    + exists None. rewrite E1. split; [done|]. unfold heap_ok. simpl. congruence.
    + exists (Some (kmalloc (heap v) n).1). split; [auto|]. unfold heap_ok. simpl.
      rewrite <-Hv. split; [apply E2|congruence].
  - exists None. split; [done|]. unfold heap_ok in *. simpl. destruct Hv as [Hb Hv].
    rewrite kfree_live, Hv by (rewrite Hv; by apply elem_of_union_l, elem_of_singleton).
    by apply difference_union_singleton_fresh.
Qed.

Instance work_owner : Owner demo_work (heap_ok None) work_holds.
Proof.
  assert (∀ get set, (∀ n v, heap (set n v) = heap v) → ∀ k, (∀ r, framed (heap_ok None) work_holds (k r)) →
    framed (heap_ok None) work_holds (Do (increment (O := obj) get set) k)) as Hinc.
  { intros get set Hs k Hk. apply framed_local; [|intros p v (o & Hh & Hv); exists o; split; [done|]|done];
      intros; unfold heap_ok in *; simpl; by rewrite Hs. }
  split.
  - intros v Hv. exists None. split; [apply holding_work|done].
  - intros r v (o & Hh & Hv). inversion Hh; by subst.
  - intros f k v (o & Hh & Hv). by apply (heap_ok_step o).
  - intros a k v r Hn (o & Hh & Hv). exists o. split; [|done].
    inversion Hh; subst; [by edestruct Hn|done|by edestruct Hn..].
  - intros [] Hne; try done; simpl.
    + apply Hinc; [done|]. intros c. destruct (Z.rem c 2 =? 0); repeat framed_call.
    + apply Hinc; [done|]. intros c. repeat framed_call.
  - intros p ->. repeat framed_call.
Qed.

Lemma work_framed (p : code) :
  p = work_init ∨ p = work_exit → framed (heap_ok None) work_holds p.
Proof.
  intros [-> | ->]; [|repeat framed_call]. unfold work_init. framed_call.
  destruct (_ =? _); repeat framed_call.
Qed.

(** The work handler returns every buffer.  Whatever allocations fail and
    however often the work has run, when the work is not running the live blocks
    are those there were at load; in particular none is freed twice and none is
    left when the module is gone. *)
Theorem work_buffers_freed r w m w' :
  rtc step (work_init, loaded (Vars 0 0 0 h0)) (Ret r, w) → rtc step (work_exit, w) (m, w') →
  running w' demo_work = None → live (heap (Deferred.vars w')) = live h0.
Proof.
  intros H1 H2 Hr.
  apply (owner_lifecycle demo_work (heap_ok None) work_holds work_init work_exit (Vars 0 0 0 h0) r w m w');
    auto using work_framed; [apply work_owner|done].
Qed.
End heap.
End work.

Lemma work_buffers_freed_witness :
  let h := Bump ∅ 4096 10 in
  ∃ w w', rtc step (work_init, loaded (Vars 0 0 0 h)) (Ret 0, w) ∧ rtc step (work_exit, w) (Ret 0, w') ∧
    work_count (Deferred.vars w') = 1 ∧ live (heap (Deferred.vars w')) = live h.
Proof.
  intros h.
  destruct (schedules_reach objects work_objects
    ([Main 1; Main 0; Main 0; Main 1; Main 0; Fire work_timer] ++ replicate 4 (Handler work_timer) ++
     Fire demo_work :: replicate 6 (Handler demo_work)) (replicate 7 (Main 0))
    work_init work_exit (loaded (Vars 0 0 0 h))
    (λ w, running w demo_work = None ∧ work_count (Deferred.vars w) = 1))
    as (w & H1 & w' & H2 & H3 & H4); [set_solver|by vm_compute|].
  exists w, w'. split; [exact H1|]. split; [exact H2|]. split; [exact H4|].
  apply (work_buffers_freed h 0 w (Ret 0) w' H1 H2 H3).
Defined.
End WorkDemo.

(** ** Tasklet priorities (tasklet_proirity.c) *)
Module TaskletDemo.
#[local] Open Scope prog_scope.

Inductive obj := tasklet_timer | normal_tasklet | hi_tasklet.
#[export] Instance obj_eq : EqDecision obj.
Proof. solve_decision. Defined.

(** normal_count, hi_count, and the counter of schedule_tasklet_timer. *)
Record vars := Vars { normal_count : Z; hi_count : Z; counter : Z }.
Definition set_normal n v := Vars n (hi_count v) (counter v).
Definition set_hi n v := Vars (normal_count v) n (counter v).
Definition set_counter n v := Vars (normal_count v) (hi_count v) n.

Definition normal_tasklet_handler : prog (act obj vars) := increment normal_count set_normal ;; Ret 0.
Definition hi_tasklet_handler : prog (act obj vars) := increment hi_count set_hi ;; Ret 0.
Definition schedule_tasklet_timer : prog (act obj vars) :=
  Do (increment counter set_counter) (λ counter,
  let rest := Queue System normal_tasklet ;; Queue System tasklet_timer ;; Ret 0 in
  if Z.rem counter 2 =? 0 then Queue System hi_tasklet ;; rest else rest).

Definition is_tasklet_scheduled (o : obj) : act obj vars := IsPending o.
Definition tasklet_proc_show : prog (act obj vars) :=
  puts "Tasklet Demo" ;;
  Do (read normal_count) (λ n, putn "Normal tasklets: " n "" ;;
  Do (read hi_count) (λ n, putn "Hi-priority tasklets: " n "" ;;
  puts (nl +:+ "Tasklet States:") ;;
  Do (is_tasklet_scheduled normal_tasklet) (λ b, puts ("Normal scheduled: " +:+ if b =? 0 then "NO" else "YES") ;;
  Do (is_tasklet_scheduled hi_tasklet) (λ b, puts ("Hi-priority scheduled: " +:+ if b =? 0 then "NO" else "YES") ;;
  puts (nl +:+ "Manual control:") ;;
  puts "echo 1 > /proc/tasklet_demo  # Schedule normal" ;;
  puts "echo 2 > /proc/tasklet_demo  # Schedule hi-priority" ;; Ret 0)))).

Definition demo_tasklet_init : prog (act obj vars) :=
  Queue System tasklet_timer ;; Do ProcCreate (λ p, SetProcEntry p ;; Ret 0).
Definition demo_tasklet_exit : prog (act obj vars) :=
  Cancel tasklet_timer ;; Flush normal_tasklet ;; Flush hi_tasklet ;; ProcRemoveEntry ;;
  read normal_count ;; read hi_count ;; Ret 0.

Section write.
Context {U : Type} `{UserAccess U} (kstrtoint : bytes → option Z).

(** tasklet_proc_write; [input] is the uninitialised 8-byte array. *)
Definition tasklet_proc_write (input : bytes) (u : U) (buffer count : Z) : option (prog (act obj vars)) :=
  r ← read_input input u buffer count;
  match r with
  | inl e => Some (Ret e)
  | inr b =>
      match kstrtoint b with
      | None => Some (Ret (- EINVAL))
      | Some value =>
          Some (if value =? 1 then Queue System normal_tasklet ;; Ret count
                else if value =? 2 then Queue System hi_tasklet ;; Ret count
                else Ret (- EINVAL))
      end
  end.

(** A user shows the file, or writes any bytes to it. *)
Definition tasklet_user (p : prog (act obj vars)) : Prop :=
  p = tasklet_proc_show ∨
  ∃ input u buffer count, blen input = 8 ∧ tasklet_proc_write input u buffer count = Some p.
End write.

Section demo.
Context {U : Type} `{UserAccess U} (kstrtoint : bytes → option Z).

#[local] Instance demo : Demo obj vars := {
  handler o :=
    match o with
    | tasklet_timer => schedule_tasklet_timer
    | normal_tasklet => normal_tasklet_handler
    | hi_tasklet => hi_tasklet_handler
    end;
  restarts _ _ := false;
  user := tasklet_user kstrtoint
}.
#[local] Instance discipline : Discipline obj vars := {
  queues o _ := match o with tasklet_timer => true | _ => false end;
  user_queues o := match o with tasklet_timer => false | _ => true end;
  custom _ := false; custom_only _ := false
}.
#[local] Instance laws : DisciplineLaws (O := obj) (V := vars).
Proof.
  split; [|intros p [->|(input & u & buffer & count & _ & Hw)]|done].
  - intros []; simpl; try by repeat quiet_call. unfold schedule_tasklet_timer.
    quiet_call. simpl. destruct (Z.rem _ 2 =? 0); repeat quiet_call.
  - repeat quiet_call.
  - unfold tasklet_proc_write in Hw. destruct (read_input _ _ _ _) as [[e|b]|]; simplify_eq/=; [quiet_call|].
    destruct (kstrtoint b) as [v|]; simplify_eq; [|quiet_call].
    destruct (v =? 1); [repeat quiet_call|]. destruct (v =? 2); repeat quiet_call.
Qed.

Definition objects : list obj := [tasklet_timer; normal_tasklet; hi_tasklet].
Lemma tasklet_objects o : o ∈ objects.
Proof. destruct o; set_solver. Qed.

(** What unloading may leave: tasklets, but not the timer and not the file. *)
Definition only_tasklets (w : world obj vars) : Prop :=
  pending w tasklet_timer = None ∧ running w tasklet_timer = None ∧ users w = [] ∧ proc w = false ∧
  undefined w = false.

(** The tasklet demo can always be loaded and unloaded, whatever users write
    to its file meanwhile, and leaves no timer, no file and no user in it. *)
Theorem tasklet_demo_unloads :
  lifecycle demo_tasklet_init demo_tasklet_exit (Vars 0 0 0) (λ _, False) only_tasklets.
Proof.
  eapply (lifecycle_intro objects tasklet_objects) with (φ := Phase (λ _, false) Assigned false)
    (F := λ _, False) (L := λ φ, dead φ tasklet_timer = true ∧ entry φ = NoFile).
  - eapply (ty_weaken _ _ (λ _, false)); [done|solve_closed|]. typed_call.
    typed_file.
  - typed_call. do 2 (apply ty_flush_only; [done|intros _]). do 3 typed_call. by apply ty_ret.
  - done.
  - intros φ w Hh [Hd He]. pose proof (h_file _ _ Hh) as Hf. rewrite He in Hf.
    destruct (h_dead _ _ Hh _ Hd). split_and!; [done..| |done|apply Hh]. by apply (h_nobody _ _ Hh).
Qed.

(** Demo_tasklet_exit kills the tasklets before it removes the file.  A user
    whose write of 1 falls between the two schedules the tasklet again, and it is
    still scheduled when the module is gone. *)
Theorem write_reschedules_tasklet input u buffer count b :
  blen input = 8 → read_input input u buffer count = Some (inr b) → kstrtoint b = Some 1 →
  ∃ w, rtc step (demo_tasklet_init, loaded (Vars 0 0 0)) (Ret 0, w) ∧
    ∃ w', rtc step (demo_tasklet_exit, w) (Ret 0, w') ∧ pending w' normal_tasklet = Some System.
Proof.
  intros Hi Hr Hk.
  set (p := Queue System normal_tasklet ;; Ret count : prog (act obj vars)).
  assert (user p) as Hu.
  { right. exists input, u, buffer, count. split; [done|]. unfold tasklet_proc_write. rewrite Hr. simpl. by rewrite Hk. }
  apply (schedules_reach objects tasklet_objects [Main 0; Main 1; Main 0]
    [Main 0; Main 0; Main 0; Enter p; User 0; User 0; Main 0; Main 0; Main 0]).
  - intros p' Hp. by assert (p' = p) as -> by set_solver.
  - by vm_compute.
Qed.
End demo.

(** The user's number, for the witness. *)
Definition wparse (b : bytes) : option Z :=
  match c_str b with [c] => if (48 <=? c) && (c <=? 57) then Some (c - 48) else None | _ => None end.

Lemma write_reschedules_tasklet_witness :
  ∃ w w', rtc (step (H := demo wparse)) (demo_tasklet_exit, w) (Ret 0, w') ∧
    pending w' normal_tasklet = Some System.
Proof.
  destruct (write_reschedules_tasklet wparse (bfill 0xCC 8) (FlatUser 1000 (chars "1")) 1000 1
    ([49; 0] ++ bfill 0xCC 6)) as (w & _ & w' & Hr & Hp); [reflexivity|vm_compute; reflexivity|reflexivity|].
  exists w, w'. split; [exact Hr|exact Hp].
Defined.
End TaskletDemo.

(** ** A timer set by opening a file (class_4/01_interrupt_demo/interrupt_demo.c) *)
Module InterruptDemo.
#[local] Open Scope prog_scope.

Inductive obj := my_timer.
#[export] Instance obj_eq : EqDecision obj.
Proof. solve_decision. Defined.

(** The only variable is interrupt_count; timer_irq_handler followed by [k]. *)
Definition timer_irq_handler (k : prog (act obj Z)) : prog (act obj Z) := increment id (λ n _, n) ;; k.
Definition timer_callback : prog (act obj Z) := timer_irq_handler (Ret 0).
Definition proc_show : prog (act obj Z) :=
  Do (read id) (λ n, putn "Interrupt count: " n "" ;;
  Do (IsPending my_timer) (λ b, puts ("Timer active: " +:+ if b =? 0 then "No" else "Yes") ;; Ret 0)).
(** A reader opens the file, which sets the timer, and shows it. *)
Definition proc_open : prog (act obj Z) := Queue System my_timer ;; proc_show.

Definition timer_irq_init : prog (act obj Z) :=
  Do ProcCreate (λ p, SetProcEntry p ;; if negb (p =? NULL) then Ret 0 else Ret (- ENOMEM)).
Definition timer_irq_exit : prog (act obj Z) := Cancel my_timer ;; ProcRemoveEntry ;; read id ;; Ret 0.

#[export] Instance demo : Demo obj Z := {
  handler _ := timer_callback; restarts _ _ := false; user p := p = proc_open
}.
#[export] Instance discipline : Discipline obj Z := {
  queues _ _ := false; user_queues _ := true; custom _ := false; custom_only _ := false
}.
#[export] Instance laws : DisciplineLaws (O := obj) (V := Z).
Proof.
  split; [intros []|intros p ->|done]; repeat quiet_call.
Qed.
Definition objects : list obj := [my_timer].
Lemma objects_all o : o ∈ objects.
Proof. destruct o; set_solver. Qed.

(** Timer_irq_exit stops the timer before it removes the file.  A reader that
    opens the file in between sets the timer again, and it is still pending when
    the module is gone. *)
Theorem open_sets_timer_again :
  ∃ w, rtc step (timer_irq_init, loaded 0) (Ret 0, w) ∧
    ∃ w', rtc step (timer_irq_exit, w) (Ret 0, w') ∧ pending w' my_timer = Some System.
Proof.
  apply (schedules_reach objects objects_all [Main 1; Main 0]
    ([Main 0; Enter proc_open] ++ replicate 6 (User 0) ++ [Main 0; Main 0])).
  - intros p' Hp. by assert (p' = proc_open) as -> by set_solver.
  - by vm_compute.
Qed.
End InterruptDemo.
