(* ===== verification/Jiffies.v ===== *)
(** * The jiffies demo (examples/class_5/05_jiffies_conversions/jiffies_conversions.c)

    Jiffies count timer ticks in an unsigned long and wrap around.  The demo
    computes the time since it was loaded, and compares times.  The conversions and
    the comparison macros are the kernel's ([JiffiesApi] in [Kernel.v]). *)
From stdpp Require Import functions.
From S2P Require Import Prelude Bytes Kernel Threads Deferred.

Section jiffies.
Context `{JiffiesApi}.

(** What one run of time_callback logs: the number of the run, the uptime in
    jiffies and in milliseconds, whether more than ten seconds have passed,
    future_time, and whether now is before it.  [j1] to [j4] are its reads of
    jiffies. *)
Record time_report := Report {
  fire : Z; uptime : Z; uptime_ms : Z; more_than_10s : bool; future_time : Z; before_future : bool
}.
Definition callback_report (timer_fires start_jiffies j1 j2 j3 j4 : Z) : time_report :=
  let uptime := u64 (j1 - start_jiffies) in
  let future_time := u64 (j2 + 5 * HZ) in
  Report timer_fires uptime (jiffies_to_msecs uptime) (time_after j3 (u64 (start_jiffies + 10 * HZ)))
    future_time (time_before j4 future_time).

Definition line (s : string) : bytes := chars s ++ [10].
Definition bool_text (b : bool) : bytes := if b then chars "true" else chars "false".

(** time_proc_show: [current_jiffies] and [current_ktime] are its reads of the
    clocks; ktime_sub and ktime_to_ns work on signed 64-bit nanoseconds. *)
Definition time_proc_show (start_jiffies start_ktime timer_fires current_jiffies current_ktime : Z) : bytes :=
  let uptime_jiffies := u64 (current_jiffies - start_jiffies) in
  let uptime_ktime := s64 (current_ktime - start_ktime) in
  let future := u64 (current_jiffies + 100) in
  line "Jiffies and Time Demo" ++ line "====================" ++
  line "System Configuration:" ++
  chars "HZ (timer freq): " ++ dec HZ ++ [10] ++
  chars "Timer resolution: " ++ dec (Z.quot 1000 HZ) ++ chars " ms" ++ [10] ++
  [10] ++ line "Current Values:" ++
  chars "Current jiffies: " ++ dec current_jiffies ++ [10] ++
  chars "Start jiffies: " ++ dec start_jiffies ++ [10] ++
  chars "Uptime jiffies: " ++ dec uptime_jiffies ++ [10] ++
  [10] ++ line "Time Conversions:" ++
  chars "Uptime in ms: " ++ dec (jiffies_to_msecs uptime_jiffies) ++ [10] ++
  chars "Uptime in seconds: " ++ dec (jiffies_to_msecs uptime_jiffies / 1000) ++ [10] ++
  chars "1 second = " ++ dec HZ ++ chars " jiffies" ++ [10] ++
  chars "100ms = " ++ dec (msecs_to_jiffies 100) ++ chars " jiffies" ++ [10] ++
  chars "1000μs = " ++ dec (usecs_to_jiffies 1000) ++ chars " jiffies" ++ [10] ++
  [10] ++ line "High-Resolution Time:" ++
  chars "ktime uptime: " ++ dec uptime_ktime ++ chars " ns" ++ [10] ++
  chars "ktime uptime: " ++ dec (Z.quot uptime_ktime 1000000) ++ chars " ms" ++ [10] ++
  [10] ++ line "Timer Statistics:" ++
  chars "Timer fires: " ++ dec timer_fires ++ [10] ++
  [10] ++ line "Time Comparison Demo:" ++
  chars "time_after(future, now): " ++ bool_text (time_after future current_jiffies) ++ [10].
End jiffies.

(** ** The module *)
#[local] Open Scope prog_scope.

Inductive obj := time_timer.
#[export] Instance obj_eq : EqDecision obj.
Proof. solve_decision. Defined.

(** start_jiffies and timer_fires; the reads of jiffies, of which [reads] were
    taken, and the reports of the callback so far. *)
Record vars := Vars {
  start_jiffies : Z; timer_fires : Z; jiffies : nat → Z; reads : nat; reports : list time_report
}.
Definition set_start t v := Vars t (timer_fires v) (jiffies v) (reads v) (reports v).
Definition set_fires n v := Vars (start_jiffies v) n (jiffies v) (reads v) (reports v).
Definition read_jiffies : act obj vars :=
  Local (λ v, (Vars (start_jiffies v) (timer_fires v) (jiffies v) (S (reads v)) (reports v), jiffies v (reads v))).
Definition report (r : time_report) : act obj vars :=
  Local (λ v, (Vars (start_jiffies v) (timer_fires v) (jiffies v) (reads v) (reports v ++ [r]), 0)).

Section module.
Context `{JiffiesApi}.

(** time_callback. *)
Definition time_callback : prog (act obj vars) :=
  Do read_jiffies (λ j1, Do (read start_jiffies) (λ start,
  Do read_jiffies (λ j2,
  increment timer_fires set_fires ;;
  Do (read timer_fires) (λ fires,
  Do read_jiffies (λ j3, Do read_jiffies (λ j4,
  report (callback_report fires start j1 j2 j3 j4) ;;
  read_jiffies ;; Queue System time_timer ;; Ret 0)))))).

Definition time_show_reads : prog (act obj vars) :=
  read_jiffies ;; read start_jiffies ;; read timer_fires ;; Ret 0.

Definition time_init : prog (act obj vars) :=
  Do read_jiffies (λ j, Local (λ v, (set_start j v, 0)) ;;
  read_jiffies ;; Queue System time_timer ;;
  Do ProcCreate (λ p, SetProcEntry p ;; Ret 0)).
Definition time_exit : prog (act obj vars) :=
  read_jiffies ;; read start_jiffies ;; Cancel time_timer ;; ProcRemoveEntry ;; Ret 0.

#[export] Instance demo : Demo obj vars := {
  handler _ := time_callback; restarts _ _ := false; user p := p = time_show_reads
}.
#[export] Instance discipline : Discipline obj vars := {
  queues _ _ := true; user_queues _ := false; custom _ := false; custom_only _ := false
}.
#[export] Instance laws : DisciplineLaws (O := obj) (V := vars).
Proof. split; [intros []|intros p ->|done]; repeat quiet_call. Qed.

Lemma time_demo_unloads v : lifecycle time_init time_exit v (λ _, False) idle.
Proof.
  eapply (lifecycle_intro [time_timer]) with (φ := Phase (λ _, false) Assigned false)
    (F := λ _, False) (L := all_dead).
  - by intros []; apply list_elem_of_singleton.
  - eapply (ty_weaken _ _ (λ _, false)); [done|solve_closed|]. do 4 typed_call.
    typed_file.
  - do 4 typed_call. apply ty_ret. split_and!; [by intros []|done|done].
  - done.
  - intros. by eapply holds_idle.
Qed.
End module.

(** ** What the reports say *)
Section facts.
Context `{JiffiesLaws}.

(** The value of jiffies [t] ticks after load. *)
Definition at_tick (start t : Z) : Z := u64 (start + t).

Lemma uptime_exact start t : 0 <= t < 2^64 → u64 (at_tick start t - start) = t.
Proof. intros. unfold at_tick. wrap_lia. Qed.

Lemma time_after_exact start t t' :
  0 <= t < 2^63 → 0 <= t' < 2^63 → time_after (at_tick start t) (at_tick start t') = (t' <? t).
Proof.
  intros. rewrite time_after_spec. unfold at_tick.
  assert (s64 (u64 (start + t') - u64 (start + t)) = t' - t) as ->; [wrap_lia|].
  destruct (Z.ltb_spec (t' - t) 0), (Z.ltb_spec t' t); lia.
Qed.


(** The file shows the ticks since load, and that the future is after now,
    whether or not jiffies has wrapped around. *)
Theorem time_proc_show_exact start start_ktime fires now t :
  is_u64 start → 0 <= t < 2^63 - 100 → 0 <= start_ktime <= now → now < 2^63 →
  time_proc_show start start_ktime fires (at_tick start t) now =
  line "Jiffies and Time Demo" ++ line "====================" ++
  line "System Configuration:" ++
  chars "HZ (timer freq): " ++ dec HZ ++ [10] ++
  chars "Timer resolution: " ++ dec (1000 / HZ) ++ chars " ms" ++ [10] ++
  [10] ++ line "Current Values:" ++
  chars "Current jiffies: " ++ dec (at_tick start t) ++ [10] ++
  chars "Start jiffies: " ++ dec start ++ [10] ++
  chars "Uptime jiffies: " ++ dec t ++ [10] ++
  [10] ++ line "Time Conversions:" ++
  chars "Uptime in ms: " ++ dec (jiffies_to_msecs t) ++ [10] ++
  chars "Uptime in seconds: " ++ dec (jiffies_to_msecs t / 1000) ++ [10] ++
  chars "1 second = " ++ dec HZ ++ chars " jiffies" ++ [10] ++
  chars "100ms = " ++ dec (msecs_to_jiffies 100) ++ chars " jiffies" ++ [10] ++
  chars "1000μs = " ++ dec (usecs_to_jiffies 1000) ++ chars " jiffies" ++ [10] ++
  [10] ++ line "High-Resolution Time:" ++
  chars "ktime uptime: " ++ dec (now - start_ktime) ++ chars " ns" ++ [10] ++
  chars "ktime uptime: " ++ dec ((now - start_ktime) / 1000000) ++ chars " ms" ++ [10] ++
  [10] ++ line "Timer Statistics:" ++
  chars "Timer fires: " ++ dec fires ++ [10] ++
  [10] ++ line "Time Comparison Demo:" ++
  chars "time_after(future, now): true" ++ [10].
Proof.
  intros Hs Ht Hk Hn. pose proof HZ_range as Hz. unfold time_proc_show.
  rewrite uptime_exact by lia. rewrite s64_small by (unfold is_s64; lia).
  rewrite Z.quot_div_nonneg, (Z.quot_div_nonneg (now - start_ktime)) by lia.
  assert (u64 (at_tick start t + 100) = at_tick start (t + 100)) as ->.
  { unfold at_tick. rewrite u64_add_l. f_equal. lia. }
  rewrite time_after_exact by lia. rewrite (proj2 (Z.ltb_lt _ _)) by lia. done.
Qed.
End facts.


Lemma time_proc_show_exact_witness :
  length (time_proc_show (2^64 - 5) 0 7 (at_tick (2^64 - 5) 15) 2000000) = 474%nat.
Proof.
  rewrite (time_proc_show_exact (2^64 - 5) 0 7 2000000 15); [vm_compute; reflexivity|unfold is_u64; lia|lia..].
Defined.
