(* ===== verification/InlineAsm.v ===== *)
(** * Inline assembly

    examples/inline_assembly/inline_assembly.c, the assignment assingments/as1
    (swap_variables.c, with the statement of sol.c) and
    examples/int_80/write_stdout_int80.c.  The asm
    statements are programs for a machine with the instructions they use, in their
    order, over 64-bit registers and byte-addressed memory.  An access to memory
    that is not mapped faults ([None]).  What the processor answers to cpuid and
    rdtsc, and the kernel to int $0x80, is an interface.

    A C variable that an operand names by "m" is the memory operand [Mem] of its
    address; an "r" operand is the value the compiler put into a register it did not
    list as clobbered. *)
From S2P Require Import Prelude Bytes.

(** ** The machine *)

Inductive reg := RAX | RBX | RCX | RDX | RSI.
#[export] Instance reg_eq : EqDecision reg.
Proof. solve_decision. Defined.

Record regs := Regs { rax : Z; rbx : Z; rcx : Z; rdx : Z; rsi : Z }.
Definition get (r : reg) (rs : regs) : Z :=
  match r with RAX => rax rs | RBX => rbx rs | RCX => rcx rs | RDX => rdx rs | RSI => rsi rs end.
Definition set (r : reg) (v : Z) (rs : regs) : regs :=
  match r with
  | RAX => Regs v (rbx rs) (rcx rs) (rdx rs) (rsi rs)
  | RBX => Regs (rax rs) v (rcx rs) (rdx rs) (rsi rs)
  | RCX => Regs (rax rs) (rbx rs) v (rdx rs) (rsi rs)
  | RDX => Regs (rax rs) (rbx rs) (rcx rs) v (rsi rs)
  | RSI => Regs (rax rs) (rbx rs) (rcx rs) (rdx rs) v
  end.

(** Memory: the bytes that are mapped.  Values are little-endian. *)
Abbreviation mem := (gmap Z Z).

Fixpoint load (w : nat) (a : Z) (m : mem) : option Z :=
  match w with
  | O => Some 0
  | S w => b ← m !! a; r ← load w (a + 1) m; Some (b + 256 * r)
  end.
Fixpoint put (w : nat) (a v : Z) (m : mem) : mem :=
  match w with
  | O => m
  | S w => put w (a + 1) (v / 256) (<[a := v mod 256]> m)
  end.
Definition store (w : nat) (a v : Z) (m : mem) : option mem :=
  match load w a m with Some _ => Some (put w a v m) | None => None end.

Inductive operand :=
| Imm (v : Z) | Input (v : Z) | Reg (r : reg) | Mem (a : Z) | Ind (r : reg) (disp : Z).

Inductive instr :=
| Mov (w : nat) (src dst : operand)   (* movl: 4 bytes; movq: 8 *)
| Add (w : nat) (src dst : operand)
| Cpuid | Rdtsc | Int80.

Class Machine := {
  cpuid : Z → Z * Z * Z * Z;
  tsc : Z;
  int80 : Z → Z → Z → Z → mem → Z
}.

Section machine.
Context `{Machine}.

Definition bits (w : nat) : Z := 8 * Z.of_nat w.

(** A 32-bit write to a register clears its upper half. *)
Definition read_op (w : nat) (o : operand) (rs : regs) (m : mem) : option Z :=
  match o with
  | Imm v | Input v => Some (v mod 2^bits w)
  | Reg r => Some (get r rs mod 2^bits w)
  | Mem a => load w a m
  | Ind r disp => load w (u64 (get r rs + disp)) m
  end.
Definition write_op (w : nat) (o : operand) (v : Z) (rs : regs) (m : mem) : option (regs * mem) :=
  match o with
  | Reg r => Some (set r v rs, m)
  | Mem a => m ← store w a v m; Some (rs, m)
  | Ind r disp => m ← store w (u64 (get r rs + disp)) v m; Some (rs, m)
  | Imm _ | Input _ => None
  end.

Definition exec_instr (i : instr) (s : regs * mem) : option (regs * mem) :=
  let '(rs, m) := s in
  match i with
  | Mov w src dst => v ← read_op w src rs m; write_op w dst v rs m
  | Add w src dst =>
      x ← read_op w src rs m; y ← read_op w dst rs m; write_op w dst ((y + x) mod 2^bits w) rs m
  | Cpuid =>
      let '(a, b, c, d) := cpuid (u32 (rax rs)) in Some (Regs (u32 a) (u32 b) (u32 c) (u32 d) (rsi rs), m)
  | Rdtsc => Some (set RAX (u32 tsc) (set RDX (u32 (Z.shiftr (u64 tsc) 32)) rs), m)
  | Int80 =>
      Some (set RAX (u64 (int80 (u32 (rax rs)) (u32 (rbx rs)) (u32 (rcx rs)) (u32 (rdx rs)) m)) rs, m)
  end.

Fixpoint exec (l : list instr) (s : regs * mem) : option (regs * mem) :=
  match l with
  | [] => Some s
  | i :: l => s ← exec_instr i s; exec l s
  end.
End machine.

Abbreviation movq := (Mov 8).
Abbreviation movl := (Mov 4).
Abbreviation addq := (Add 8).

(** ** The asm statements

    The arguments are the addresses of the C variables. *)

Definition register_ops_asm (result input : Z) : list instr :=
  [movq (Mem input) (Reg RAX); addq (Imm 10) (Reg RAX); movq (Reg RAX) (Mem result)].

Definition multi_commands_asm (vrax vrbx vrcx : Z) : list instr :=
  [movq (Imm 100) (Reg RAX); movq (Imm 200) (Reg RBX); addq (Reg RBX) (Reg RAX);
   movq (Reg RAX) (Mem vrax); movq (Reg RBX) (Mem vrbx);
   movq (Imm 300) (Reg RCX); movq (Reg RCX) (Mem vrcx)].

Definition read_params_asm (result input1 input2 : Z) : list instr :=
  [movq (Mem input1) (Reg RAX); movq (Mem input2) (Reg RBX);
   addq (Reg RBX) (Reg RAX); movq (Reg RAX) (Mem result)].

Definition write_params_asm (output1 output2 : Z) : list instr :=
  [movq (Imm 123) (Reg RAX); movq (Imm 456) (Reg RBX);
   movq (Reg RAX) (Mem output1); movq (Reg RBX) (Mem output2)].

(** "m"(array) is the array itself, not its address. *)
Definition address_usage_asm (sum array : Z) : list instr :=
  [movq (Mem array) (Reg RSI); movq (Ind RSI 0) (Reg RAX);
   addq (Ind RSI 8) (Reg RAX); addq (Ind RSI 16) (Reg RAX); movq (Reg RAX) (Mem sum)].

(** Example 7: [x] and [y] are the addresses, in registers. *)
Definition swap_variables_asm (x y : Z) : list instr :=
  [movq (Input x) (Reg RAX); movq (Input y) (Reg RBX);
   movq (Ind RAX 0) (Reg RCX); movq (Ind RBX 0) (Reg RDX);
   movq (Reg RDX) (Ind RAX 0); movq (Reg RCX) (Ind RBX 0)].

(** swap_asm of sol.c: [pa] and [pb] are where the parameters a and b are. *)
Definition swap_asm (pa pb : Z) : list instr :=
  [movq (Mem pa) (Reg RAX); movq (Mem pb) (Reg RBX);
   movq (Ind RAX 0) (Reg RCX); movq (Ind RBX 0) (Reg RDX);
   movq (Reg RDX) (Ind RAX 0); movq (Reg RCX) (Ind RBX 0)].

(** write_using_int80_direct. *)
Definition write_int80_asm (result msg len : Z) : list instr :=
  [movl (Imm 4) (Reg RAX); movl (Imm 1) (Reg RBX); movl (Mem msg) (Reg RCX);
   movl (Mem len) (Reg RDX); Int80; movl (Reg RAX) (Mem result)].

(** The clobber lists, with the registers that are outputs. *)
Definition register_ops_clobbers : list reg := [RAX].
Definition multi_commands_clobbers : list reg := [RAX; RBX; RCX].
Definition read_params_clobbers : list reg := [RAX; RBX].
Definition write_params_clobbers : list reg := [RAX; RBX].
Definition address_usage_clobbers : list reg := [RAX; RSI].
Definition swap_clobbers : list reg := [RAX; RBX; RCX; RDX].
Definition write_int80_clobbers : list reg := [RAX; RBX; RCX; RDX].

Section examples.
Context `{Machine}.

(** example_cpuid: the vendor string it prints. *)
Definition example_cpuid : option bytes :=
  '(rs, _) ← exec [movl (Imm 0) (Reg RAX); Cpuid] (Regs 0 0 0 0 0, ∅);
  Some (c_str (le32 (rbx rs)) ++ c_str (le32 (rdx rs)) ++ c_str (le32 (rcx rs))).

(** example_rdtsc: low and high are 64 bits wide. *)
Definition example_rdtsc (rs : regs) : option Z :=
  '(rs, _) ← exec [Rdtsc] (rs, ∅);
  Some (Z.lor (u64 (Z.shiftl (rdx rs) 32)) (rax rs)).

(** The examples with their variables: the words of the stack at [sp], [sp + 8] and
    so on, and what each prints.  [None]: the processor faults. *)
Context (sp : Z) (rs : regs).

Definition example_register_ops (m : mem) : option (list bytes) :=
  let result := sp in let input := sp + 8 in
  m ← store 8 input 42 m;
  '(_, m) ← exec (register_ops_asm result input) (rs, m);
  i ← load 8 input m; r ← load 8 result m;
  Some [chars "Register Ops Example - Input: " ++ dec i ++ chars ", Result: " ++ dec r ++ [10]].

Definition example_multi_commands (m : mem) : option (list bytes) :=
  let vrax := sp in let vrbx := sp + 8 in let vrcx := sp + 16 in
  '(_, m) ← exec (multi_commands_asm vrax vrbx vrcx) (rs, m);
  a ← load 8 vrax m; b ← load 8 vrbx m; c ← load 8 vrcx m;
  Some [chars "Multi Commands Example - Results: rax=" ++ dec a ++ chars ", rbx=" ++ dec b ++
        chars ", rcx=" ++ dec c ++ [10]].

Definition example_read_params (m : mem) : option (list bytes) :=
  let input1 := sp in let input2 := sp + 8 in let result := sp + 16 in
  m ← store 8 input1 42 m; m ← store 8 input2 84 m;
  '(_, m) ← exec (read_params_asm result input1 input2) (rs, m);
  a ← load 8 input1 m; b ← load 8 input2 m; r ← load 8 result m;
  Some [chars "Read Params Example - Sum of " ++ dec a ++ chars " + " ++ dec b ++ chars " = " ++ dec r ++ [10]].

Definition example_write_params (m : mem) : option (list bytes) :=
  let output1 := sp in let output2 := sp + 8 in
  '(_, m) ← exec (write_params_asm output1 output2) (rs, m);
  a ← load 8 output1 m; b ← load 8 output2 m;
  Some [chars "Write Params Example - Outputs: " ++ dec a ++ chars ", " ++ dec b ++ [10]].

Definition example_address_usage (m : mem) : option (list bytes) :=
  let array := sp in let sum := sp + 24 in
  m ← store 8 array 10 m; m ← store 8 (array + 8) 20 m; m ← store 8 (array + 16) 30 m;
  '(_, m) ← exec (address_usage_asm sum array) (rs, m);
  r ← load 8 sum m;
  Some [chars "Address Usage Example - Array sum: " ++ dec r ++ [10]].

Definition swap_line (when : string) (x y : Z) : bytes :=
  chars when ++ chars "x=" ++ dec x ++ chars ", y=" ++ dec y ++ [10].

Definition example_swap_variables (m : mem) : option (list bytes) :=
  let x := sp in let y := sp + 8 in
  m ← store 8 x 42 m; m ← store 8 y 84 m;
  a ← load 8 x m; b ← load 8 y m;
  '(_, m) ← exec (swap_variables_asm x y) (rs, m);
  c ← load 8 x m; d ← load 8 y m;
  Some [swap_line "Swap Example - Before: " a b; swap_line "Swap Example - After: " c d].

(** inline_asm_init: what it prints, and what it returns. *)
Definition inline_asm_init (example : Z) (m : mem) : option (list bytes * Z) :=
  let start := [chars ("Inline Assembly Examples Module Loaded" +:+ nl); chars "Running example " ++ dec example ++ [10]] in
  let ran (o : option (list bytes)) := lines ← o; Some (start ++ lines, 0) in
  match example with
  | 0 => ran (s ← example_cpuid; Some [chars "CPUID Example - CPU Vendor: " ++ s ++ [10]])
  | 1 => ran (t ← example_rdtsc rs; Some [chars "RDTSC Example - TSC: " ++ dec t ++ [10]])
  | 2 => ran (example_register_ops m)
  | 3 => ran (example_multi_commands m)
  | 4 => ran (example_read_params m)
  | 5 => ran (example_write_params m)
  | 6 => ran (example_address_usage m)
  | 7 => ran (example_swap_variables m)
  | _ =>
      Some (start ++
        [chars "Invalid example number " ++ dec example ++ chars (" (valid: 0-7)" +:+ nl);
         chars ("Available examples:" +:+ nl); chars ("  0: CPUID" +:+ nl); chars ("  1: RDTSC" +:+ nl);
         chars ("  2: Register Operations" +:+ nl); chars ("  3: Multiple Commands" +:+ nl);
         chars ("  4: Reading Parameters" +:+ nl); chars ("  5: Writing Parameters" +:+ nl);
         chars ("  6: Address Usage" +:+ nl); chars ("  7: Variable Swap" +:+ nl)], - EINVAL)
  end.

(** swap_init of the assignment, with the asm statement the student writes for
    swap_asm, given where its parameters a and b are; the template's is empty. *)
Definition template_asm (pa pb : Z) : list instr := [].
Definition swap_init (asm : Z → Z → list instr) (m : mem) : option (list bytes * Z) :=
  let x := sp in let y := sp + 8 in let pa := sp + 16 in let pb := sp + 24 in
  m ← store 8 x 42 m; m ← store 8 y 84 m;
  a ← load 8 x m; b ← load 8 y m;
  m ← store 8 pa x m; m ← store 8 pb y m;
  '(_, m) ← exec (asm pa pb) (rs, m);
  c ← load 8 x m; d ← load 8 y m;
  Some ([swap_line "Before swap: " a b; swap_line "After swap: " c d], 0).

(** write_using_int80_direct of write_stdout_int80.c, its parameters and result in
    the frame, and main, with its array at [message]. *)
Definition write_using_int80_direct (msg len : Z) (m : mem) : option (list bytes * mem) :=
  let result := sp in let pmsg := sp + 8 in let plen := sp + 16 in
  m ← store 8 pmsg msg m; m ← store 4 plen len m;
  '(_, m) ← exec (write_int80_asm result pmsg plen) (rs, m);
  r ← load 4 result m;
  Some ([chars "INT 0x80 returned: " ++ dec (s32 r) ++ chars " bytes" ++ [10]], m).

Fixpoint store_text (a : Z) (txt : bytes) (m : mem) : option mem :=
  match txt with
  | [] => Some m
  | c :: txt => m ← store 1 a c m; store_text (a + 1) txt m
  end.
Definition direct_text : bytes := chars ("Direct INT 0x80 write call" +:+ nl).
Definition int80_main (message : Z) (m : mem) : option (list bytes * Z) :=
  m ← store_text message (direct_text ++ [0]) m;
  '(lines, _) ← write_using_int80_direct message (blen direct_text) m;
  Some (lines, 0).
End examples.

(** ** Memory *)

Definition bytes_ok (m : mem) : Prop := ∀ a b, m !! a = Some b → 0 <= b < 256.

(** [w] bytes at [a] and [w'] bytes at [a'] do not overlap. *)
Definition disjoint (w : nat) (a : Z) (w' : nat) (a' : Z) : Prop :=
  a + Z.of_nat w <= a' ∨ a' + Z.of_nat w' <= a.

Lemma put_lookup_ne w a v m i : i < a ∨ a + Z.of_nat w <= i → put w a v m !! i = m !! i.
Proof.
  revert a v m. induction w as [|w IH]; intros a v m Hi; simpl; [done|].
  rewrite IH by lia. apply lookup_insert_ne. lia.
Qed.

Lemma load_ext w a m m' :
  (∀ i, a <= i < a + Z.of_nat w → m' !! i = m !! i) → load w a m' = load w a m.
Proof.
  revert a. induction w as [|w IH]; intros a Hm; simpl; [done|].
  rewrite Hm by lia. destruct (m !! a); simpl; [|done]. rewrite IH; [done|]. intros i Hi. apply Hm. lia.
Qed.

Lemma load_put_disjoint w a v w' a' m :
  disjoint w a w' a' → load w' a' (put w a v m) = load w' a' m.
Proof. intros Hd. apply load_ext. intros i Hi. apply put_lookup_ne. unfold disjoint in Hd. lia. Qed.

Lemma pow_bits w : 2 ^ bits (S w) = 256 * 2 ^ bits w.
Proof. unfold bits. rewrite Nat2Z.inj_succ, Z.mul_succ_r, Z.pow_add_r by lia. lia. Qed.

Lemma load_put_same w a v m : load w a (put w a v m) = Some (v mod 2 ^ bits w).
Proof.
  revert a v m. induction w as [|w IH]; intros a v m; simpl; [by rewrite Z.mod_1_r|].
  rewrite put_lookup_ne, lookup_insert_eq by lia. simpl. rewrite IH. simpl. f_equal.
  rewrite pow_bits. assert (0 < 2 ^ bits w) by (apply Z.pow_pos_nonneg; unfold bits; lia).
  rewrite Z.rem_mul_r by lia. done.
Qed.

Lemma load_bound w a m v : bytes_ok m → load w a m = Some v → 0 <= v < 2 ^ bits w.
Proof.
  intros Hm. revert a v. induction w as [|w IH]; intros a v; simpl; [by intros [= <-]|].
  destruct (m !! a) as [b|] eqn:Hb; simpl; [|done]. destruct (load w (a + 1) m) as [r|] eqn:Hr; simpl; [|done].
  intros [= <-]. apply Hm in Hb. apply IH in Hr. rewrite pow_bits. lia.
Qed.

Lemma load_is_Some_put w a w' a' v m : is_Some (load w a m) → is_Some (load w a (put w' a' v m)).
Proof.
  assert (∀ i, is_Some (m !! i) → is_Some (put w' a' v m !! i)) as Hp.
  { revert a' v m. induction w' as [|w' IH]; intros a' v m i Hi; simpl; [done|]. apply IH.
    destruct (decide (a' = i)) as [->|]; [by rewrite lookup_insert_eq|by rewrite lookup_insert_ne]. }
  revert a. induction w as [|w IH]; intros a; simpl; [done|].
  destruct (m !! a) as [b|] eqn:Hb; simpl; [|by intros []].
  destruct (load w (a + 1) m) as [r|] eqn:Hr; simpl; [|by intros []]. intros _.
  destruct (Hp a) as [b' ->]; [by eauto|]. simpl. destruct (IH (a + 1)) as [r' ->]; [by eauto|]. by eexists.
Qed.

#[local] Arguments load : simpl never.
#[local] Arguments put : simpl never.
#[local] Arguments Z.modulo : simpl never.
#[local] Arguments Z.pow : simpl never.

(** ** Clobber lists *)

(** The registers an instruction may change. *)
Definition writes (i : instr) : list reg :=
  match i with
  | Mov _ _ (Reg r) | Add _ _ (Reg r) => [r]
  | Mov _ _ _ | Add _ _ _ => []
  | Cpuid => [RAX; RBX; RCX; RDX]
  | Rdtsc => [RAX; RDX]
  | Int80 => [RAX]
  end.
Definition clobbers_ok (l : list instr) (clobbers : list reg) : bool :=
  forallb (λ i, forallb (λ r, bool_decide (r ∈ clobbers)) (writes i)) l.

Section facts.
Context `{Machine}.

Lemma get_set_ne r r' v rs : r ≠ r' → get r (set r' v rs) = get r rs.
Proof. by destruct r, r'. Qed.

Lemma exec_instr_writes i rs m rs' m' r :
  exec_instr i (rs, m) = Some (rs', m') → r ∉ writes i → get r rs' = get r rs.
Proof.
  assert (∀ w o v, write_op w o v rs m = Some (rs', m') →
    r ∉ match o with Reg r => [r] | _ => [] end → get r rs' = get r rs) as Hw.
  { intros w o v Hx Hr. destruct o; simplify_eq/=; try by destruct (store _ _ _ _); simplify_eq/=.
    apply get_set_ne. set_solver. }
  destruct i as [w src dst|w src dst| | |]; simpl; intros Hx Hr.
  - destruct (read_op _ src _ _); simplify_eq/=. eapply Hw; [done|]. by destruct dst.
  - destruct (read_op _ src _ _); simplify_eq/=. destruct (read_op _ dst _ _); simplify_eq/=.
    eapply Hw; [done|]. by destruct dst.
  - destruct (cpuid _) as [[[a b] c] d]; simplify_eq. destruct r; first [done|exfalso; set_solver].
  - simplify_eq. destruct r; first [done|exfalso; set_solver].
  - simplify_eq. destruct r; first [done|exfalso; set_solver].
Qed.

Lemma exec_clobbers l clobbers s s' r :
  clobbers_ok l clobbers = true → exec l s = Some s' → r ∉ clobbers → get r s'.1 = get r s.1.
Proof.
  revert s. induction l as [|i l IH]; intros [rs m] Hc Hx Hr; [by injection Hx as <-|].
  apply andb_true_iff in Hc as [Hi Hl]. cbn [exec] in Hx.
  destruct (exec_instr i (rs, m)) as [[rs1 m1]|] eqn:E; [|done]. cbn [mbind option_bind] in Hx.
  rewrite (IH (rs1, m1) Hl Hx Hr). simpl. eapply exec_instr_writes; [exact E|]. intros Hin.
  rewrite forallb_forall in Hi. apply Hr. apply list_elem_of_In, Hi, bool_decide_eq_true in Hin. done.
Qed.

(** C37: Every asm statement of the module lists the registers it changes.  For the
    statements of examples 2 to 7, the assignment's swap and the int $0x80 call,
    whatever the memory and the operands, a run changes no register outside its
    clobber list, so that what the compiler keeps in the others survives. *)
Theorem clobber_lists_complete l clobbers s s' r a b c :
  (l, clobbers) ∈ [(register_ops_asm a b, register_ops_clobbers);
    (multi_commands_asm a b c, multi_commands_clobbers); (read_params_asm a b c, read_params_clobbers);
    (write_params_asm a b, write_params_clobbers); (address_usage_asm a b, address_usage_clobbers);
    (swap_variables_asm a b, swap_clobbers); (swap_asm a b, swap_clobbers);
    (write_int80_asm a b c, write_int80_clobbers)] →
  exec l s = Some s' → r ∉ clobbers → get r s'.1 = get r s.1.
Proof.
  intros Hin. apply exec_clobbers.
  repeat (apply elem_of_cons in Hin as [[= -> ->]|Hin]; [reflexivity|]). by apply elem_of_nil in Hin.
Qed.

(** ** Running the statements *)

#[local] Ltac asm :=
  cbn [exec exec_instr read_op write_op mbind option_bind set get rax rbx rcx rdx rsi].

Lemma read_mem w a rs m : read_op w (Mem a) rs m = load w a m.
Proof. done. Qed.

Lemma write_mem w a v rs m : is_Some (load w a m) → write_op w (Mem a) v rs m = Some (rs, put w a v m).
Proof. intros [x Hx]. simpl. unfold store. by rewrite Hx. Qed.

Lemma store_Some w a v m : is_Some (load w a m) → store w a v m = Some (put w a v m).
Proof. intros [x Hx]. unfold store. by rewrite Hx. Qed.

(** Example 2 stores its input plus ten, modulo 2^64, in result, and changes
    no other byte. *)
Theorem register_ops_correct result input rs m v :
  bytes_ok m → load 8 input m = Some v → is_Some (load 8 result m) →
  ∃ rs', exec (register_ops_asm result input) (rs, m) = Some (rs', put 8 result (u64 (v + 10)) m).
Proof.
  intros Hm Hv Hr. simpl. rewrite Hv. simpl. rewrite store_Some by done. simpl.
  eexists. do 3 f_equal. pose proof (load_bound _ _ _ _ Hm Hv) as Hb. unfold bits in Hb. simpl in Hb.
  rewrite Z.mod_mod by done. rewrite (Z.mod_small v) by done. done.
Qed.

(** Example 4 stores the sum of its inputs, modulo 2^64, even when they
    overlap. *)
Theorem read_params_correct result input1 input2 rs m v1 v2 :
  bytes_ok m → load 8 input1 m = Some v1 → load 8 input2 m = Some v2 → is_Some (load 8 result m) →
  ∃ rs', exec (read_params_asm result input1 input2) (rs, m) = Some (rs', put 8 result (u64 (v1 + v2)) m).
Proof.
  intros Hm Hv1 Hv2 Hr. simpl. rewrite Hv1. simpl. rewrite Hv2. simpl. rewrite store_Some by done. simpl.
  eexists. do 3 f_equal. pose proof (load_bound _ _ _ _ Hm Hv1). pose proof (load_bound _ _ _ _ Hm Hv2).
  unfold bits in *. simpl in *. unfold u64.
  rewrite Z.mod_mod, (Z.mod_small v1), (Z.mod_small v2) by done. done.
Qed.

(** What swapping the words at [a] and [b] does to memory. *)
Definition swapped (a b x y : Z) (m : mem) : mem := put 8 b x (put 8 a y m).

Lemma swap_tail rs m a b x y :
  is_u64 a → is_u64 b → bytes_ok m → load 8 a m = Some x → load 8 b m = Some y →
  ∃ rs', exec (drop 2 (swap_variables_asm a b)) (set RBX b (set RAX a rs), m) = Some (rs', swapped a b x y m).
Proof.
  intros Ha Hb Hm Hx Hy. simpl. rewrite ?Z.add_0_r, ?(u64_small a) by done.
  rewrite Hx. simpl. rewrite ?Z.add_0_r, ?(u64_small b), Hy by done. simpl.
  rewrite ?Z.add_0_r, ?(u64_small a) by done. rewrite store_Some by eauto. simpl.
  rewrite ?Z.add_0_r, ?(u64_small b) by done.
  rewrite store_Some by (apply load_is_Some_put; eauto). simpl. eexists. do 2 f_equal. unfold swapped.
  pose proof (load_bound _ _ _ _ Hm Hx). pose proof (load_bound _ _ _ _ Hm Hy).
  unfold bits in *. simpl in *. rewrite !Z.mod_small by done. done.
Qed.

Lemma swap_variables_run rs m a b x y :
  is_u64 a → is_u64 b → bytes_ok m → load 8 a m = Some x → load 8 b m = Some y →
  ∃ rs', exec (swap_variables_asm a b) (rs, m) = Some (rs', swapped a b x y m).
Proof.
  intros Ha Hb Hm Hx Hy. destruct (swap_tail rs m a b x y Ha Hb Hm Hx Hy) as [rs' E]. exists rs'.
  unfold swap_variables_asm. asm. rewrite (Z.mod_small a), (Z.mod_small b) by done. exact E.
Qed.

(** C36: The assignment's swap and example 7 are the same operation.  When the
    parameters hold the addresses, swap_asm does to registers and memory exactly
    what the statement of example 7 does with the addresses in registers, whatever
    they point to, faults included. *)
Theorem swap_asm_equiv pa pb rs m a b :
  bytes_ok m → load 8 pa m = Some a → load 8 pb m = Some b →
  exec (swap_asm pa pb) (rs, m) = exec (swap_variables_asm a b) (rs, m).
Proof.
  intros Hm Ha Hb. pose proof (load_bound _ _ _ _ Hm Ha). pose proof (load_bound _ _ _ _ Hm Hb).
  unfold swap_asm, swap_variables_asm. asm.
  rewrite Ha. asm. rewrite Hb. asm. by rewrite !Z.mod_small.
Qed.

(** Swap_asm swaps.  For two words of memory that do not partly overlap, the
    same word included, each afterwards holds what the other held, and no other
    byte has changed. *)
Theorem swap_asm_swaps pa pb rs m a b x y :
  bytes_ok m → load 8 pa m = Some a → load 8 pb m = Some b →
  load 8 a m = Some x → load 8 b m = Some y → (a = b ∨ disjoint 8 a 8 b) →
  ∃ rs' m', exec (swap_asm pa pb) (rs, m) = Some (rs', m') ∧
    load 8 a m' = Some y ∧ load 8 b m' = Some x ∧
    ∀ i, (i < a ∨ a + 8 <= i) → (i < b ∨ b + 8 <= i) → m' !! i = m !! i.
Proof.
  intros Hm Hpa Hpb Hx Hy Hab. pose proof (load_bound _ _ _ _ Hm Hpa) as Ha. pose proof (load_bound _ _ _ _ Hm Hpb) as Hb.
  pose proof (load_bound _ _ _ _ Hm Hx) as Hxb. pose proof (load_bound _ _ _ _ Hm Hy) as Hyb.
  destruct (swap_tail rs m a b x y Ha Hb Hm Hx Hy) as [rs' Ht].
  exists rs', (swapped a b x y m). split; [|split; [|split]].
  - unfold swap_asm. asm.
    rewrite Hpa. asm. rewrite Hpb. asm. exact Ht.
  - unfold swapped. destruct Hab as [->|Hd].
    + rewrite load_put_same, Z.mod_small by done. congruence.
    + rewrite load_put_disjoint by (unfold disjoint in *; lia). by rewrite load_put_same, Z.mod_small.
  - unfold swapped. by rewrite load_put_same, Z.mod_small.
  - intros i Hia Hib. unfold swapped. by rewrite !put_lookup_ne by lia.
Qed.

(** Example 6 does not sum its array.  The operand "m"(array) makes the first
    instruction load the first element, not the address: with the array the module
    has, whose first element is 10, and the first page unmapped, the statement
    faults. *)
Theorem address_usage_faults sum array rs m :
  (∀ i, 0 <= i < 4096 → m !! i = None) → load 8 array m = Some 10 →
  exec (address_usage_asm sum array) (rs, m) = None.
Proof.
  intros Hz Ha. unfold address_usage_asm. asm.
  rewrite Ha. asm. change (u64 (10 + 0)) with 10.
  assert (load 8 10 m = None) as ->; [|done].
  change (load 8 10 m) with (b ← m !! 10; r ← load 7 (10 + 1) m; Some (b + 256 * r)).
  rewrite (Hz 10) by lia. done.
Qed.

(** Examples 3 and 5 leave 300, 200, 300 and 123, 456 in their variables. *)
Theorem constants_correct v1 v2 v3 rs m :
  is_Some (load 8 v1 m) → is_Some (load 8 v2 m) → is_Some (load 8 v3 m) →
  disjoint 8 v1 8 v2 → disjoint 8 v1 8 v3 → disjoint 8 v2 8 v3 →
  (∃ rs' m', exec (multi_commands_asm v1 v2 v3) (rs, m) = Some (rs', m') ∧
     load 8 v1 m' = Some 300 ∧ load 8 v2 m' = Some 200 ∧ load 8 v3 m' = Some 300) ∧
  (∃ rs' m', exec (write_params_asm v1 v2) (rs, m) = Some (rs', m') ∧
     load 8 v1 m' = Some 123 ∧ load 8 v2 m' = Some 456).
Proof.
  intros H1 H2 H3 H12 H13 H23. unfold disjoint in *. split.
  - unfold multi_commands_asm. asm.
    repeat (rewrite store_Some by auto using load_is_Some_put; asm).
    eexists _, _. split; [done|].
    split_and!; by repeat first [rewrite load_put_same|rewrite load_put_disjoint by (unfold disjoint; lia)].
  - unfold write_params_asm. asm.
    repeat (rewrite store_Some by auto using load_is_Some_put; asm).
    eexists _, _. split; [done|].
    split; by repeat first [rewrite load_put_same|rewrite load_put_disjoint by (unfold disjoint; lia)].
Qed.

(** ** cpuid, rdtsc and int $0x80 *)

(** Four characters in a register, the first in its lowest byte. *)
Definition pack (c0 c1 c2 c3 : Z) : Z := c0 + 256 * (c1 + 256 * (c2 + 256 * c3)).

Lemma le32_pack c0 c1 c2 c3 :
  0 <= c0 < 256 → 0 <= c1 < 256 → 0 <= c2 < 256 → 0 <= c3 < 256 →
  le32 (pack c0 c1 c2 c3) = [c0; c1; c2; c3].
Proof.
  intros. unfold le32, pack. change 255 with (Z.ones 8). cbn [fmap list_fmap].
  rewrite !Z.land_ones, !Z.shiftr_div_pow2 by lia. cbn [Z.mul Pos.mul].
  repeat (f_equal; try (Z.to_euclidean_division_equations; lia)).
Qed.

(** Example 0 prints the vendor string.  When the processor answers leaf 0
    with the twelve characters of its vendor in ebx, edx and ecx, in that order,
    the three conversions print them. *)
Theorem cpuid_vendor leaf c0 c1 c2 c3 c4 c5 c6 c7 c8 c9 c10 c11 :
  Forall (λ c, 0 < c < 256) [c0; c1; c2; c3; c4; c5; c6; c7; c8; c9; c10; c11] →
  cpuid 0 = (leaf, pack c0 c1 c2 c3, pack c8 c9 c10 c11, pack c4 c5 c6 c7) →
  example_cpuid = Some [c0; c1; c2; c3; c4; c5; c6; c7; c8; c9; c10; c11].
Proof.
  intros HF Hc. repeat (apply Forall_cons in HF as [? HF]).
  unfold example_cpuid. asm. change (u32 (0 mod 2 ^ bits 4)) with 0. rewrite Hc. asm.
  rewrite !u32_small by (unfold is_u32, pack; lia). rewrite !le32_pack by lia.
  unfold c_str. rewrite !(proj2 (Z.eqb_neq _ 0)) by lia. done.
Qed.

(** Example 1 puts the two halves of the time-stamp counter together: what it
    prints is the counter modulo 2^64. *)
Theorem rdtsc_correct rs : example_rdtsc rs = Some (u64 tsc).
Proof.
  unfold example_rdtsc. asm. f_equal. apply Z.bits_inj'. intros n Hn.
  rewrite Z.lor_spec. unfold u64, u32.
  destruct (Z.lt_ge_cases n 64) as [H64|H64]; cycle 1.
  { rewrite !Z.mod_pow2_bits_high by lia. done. }
  rewrite (Z.mod_pow2_bits_low _ 64), (Z.mod_pow2_bits_low tsc 64), Z.shiftl_spec by lia.
  destruct (Z.lt_ge_cases n 32) as [H32|H32].
  - rewrite (Z.testbit_neg_r _ (n - 32)), Z.mod_pow2_bits_low by lia. done.
  - rewrite (Z.mod_pow2_bits_high tsc 32 n), orb_false_r by lia.
    rewrite Z.mod_pow2_bits_low, Z.shiftr_spec, Z.mod_pow2_bits_low by lia. f_equal. lia.
Qed.

(** The lower half of a word. *)
Lemma load_low a m v : bytes_ok m → load 8 a m = Some v → load 4 a m = Some (u32 v).
Proof.
  intros Hm Hv. unfold load in *.
  repeat (match type of Hv with context [m !! ?i] => destruct (m !! i) as [?b|] eqn:?Hb; simpl in Hv; [|done] end).
  simpl. simplify_eq. f_equal. repeat match goal with E : m !! _ = Some _ |- _ => apply Hm in E end.
  unfold u32. Z.to_euclidean_division_equations; lia.
Qed.

(** The int $0x80 example writes through a truncated pointer.  The kernel is
    asked to write len bytes to descriptor 1 from the address the pointer has in
    its lower 32 bits, which is the message only if it lies below 4 GB, and its
    answer is stored in result. *)
Theorem write_int80_truncates result pmsg plen rs m msg len :
  bytes_ok m → load 8 pmsg m = Some msg → load 4 plen m = Some len → is_Some (load 4 result m) →
  ∃ rs', exec (write_int80_asm result pmsg plen) (rs, m) =
      Some (rs', put 4 result (u32 (int80 4 1 (u32 msg) len m)) m) ∧
    (u32 msg = msg ↔ msg < 2^32).
Proof.
  intros Hm Hmsg Hlen Hr. pose proof (load_bound _ _ _ _ Hm Hmsg) as Hb. pose proof (load_bound _ _ _ _ Hm Hlen) as Hl.
  unfold bits in Hb, Hl. simpl in Hb, Hl.
  unfold write_int80_asm. asm. rewrite (load_low _ _ _ Hm Hmsg). asm. rewrite Hlen. asm.
  rewrite store_Some by done. asm. eexists. split.
  - do 3 f_equal. change (u32 (4 mod 2 ^ bits 4)) with 4. change (u32 (1 mod 2 ^ bits 4)) with 1.
    rewrite (u32_small len) by (unfold is_u32; lia). rewrite (u32_small (u32 msg)) by apply u32_bound.
    unfold bits, u32, u64. simpl. Z.to_euclidean_division_equations; lia.
  - unfold u32. Z.to_euclidean_division_equations; lia.
Qed.

(** ** The module as a whole *)

(** The words of a stack frame: mapped, and not in the first page, which is not. *)
Record stack_ok (sp : Z) (m : mem) : Prop := {
  stack_bytes : bytes_ok m;
  stack_range : 0 <= sp ∧ sp + 32 <= 2^64;
  stack_mapped k : 0 <= k < 4 → is_Some (load 8 (sp + 8 * k) m);
  stack_page i : 0 <= i < 4096 → m !! i = None
}.

Lemma word_put a v m : is_u64 v → load 8 a (put 8 a v m) = Some v.
Proof. intros Hv. rewrite load_put_same. by rewrite Z.mod_small. Qed.

Lemma bytes_ok_put w a v m : bytes_ok m → bytes_ok (put w a v m).
Proof.
  revert a v m. induction w as [|w IH]; intros a v m Hm; unfold put; fold put; [done|]. apply IH.
  intros i b. destruct (decide (a = i)) as [->|Hne].
  - rewrite lookup_insert_eq. intros [= <-]. by apply Z.mod_pos_bound.
  - rewrite lookup_insert_ne by done. apply Hm.
Qed.

(** Reading the frame back after stores to other words of it. *)
#[local] Ltac frame :=
  repeat first
    [ match goal with |- context [load 8 ?a (put 8 ?b ?v ?m)] =>
        first [ rewrite (word_put b v m) by first [unfold is_u64; lia | apply u64_bound]
              | rewrite (load_put_disjoint 8 b v 8 a m) by (unfold disjoint; lia) ] end
    | rewrite store_Some by (repeat apply load_is_Some_put; done)
    | progress cbn [mbind option_bind] ].

Lemma stack_words sp m :
  stack_ok sp m → is_Some (load 8 sp m) ∧ is_Some (load 8 (sp + 8) m) ∧ is_Some (load 8 (sp + 16) m) ∧ is_Some (load 8 (sp + 24) m).
Proof.
  intros [_ _ Hm _]. pose proof (Hm 0 ltac:(lia)). pose proof (Hm 1 ltac:(lia)). pose proof (Hm 2 ltac:(lia)).
  pose proof (Hm 3 ltac:(lia)). rewrite Z.mul_0_r, Z.add_0_r in *. done.
Qed.

Definition loaded_lines (example : Z) : list bytes :=
  [chars ("Inline Assembly Examples Module Loaded" +:+ nl); chars "Running example " ++ dec example ++ [10]].

(** C40: what loading the module does.  On any stack, examples 2, 3, 4, 5 and 7
    print the values their comments promise, and init returns 0; example 6, whose
    operand is the array and not its address, faults while the module is loaded;
    every other number but 0 and 1 is refused with -EINVAL. *)
Theorem inline_asm_init_correct sp rs m example :
  stack_ok sp m →
  (∀ lines, (example, lines) ∈
     [(2, [chars ("Register Ops Example - Input: 42, Result: 52" +:+ nl)]);
      (3, [chars ("Multi Commands Example - Results: rax=300, rbx=200, rcx=300" +:+ nl)]);
      (4, [chars ("Read Params Example - Sum of 42 + 84 = 126" +:+ nl)]);
      (5, [chars ("Write Params Example - Outputs: 123, 456" +:+ nl)]);
      (7, [chars ("Swap Example - Before: x=42, y=84" +:+ nl); chars ("Swap Example - After: x=84, y=42" +:+ nl)])] →
     inline_asm_init sp rs example m = Some (loaded_lines example ++ lines, 0)) ∧
  (example = 6 → inline_asm_init sp rs example m = None) ∧
  (¬ 0 <= example <= 7 → snd <$> inline_asm_init sp rs example m = Some (- EINVAL)).
Proof.
  intros Hs. pose proof (stack_bytes _ _ Hs) as Hm. pose proof (stack_range _ _ Hs) as [Hsp0 Hsp].
  destruct (stack_words _ _ Hs) as (W0 & W1 & W2 & W3). split; [|split].
  - intros lines Hin. repeat (apply elem_of_cons in Hin as [[= -> ->]|Hin]); [..|by apply elem_of_nil in Hin];
      unfold inline_asm_init, loaded_lines.
    + unfold example_register_ops. frame.
      destruct (register_ops_correct sp (sp + 8) rs (put 8 (sp + 8) 42 m) 42) as [rs' ->];
        [by apply bytes_ok_put|by apply word_put|by apply load_is_Some_put|]. by frame.
    + unfold example_multi_commands, multi_commands_asm. asm. repeat (frame; asm). frame. reflexivity.
    + unfold example_read_params. frame.
      destruct (read_params_correct (sp + 16) sp (sp + 8) rs (put 8 (sp + 8) 84 (put 8 sp 42 m)) 42 84) as [rs' ->];
        [by repeat apply bytes_ok_put|by frame|by frame|by repeat apply load_is_Some_put|]. by frame.
    + unfold example_write_params, write_params_asm. asm. repeat (frame; asm). frame. reflexivity.
    + unfold example_swap_variables. frame.
      destruct (swap_variables_run rs (put 8 (sp + 8) 84 (put 8 sp 42 m)) sp (sp + 8) 42 84) as [rs' ->];
        [unfold is_u64; lia..|by repeat apply bytes_ok_put|by frame|by frame|].
      unfold swapped. by frame.
  - intros ->. unfold inline_asm_init, example_address_usage. frame.
    rewrite address_usage_faults; [done| |by frame].
    intros i Hi. assert (4096 <= sp) as Hlow.
    { destruct (Z.lt_ge_cases sp 4096) as [Hlt|]; [|done]. destruct W0 as [x Hx]. exfalso.
      change (load 8 sp m) with (b ← m !! sp; r ← load 7 (sp + 1) m; Some (b + 256 * r)) in Hx.
      by rewrite (stack_page _ _ Hs sp) in Hx by lia. }
    rewrite !put_lookup_ne by lia. by apply (stack_page _ _ Hs).
  - intros He. unfold inline_asm_init. repeat (case_match; try lia; try reflexivity).
Qed.

(** Storing a text where there is memory, outside the frame. *)
Lemma store_text_spec txt a m :
  bytes_ok m → Forall (λ c, 0 <= c < 256) txt → (∀ k, 0 <= k < blen txt → is_Some (m !! (a + k))) →
  ∃ m', store_text a txt m = Some m' ∧ bytes_ok m' ∧
    (∀ k : nat, (k < length txt)%nat → m' !! (a + Z.of_nat k) = txt !! k) ∧
    (∀ i, i < a ∨ a + blen txt <= i → m' !! i = m !! i) ∧ (∀ i, is_Some (m !! i) → is_Some (m' !! i)).
Proof.
  revert a m. induction txt as [|c txt IH]; intros a m Hm Hc Hs; [exists m; split_and!; [done|done|intros k Hk; simpl in Hk; lia|done|done]|].
  apply Forall_cons in Hc as [Hc Hcs].
  assert (blen (c :: txt) = blen txt + 1) as Hl by (unfold blen; simpl; lia). pose proof (blen_nonneg txt).
  destruct (Hs 0 ltac:(lia)) as [b Hb]. rewrite Z.add_0_r in Hb.
  assert (put 1 a c m = <[a := c]> m) as Hput by (unfold put; by rewrite Z.mod_small by lia).
  destruct (IH (a + 1) (<[a := c]> m)) as (m' & E & Hm' & Ht & Ho & Hk).
  - rewrite <-Hput. by apply bytes_ok_put.
  - done.
  - intros k Hk. rewrite lookup_insert_ne by lia. replace (a + 1 + k) with (a + (k + 1)) by lia. apply Hs. lia.
  - exists m'. cbn [store_text]. unfold store, load. rewrite Hb. cbn [mbind option_bind]. rewrite Hput. cbn [mbind option_bind].
    split_and!; [exact E|done| |intros i Hi; rewrite Ho by lia; by rewrite lookup_insert_ne by lia|].
    + intros [|k] Hlt; simpl.
      * rewrite Z.add_0_r, Ho by lia. apply lookup_insert_eq.
      * simpl in Hlt. rewrite <-Ht by lia. f_equal. lia.
    + intros i Hi. apply Hk. destruct (decide (a = i)) as [<-|]; [rewrite lookup_insert_eq; eauto|by rewrite lookup_insert_ne].
Qed.

(** The int $0x80 example, as a whole: the array holds the text when the kernel is
    called, the kernel is asked to write 27 bytes from the lower 32 bits of its
    address, and what it answers is printed. *)
Theorem int80_main_correct sp rs message m :
  stack_ok sp m → (∀ k, 0 <= k < 28 → is_Some (m !! (message + k))) →
  is_u64 message → message + 28 <= sp ∨ sp + 32 <= message →
  ∃ m', (∀ k : nat, (k < 27)%nat → m' !! (message + Z.of_nat k) = direct_text !! k) ∧
    int80_main sp rs message m =
      Some ([chars "INT 0x80 returned: " ++ dec (s32 (int80 4 1 (u32 message) 27 m')) ++ chars " bytes" ++ [10]], 0).
Proof.
  intros Hs Hmem Hmsg Hdis. pose proof (stack_bytes _ _ Hs) as Hm.
  destruct (store_text_spec (direct_text ++ [0]) message m Hm) as (m1 & E1 & Hm1 & Ht & Ho & Hk);
    [by apply (bool_decide_eq_true_1 _)|exact Hmem|]. change (blen (direct_text ++ [0])) with 28 in Ho.
  assert (∀ k, 0 <= k <= 24 → load 8 (sp + k) m1 = load 8 (sp + k) m) as Hframe.
  { intros k Hk'. apply load_ext. intros i Hi. apply Ho. lia. }
  destruct (stack_words _ _ Hs) as (W0 & W1 & W2 & _). rewrite <-(Z.add_0_r sp) in W0 at 1.
  rewrite <-Hframe in W0, W1, W2 by lia. rewrite Z.add_0_r in W0.
  assert (∀ a, is_Some (load 8 a m1) → is_Some (load 4 a m1)) as Hlow.
  { intros a [v Hv]. rewrite (load_low _ _ _ Hm1 Hv). eauto. }
  set (m2 := put 8 (sp + 8) message m1). set (m3 := put 4 (sp + 16) 27 m2). exists m3. split.
  { intros k Hlt. unfold m3, m2. rewrite !put_lookup_ne by lia. rewrite Ht by (simpl; lia). by rewrite lookup_app_l by (simpl; lia). }
  destruct (write_int80_truncates sp (sp + 8) (sp + 16) rs m3 message 27) as (rs' & E & _).
  - by repeat apply bytes_ok_put.
  - unfold m3. rewrite load_put_disjoint by (unfold disjoint; lia). by apply word_put.
  - unfold m3. rewrite load_put_same. done.
  - by apply load_is_Some_put, load_is_Some_put, Hlow.
  - unfold int80_main. rewrite E1. cbn [mbind option_bind]. unfold write_using_int80_direct.
    rewrite (store_Some 8 _ _ m1) by done. fold m2. cbn [mbind option_bind]. change (blen direct_text) with 27.
    rewrite (store_Some 4 _ _ m2) by by apply load_is_Some_put, Hlow. fold m3. cbn [mbind option_bind]. rewrite E.
    cbn [mbind option_bind]. rewrite load_put_same. cbn [mbind option_bind]. do 5 f_equal.
    unfold bits, u32, s32. simpl. f_equal. Z.to_euclidean_division_equations; lia.
Qed.

(** The assignment.  The template's empty statement leaves the variables as
    they were; with the solution's swap_asm in its place, the module prints them
    exchanged. *)
Theorem swap_init_correct sp rs m :
  stack_ok sp m →
  swap_init sp rs template_asm m =
    Some ([chars ("Before swap: x=42, y=84" +:+ nl); chars ("After swap: x=42, y=84" +:+ nl)], 0) ∧
  swap_init sp rs swap_asm m =
    Some ([chars ("Before swap: x=42, y=84" +:+ nl); chars ("After swap: x=84, y=42" +:+ nl)], 0).
Proof.
  intros Hs. pose proof (stack_bytes _ _ Hs) as Hm. pose proof (stack_range _ _ Hs) as [Hsp0 Hsp].
  destruct (stack_words _ _ Hs) as (W0 & W1 & W2 & W3). unfold swap_init. frame. split.
  - unfold template_asm. cbn [exec mbind option_bind]. by frame.
  - set (m' := put 8 (sp + 24) (sp + 8) _). assert (bytes_ok m') as Hm' by by repeat apply bytes_ok_put.
    assert (load 8 (sp + 16) m' = Some sp ∧ load 8 (sp + 24) m' = Some (sp + 8) ∧
      load 8 sp m' = Some 42 ∧ load 8 (sp + 8) m' = Some 84) as (Ea & Eb & Ex & Ey) by (unfold m'; by frame).
    destruct (swap_variables_run rs m' sp (sp + 8) 42 84) as [rs' E]; [unfold is_u64; lia..|done|done|done|].
    assert (exec (swap_asm (sp + 16) (sp + 24)) (rs, m') = exec (swap_variables_asm sp (sp + 8)) (rs, m')) as ->.
    { unfold swap_asm, swap_variables_asm. asm. rewrite Ea. asm. rewrite Eb. asm. rewrite !Z.mod_small by (unfold bits; simpl; lia). done. }
    rewrite E. unfold swapped. by frame.
Qed.
End facts.

(** ** Witnesses *)

Lemma bytes_ok_empty : bytes_ok ∅.
Proof. intros a b Hb. by rewrite lookup_empty in Hb. Qed.
(** A processor and a kernel whose write reports the length. *)
#[local] Instance ref_machine : Machine := {
  cpuid _ := (13, pack 71 101 110 117, pack 110 116 101 108, pack 105 110 101 73);
  tsc := 2^40 + 5;
  int80 _ _ _ len _ := len
}.

(** Two pointers at 8192 and 8200, to 42 and 84. *)
Definition wmem : mem := put 8 8192 9000 (put 8 8200 9008 (put 8 9000 42 (put 8 9008 84 ∅))).
Lemma wmem_ok : bytes_ok wmem.
Proof. repeat apply bytes_ok_put. apply bytes_ok_empty. Qed.

Lemma swap_asm_swaps_witness :
  ∃ rs' m', exec (swap_asm 8192 8200) (Regs 0 0 0 0 7, wmem) = Some (rs', m') ∧
    load 8 9000 m' = Some 84 ∧ load 8 9008 m' = Some 42.
Proof.
  destruct (swap_asm_swaps 8192 8200 (Regs 0 0 0 0 7) wmem 9000 9008 42 84) as (rs' & m' & He & Ha & Hb & _);
    [apply wmem_ok|reflexivity..|right; unfold disjoint; lia|].
  exists rs', m'. split; [exact He|]. split; [exact Ha|exact Hb].
Defined.

Lemma swap_asm_equiv_witness :
  exec (swap_asm 8192 8200) (Regs 0 0 0 0 7, wmem) = exec (swap_variables_asm 9000 9008) (Regs 0 0 0 0 7, wmem).
Proof. apply (swap_asm_equiv 8192 8200 (Regs 0 0 0 0 7) wmem 9000 9008); [apply wmem_ok|reflexivity..]. Defined.

Lemma address_usage_faults_witness :
  load 8 8192 (put 8 8192 10 (put 8 8200 20 (put 8 8208 30 (put 8 8216 0 ∅)))) = Some 10 ∧
  exec (address_usage_asm 8216 8192)
    (Regs 0 0 0 0 0, put 8 8192 10 (put 8 8200 20 (put 8 8208 30 (put 8 8216 0 ∅)))) = None.
Proof.
  split; [reflexivity|]. apply address_usage_faults; [|reflexivity].
  intros i Hi. rewrite !put_lookup_ne by lia. apply lookup_empty.
Defined.

Lemma clobber_lists_complete_witness :
  ∃ rs' m', exec (swap_asm 8192 8200) (Regs 0 0 0 0 7, wmem) = Some (rs', m') ∧ get RSI rs' = 7.
Proof.
  destruct swap_asm_swaps_witness as (rs' & m' & He & _). exists rs', m'. split; [exact He|].
  apply (clobber_lists_complete (swap_asm 8192 8200) swap_clobbers (Regs 0 0 0 0 7, wmem) (rs', m') RSI 8192 8200 0);
    [|exact He|by apply (bool_decide_eq_true_1 _)].
  rewrite !elem_of_cons. auto 10.
Defined.

Lemma cpuid_vendor_witness : example_cpuid = Some (chars "GenuineIntel").
Proof.
  apply (cpuid_vendor 13 71 101 110 117 105 110 101 73 110 116 101 108); [|reflexivity].
  repeat (apply Forall_cons; split; [lia|]). by apply Forall_nil.
Defined.

Lemma write_int80_truncates_witness :
  ∃ rs', exec (write_int80_asm 8208 8192 8200)
      (Regs 0 0 0 0 0, put 8 8192 (2^32 + 4096) (put 4 8200 27 (put 4 8208 0 ∅))) =
    Some (rs', put 4 8208 27 (put 8 8192 (2^32 + 4096) (put 4 8200 27 (put 4 8208 0 ∅)))).
Proof.
  destruct (write_int80_truncates 8208 8192 8200 (Regs 0 0 0 0 0)
    (put 8 8192 (2^32 + 4096) (put 4 8200 27 (put 4 8208 0 ∅))) (2^32 + 4096) 27) as (rs' & He & _);
    [repeat apply bytes_ok_put; apply bytes_ok_empty|reflexivity|reflexivity|by eexists|].
  exists rs'. exact He.
Defined.

(** A stack frame at 8192 that holds other values. *)
Definition wframe : mem := put 8 8192 7 (put 8 8200 (2^64 - 1) (put 8 8208 1 (put 8 8216 0 ∅))).
Lemma wframe_ok : stack_ok 8192 wframe.
Proof.
  split.
  - repeat apply bytes_ok_put. apply bytes_ok_empty.
  - lia.
  - intros k Hk. assert (k = 0 ∨ k = 1 ∨ k = 2 ∨ k = 3) as [->|[->|[->| ->]]] by lia; by eexists.
  - intros i Hi. unfold wframe. rewrite !put_lookup_ne by lia. apply lookup_empty.
Qed.

Lemma inline_asm_init_correct_witness :
  inline_asm_init 8192 (Regs 1 2 3 4 5) 2 wframe =
    Some (loaded_lines 2 ++ [chars ("Register Ops Example - Input: 42, Result: 52" +:+ nl)], 0) ∧
  inline_asm_init 8192 (Regs 1 2 3 4 5) 6 wframe = None ∧
  snd <$> inline_asm_init 8192 (Regs 1 2 3 4 5) 8 wframe = Some (- EINVAL).
Proof.
  split; [|split].
  - apply (inline_asm_init_correct 8192 (Regs 1 2 3 4 5) wframe 2 wframe_ok). apply list_elem_of_here.
  - by apply (inline_asm_init_correct 8192 (Regs 1 2 3 4 5) wframe 6 wframe_ok).
  - apply (inline_asm_init_correct 8192 (Regs 1 2 3 4 5) wframe 8 wframe_ok). lia.
Defined.

Lemma swap_init_correct_witness :
  swap_init 8192 (Regs 1 2 3 4 5) swap_asm wframe =
    Some ([chars ("Before swap: x=42, y=84" +:+ nl); chars ("After swap: x=84, y=42" +:+ nl)], 0).
Proof. apply (swap_init_correct 8192 (Regs 1 2 3 4 5) wframe wframe_ok). Defined.
