(* ===== verification/UserProgram.v ===== *)
(** * User-space programs

    The memory of a process, with what the kernel's copies do to it, and the small
    monad the client programs are written in: a program changes the process's
    memory, calls the driver, whose state is [dev], and prints.  What perror prints
    is not modelled. *)
From S2P Require Import Prelude Bytes Kernel.

(** ** The program's own memory

    [own u a n]: the [n] bytes at [a] are writable memory of the process, which its
    code stores to with [ustore]. *)
Class UserProcess (U : Type) := {
  own : U → Z → Z → Prop;
  ustore : U → Z → bytes → U
}.

Definition apart (a n b m : Z) : Prop := a + n <= b ∨ b + m <= a.

(** The kernel's copies succeed on memory the process owns, and neither side's
    stores disturb other memory or unmap any. *)
Class UserProcessLaws (U : Type) `{UserAccess U} `{!UserProcess U} := {
  own_copy_from u a n : own u a n → (copy_from_user u a n).1 = 0;
  own_copy_to u a bs : own u a (blen bs) → (copy_to_user u a bs).1 = 0;
  own_part u a n b m : own u a n → a <= b → b + m <= a + n → 0 <= m → own u b m;
  own_ustore u b bs a n : own u a n → own (ustore u b bs) a n;
  own_after_copy u b bs a n : own u a n → own (copy_to_user u b bs).2 a n;
  uload_app u a n m : own u a (n + m) → 0 <= n → 0 <= m → uload u a (n + m) = uload u a n ++ uload u (a + n) m;
  uload_ustore u a bs : own u a (blen bs) → uload (ustore u a bs) a (blen bs) = bs;
  uload_other u b bs a n : apart b (blen bs) a n → uload (ustore u b bs) a n = uload u a n;
  uload_after_copy u b bs a n : apart b (blen bs) a n → uload (copy_to_user u b bs).2 a n = uload u a n
}.

(** ** Programs *)
Record world (U D : Type) := World { mem : U; dev : D; out : list bytes }.
Arguments World {_ _} _ _ _.
Arguments mem {_ _} _.
Arguments dev {_ _} _.
Arguments out {_ _} _.

Definition C (U D A : Type) : Type := world U D → option (A * world U D).
Definition cret {U D A} (a : A) : C U D A := λ w, Some (a, w).
Definition cbind {U D A B} (m : C U D A) (f : A → C U D B) : C U D B := λ w, '(a, w) ← m w; f a w.

Declare Scope app_scope.
Notation "x <-c m ; f" := (cbind m (λ x, f))
  (at level 20, m at level 100, f at level 200, right associativity) : app_scope.
Notation "m ;;c f" := (cbind m (λ _, f))
  (at level 100, f at level 200, right associativity) : app_scope.

Section primitives.
Context {U D : Type} `{UserAccess U} `{!UserProcess U}.
#[local] Abbreviation code := (C U D).

(** One printf; its text. *)
Definition printf (txt : bytes) : code unit := λ w, Some (tt, World (mem w) (dev w) (out w ++ [txt])).
Definition print (s : string) : code unit := printf (chars s).

(** Assigning to and reading a variable; reading an array as a string. *)
Definition assign (a : Z) (bs : bytes) : code unit := λ w, Some (tt, World (ustore (mem w) a bs) (dev w) (out w)).
Definition set_int (a v : Z) : code unit := assign a (le32 v).
Definition get_int (a : Z) : code Z := λ w, Some (int_of_le32 (uload (mem w) a 4), w).
Definition get_str (a n : Z) : code bytes := λ w, _ ← strlen (uload (mem w) a n); Some (c_str (uload (mem w) a n), w).
End primitives.

Lemma cbind_Some {U D A B} (m : C U D A) (f : A → C U D B) w a w' : m w = Some (a, w') → cbind m f w = f a w'.
Proof. unfold cbind. by intros ->. Qed.

(** Runs the primitive steps at the head of a program. *)
Ltac capp :=
  repeat (match goal with
  | |- context [cbind (cbind ?m ?f) ?g ?w] => change (cbind (cbind m f) g w) with (cbind m (λ x, cbind (f x) g) w)
  | |- context [cbind (cret ?a) ?f ?w] => change (cbind (cret a) f w) with (f a w)
  | |- context [cbind (print ?s) ?f ?w] =>
      change (cbind (print s) f w) with (f tt (World (mem w) (dev w) (out w ++ [chars s])))
  | |- context [cbind (printf ?t) ?f ?w] =>
      change (cbind (printf t) f w) with (f tt (World (mem w) (dev w) (out w ++ [t])))
  | |- context [cbind (set_int ?a ?v) ?f ?w] =>
      change (cbind (set_int a v) f w) with (f tt (World (ustore (mem w) a (le32 v)) (dev w) (out w)))
  | |- context [cbind (assign ?a ?b) ?f ?w] =>
      change (cbind (assign a b) f w) with (f tt (World (ustore (mem w) a b) (dev w) (out w)))
  | |- context [cbind (get_int ?a) ?f ?w] =>
      change (cbind (get_int a) f w) with (f (int_of_le32 (uload (mem w) a 4)) w)
  end; cbv beta; cbn [mem dev out]).
(** Runs a step by an equation. *)
Ltac crun E := rewrite (cbind_Some _ _ _ _ _ E); cbv beta iota; cbn [Z.ltb Z.compare].

(** ** Variables and strings in memory *)
Section memory.
Context {U D : Type} `{UserAccessLaws U} `{!UserProcess U} `{!UserProcessLaws U}.
Implicit Types (u : U) (w : world U D).

(** A string that ends within the part that was stored. *)
Lemma uload_string u a n t :
  own u a n → 0 ∉ t → blen t < n → uload u a (blen t + 1) = t ++ [0] →
  c_str (uload u a n) = t ∧ is_Some (strlen (uload u a n)).
Proof.
  intros Ho H0' Hl Ht. pose proof (blen_nonneg t).
  replace n with (blen t + 1 + (n - (blen t + 1))) by lia. rewrite uload_app by (try lia; by replace (blen t + 1 + (n - (blen t + 1))) with n by lia).
  rewrite Ht, <-app_assoc. simpl. split; [by apply c_str_app_nul|]. apply strlen_is_Some. set_solver.
Qed.

Lemma uload_int u a v : own u a 4 → is_s32 v → int_of_le32 (uload (ustore u a (le32 v)) a 4) = v.
Proof.
  intros Ho Hv. pose proof (uload_ustore u a (le32 v) Ho) as Hl. change (blen (le32 v)) with 4 in Hl.
  rewrite Hl. by apply int_of_le32_le32.
Qed.

(** A string stored at the start of an array of [m] bytes. *)
Lemma uload_text u a t m n :
  own u a m → 0 ∉ t → blen t < n <= m →
  c_str (uload (ustore u a (t ++ [0])) a n) = t ∧ is_Some (strlen (uload (ustore u a (t ++ [0])) a n)).
Proof.
  intros Ho Hnul Hn. pose proof (blen_nonneg t). assert (blen (t ++ [0]) = blen t + 1) as Hb by by rewrite blen_app.
  apply uload_string; [|done|lia|].
  - apply own_ustore. apply (own_part _ a m); [done|lia..].
  - rewrite <-Hb. apply uload_ustore. apply (own_part _ a m); [done|lia..].
Qed.

Lemma get_str_run a n w t :
  c_str (uload (mem w) a n) = t → is_Some (strlen (uload (mem w) a n)) → get_str a n w = Some (t, w).
Proof. intros <- [k Hk]. unfold get_str. by rewrite Hk. Qed.
End memory.

(** ** The reference process *)
#[export] Instance flat_user_process : UserProcess flat_user := {
  own u a n := flat_ok u a n = true;
  ustore u a bs := (copy_to_user u a bs).2
}.

Lemma flat_load_Some u a n :
  flat_ok u a n = true →
  flat_load u a n = take (Z.to_nat n) (drop (Z.to_nat (a - fu_base u)) (fu_mem u)) ∧
  0 <= a - fu_base u ∧ 0 <= n ∧ a - fu_base u + n <= blen (fu_mem u).
Proof.
  unfold flat_ok. intros Ho%bool_decide_eq_true. unfold flat_load. rewrite bread_Some by lia. simpl. split; [done|lia].
Qed.

Lemma flat_store u b bs :
  (copy_to_user u b bs).2 = match bwrite (fu_mem u) (b - fu_base u) bs with
                            | Some m => FlatUser (fu_base u) m | None => u end.
Proof. simpl. by destruct (bwrite _ _ _). Qed.

Lemma flat_ok_store u b bs a n : flat_ok (copy_to_user u b bs).2 a n = flat_ok u a n.
Proof.
  rewrite flat_store. destruct (bwrite _ _ _) as [m|] eqn:E; [|done]. apply bwrite_length in E.
  unfold flat_ok. simpl. by rewrite E.
Qed.

Lemma flat_load_other u b bs a n : apart b (blen bs) a n → flat_load (copy_to_user u b bs).2 a n = flat_load u a n.
Proof.
  intros Hap. rewrite flat_store. destruct (bwrite _ _ _) as [m|] eqn:E; [|done].
  unfold flat_load. simpl. by erewrite bwrite_bread_other by (done || unfold apart in Hap; lia).
Qed.

#[export] Instance flat_user_process_laws : UserProcessLaws flat_user.
Proof.
  split; simpl own.
  - intros u a n Ho. simpl. by rewrite Ho.
  - intros u a bs Ho. apply flat_load_Some in Ho as (_ & H1 & _ & H2). simpl.
    by rewrite bwrite_Some by lia.
  - intros u a n b m. unfold flat_ok. rewrite !bool_decide_eq_true. lia.
  - intros u b bs a n Ho. change (flat_ok (copy_to_user u b bs).2 a n = true). by rewrite flat_ok_store.
  - intros u b bs a n Ho. change (flat_ok (copy_to_user u b bs).2 a n = true). by rewrite flat_ok_store.
  - intros u a n m Ho Hn Hm. simpl uload. assert (flat_ok u a n = true ∧ flat_ok u (a + n) m = true) as [Ho1 Ho2].
    { unfold flat_ok in *. rewrite !bool_decide_eq_true in *. lia. }
    apply flat_load_Some in Ho as (-> & ? & ? & ?), Ho1 as (-> & _), Ho2 as (-> & _).
    replace (Z.to_nat (n + m)) with (Z.to_nat n + Z.to_nat m)%nat by lia.
    replace (Z.to_nat (a + n - fu_base u)) with (Z.to_nat (a - fu_base u) + Z.to_nat n)%nat by lia.
    by rewrite <-drop_drop, take_drop_app.
  - intros u a bs Ho. change (uload (copy_to_user u a bs).2 a (blen bs) = bs).
    apply (copy_to_user_ok u a bs). apply flat_load_Some in Ho as (_ & H1 & _ & H2). simpl.
    by rewrite bwrite_Some by lia.
  - intros u b bs a n. apply flat_load_other.
  - intros u b bs a n. apply flat_load_other.
Qed.
