(* ===== verification/Ioctl.v ===== *)
(** * The ioctl device (examples/class_5/08_IOCTL/ioctl_test.c)

    A character device whose state, an int and a 256-byte string under a mutex, is
    read and set by five ioctl commands.  The handler is compared with a
    specification over an int and a text; module [Reg] is loading and unloading. *)
From S2P Require Import Prelude Bytes Kernel CharDev.

(** ** User memory: checking addresses and reading strings *)
Class UserStrings (U : Type) := {
  access_ok : U → Z → Z → bool;
  strncpy_from_user : U → Z → Z → Z * bytes
}.

(** strncpy_from_user "copies a NUL-terminated string from userspace to kernel
    space.  On success, returns the length of the string (not including the
    trailing NUL).  If access to userspace fails, returns -EFAULT (some data may
    have been copied).  If count is smaller than the length of the string, copies
    count bytes and returns count."  The second component is what it stored. *)
Class UserStringsLaws (U : Type) `{UserAccess U} `{!UserStrings U} := {
  strncpy_from_user_stored u a n : 0 <= n → blen (strncpy_from_user u a n).2 <= n;
  strncpy_from_user_ok u a n :
    0 <= n → 0 <= (strncpy_from_user u a n).1 →
    let s := c_str (uload u a n) in
    (strncpy_from_user u a n).1 = blen s ∧
    take (length s) (strncpy_from_user u a n).2 = s ∧
    (blen s < n → (strncpy_from_user u a n).2 !! length s = Some 0)
}.

(** ** Commands: sizeof(int) is 4, sizeof(char* ) is 8, 'D' is 68 *)
Definition IOCTL_DEMO_MAGIC : Z := 68.
Definition IOCTL_SET_VALUE : Z := _IOW IOCTL_DEMO_MAGIC 1 4.
Definition IOCTL_GET_VALUE : Z := _IOR IOCTL_DEMO_MAGIC 2 4.
Definition IOCTL_SET_STRING : Z := _IOW IOCTL_DEMO_MAGIC 3 8.
Definition IOCTL_GET_STRING : Z := _IOR IOCTL_DEMO_MAGIC 4 8.
Definition IOCTL_RESET : Z := _IO IOCTL_DEMO_MAGIC 5.

Definition MAX_STRING_SIZE : Z := 256.
Definition DEFAULT_VALUE : Z := 0.
Definition DEFAULT_STRING : string := "default_string".

(** ** The device and its handler *)
Section ioctl.
Context {U M : Type} `{UserAccess U} `{!UserStrings U} `{Mutex M}.

Record ioctl_device := IoctlDevice { value : Z; text : bytes; lock : M }.
Definition set_value v d := IoctlDevice v (text d) (lock d).
Definition set_text b d := IoctlDevice (value d) b (lock d).
Definition set_lock m d := IoctlDevice (value d) (text d) m.

(** The cases of the switch, lines 97-167; [kernel_buffer] is uninitialised. *)
Definition run_command (kernel_buffer : bytes) (cmd arg : Z) (u : U) (d : ioctl_device)
    : option (Z * U * ioctl_device) :=
  if cmd =? IOCTL_SET_VALUE then
    let '(left_over, bs) := copy_from_user u arg 4 in
    if negb (left_over =? 0) then Some (- EFAULT, u, d)
    else Some (0, u, set_value (int_of_le32 bs) d)
  else if cmd =? IOCTL_GET_VALUE then
    let '(left_over, u) := copy_to_user u arg (le32 (value d)) in
    if negb (left_over =? 0) then Some (- EFAULT, u, d) else Some (0, u, d)
  else if cmd =? IOCTL_SET_STRING then
    let '(len, bs) := strncpy_from_user u arg (MAX_STRING_SIZE - 1) in
    kernel_buffer ← bwrite kernel_buffer 0 bs;
    if len <? 0 then Some (- EFAULT, u, d)
    else
      kernel_buffer ← bwrite kernel_buffer (MAX_STRING_SIZE - 1) [0];
      b ← strcpy (text d) kernel_buffer;
      Some (0, u, set_text b d)
  else if cmd =? IOCTL_GET_STRING then
    len ← strlen (text d);
    bs ← bread (text d) 0 (len + 1);
    let '(left_over, u) := copy_to_user u arg bs in
    if negb (left_over =? 0) then Some (- EFAULT, u, d) else Some (0, u, d)
  else if cmd =? IOCTL_RESET then
    let d := set_value DEFAULT_VALUE d in
    b ← strcpy (text d) (lit DEFAULT_STRING);
    Some (0, u, set_text b d)
  else Some (- ENOTTY, u, d).

Definition ioctl_demo_ioctl (kernel_buffer : bytes) (cmd arg : Z) (u : U) (d : ioctl_device)
    : option (Z * U * ioctl_device) :=
  if negb (_IOC_TYPE cmd =? IOCTL_DEMO_MAGIC) then Some (- ENOTTY, u, d)
  else if 5 <? _IOC_NR cmd then Some (- ENOTTY, u, d)
  else if negb (Z.land (_IOC_DIR cmd) _IOC_READ =? 0) && negb (access_ok u arg (_IOC_SIZE cmd))
    then Some (- EFAULT, u, d)
  else if negb (Z.land (_IOC_DIR cmd) _IOC_WRITE =? 0) && negb (access_ok u arg (_IOC_SIZE cmd))
    then Some (- EFAULT, u, d)
  else
    let d := set_lock (mutex_lock (lock d)) d in
    '(ret, u, d) ← run_command kernel_buffer cmd arg u d;
    Some (ret, u, set_lock (mutex_unlock (lock d)) d).

(** What ioctl_demo_init leaves in the static, zeroed device_data. *)
Definition init_device (m : M) : option ioctl_device :=
  b ← strcpy (bfill 0 MAX_STRING_SIZE) (lit DEFAULT_STRING);
  Some (IoctlDevice DEFAULT_VALUE b m).
End ioctl.
Arguments ioctl_device : clear implicits.

(** ** The specification: a device is an int and a text *)
Section spec.
Context {U : Type} `{UserAccess U} `{!UserStrings U}.

Record device_spec := DeviceSpec { s_value : Z; s_text : bytes }.
Definition default_spec : device_spec := DeviceSpec DEFAULT_VALUE (chars DEFAULT_STRING).

Inductive command := SetValue | GetValue | SetString | GetString | Reset.

(** The command numbers user programs use. *)
Definition command_of (cmd : Z) : option command :=
  if cmd =? 0x40044401 then Some SetValue
  else if cmd =? 0x80044402 then Some GetValue
  else if cmd =? 0x40084403 then Some SetString
  else if cmd =? 0x80084404 then Some GetString
  else if cmd =? 0x4405 then Some Reset
  else None.

(** The number of bytes the command's address is checked for. *)
Definition checked (c : command) : option Z :=
  match c with
  | SetValue | GetValue => Some 4
  | SetString | GetString => Some 8
  | Reset => None
  end.

Definition answer (u : U) (arg : Z) (bs : bytes) : Z * U :=
  let '(left_over, u') := copy_to_user u arg bs in (if left_over =? 0 then 0 else - EFAULT, u').

Definition ioctl_spec (c : command) (arg : Z) (u : U) (s : device_spec) : Z * U * device_spec :=
  if match checked c with Some n => negb (access_ok u arg n) | None => false end then (- EFAULT, u, s)
  else
    match c with
    | SetValue =>
        if (copy_from_user u arg 4).1 =? 0
        then (0, u, DeviceSpec (int_of_le32 (uload u arg 4)) (s_text s)) else (- EFAULT, u, s)
    | GetValue => (answer u arg (le32 (s_value s)), s)
    | SetString =>
        if 0 <=? (strncpy_from_user u arg 255).1
        then (0, u, DeviceSpec (s_value s) (c_str (uload u arg 255))) else (- EFAULT, u, s)
    | GetString => (answer u arg (s_text s ++ [0]), s)
    | Reset => (0, u, default_spec)
    end.
End spec.

Section facts.
Context {U M : Type} `{UserAccessLaws U} `{!UserStrings U} `{!UserStringsLaws U} `{MutexLaws M}.
Implicit Types (u : U) (d : ioctl_device M).

(** The device's data, the device between two commands, and the value and text
    it stands for. *)
Record data_ok d : Prop := {
  ok_size : blen (text d) = MAX_STRING_SIZE;
  ok_terminated : 0 ∈ text d;
  ok_value : is_s32 (value d)
}.
Definition device_ok d : Prop := data_ok d ∧ held (lock d) = false.
Definition spec_of d : device_spec := DeviceSpec (value d) (c_str (text d)).

Lemma set_string_stored kb u arg :
  blen kb = MAX_STRING_SIZE →
  ∃ kb1, bwrite kb 0 (strncpy_from_user u arg 255).2 = Some kb1 ∧
    (0 <= (strncpy_from_user u arg 255).1 →
     ∃ kb2, bwrite kb1 255 [0] = Some kb2 ∧ 0 ∈ kb2 ∧ c_str kb2 = c_str (uload u arg 255)).
Proof.
  unfold MAX_STRING_SIZE. intros Hk. pose proof (strncpy_from_user_stored u arg 255) as Hb.
  pose proof (strncpy_from_user_ok u arg 255) as Hok.
  destruct (strncpy_from_user u arg 255) as [len bs]. cbn [fst snd] in *.
  destruct (bwrite kb 0 bs) as [kb1|] eqn:E1; cycle 1.
  { apply eq_None_not_Some in E1. destruct E1. apply bwrite_is_Some. lia. }
  exists kb1. split; [done|]. intros Hlen. destruct Hok as (_ & Ht & Hn); [lia|done|].
  pose proof (bwrite_length _ _ _ _ E1) as Hl1.
  rewrite bwrite_Some by (change (blen [0]) with 1; lia). eexists. split; [done|]. split; [set_solver|].
  apply bwrite_inv in E1 as (_ & _ & ->). change (Z.to_nat 0) with 0%nat. rewrite take_0, app_nil_l. simpl.
  set (s := c_str (uload u arg 255)) in *.
  assert (0 ∉ s) as Hnul by apply c_str_no_nul.
  assert (length s <= 255)%nat as Hs.
  { pose proof (c_str_le (uload u arg 255)) as Hc. rewrite uload_length in Hc by lia. fold s in Hc. unfold blen in Hc. lia. }
  set (k := bs ++ drop (length bs) kb). change (Z.to_nat 255) with 255%nat.
  destruct (decide (length s = 255%nat)) as [E|Hne].
  - assert (length bs = 255%nat) as Eb.
    { apply (f_equal length) in Ht. rewrite length_take in Ht. unfold blen in Hb. lia. }
    assert (take 255 k = s) as ->; [|by apply c_str_app_nul].
    unfold k. rewrite take_app_exact by done. rewrite <-Ht. rewrite take_ge; [done|lia].
  - assert (length s < 255)%nat by lia.
    assert (take (S (length s)) bs = s ++ [0]) as Hts.
    { rewrite (take_S_r _ _ 0) by (apply Hn; unfold blen; lia). by rewrite Ht. }
    assert (S (length s) <= length bs)%nat by (apply (f_equal length) in Hts; rewrite length_take, length_app in Hts; cbn [length] in Hts; lia).
    assert (take (S (length s)) (take 255 k ++ 0 :: drop 256 k) = s ++ [0]) as Htt.
    { rewrite take_app_le by (unfold k; rewrite length_take, length_app; unfold blen in *; lia).
      rewrite take_take, Nat.min_l by lia. unfold k. by rewrite take_app_le. }
    rewrite <-(take_drop (S (length s)) (take 255 k ++ 0 :: drop 256 k)), Htt, <-app_assoc.
    simpl. by apply c_str_app_nul.
Qed.

(** Storing a shorter string in the device. *)
Lemma strcpy_text d src :
  data_ok d → 0 ∈ src → blen (c_str src) < MAX_STRING_SIZE →
  ∃ b, strcpy (text d) src = Some b ∧ c_str b = c_str src ∧
    ∀ v m, is_s32 v → data_ok (IoctlDevice v b m).
Proof.
  intros [Hs _ _] Hnul Hl. destruct (strcpy_Some (text d) src) as (b & Hb & Hlb & Hnb & Hcb); [done|lia|].
  exists b. split; [done|]. split; [done|]. split; simpl; [congruence|done..].
Qed.

(** GET_STRING copies the text and its NUL. *)
Lemma text_read d :
  data_ok d →
  ∃ len, strlen (text d) = Some len ∧ bread (text d) 0 (len + 1) = Some (c_str (text d) ++ [0]).
Proof.
  intros [Hs Hnul _]. destruct (strlen_is_Some _ Hnul) as [len E]. exists len. split; [done|].
  pose proof (strlen_c_str _ _ E) as El. pose proof (blen_nonneg (c_str (text d))).
  assert (text d !! length (c_str (text d)) = Some 0 ∧ take (length (c_str (text d))) (text d) = c_str (text d))
    as [Hi Ht].
  { split; [|by rewrite <-c_str_take]. clear -Hnul. induction (text d) as [|c b IH]; [by apply elem_of_nil in Hnul|].
    simpl. destruct (Z.eqb_spec c 0) as [->|Hc]; [done|]. apply IH. set_solver. }
  assert (length (c_str (text d)) < length (text d))%nat by by eapply lookup_lt_Some.
  rewrite bread_Some by (unfold blen in *; lia). change (Z.to_nat 0) with 0%nat. rewrite drop_0.
  replace (Z.to_nat (len + 1)) with (S (length (c_str (text d)))) by (unfold blen in *; lia).
  rewrite (take_S_r _ _ 0) by done. by rewrite Ht.
Qed.

(** The number of each command. *)
Definition code (c : command) : Z :=
  match c with
  | SetValue => IOCTL_SET_VALUE | GetValue => IOCTL_GET_VALUE
  | SetString => IOCTL_SET_STRING | GetString => IOCTL_GET_STRING | Reset => IOCTL_RESET
  end.

Lemma command_of_code c : command_of (code c) = Some c.
Proof. by destruct c. Qed.

Lemma command_of_Some cmd c : command_of cmd = Some c → cmd = code c.
Proof. unfold command_of. split_ifs; zbool; intros; simplify_eq; done. Qed.

Lemma run_command_unknown kb cmd arg u d :
  command_of cmd = None → run_command kb cmd arg u d = Some (- ENOTTY, u, d).
Proof.
  unfold command_of, run_command.
  change IOCTL_SET_VALUE with 0x40044401. change IOCTL_GET_VALUE with 0x80044402.
  change IOCTL_SET_STRING with 0x40084403. change IOCTL_GET_STRING with 0x80084404.
  change IOCTL_RESET with 0x4405. split_ifs; done.
Qed.

(** Each case of the switch does what the specification says, once the address
    was checked. *)
Lemma run_command_refines kb c arg u d :
  data_ok d → blen kb = MAX_STRING_SIZE →
  match checked c with Some n => access_ok u arg n = true | None => True end →
  ∃ ret u' d', run_command kb (code c) arg u d = Some (ret, u', d') ∧ data_ok d' ∧ lock d' = lock d ∧
    ioctl_spec c arg u (spec_of d) = (ret, u', spec_of d').
Proof.
  intros Hd Hk Hc. unfold ioctl_spec.
  replace (match checked c with Some n => negb (access_ok u arg n) | None => false end) with false
    by (destruct (checked c); by rewrite ?Hc).
  destruct c; unfold run_command; cbn [code Z.eqb].
  - change (IOCTL_SET_VALUE =? IOCTL_SET_VALUE) with true. cbn iota.
    pose proof (copy_from_user_ok u arg 4) as Hok. destruct (copy_from_user u arg 4) as [l bs]. cbn [fst snd] in *.
    destruct (Z.eqb_spec l 0) as [El|]; simpl; do 3 eexists; (split; [done|]); [|done].
    rewrite Hok by done. split; [|done]. destruct Hd as [? ? ?]. split; [done..|apply int_of_le32_range].
  - change (IOCTL_GET_VALUE =? IOCTL_SET_VALUE) with false. change (IOCTL_GET_VALUE =? IOCTL_GET_VALUE) with true.
    cbn iota. unfold answer. simpl. destruct (copy_to_user u arg _) as [l u']. by destruct (l =? 0); eauto 10.
  - change (IOCTL_SET_STRING =? IOCTL_SET_VALUE) with false. change (IOCTL_SET_STRING =? IOCTL_GET_VALUE) with false.
    change (IOCTL_SET_STRING =? IOCTL_SET_STRING) with true. cbn iota.
    change (MAX_STRING_SIZE - 1) with 255.
    destruct (set_string_stored kb u arg Hk) as (kb1 & E1 & Hst).
    destruct (strncpy_from_user u arg 255) as [len bs]. cbn [fst snd] in *. rewrite E1. cbn [mbind option_bind].
    destruct (Z.ltb_spec len 0), (Z.leb_spec 0 len); try lia; [by eauto 10|].
    destruct Hst as (kb2 & -> & Hn2 & Ht2); [done|]. cbn [mbind option_bind].
    assert (blen (c_str (uload u arg 255)) < MAX_STRING_SIZE) as Hl.
    { pose proof (c_str_le (uload u arg 255)) as Hle. rewrite uload_length in Hle by lia. unfold MAX_STRING_SIZE. lia. }
    destruct (strcpy_text d kb2 Hd Hn2) as (b & -> & Hcb & Hb); [by rewrite Ht2|]. cbn [mbind option_bind].
    do 3 eexists. split; [done|]. split; [by apply Hb, Hd|]. split; [done|].
    unfold spec_of. simpl. by rewrite Hcb, Ht2.
  - change (IOCTL_GET_STRING =? IOCTL_SET_VALUE) with false. change (IOCTL_GET_STRING =? IOCTL_GET_VALUE) with false.
    change (IOCTL_GET_STRING =? IOCTL_SET_STRING) with false. change (IOCTL_GET_STRING =? IOCTL_GET_STRING) with true.
    cbn iota. destruct (text_read d Hd) as (len & -> & Hr). cbn [mbind option_bind]. rewrite Hr. cbn [mbind option_bind].
    unfold answer. simpl. destruct (copy_to_user u arg _) as [l u']. by destruct (l =? 0); eauto 10.
  - change (IOCTL_RESET =? IOCTL_SET_VALUE) with false. change (IOCTL_RESET =? IOCTL_GET_VALUE) with false.
    change (IOCTL_RESET =? IOCTL_SET_STRING) with false. change (IOCTL_RESET =? IOCTL_GET_STRING) with false.
    change (IOCTL_RESET =? IOCTL_RESET) with true. cbn iota zeta.
    destruct (strcpy_text d (lit DEFAULT_STRING) Hd) as (b & Hb & Hcb & Hdb);
      [by apply (bool_decide_eq_true_1 _)|by vm_compute|].
    cbn [text set_value]. rewrite Hb. cbn [mbind option_bind]. do 3 eexists. split; [done|].
    split; [by apply Hdb|]. split; [done|]. unfold spec_of. simpl. rewrite Hcb. done.
Qed.
Lemma code_checks c :
  ((_IOC_TYPE (code c) =? IOCTL_DEMO_MAGIC) = true ∧ (5 <? _IOC_NR (code c)) = false) ∧
  match checked c with
  | Some n =>
      (Z.land (_IOC_DIR (code c)) _IOC_READ =? 0) && (Z.land (_IOC_DIR (code c)) _IOC_WRITE =? 0) = false ∧
      _IOC_SIZE (code c) = n
  | None =>
      (Z.land (_IOC_DIR (code c)) _IOC_READ =? 0) && (Z.land (_IOC_DIR (code c)) _IOC_WRITE =? 0) = true
  end.
Proof. by destruct c. Qed.

(** The checks before the switch let a command pass exactly when its address is
    accepted. *)
Lemma checks_known kb c arg u d :
  ioctl_demo_ioctl kb (code c) arg u d =
    if match checked c with Some n => negb (access_ok u arg n) | None => false end then Some (- EFAULT, u, d)
    else
      '(ret, u, d) ← run_command kb (code c) arg u (set_lock (mutex_lock (lock d)) d);
      Some (ret, u, set_lock (mutex_unlock (lock d)) d).
Proof.
  unfold ioctl_demo_ioctl. destruct (code_checks c) as [[-> ->] Hc]. cbn [negb].
  destruct (checked c) as [n|]; [destruct Hc as [Hc ->]; destruct (access_ok u arg n)|];
    destruct (Z.land (_IOC_DIR (code c)) _IOC_READ =? 0), (Z.land (_IOC_DIR (code c)) _IOC_WRITE =? 0); done.
Qed.

(** The handler on one of the five commands. *)
Lemma ioctl_command kb c arg u d :
  device_ok d → blen kb = MAX_STRING_SIZE →
  ∃ ret u' d', ioctl_demo_ioctl kb (code c) arg u d = Some (ret, u', d') ∧ device_ok d' ∧
    ioctl_spec c arg u (spec_of d) = (ret, u', spec_of d').
Proof.
  intros [Hd Hl] Hk. rewrite checks_known.
  destruct (match checked c with Some n => negb (access_ok u arg n) | None => false end) eqn:Ea.
  { do 3 eexists. split; [done|]. split; [done|]. unfold ioctl_spec. by rewrite Ea. }
  destruct (run_command_refines kb c arg u (set_lock (mutex_lock (lock d)) d)) as (ret & u' & d' & -> & Hd' & El & Hs).
  { by destruct Hd. }
  { done. }
  { destruct (checked c); [by apply negb_false_iff in Ea|done]. }
  do 3 eexists. split; [done|]. split; [split; [by destruct Hd'|]|exact Hs].
  simpl. rewrite El. simpl. by apply mutex_unlock_free, mutex_lock_held.
Qed.

(** C11: The handler implements the specification.  On any well-formed device, for
    every 32-bit command number, every address, every user memory and whatever the
    uninitialised stack buffer holds, ioctl_demo_ioctl is memory safe, frees the
    mutex and keeps the device well-formed; on the five commands its result, user
    memory and the device's value and text are those of the specification (SET
    commands store what user memory holds there, a string cut at 255 characters;
    GET commands copy it out; RESET restores the defaults; an address or copy that
    fails gives -EFAULT and changes nothing); on any other number it changes
    nothing and returns -ENOTTY, or -EFAULT if the number has the device's type, a
    number up to 5 and a direction, and its address is refused. *)
Theorem ioctl_demo_ioctl_refines kb cmd arg u d :
  device_ok d → blen kb = MAX_STRING_SIZE →
  ∃ ret u' d', ioctl_demo_ioctl kb cmd arg u d = Some (ret, u', d') ∧ device_ok d' ∧
    match command_of cmd with
    | Some c => ioctl_spec c arg u (spec_of d) = (ret, u', spec_of d')
    | None =>
        u' = u ∧ spec_of d' = spec_of d ∧
        ret = if (_IOC_TYPE cmd =? IOCTL_DEMO_MAGIC) && (_IOC_NR cmd <=? 5) && negb (_IOC_DIR cmd =? 0) &&
                 negb (access_ok u arg (_IOC_SIZE cmd)) then - EFAULT else - ENOTTY
    end.
Proof.
  intros Hok Hk. destruct (command_of cmd) as [c|] eqn:Ec.
  - apply command_of_Some in Ec as ->. by apply ioctl_command.
  - destruct Hok as [Hd Hl]. unfold ioctl_demo_ioctl. rewrite (run_command_unknown _ _ _ _ _ Ec).
    assert (0 <= _IOC_DIR cmd < 4) as Hdir.
    { unfold _IOC_DIR. change 3 with (Z.ones 2). rewrite Z.land_ones by lia. apply Z.mod_pos_bound. lia. }
    assert (_IOC_DIR cmd = 0 ∨ _IOC_DIR cmd = 1 ∨ _IOC_DIR cmd = 2 ∨ _IOC_DIR cmd = 3) as Hdirs by lia.
    assert (device_ok (set_lock (mutex_unlock (mutex_lock (lock d))) d)) as Hd'.
    { split; [by destruct Hd|]. by apply mutex_unlock_free, mutex_lock_held. }
    revert Hdirs. generalize (_IOC_DIR cmd) (_IOC_NR cmd) (_IOC_SIZE cmd) (_IOC_TYPE cmd =? IOCTL_DEMO_MAGIC).
    intros dir nr size type Hdirs. rewrite (Z.leb_antisym 5 nr).
    destruct type, (5 <? nr), (access_ok u arg size), Hdirs as [-> | [-> | [-> | ->]]];
      cbn -[mutex_lock mutex_unlock];
      (do 3 eexists; split; [done|]; split; [first [exact Hd'|by split]|done]).
Qed.
Lemma answer_ok u arg bs u' : answer u arg bs = (0, u') → uload u' arg (blen bs) = bs.
Proof.
  unfold answer. pose proof (copy_to_user_ok u arg bs) as Hok. destruct (copy_to_user u arg bs) as [l u1].
  simpl in *. destruct (Z.eqb_spec l 0) as [->|]; intros [= <-]; auto.
Qed.

(** What was set is what is got.  After a SET_STRING that succeeded, a
    GET_STRING that succeeds leaves at its address the string the first one read,
    cut at 255 characters and terminated, whatever user code did to its memory in
    between; after a SET_VALUE that succeeded, a GET_VALUE that succeeds leaves the
    int. *)
Theorem set_then_get kb1 kb2 a b u1 u2 d d1 d2 u1' u2' :
  device_ok d → blen kb1 = MAX_STRING_SIZE → blen kb2 = MAX_STRING_SIZE →
  (ioctl_demo_ioctl kb1 IOCTL_SET_STRING a u1 d = Some (0, u1', d1) →
   ioctl_demo_ioctl kb2 IOCTL_GET_STRING b u2 d1 = Some (0, u2', d2) →
   let s := c_str (uload u1 a 255) in uload u2' b (blen s + 1) = s ++ [0]) ∧
  (ioctl_demo_ioctl kb1 IOCTL_SET_VALUE a u1 d = Some (0, u1', d1) →
   ioctl_demo_ioctl kb2 IOCTL_GET_VALUE b u2 d1 = Some (0, u2', d2) →
   int_of_le32 (uload u2' b 4) = int_of_le32 (uload u1 a 4)).
Proof.
  intros Hd Hk1 Hk2. split; intros E1 E2.
  - destruct (ioctl_command kb1 SetString a u1 d Hd Hk1) as (r & v & d' & E1' & Hd' & Hs1).
    simpl code in E1'. rewrite E1 in E1'. simplify_eq.
    destruct (ioctl_command kb2 GetString b u2 d' Hd' Hk2) as (r & v' & d'' & E2' & _ & Hs2).
    simpl code in E2'. rewrite E2 in E2'. simplify_eq. unfold ioctl_spec in Hs1, Hs2. simpl in Hs1, Hs2.
    destruct (negb (access_ok u1 a 8)); [done|]. destruct (0 <=? _); [|done]. injection Hs1 as _ _ Ht.
    destruct (negb (access_ok u2 b 8)); [done|]. simpl.
    destruct (answer u2 b _) as [r u3] eqn:Ea. injection Hs2 as -> -> _ _.
    apply answer_ok in Ea. rewrite blen_app in Ea. change (blen [0]) with 1 in Ea.
    simpl. by rewrite Ht.
  - destruct (ioctl_command kb1 SetValue a u1 d Hd Hk1) as (r & v & d' & E1' & Hd' & Hs1).
    simpl code in E1'. rewrite E1 in E1'. simplify_eq.
    destruct (ioctl_command kb2 GetValue b u2 d' Hd' Hk2) as (r & v' & d'' & E2' & _ & Hs2).
    simpl code in E2'. rewrite E2 in E2'. simplify_eq. unfold ioctl_spec in Hs1, Hs2. simpl in Hs1, Hs2.
    destruct (negb (access_ok u1 a 4)); [done|]. destruct (_ =? 0); [|done]. injection Hs1 as _ Hv _.
    destruct (negb (access_ok u2 b 4)); [done|].
    destruct (answer u2 b _) as [r u3] eqn:Ea. injection Hs2 as -> -> _ _.
    apply answer_ok in Ea. rewrite blen_le32 in Ea. rewrite Ea.
    rewrite int_of_le32_le32; [congruence|apply Hd'].
Qed.
End facts.

(** ** Registration, over the module's static variables *)
Module Reg.
#[local] Open Scope kernel_scope.

Record state := State { dev_number : Z; ioctl_class : Z; ioctl_device_ptr : Z }.
Definition set_number n s := State n (ioctl_class s) (ioctl_device_ptr s).
Definition set_class c s := State (dev_number s) c (ioctl_device_ptr s).
Definition set_device p s := State (dev_number s) (ioctl_class s) p.

Definition ioctl_demo_init : K call state Z :=
  kcall MutexInit ;;k
  r <-k kcall AllocChrdevRegion;
  if region_ret r <? 0 then kret (region_ret r) else
  kmod (set_number r) ;;k
  c <-k kcall ClassCreate;
  kmod (set_class c) ;;k
  if IS_ERR c then
    n <-k kget dev_number; kcall (UnregisterChrdevRegion n) ;;k kret (PTR_ERR c) else
  kcall CdevInit ;;k
  n <-k kget dev_number;
  ret <-k kcall (CdevAdd n);
  if ret <? 0 then
    kcall (ClassDestroy c) ;;k kcall (UnregisterChrdevRegion n) ;;k kret ret else
  p <-k kcall (DeviceCreate c n);
  kmod (set_device p) ;;k
  if IS_ERR p then
    kcall CdevDel ;;k kcall (ClassDestroy c) ;;k kcall (UnregisterChrdevRegion n) ;;k kret (PTR_ERR p) else
  kret 0.

Definition ioctl_demo_exit : K call state unit :=
  p <-k kget ioctl_device_ptr; c <-k kget ioctl_class; n <-k kget dev_number;
  (if negb (p =? NULL) then kcall (DeviceDestroy c n) else kret 0) ;;k
  kcall CdevDel ;;k
  (if negb (c =? NULL) then kcall (ClassDestroy c) else kret 0) ;;k
  kcall (UnregisterChrdevRegion n) ;;k kret tt.

(** Loading and unloading leak nothing and release nothing twice, whatever each
    kernel call answers: a failing init gives back what it acquired, in reverse
    order, and returns an error; a successful one holds the device number, class,
    cdev and device node, and exit gives them back in reverse order, provided the
    class and the device node, which are not errors, are not NULL either. *)
Theorem ioctl_demo_init_exit (e : env call) (s : state) :
  let '(ret, w) := ioctl_demo_init e (KWorld s []) in
  let '(_, w') := ioctl_demo_exit e w in
  (ret ≠ 0 ∧ held_run acq rel [] (ktr w) = Some []) ∨
  (ret = 0 ∧
     held_run acq rel [] (ktr w) =
       Some [RDevice (ioctl_class (kst w)) (dev_number (kst w)); RCdev; RClass (ioctl_class (kst w));
             RRegion (dev_number (kst w))] ∧
     (ioctl_class (kst w) ≠ NULL → ioctl_device_ptr (kst w) ≠ NULL → held_run acq rel [] (ktr w') = Some [])).
Proof.
  unfold ioctl_demo_init. destruct s.
  all: repeat kstep; unfold ioctl_demo_exit; repeat kstep;
    cbn [dev_number ioctl_class ioctl_device_ptr set_number set_class set_device] in *;
    rewrite ?region_ret_neg in *.
  all: unfold acq, rel; kheld; first
    [ left; split; [first [done | by apply PTR_ERR_nonzero | zbool; unfold region_ret; split_ifs; zbool; lia]|done]
    | right; split_and!; [done|done|intros; zbool; done] | zbool; done ].
Qed.
End Reg.

(** ** The reference user memory *)
#[export] Instance flat_user_strings : UserStrings flat_user := {
  access_ok := flat_ok;
  strncpy_from_user u a n :=
    if flat_ok u a n then
      let s := c_str (flat_load u a n) in (blen s, take (Z.to_nat n) (s ++ [0]))
    else (- EFAULT, [])
}.

#[export] Instance flat_user_strings_laws : UserStringsLaws flat_user.
Proof.
  split; intros u a n Hn; simpl; destruct (flat_ok u a n); simpl.
  - unfold blen. rewrite length_take. lia.
  - done.
  - intros _. pose proof (c_str_le (flat_load u a n)) as Hle. rewrite flat_load_length in Hle by done.
    set (s := c_str (flat_load u a n)) in *. unfold blen in *. split; [done|]. split.
    + rewrite take_take, Nat.min_l by lia. by apply take_app_exact.
    + intros Hlt. rewrite lookup_take_lt by lia. by rewrite lookup_app_r, Nat.sub_diag.
  - done.
Qed.

(** ** Witnesses *)
Lemma init_device_ok {M} `{Mutex M} (m : M) :
  held m = false → ∃ d, init_device m = Some d ∧ device_ok d ∧ spec_of d = default_spec.
Proof.
  intros Hm. eexists. split; [by vm_compute|]. split; [|by vm_compute]. split; [|done].
  split; [done| |by vm_compute]. by apply (bool_decide_eq_true_1 _); vm_compute.
Qed.

Definition wstack : bytes := bfill 0xCC 256.
Definition wuser : flat_user := FlatUser 4096 (lit "Hello from user space!" ++ bfill 7 600).

Lemma ioctl_demo_ioctl_refines_witness :
  ∃ d r u' d', init_device (RefMutex false false) = Some d ∧
    ioctl_demo_ioctl wstack IOCTL_SET_STRING 4096 wuser d = Some (r, u', d') ∧
    s_text (spec_of d') = chars "Hello from user space!".
Proof.
  destruct (init_device_ok (RefMutex false false)) as (d & Hi & Hd & Hs); [reflexivity|].
  destruct (ioctl_demo_ioctl_refines wstack IOCTL_SET_STRING 4096 wuser d Hd) as (r & u' & d' & He & _ & Hc);
    [reflexivity|].
  exists d, r, u', d'. split; [exact Hi|]. split; [exact He|]. rewrite Hs in Hc.
  change (command_of IOCTL_SET_STRING) with (Some SetString) in Hc.
  apply (f_equal (λ x, s_text x.2)) in Hc. etransitivity; [symmetry; exact Hc|]. vm_compute. reflexivity.
Defined.

Lemma set_then_get_witness :
  ∃ d d1 d2 u1 u2, init_device (RefMutex false false) = Some d ∧
    ioctl_demo_ioctl wstack IOCTL_SET_STRING 4096 wuser d = Some (0, u1, d1) ∧
    ioctl_demo_ioctl wstack IOCTL_GET_STRING 4400 u1 d1 = Some (0, u2, d2) ∧
    uload u2 4400 23 = lit "Hello from user space!".
Proof.
  destruct (init_device_ok (RefMutex false false)) as (d & Hi & Hd & _); [reflexivity|].
  destruct (ioctl_demo_ioctl wstack IOCTL_SET_STRING 4096 wuser d) as [[[r1 u1] d1]|] eqn:E1;
    [|injection Hi as <-; vm_compute in E1; discriminate].
  destruct (ioctl_demo_ioctl wstack IOCTL_GET_STRING 4400 u1 d1) as [[[r2 u2] d2]|] eqn:E2;
    [|injection Hi as <-; vm_compute in E1; injection E1 as <- <- <-; vm_compute in E2; discriminate].
  assert (r1 = 0 ∧ r2 = 0) as [-> ->].
  { injection Hi as <-. vm_compute in E1. injection E1 as <- <- <-. vm_compute in E2. injection E2 as <- _ _. done. }
  exists d, d1, d2, u1, u2. split; [done|]. split; [done|]. split; [done|].
  exact (proj1 (set_then_get wstack wstack 4096 4400 wuser u1 d d1 d2 u1 u2 Hd eq_refl eq_refl) E1 E2).
Defined.
