(* ===== verification/IoctlApp.v ===== *)
(** * The ioctl client (examples/class_5/08_IOCTL/ioctl_app.c)

    The user-space program that drives the ioctl device, run against the handler
    of [Ioctl.v]: its stack variables are user memory that the driver reads and
    writes.  What it prints on standard output is modelled, what perror prints is
    not. *)
From S2P Require Import Prelude Bytes Kernel CharDev UserProgram Ioctl.

(** The driver can access memory the process owns, also as a string. *)
Class UserStringAccess (U : Type) `{UserAccess U} `{!UserStrings U} `{!UserProcess U} := {
  own_access u a n : own u a n → access_ok u a n = true;
  own_strncpy u a n k : own u a n → 0 ∈ uload u a n → 0 <= k <= n → 0 <= (strncpy_from_user u a k).1
}.

(** ** Standard library: atoi, undefined on overflow *)
Definition is_space (c : Z) : bool := (c =? 32) || ((9 <=? c) && (c <=? 13)).
Definition is_digit (c : Z) : bool := (48 <=? c) && (c <=? 57).
Fixpoint digits (acc : Z) (s : bytes) : Z :=
  match s with
  | c :: s => if is_digit c then digits (10 * acc + (c - 48)) s else acc
  | [] => acc
  end.
Fixpoint skip_spaces (s : bytes) : bytes :=
  match s with
  | c :: s' => if is_space c then skip_spaces s' else s
  | [] => []
  end.
Definition atoi (s : bytes) : option Z :=
  let v := match skip_spaces s with
           | 45 :: s => - digits 0 s
           | 43 :: s => digits 0 s
           | s => digits 0 s
           end in
  if bool_decide (is_s32 v) then Some v else None.

(** ** The program *)
Section program.
#[local] Open Scope app_scope.
Context {U M : Type} `{UserAccess U} `{!UserStrings U} `{!UserProcess U} `{Mutex M}.
#[local] Abbreviation code := (C U (ioctl_device M)).

(** ioctl(2): the library reports a negative answer of the driver as -1.
    [kb] is the driver's uninitialised stack buffer. *)
Definition ioctl (kb : bytes) (cmd arg : Z) : code Z := λ w,
  '(r, u, d) ← ioctl_demo_ioctl kb cmd arg (mem w) (dev w);
  Some (if r <? 0 then -1 else r, World u d (out w)).

Context (kb : bytes).

Definition print_usage (program_name : bytes) : code unit :=
  printf (chars "Usage: " ++ program_name ++ chars " <command> [value]" ++ [10]) ;;c
  print ("Commands:" +:+ nl) ;;c
  print ("  set_value <number>   - Set integer value" +:+ nl) ;;c
  print ("  get_value           - Get integer value" +:+ nl) ;;c
  print ("  set_string <text>   - Set string value" +:+ nl) ;;c
  print ("  get_string          - Get string value" +:+ nl) ;;c
  print ("  reset               - Reset to defaults" +:+ nl) ;;c
  print ("  test_all            - Run all tests" +:+ nl).

(** [value] and [string] are the addresses of the variables. *)
Definition test_value_operations (value : Z) : code Z :=
  print (nl +:+ "=== Testing Value Operations ===" +:+ nl) ;;c
  set_int value 12345 ;;c
  v <-c get_int value; printf (chars "Setting value to " ++ dec v ++ chars "..." ++ [10]) ;;c
  ret <-c ioctl kb IOCTL_SET_VALUE value;
  if ret <? 0 then cret (-1) else
  set_int value 0 ;;c
  print ("Getting value..." +:+ nl) ;;c
  ret <-c ioctl kb IOCTL_GET_VALUE value;
  if ret <? 0 then cret (-1) else
  v <-c get_int value; printf (chars "Retrieved value: " ++ dec v ++ [10]) ;;c
  cret 0.

Definition test_string_operations (string : Z) : code Z :=
  print (nl +:+ "=== Testing String Operations ===" +:+ nl) ;;c
  assign string (lit "Hello from user space!") ;;c
  s <-c get_str string 256; printf (chars "Setting string to '" ++ s ++ chars "'..." ++ [10]) ;;c
  ret <-c ioctl kb IOCTL_SET_STRING string;
  if ret <? 0 then cret (-1) else
  assign string (bfill 0 256) ;;c
  print ("Getting string..." +:+ nl) ;;c
  ret <-c ioctl kb IOCTL_GET_STRING string;
  if ret <? 0 then cret (-1) else
  s <-c get_str string 256; printf (chars "Retrieved string: '" ++ s ++ chars "'" ++ [10]) ;;c
  cret 0.

(** [junk] is the argument ioctl finds when the call passes none. *)
Definition test_reset_operation (value string junk : Z) : code Z :=
  print (nl +:+ "=== Testing Reset Operation ===" +:+ nl) ;;c
  print ("Resetting device..." +:+ nl) ;;c
  ret <-c ioctl kb IOCTL_RESET junk;
  if ret <? 0 then cret (-1) else
  ret <-c ioctl kb IOCTL_GET_VALUE value;
  if ret <? 0 then cret (-1) else
  ret <-c ioctl kb IOCTL_GET_STRING string;
  if ret <? 0 then cret (-1) else
  v <-c get_int value; s <-c get_str string 256;
  printf (chars "After reset - Value: " ++ dec v ++ chars ", String: '" ++ s ++ chars "'" ++ [10]) ;;c
  cret 0.

(** The commands of main, lines 142-224 of ioctl_app.c, with the addresses of
    main's variables and of those of the functions it calls. *)
Definition run (argv : list bytes) (value string value' string' junk : Z) : code Z :=
  let word := λ s, bool_decide (argv !! 1%nat = Some (chars s)) in
  if word "set_value" then
    match argv with
    | [_; _; arg] =>
        v <-c (λ w, v ← atoi arg; Some (v, w));
        set_int value v ;;c
        ret <-c ioctl kb IOCTL_SET_VALUE value;
        if ret <? 0 then cret 1 else
        v <-c get_int value; printf (chars "Value set to " ++ dec v ++ [10]) ;;c cret ret
    | _ => print ("Error: set_value requires a number" +:+ nl) ;;c cret 1
    end
  else if word "get_value" then
    ret <-c ioctl kb IOCTL_GET_VALUE value;
    if ret <? 0 then cret 1 else
    v <-c get_int value; printf (chars "Current value: " ++ dec v ++ [10]) ;;c cret ret
  else if word "set_string" then
    match argv with
    | [_; _; arg] =>
        bs <-c (λ w, bs ← strncpy_bytes (arg ++ [0]) 255; Some (bs, w));
        assign string bs ;;c assign (string + 255) [0] ;;c
        ret <-c ioctl kb IOCTL_SET_STRING string;
        if ret <? 0 then cret 1 else
        s <-c get_str string 256; printf (chars "String set to '" ++ s ++ chars "'" ++ [10]) ;;c cret ret
    | _ => print ("Error: set_string requires a string" +:+ nl) ;;c cret 1
    end
  else if word "get_string" then
    ret <-c ioctl kb IOCTL_GET_STRING string;
    if ret <? 0 then cret 1 else
    s <-c get_str string 256; printf (chars "Current string: '" ++ s ++ chars "'" ++ [10]) ;;c cret ret
  else if word "reset" then
    ret <-c ioctl kb IOCTL_RESET junk;
    if ret <? 0 then cret 1 else
    print ("Device reset successfully" +:+ nl) ;;c cret ret
  else if word "test_all" then
    print ("Running comprehensive IOCTL tests..." +:+ nl) ;;c
    r <-c test_value_operations value'; if r <? 0 then cret 1 else
    r <-c test_string_operations string'; if r <? 0 then cret 1 else
    r <-c test_reset_operation value' string' junk; if r <? 0 then cret 1 else
    print (nl +:+ "=== All tests completed successfully! ===" +:+ nl) ;;c cret 0
  else
    printf (chars "Error: Unknown command '" ++ default [] (argv !! 1%nat) ++ chars "'" ++ [10]) ;;c
    print_usage (default [] (argv !! 0%nat)) ;;c cret 1.

(** main; [fd] is what open answers for the device. *)
Definition main (argv : list bytes) (fd value string value' string' junk : Z) : code Z :=
  if bool_decide (length argv < 2)%nat then print_usage (default [] (argv !! 0%nat)) ;;c cret 1
  else if fd <? 0 then print ("Make sure the ioctl_demo module is loaded" +:+ nl) ;;c cret 1
  else
    print ("Successfully opened /dev/ioctl_demo" +:+ nl) ;;c
    run argv value string value' string' junk.
End program.

(** ** What the calls do *)
Section facts.
#[local] Open Scope app_scope.
Context {U M : Type} `{UserAccessLaws U} `{!UserStrings U} `{!UserStringsLaws U} `{!UserProcess U}
  `{!UserProcessLaws U} `{!UserStringAccess U} `{MutexLaws M}.
Context (kb : bytes) (kb_size : blen kb = MAX_STRING_SIZE).
Implicit Types (u : U) (w : world U (ioctl_device M)).

(** From [w] to [w'] the program printed [lines], its memory is still its own, and
    the device, well-formed, stands for [s]. *)
Record ran w w' (lines : list bytes) (s : device_spec) : Prop := {
  ran_device : device_ok (dev w');
  ran_spec : spec_of (dev w') = s;
  ran_out : out w' = out w ++ lines;
  ran_own a n : own (mem w) a n → own (mem w') a n
}.

Lemma ran_refl w : device_ok (dev w) → ran w w [] (spec_of (dev w)).
Proof. intros Hd. split; [done|done|by rewrite app_nil_r|done]. Qed.

Lemma ran_trans w1 w2 w3 l1 l2 s1 s2 : ran w1 w2 l1 s1 → ran w2 w3 l2 s2 → ran w1 w3 (l1 ++ l2) s2.
Proof.
  intros [_ _ Ho1 Hm1] [Hd Hs Ho2 Hm2]. split; [done|done|by rewrite Ho2, Ho1, app_assoc|auto].
Qed.

(** One successful command. *)
Lemma ioctl_run c arg w u' s' :
  device_ok (dev w) → ioctl_spec c arg (mem w) (spec_of (dev w)) = (0, u', s') →
  ∃ d', ioctl kb (code c) arg w = Some (0, World u' d' (out w)) ∧ device_ok d' ∧ spec_of d' = s'.
Proof.
  intros Hd Hs. destruct (ioctl_command kb c arg (mem w) (dev w) Hd kb_size) as (r & u1 & d' & E & Hd' & Hs').
  rewrite Hs in Hs'. injection Hs' as <- <- ->. exists d'. unfold ioctl. by rewrite E.
Qed.

Lemma ioctl_set_value a w :
  device_ok (dev w) → own (mem w) a 4 →
  ∃ w', ioctl kb IOCTL_SET_VALUE a w = Some (0, w') ∧ mem w' = mem w ∧
    ran w w' [] (DeviceSpec (int_of_le32 (uload (mem w) a 4)) (s_text (spec_of (dev w)))).
Proof.
  intros Hd Ho. edestruct (ioctl_run SetValue a w (mem w)) as (d' & E & Hd' & Hs); [done| |].
  { unfold ioctl_spec. simpl. rewrite own_access, own_copy_from by done. reflexivity. }
  eexists. split; [exact E|]. split; [done|]. split; simpl; [done|done|by rewrite app_nil_r|done].
Qed.

Lemma ioctl_get_value a w :
  device_ok (dev w) → own (mem w) a 4 →
  ∃ w', ioctl kb IOCTL_GET_VALUE a w = Some (0, w') ∧ ran w w' [] (spec_of (dev w)) ∧
    int_of_le32 (uload (mem w') a 4) = s_value (spec_of (dev w)) ∧
    ∀ b n, apart a 4 b n → uload (mem w') b n = uload (mem w) b n.
Proof.
  intros Hd Ho. set (bs := le32 (value (dev w))).
  edestruct (ioctl_run GetValue a w (copy_to_user (mem w) a bs).2) as (d' & E & Hd' & Hs); [done| |].
  { unfold ioctl_spec. simpl. rewrite own_access by done. unfold answer. fold bs. simpl.
    pose proof (own_copy_to (mem w) a bs Ho) as Hz. destruct (copy_to_user (mem w) a bs) as [l u']. simpl in *.
    by subst l. }
  eexists. split; [exact E|]. split; [|split].
  - split; simpl; [done|done|by rewrite app_nil_r|]. intros b n Hb. by apply own_after_copy.
  - cbn [mem]. pose proof (copy_to_user_ok (mem w) a bs (own_copy_to (mem w) a bs Ho)) as Hl. change (blen bs) with 4 in Hl.
    rewrite Hl. apply int_of_le32_le32, Hd.
  - intros b n Hb. cbn [mem]. apply uload_after_copy. exact Hb.
Qed.

Lemma ioctl_set_string a w :
  device_ok (dev w) → own (mem w) a 256 → 0 ∈ uload (mem w) a 256 →
  ∃ w', ioctl kb IOCTL_SET_STRING a w = Some (0, w') ∧ mem w' = mem w ∧
    ran w w' [] (DeviceSpec (s_value (spec_of (dev w))) (c_str (uload (mem w) a 255))).
Proof.
  intros Hd Ho H0'. edestruct (ioctl_run SetString a w (mem w)) as (d' & E & Hd' & Hs); [done| |].
  { unfold ioctl_spec. simpl. rewrite own_access by (eapply own_part; [done|lia..]). simpl.
    rewrite (proj2 (Z.leb_le _ _)) by (eapply own_strncpy; [done|done|lia]). reflexivity. }
  eexists. split; [exact E|]. split; [done|]. split; simpl; [done|done|by rewrite app_nil_r|done].
Qed.

Lemma text_short d : device_ok d → blen (s_text (spec_of d)) < 256 ∧ 0 ∉ s_text (spec_of d).
Proof.
  intros [[Hs Hnul _] _]. simpl. split; [|apply c_str_no_nul].
  apply list_elem_of_lookup in Hnul as [i Hi]. pose proof (lookup_lt_Some _ _ _ Hi).
  apply c_str_lt_nul in Hi. unfold MAX_STRING_SIZE, blen in *. lia.
Qed.

Lemma ioctl_get_string a w :
  device_ok (dev w) → own (mem w) a 256 →
  ∃ w', ioctl kb IOCTL_GET_STRING a w = Some (0, w') ∧ ran w w' [] (spec_of (dev w)) ∧
    get_str a 256 w' = Some (s_text (spec_of (dev w)), w') ∧
    ∀ b n, apart a 256 b n → uload (mem w') b n = uload (mem w) b n.
Proof.
  intros Hd Ho. destruct (text_short _ Hd) as [Hl Hnul]. set (t := s_text (spec_of (dev w))) in *.
  assert (blen (t ++ [0]) = blen t + 1) as Hbl by by rewrite blen_app. pose proof (blen_nonneg t).
  assert (own (mem w) a (blen (t ++ [0]))) as Ho1 by (eapply own_part; [done|lia..]).
  edestruct (ioctl_run GetString a w (copy_to_user (mem w) a (t ++ [0])).2) as (d' & E & Hd' & Hs); [done| |].
  { unfold ioctl_spec. simpl checked. cbn iota. rewrite own_access by (apply (own_part _ a 256); [done|lia..]).
    unfold answer. simpl. fold t. pose proof (own_copy_to (mem w) a (t ++ [0]) Ho1) as Hz.
    change (c_str (text (dev w))) with t.
    destruct (copy_to_user (mem w) a (t ++ [0])) as [l u']. simpl in *. by subst l. }
  eexists. split; [exact E|]. split; [|split].
  - split; simpl; [done|done|by rewrite app_nil_r|]. intros b n Hb. by apply own_after_copy.
  - pose proof (copy_to_user_ok (mem w) a (t ++ [0]) (own_copy_to (mem w) a (t ++ [0]) Ho1)) as Ht. rewrite Hbl in Ht.
    destruct (uload_string (copy_to_user (mem w) a (t ++ [0])).2 a 256 t) as [Hc [k Hk]];
      [by apply own_after_copy|done|done|done|].
    unfold get_str. cbn [mem]. rewrite Hk. cbn [mbind option_bind]. by rewrite Hc.
  - intros b n Hb. cbn [mem]. apply uload_after_copy. unfold apart in *. lia.
Qed.

Lemma ioctl_reset a w :
  device_ok (dev w) →
  ∃ w', ioctl kb IOCTL_RESET a w = Some (0, w') ∧ mem w' = mem w ∧ ran w w' [] default_spec.
Proof.
  intros Hd. edestruct (ioctl_run Reset a w (mem w)) as (d' & E & Hd' & Hs); [done|reflexivity|].
  eexists. split; [exact E|]. split; [done|]. split; simpl; [done|done|by rewrite app_nil_r|done].
Qed.
(** ** Running the program *)
(** Printing and storing keep the device. *)
Lemma ran_print w u ls :
  device_ok (dev w) → (∀ a n, own (mem w) a n → own u a n) →
  ran w (World u (dev w) (out w ++ ls)) ls (spec_of (dev w)).
Proof. by split. Qed.

Lemma test_value_run value w :
  device_ok (dev w) → own (mem w) value 4 →
  ∃ w', test_value_operations kb value w = Some (0, w') ∧
    ran w w' [chars (nl +:+ "=== Testing Value Operations ===" +:+ nl); chars ("Setting value to 12345..." +:+ nl);
              chars ("Getting value..." +:+ nl); chars ("Retrieved value: 12345" +:+ nl)]
      (DeviceSpec 12345 (s_text (spec_of (dev w)))).
Proof.
  intros Hd Ho. unfold test_value_operations. capp. rewrite uload_int by done.
  match goal with |- context [cbind (ioctl _ _ _) _ ?w1] => set (w1' := w1) end.
  destruct (ioctl_set_value value w1') as (w2 & E2 & Em & R2); [done|by apply own_ustore|]. crun E2. capp.
  match goal with |- context [cbind (ioctl _ _ _) _ ?w3] => set (w3' := w3) end.
  destruct (ioctl_get_value value w3') as (w4 & E4 & R4 & Hv & _); [apply R2|apply own_ustore, R2, own_ustore, Ho|].
  crun E4. capp. rewrite Hv. unfold w1' in R2. cbn [mem dev out] in R2. rewrite uload_int in R2 by done.
  unfold w3' in *. cbn [dev] in *. rewrite (ran_spec _ _ _ _ R2) in *. eexists. split; [done|].
  destruct R2 as [Hd2 Hs2 Ho2 Hw2], R4 as [Hd4 Hs4 Ho4 Hw4]. cbn [mem dev out] in *.
  split; cbn [mem dev out]; [done|done| |].
  - rewrite Ho4, Ho2, app_nil_r, app_nil_r, <-!app_assoc. reflexivity.
  - intros b n Hb. by apply Hw4, own_ustore, Hw2, own_ustore.
Qed.
Lemma test_string_run string w :
  device_ok (dev w) → own (mem w) string 256 →
  ∃ w', test_string_operations kb string w = Some (0, w') ∧
    ran w w' [chars (nl +:+ "=== Testing String Operations ===" +:+ nl);
              chars ("Setting string to 'Hello from user space!'..." +:+ nl);
              chars ("Getting string..." +:+ nl); chars ("Retrieved string: 'Hello from user space!'" +:+ nl)]
      (DeviceSpec (s_value (spec_of (dev w))) (chars "Hello from user space!")).
Proof.
  intros Hd Ho. set (t := chars "Hello from user space!").
  assert ((0 ∉ t) ∧ blen t < 255) as [Hnul Hl] by (split; [by apply (bool_decide_eq_true_1 _)|by vm_compute]).
  destruct (uload_text (mem w) string t 256 256 Ho Hnul) as [Ht Hk]; [lia|].
  destruct (uload_text (mem w) string t 256 255 Ho Hnul) as [Ht' _]; [lia|].
  unfold test_string_operations. change (lit "Hello from user space!") with (t ++ [0]). capp.
  match goal with |- context [cbind (get_str _ _) _ ?w1] => set (w1' := w1) end.
  rewrite (cbind_Some _ _ _ _ _ (get_str_run string 256 w1' t Ht Hk)). capp.
  match goal with |- context [cbind (ioctl _ _ _) _ ?w1] => set (w2' := w1) end.
  destruct (ioctl_set_string string w2') as (w3 & E3 & Em & R3);
    [done|by apply own_ustore|by apply strlen_nul|]. crun E3. capp.
  match goal with |- context [cbind (ioctl _ _ _) _ ?w1] => set (w4' := w1) end.
  destruct (ioctl_get_string string w4') as (w5 & E5 & R5 & Hg & _);
    [apply R3|apply own_ustore, R3, own_ustore, Ho|]. crun E5.
  unfold w2', w1' in R3. cbn [mem dev out] in R3. rewrite Ht' in R3.
  unfold w4' in Hg, R5. cbn [dev] in Hg, R5. rewrite (ran_spec _ _ _ _ R3) in *.
  rewrite (cbind_Some _ _ _ _ _ Hg). capp. eexists. split; [done|].
  destruct R3 as [Hd3 Hs3 Ho3 Hw3], R5 as [Hd5 Hs5 Ho5 Hw5]. unfold w1' in *. cbn [mem dev out] in *.
  split; cbn [mem dev out]; [done|done| |].
  - rewrite Ho5, Ho3, app_nil_r, app_nil_r, <-!app_assoc. reflexivity.
  - intros b n Hb. by apply Hw5, own_ustore, Hw3, own_ustore.
Qed.

Lemma test_reset_run value string junk w :
  device_ok (dev w) → own (mem w) value 4 → own (mem w) string 256 → apart value 4 string 256 →
  ∃ w', test_reset_operation kb value string junk w = Some (0, w') ∧
    ran w w' [chars (nl +:+ "=== Testing Reset Operation ===" +:+ nl); chars ("Resetting device..." +:+ nl);
              chars ("After reset - Value: 0, String: 'default_string'" +:+ nl)] default_spec.
Proof.
  intros Hd Hv Hs Hap. unfold test_reset_operation. capp.
  match goal with |- context [cbind (ioctl _ _ _) _ ?w1] => set (w1' := w1) end.
  destruct (ioctl_reset junk w1') as (w2 & E2 & Em2 & R2); [done|]. crun E2.
  destruct (ioctl_get_value value w2) as (w3 & E3 & R3 & Hv3 & _); [apply R2|by apply R2|]. crun E3.
  destruct (ioctl_get_string string w3) as (w4 & E4 & R4 & Hg & Hk4); [apply R3|by apply R3, R2|]. crun E4. capp.
  rewrite Hk4 by (unfold apart in *; lia).
  rewrite Hv3, (cbind_Some _ _ _ _ _ Hg). capp.
  rewrite (ran_spec _ _ _ _ R3), (ran_spec _ _ _ _ R2) in *.
  destruct R2 as [Hd2 Hs2 Ho2 Hw2], R3 as [Hd3 Hs3 Ho3 Hw3], R4 as [Hd4 Hs4 Ho4 Hw4].
  eexists. split; [done|]. unfold w1' in *. cbn [mem dev out] in *. split; cbn [mem dev out]; [done|done| |auto].
  rewrite Ho4, Ho3, Ho2, !app_nil_r, <-!app_assoc. reflexivity.
Qed.
(** ** The commands of main *)

(** The addresses of main's variables and of those of the functions it calls. *)
Context (value string value' string' junk : Z).
Definition stack_ok u : Prop :=
  own u value 4 ∧ own u string 256 ∧ own u value' 4 ∧ own u string' 256 ∧ apart value' 4 string' 256.
#[local] Abbreviation run := (run kb).

#[local] Ltac word :=
  unfold IoctlApp.run; cbv beta zeta;
  repeat match goal with |- context [@lookup nat bytes (list bytes) _ 1%nat (?p :: ?c :: ?l)] =>
    change (@lookup nat bytes (list bytes) _ 1%nat (p :: c :: l)) with (Some c) end;
  repeat first [rewrite bool_decide_eq_true_2 by done | rewrite bool_decide_eq_false_2 by (by vm_compute)];
  cbv iota.

Lemma run_set_value p arg v w :
  device_ok (dev w) → stack_ok (mem w) → atoi arg = Some v →
  ∃ w', run [p; chars "set_value"; arg] value string value' string' junk w = Some (0, w') ∧
    ran w w' [chars "Value set to " ++ dec v ++ [10]] (DeviceSpec v (s_text (spec_of (dev w)))).
Proof.
  intros Hd (Hv & _) Ha. word. unfold cbind at 1. rewrite Ha. cbn [mbind option_bind]. capp.
  assert (is_s32 v) as Hr by (unfold atoi in Ha; case_bool_decide; by simplify_eq).
  match goal with |- context [cbind (ioctl _ _ _) _ ?w1] => set (w1' := w1) end.
  destruct (ioctl_set_value value w1') as (w2 & E2 & Em & R2); [done|by apply own_ustore|]. crun E2. capp.
  rewrite Em. unfold w1' in *. cbn [mem dev out] in *. rewrite uload_int in * by done.
  destruct R2 as [Hd2 Hs2 Ho2 Hw2]. eexists. split; [done|].
  split; cbn [mem dev out] in *; [done|done|by rewrite Ho2, app_nil_r|]. intros b n. apply own_ustore.
Qed.

Lemma run_get_value p l w :
  device_ok (dev w) → stack_ok (mem w) →
  ∃ w', run (p :: chars "get_value" :: l) value string value' string' junk w = Some (0, w') ∧
    ran w w' [chars "Current value: " ++ dec (s_value (spec_of (dev w))) ++ [10]] (spec_of (dev w)).
Proof.
  intros Hd (Hv & _). word.
  destruct (ioctl_get_value value w) as (w1 & E1 & R1 & Hv1 & _); [done|done|]. crun E1. capp. rewrite Hv1.
  destruct R1 as [Hd2 Hs2 Ho2 Hw2]. eexists. split; [done|].
  split; cbn [mem dev out] in *; [done|done|by rewrite Ho2, app_nil_r|done].
Qed.

(** What strncpy and the NUL after it leave in the array. *)
Lemma uload_strncpy u a bs s :
  own u a 256 → 0 ∉ s → bs = resize 255 0 s →
  let u' := ustore (ustore u a bs) (a + 255) [0] in
  c_str (uload u' a 256) = take 255 s ∧ is_Some (strlen (uload u' a 256)) ∧ c_str (uload u' a 255) = take 255 s.
Proof.
  intros Ho Hnul -> u'. set (bs := resize 255 0 s).
  assert (blen bs = 255) as Hb by by unfold blen, bs; rewrite length_resize.
  assert (own u' a 256) as Ho' by by apply own_ustore, own_ustore.
  assert (uload u' a 255 = bs) as H1'.
  { unfold u'. rewrite uload_other by (unfold apart; lia). rewrite <-Hb at 1. apply uload_ustore.
    rewrite Hb. apply (own_part _ a 256); [done|lia..]. }
  assert (uload u' (a + 255) 1 = [0]) as H2'.
  { apply (uload_ustore _ (a + 255) [0]). apply own_ustore. apply (own_part _ a 256); [done|change (blen [0]) with 1; lia..]. }
  assert (uload u' a 256 = bs ++ [0]) as Hu.
  { change 256 with (255 + 1). rewrite uload_app by done. by rewrite H1', H2'. }
  rewrite Hu, H1'. split; [by apply c_str_strncpy|]. split; [apply strlen_is_Some; set_solver|].
  rewrite <-(c_str_app_nul_c_str bs []). by apply c_str_strncpy.
Qed.

Lemma run_set_string p s w :
  device_ok (dev w) → stack_ok (mem w) → 0 ∉ s →
  ∃ w', run [p; chars "set_string"; s] value string value' string' junk w = Some (0, w') ∧
    ran w w' [chars "String set to '" ++ take 255 s ++ chars "'" ++ [10]]
      (DeviceSpec (s_value (spec_of (dev w))) (take 255 s)).
Proof.
  intros Hd (_ & Ho & _) Hnul. word.
  assert (strncpy_bytes (s ++ [0]) 255 = Some (resize 255 0 s)) as Hn.
  { unfold strncpy_bytes. rewrite bool_decide_eq_true_2 by (left; set_solver). by rewrite c_str_app_nul. }
  unfold cbind at 1. rewrite Hn. cbn [mbind option_bind]. capp.
  destruct (uload_strncpy (mem w) string (resize 255 0 s) s Ho Hnul eq_refl) as (H1' & H2' & H3').
  match goal with |- context [cbind (ioctl _ _ _) _ ?w1] => set (w1' := w1) end.
  destruct (ioctl_set_string string w1') as (w2 & E2 & Em & R2);
    [done|by apply own_ustore, own_ustore|by apply strlen_nul|]. crun E2.
  rewrite (cbind_Some _ _ w2 (take 255 s) w2); cycle 1.
  { apply get_str_run; by rewrite Em. }
  capp. unfold w1' in R2. cbn [mem dev out] in R2. rewrite H3' in R2.
  destruct R2 as [Hd2 Hs2 Ho2 Hw2]. eexists. split; [done|].
  split; cbn [mem dev out] in *; [done|done|by rewrite Ho2, app_nil_r|]. intros b n Hb. by apply Hw2, own_ustore, own_ustore.
Qed.

Lemma run_get_string p l w :
  device_ok (dev w) → stack_ok (mem w) →
  ∃ w', run (p :: chars "get_string" :: l) value string value' string' junk w = Some (0, w') ∧
    ran w w' [chars "Current string: '" ++ s_text (spec_of (dev w)) ++ chars "'" ++ [10]] (spec_of (dev w)).
Proof.
  intros Hd (_ & Ho & _). word.
  destruct (ioctl_get_string string w) as (w1 & E1 & R1 & Hg & _); [done|done|]. crun E1.
  rewrite (cbind_Some _ _ _ _ _ Hg). capp.
  destruct R1 as [Hd2 Hs2 Ho2 Hw2]. eexists. split; [done|].
  split; cbn [mem dev out] in *; [done|done|by rewrite Ho2, app_nil_r|done].
Qed.

Lemma run_reset p l w :
  device_ok (dev w) →
  ∃ w', run (p :: chars "reset" :: l) value string value' string' junk w = Some (0, w') ∧
    ran w w' [chars ("Device reset successfully" +:+ nl)] default_spec.
Proof.
  intros Hd. word. destruct (ioctl_reset junk w) as (w1 & E1 & Em & R1); [done|]. crun E1. capp.
  destruct R1 as [Hd2 Hs2 Ho2 Hw2]. eexists. split; [done|].
  split; cbn [mem dev out] in *; [done|done|by rewrite Ho2, app_nil_r|done].
Qed.
Definition test_all_lines : list bytes :=
  [chars ("Running comprehensive IOCTL tests..." +:+ nl);
   chars (nl +:+ "=== Testing Value Operations ===" +:+ nl); chars ("Setting value to 12345..." +:+ nl);
   chars ("Getting value..." +:+ nl); chars ("Retrieved value: 12345" +:+ nl);
   chars (nl +:+ "=== Testing String Operations ===" +:+ nl);
   chars ("Setting string to 'Hello from user space!'..." +:+ nl);
   chars ("Getting string..." +:+ nl); chars ("Retrieved string: 'Hello from user space!'" +:+ nl);
   chars (nl +:+ "=== Testing Reset Operation ===" +:+ nl); chars ("Resetting device..." +:+ nl);
   chars ("After reset - Value: 0, String: 'default_string'" +:+ nl);
   chars (nl +:+ "=== All tests completed successfully! ===" +:+ nl)].

Lemma run_test_all p l w :
  device_ok (dev w) → stack_ok (mem w) →
  ∃ w', run (p :: chars "test_all" :: l) value string value' string' junk w = Some (0, w') ∧
    ran w w' test_all_lines default_spec.
Proof.
  intros Hd (_ & _ & Hv & Hs & Hap). word. capp.
  match goal with |- context [cbind (test_value_operations _ _) _ ?w1] => set (w1' := w1) end.
  destruct (test_value_run value' w1') as (w2 & E2 & R2); [done|done|]. crun E2.
  destruct (test_string_run string' w2) as (w3 & E3 & R3); [apply R2|by apply R2|]. crun E3.
  destruct (test_reset_run value' string' junk w3) as (w4 & E4 & R4);
    [apply R3|by apply R3, R2|by apply R3, R2|done|]. crun E4. capp.
  pose proof (ran_trans _ _ _ _ _ _ _ (ran_trans _ _ _ _ _ _ _ R2 R3) R4) as [Hd4 Hs4 Ho4 Hw4].
  eexists. split; [done|]. unfold w1' in *. cbn [mem dev out] in *.
  split; cbn [mem dev out]; [done|done| |done]. rewrite Ho4, <-!app_assoc. reflexivity.
Qed.

(** Opening the device. *)
#[local] Abbreviation main := (main kb).

Lemma main_run p c l fd w ls s :
  0 <= fd →
  (∀ w1, mem w1 = mem w → dev w1 = dev w →
    ∃ w2, run (p :: c :: l) value string value' string' junk w1 = Some (0, w2) ∧ ran w1 w2 ls s) →
  ∃ w2, main (p :: c :: l) fd value string value' string' junk w = Some (0, w2) ∧
    ran w w2 (chars ("Successfully opened /dev/ioctl_demo" +:+ nl) :: ls) s.
Proof.
  intros Hf Hr. unfold IoctlApp.main. rewrite bool_decide_eq_false_2 by (simpl; lia).
  rewrite (proj2 (Z.ltb_ge _ _)) by done. capp.
  destruct (Hr (World (mem w) (dev w) (out w ++ [chars ("Successfully opened /dev/ioctl_demo" +:+ nl)])))
    as (w2 & E & [Hd2 Hs2 Ho2 Hw2]); [done..|].
  exists w2. split; [exact E|]. cbn [out] in Ho2. split; [done|done| |done]. by rewrite Ho2, <-app_assoc.
Qed.

(** Test_all passes on the device.  Whatever state the device is in, and
    whatever the program's variables hold, the client's test_all, run against the
    driver, ends with status 0; it prints that it retrieved the value 12345 and the
    string it set and, after the reset, the defaults; and it leaves the device with
    its defaults. *)
Theorem test_all_passes p l fd w :
  device_ok (dev w) → stack_ok (mem w) → 0 <= fd →
  ∃ w', main (p :: chars "test_all" :: l) fd value string value' string' junk w = Some (0, w') ∧
    device_ok (dev w') ∧ spec_of (dev w') = default_spec ∧
    out w' = out w ++ chars ("Successfully opened /dev/ioctl_demo" +:+ nl) :: test_all_lines.
Proof.
  intros Hd Hs Hf. destruct (main_run p (chars "test_all") l fd w test_all_lines default_spec Hf)
    as (w2 & E & [? ? ? ?]).
  - intros w1 Em Ed. apply run_test_all; [by rewrite Ed|by rewrite Em].
  - eauto 10.
Qed.

(** C15: Two runs of the client communicate through the device.  After a run with
    set_string and any text, a run of get_string, by another process with its own
    memory, prints the first 255 characters of the text; after set_value and the
    text of an int, get_value prints the int.  All four runs end with status 0. *)
Theorem set_then_get_runs p q s arg v l fd fd' w u' :
  device_ok (dev w) → stack_ok (mem w) → stack_ok u' → 0 <= fd → 0 <= fd' → 0 ∉ s → atoi arg = Some v →
  (∃ w1 w2, main [p; chars "set_string"; s] fd value string value' string' junk w = Some (0, w1) ∧
     main (q :: chars "get_string" :: l) fd' value string value' string' junk (World u' (dev w1) []) = Some (0, w2) ∧
     out w2 = [chars ("Successfully opened /dev/ioctl_demo" +:+ nl);
               chars "Current string: '" ++ take 255 s ++ chars "'" ++ [10]]) ∧
  (∃ w1 w2, main [p; chars "set_value"; arg] fd value string value' string' junk w = Some (0, w1) ∧
     main (q :: chars "get_value" :: l) fd' value string value' string' junk (World u' (dev w1) []) = Some (0, w2) ∧
     out w2 = [chars ("Successfully opened /dev/ioctl_demo" +:+ nl);
               chars "Current value: " ++ dec v ++ [10]]).
Proof.
  intros Hd Hs Hs' Hf Hf' Hnul Ha. split.
  - destruct (main_run p (chars "set_string") [s] fd w [chars "String set to '" ++ take 255 s ++ chars "'" ++ [10]]
      (DeviceSpec (s_value (spec_of (dev w))) (take 255 s))) as (w1 & E1 & [Hd1 Hs1 _ _]); [done| |].
    { intros w1 Em Ed. rewrite <-Ed. apply run_set_string; [by rewrite Ed|by rewrite Em|done]. }
    destruct (main_run q (chars "get_string") l fd' (World u' (dev w1) [])
      [chars "Current string: '" ++ take 255 s ++ chars "'" ++ [10]] (spec_of (dev w1))) as (w2 & E2 & [_ _ Ho2 _]); [done| |].
    { intros w2 Em Ed. cbn [mem dev] in *. replace (take 255 s) with (s_text (spec_of (dev w2))) by (by rewrite Ed, Hs1).
      rewrite <-Ed. apply run_get_string; [by rewrite Ed|by rewrite Em]. }
    exists w1, w2. split; [done|]. split; [done|]. by rewrite Ho2.
  - destruct (main_run p (chars "set_value") [arg] fd w [chars "Value set to " ++ dec v ++ [10]]
      (DeviceSpec v (s_text (spec_of (dev w))))) as (w1 & E1 & [Hd1 Hs1 _ _]); [done| |].
    { intros w1 Em Ed. rewrite <-Ed. apply run_set_value; [by rewrite Ed|by rewrite Em|done]. }
    destruct (main_run q (chars "get_value") l fd' (World u' (dev w1) [])
      [chars "Current value: " ++ dec v ++ [10]] (spec_of (dev w1))) as (w2 & E2 & [_ _ Ho2 _]); [done| |].
    { intros w2 Em Ed. cbn [mem dev] in *. replace (dec v) with (dec (s_value (spec_of (dev w2)))) by (by rewrite Ed, Hs1).
      rewrite <-Ed. apply run_get_value; [by rewrite Ed|by rewrite Em]. }
    exists w1, w2. split; [done|]. split; [done|]. by rewrite Ho2.
Qed.

(** Whatever its arguments, unless a number is too large for atoi, the program
    ends with status 0 or 1, and leaves a well-formed device. *)
Lemma main_exits argv fd w :
  device_ok (dev w) → stack_ok (mem w) → Forall (λ a, 0 ∉ a) argv →
  (∀ p arg, argv = [p; chars "set_value"; arg] → is_Some (atoi arg)) →
  ∃ r w', main argv fd value string value' string' junk w = Some (r, w') ∧ (r = 0 ∨ r = 1) ∧ device_ok (dev w').
Proof.
  intros Hd Hs Hargs Ha. destruct argv as [|p [|c l]].
  { unfold IoctlApp.main. simpl. eauto 10. }
  { unfold IoctlApp.main. simpl. eauto 10. }
  unfold IoctlApp.main. rewrite bool_decide_eq_false_2 by (simpl; lia).
  destruct (fd <? 0); [capp; eauto 10|]. capp.
  set (w1 := World _ _ _). assert (device_ok (dev w1) ∧ stack_ok (mem w1)) as [Hd1 Hs1] by done. clearbody w1.
  assert (∀ l' s' (m : option (Z * world U (ioctl_device M))), (∃ w', m = Some (0, w') ∧ ran w1 w' l' s') →
    ∃ r w', m = Some (r, w') ∧ (r = 0 ∨ r = 1) ∧ device_ok (dev w')) as Hz.
  { intros l' s' m (w' & -> & [? _ _ _]). eauto 10. }
  destruct (decide (c = chars "get_value")) as [->|?]; [eapply Hz, run_get_value; done|].
  destruct (decide (c = chars "get_string")) as [->|?]; [eapply Hz, run_get_string; done|].
  destruct (decide (c = chars "reset")) as [->|?]; [eapply Hz, run_reset; done|].
  destruct (decide (c = chars "test_all")) as [->|?]; [eapply Hz, run_test_all; done|].
  destruct (decide (c = chars "set_value")) as [->|?].
  { destruct l as [|arg [|? ?]]; [word; capp; unfold cret; eauto 10| |word; capp; unfold cret; eauto 10].
    destruct (Ha p arg eq_refl) as [v Hv]. eapply Hz, run_set_value; done. }
  destruct (decide (c = chars "set_string")) as [->|?].
  { destruct l as [|arg [|? ?]]; [word; capp; unfold cret; eauto 10| |word; capp; unfold cret; eauto 10].
    eapply Hz, run_set_string; [done|done|]. by do 2 apply Forall_inv_tail in Hargs; apply Forall_inv in Hargs. }
  unfold IoctlApp.run. cbv beta zeta.
  change ((p :: c :: l) !! 1%nat) with (Some c). rewrite !bool_decide_eq_false_2 by congruence.
  unfold print_usage. capp. unfold cret. eauto 10.
Qed.
End facts.

(** ** The reference process *)
#[export] Instance flat_user_string_access : UserStringAccess flat_user.
Proof.
  split; simpl own; simpl access_ok; [done|].
  intros u a n k Ho _ Hk. simpl. assert (flat_ok u a k = true) as ->.
  { unfold flat_ok in *. apply bool_decide_eq_true in Ho. apply bool_decide_eq_true. lia. }
  simpl. apply blen_nonneg.
Qed.

(** ** Witnesses: main's variables at 4096 and 4200, those of the tests at 4500
    and 4600, in memory that holds other bytes *)
Definition wprocess : flat_user := FlatUser 4096 (bfill 0xAA 1000).
Lemma wprocess_ok : stack_ok 4096 4200 4500 4600 wprocess.
Proof. repeat split; try reflexivity. unfold apart. lia. Qed.

Definition wdevice : ioctl_device ref_mutex := IoctlDevice (-7) (lit "old" ++ bfill 0xEE 252) (RefMutex false false).
Lemma wdevice_ok : device_ok wdevice.
Proof. split; [|reflexivity]. split; [reflexivity|by apply (bool_decide_eq_true_1 _)|unfold is_s32; simpl; lia]. Qed.

Lemma test_all_passes_witness :
  ∃ w', main wstack [chars "ioctl_app"; chars "test_all"] 3 4096 4200 4500 4600 0 (World wprocess wdevice []) = Some (0, w') ∧
    length (out w') = 14%nat.
Proof.
  destruct (test_all_passes wstack eq_refl 4096 4200 4500 4600 0 (chars "ioctl_app") [] 3 (World wprocess wdevice []))
    as (w' & E & _ & _ & Ho); [exact wdevice_ok|exact wprocess_ok|lia|].
  exists w'. split; [exact E|]. rewrite Ho. reflexivity.
Defined.

Lemma set_then_get_runs_witness :
  ∃ w1 w2, main wstack [chars "ioctl_app"; chars "set_value"; chars "-42"] 3 4096 4200 4500 4600 0
      (World wprocess wdevice []) = Some (0, w1) ∧
    main wstack [chars "ioctl_app"; chars "get_value"] 3 4096 4200 4500 4600 0
      (World wprocess (dev w1) []) = Some (0, w2) ∧
    out w2 = [chars ("Successfully opened /dev/ioctl_demo" +:+ nl); chars ("Current value: -42" +:+ nl)].
Proof.
  exact (proj2 (set_then_get_runs wstack eq_refl 4096 4200 4500 4600 0 (chars "ioctl_app") (chars "ioctl_app")
    (chars "text") (chars "-42") (-42) [] 3 3 (World wprocess wdevice []) wprocess wdevice_ok wprocess_ok wprocess_ok
    ltac:(done) ltac:(done) ltac:(by apply (bool_decide_eq_true_1 _)) eq_refl)).
Defined.
