(* ===== verification/SharedMemClient.v ===== *)
(** * The shared-memory client (examples/class_6/02_dma_buffer_demo/shared_mem_test.c)

    The user-space program that sends messages to the device of [SharedMem.v]: one
    given on the command line, or one per line of its standard input.  It stores
    into the mapped buffer itself, which is the device's buffer. *)
From S2P Require Import Prelude Bytes Kernel CharDev UserProgram SharedMem.

(** ** Standard library *)

(** The characters fgets takes: at most [n], up to and with the first newline. *)
Fixpoint take_line (n : nat) (input : bytes) : bytes * bytes :=
  match n, input with
  | S n, c :: rest =>
      if c =? 10 then ([c], rest)
      else let '(line, rest) := take_line n rest in (c :: line, rest)
  | _, _ => ([], input)
  end.

(** fgets(s, n, stdin): NULL at the end of the input, else the array with the line
    and a NUL, and the rest of the input. *)
Definition fgets (s : bytes) (n : nat) (input : bytes) : option (option bytes * bytes) :=
  let '(line, rest) := take_line (n - 1) input in
  match line with
  | [] => Some (None, rest)
  | _ => s ← bwrite s 0 (line ++ [0]); Some (Some s, rest)
  end.

(** The characters before the first newline, or all of them. *)
Fixpoint before_newline (s : bytes) : bytes :=
  match s with
  | c :: s => if c =? 10 then [] else c :: before_newline s
  | [] => []
  end.

(** strcspn(s, newline), undefined when [s] is not terminated. *)
Definition strcspn_newline (s : bytes) : option Z := _ ← strlen s; Some (blen (before_newline (c_str s))).

(** ** The program *)
Section client.
#[local] Open Scope app_scope.
Context {M : Type} `{Mutex M}.

(** The device with its shared buffer, and the rest of the standard input. *)
Record system := System { device : shared_mem_device M; stdin : bytes }.
#[local] Abbreviation code := (C unit system).

(** Stores to the mapped buffer. *)
Definition store (off : Z) (bs : bytes) : code unit := λ w,
  b ← bwrite (shared_buffer (device (dev w))) off bs;
  let d := device (dev w) in
  Some (tt, World (mem w) (System (SharedMemDevice b (mutex d) (msg_count d)) (stdin (dev w))) (out w)).

(** strncpy to the mapped buffer. *)
Definition store_string (off : Z) (s : bytes) (n : Z) : code unit := λ w,
  bs ← strncpy_bytes s n; store off bs w.

(** The string at an offset of the mapped buffer. *)
Definition load_string (off : Z) : code bytes := λ w,
  let s := drop (Z.to_nat off) (shared_buffer (device (dev w))) in
  _ ← strlen s; Some (c_str s, w).

(** ioctl(2). *)
Definition ioctl (cmd : Z) : code Z := λ w,
  '(r, d) ← shared_mem_ioctl cmd (device (dev w));
  Some (if r <? 0 then -1 else r, World (mem w) (System d (stdin (dev w))) (out w)).

(** Clear the reply area, write the message, terminated, and send it: lines 71-79
    and 95-103 of the program. *)
Definition send_message (message : bytes) : code Z :=
  store MSG_SIZE (bfill 0 MSG_SIZE) ;;c
  store_string 0 message (MSG_SIZE - 1) ;;c
  store (MSG_SIZE - 1) [0] ;;c
  ioctl SHARED_MEM_SEND_MSG.

(** The loop of the interactive mode. *)
Fixpoint interactive (fuel : nat) (message : bytes) : code unit :=
  match fuel with
  | O => λ _, None
  | S fuel =>
      print "Enter message: " ;;c
      r <-c (λ w, '(r, rest) ← fgets message 512 (stdin (dev w));
               Some (r, World (mem w) (System (device (dev w)) rest) (out w)));
      match r with
      | None => cret tt
      | Some message =>
          n <-c (λ w, n ← strcspn_newline message; Some (n, w));
          message <-c (λ w, s ← bwrite message n [0]; Some (s, w));
          if strcmp_eq message (lit "quit") then cret tt
          else
            ret <-c send_message message;
            if ret <? 0 then cret tt
            else
              s <-c load_string MSG_SIZE;
              printf (chars "Response: " ++ s ++ [10; 10]) ;;c
              interactive fuel message
      end
  end.

Definition single (message arg : bytes) : code Z :=
  message <-c (λ w, bs ← strncpy_bytes (arg ++ [0]) 511; s ← bwrite message 0 bs; s ← bwrite s 511 [0]; Some (s, w));
  printf (chars "Sending: " ++ [34] ++ c_str message ++ [34; 10]) ;;c
  ret <-c send_message message;
  if ret <? 0 then cret 1
  else
    s <-c load_string MSG_SIZE;
    printf (chars "Response: " ++ s ++ [10]) ;;c
    cret 0.

(** main; [fd] is what open answers for the device, [mapped] whether mmap succeeds,
    [message] the uninitialised array. *)
Definition main (fuel : nat) (argv : list bytes) (fd : Z) (mapped : bool) (message : bytes) : code Z :=
  match argv with
  | prog :: arg :: _ =>
      if fd <? 0 then cret 1
      else if negb mapped then cret 1
      else if bool_decide (arg = chars "-i") then
        print ("Interactive shared memory demo. Type 'quit' to exit." +:+ nl) ;;c
        interactive fuel message ;;c cret 0
      else single message arg
  | _ =>
      printf (chars "Usage: " ++ default [] (argv !! 0%nat) ++ chars " <message>" ++ [10]) ;;c
      printf (chars "   or: " ++ default [] (argv !! 0%nat) ++ chars " -i  (interactive mode)" ++ [10]) ;;c
      cret 1
  end.
End client.
Arguments system : clear implicits.

(** ** What it does *)

Lemma echo_text_length n msg : (length (echo_text (u64 (n + 1)) msg) <= 29 + length msg)%nat.
Proof.
  pose proof (u64_bound (n + 1)) as [? ?].
  pose proof (blen_dec 20 (u64 (n + 1)) ltac:(change (10 ^ Z.of_nat 20) with 100000000000000000000; lia) ltac:(lia)).
  unfold echo_text. rewrite !length_app. unfold blen in *.
  change (length (chars "Echo #")) with 6%nat. change (length (chars ": ")) with 2%nat. lia.
Qed.

Section facts.
#[local] Open Scope app_scope.
Context {M : Type} `{MutexLaws M}.
Implicit Types (w : world unit (system M)).
#[local] Opaque echo_text.

(** The reply to a message, when the device has counted [n] messages before. *)
Definition reply (n : Z) (msg : bytes) : bytes := take 4095 (echo_text (u64 (n + 1)) msg).

(** From [w] to [w'] the device, idle, has counted [k] more messages. *)
Definition advanced w w' (k : Z) : Prop :=
  idle (device (dev w')) ∧ msg_count (device (dev w')) = u64 (msg_count (device (dev w)) + k) ∧
  stdin (dev w') = stdin (dev w) ∧ out w' = out w.

Lemma stored_message b s :
  blen b = BUFFER_SIZE → 0 ∈ s → blen (c_str s) <= 4095 →
  ∃ b1 b2 b3, bwrite b MSG_SIZE (bfill 0 MSG_SIZE) = Some b1 ∧
    strncpy_bytes s (MSG_SIZE - 1) = Some (resize 4095 0 (c_str s)) ∧
    bwrite b1 0 (resize 4095 0 (c_str s)) = Some b2 ∧ bwrite b2 (MSG_SIZE - 1) [0] = Some b3 ∧
    blen b3 = BUFFER_SIZE ∧ c_str (take 4095 b3) = c_str s.
Proof.
  intros Hb H0' Hl. unfold BUFFER_SIZE, MSG_SIZE in *. pose proof (c_str_no_nul s) as Hnul. set (t := c_str s) in *.
  assert (blen (resize 4095 0 t) = 4095) as Hr by by unfold blen; rewrite length_resize.
  destruct (bwrite b (4 * 1024) (bfill 0 (4 * 1024))) as [b1|] eqn:E1; cycle 1.
  { apply eq_None_not_Some in E1. destruct E1. apply bwrite_is_Some. rewrite blen_bfill; lia. }
  pose proof (bwrite_length _ _ _ _ E1) as Hl1.
  destruct (bwrite b1 0 (resize 4095 0 t)) as [b2|] eqn:E2; cycle 1.
  { apply eq_None_not_Some in E2. destruct E2. apply bwrite_is_Some. lia. }
  pose proof (bwrite_length _ _ _ _ E2) as Hl2.
  destruct (bwrite b2 (4 * 1024 - 1) [0]) as [b3|] eqn:E3; cycle 1.
  { apply eq_None_not_Some in E3. destruct E3. apply bwrite_is_Some. change (blen [0]) with 1. lia. }
  pose proof (bwrite_length _ _ _ _ E3) as Hl3.
  exists b1, b2, b3. split_and!; [done| |done|done|lia|].
  { unfold strncpy_bytes. by rewrite bool_decide_eq_true_2 by by left. }
  apply bwrite_inv in E3 as (_ & _ & ->). rewrite take_app_exact by (rewrite length_take; unfold blen in *; lia).
  apply bwrite_inv in E2 as (_ & _ & ->). change (Z.to_nat 0) with 0%nat. rewrite take_0, app_nil_l.
  rewrite take_app_exact by by rewrite length_resize. destruct (Nat.eq_dec (length t) 4095%nat) as [E|].
  - rewrite <-E at 1. rewrite resize_all. by apply c_str_id.
  - rewrite resize_ge by (unfold blen in Hl; lia). destruct (4095 - length t)%nat as [|k] eqn:Ek; [unfold blen in Hl; lia|].
    by apply c_str_app_nul.
Qed.

Lemma store_run off bs b b' (m : M) n inp o :
  bwrite b off bs = Some b' →
  store off bs (World tt (System (SharedMemDevice b m n) inp) o) =
    Some (tt, World tt (System (SharedMemDevice b' m n) inp) o).
Proof. intros E. unfold store. cbn [dev device shared_buffer]. by rewrite E. Qed.

Lemma store_string_run off s k bs b b' (m : M) n inp o :
  strncpy_bytes s k = Some bs → bwrite b off bs = Some b' →
  store_string off s k (World tt (System (SharedMemDevice b m n) inp) o) =
    Some (tt, World tt (System (SharedMemDevice b' m n) inp) o).
Proof. intros Es E. unfold store_string. rewrite Es. by apply store_run. Qed.

Lemma ioctl_returns cmd r (d d' : shared_mem_device M) inp o :
  shared_mem_ioctl cmd d = Some (r, d') → 0 <= r →
  ioctl cmd (World tt (System d inp) o) = Some (r, World tt (System d' inp) o).
Proof.
  intros E Hr. unfold ioctl. cbn [dev device]. rewrite E. cbn [mbind option_bind].
  by rewrite (proj2 (Z.ltb_ge r 0)).
Qed.

(** One message: it is counted and its reply is in the reply area. *)
Lemma send_message_correct message w :
  idle (device (dev w)) → 0 ∈ message → blen (c_str message) <= 4095 →
  ∃ w', send_message message w = Some (0, w') ∧ advanced w w' 1 ∧
    load_string MSG_SIZE w' = Some (reply (msg_count (device (dev w))) (c_str message), w').
Proof.
  intros [Hb Hm] H0' Hl. destruct w as [[] [[b m n] inp] o]. cbn [dev device shared_buffer mutex msg_count stdin out mem] in *.
  destruct (stored_message b message Hb H0' Hl) as (b1 & b2 & b3 & E1 & Es & E2 & E3 & Hl3 & Hc).
  destruct (process_message_spec (SharedMemDevice b3 m n)) as (d' & Hp & Hi & Hn & _ & Hr & _); [by split|].
  cbn [shared_buffer mutex msg_count] in *. rewrite Hc in Hr. change (take 4095 (echo_text (u64 (n + 1)) (c_str message))) with (reply n (c_str message)) in Hr.
  exists (World tt (System d' inp) o). split; [|split].
  - unfold send_message. rewrite (cbind_Some _ _ _ _ _ (store_run _ _ _ _ m n inp o E1)).
    rewrite (cbind_Some _ _ _ _ _ (store_string_run _ _ _ _ _ _ m n inp o Es E2)).
    rewrite (cbind_Some _ _ _ _ _ (store_run _ _ _ _ m n inp o E3)).
    apply (ioctl_returns SHARED_MEM_SEND_MSG 0 (SharedMemDevice b3 m n) d' inp o); [|done].
    unfold shared_mem_ioctl. change (negb _) with false. by rewrite Z.eqb_refl, Hp.
  - done.
  - unfold load_string. cbn [dev device]. change (Z.to_nat MSG_SIZE) with 4096%nat.
    destruct (c_str_terminates (drop 4096 (shared_buffer d'))) as [k ->].
    { rewrite Hr. destruct Hi as [Hlen _]. unfold reply, blen, BUFFER_SIZE in *. rewrite length_take, length_drop. lia. }
    cbn [mbind option_bind]. by rewrite Hr.
Qed.

(** ** Reading lines *)

Lemma take_line_line n m rest : 10 ∉ m → (length m < n)%nat → take_line n (m ++ 10 :: rest) = (m ++ [10], rest).
Proof.
  revert n. induction m as [|c m IH]; intros [|n] Hm Hn; simpl in *; try lia; [done|].
  apply not_elem_of_cons in Hm as [Hc Hm]. destruct (Z.eqb_spec c 10); [congruence|]. by rewrite IH by (done || lia).
Qed.

Lemma take_line_full n m rest : 10 ∉ m → length m = n → take_line n (m ++ rest) = (m, rest).
Proof.
  intros Hm <-. induction m as [|c m IH]; simpl; [by destruct rest|].
  apply not_elem_of_cons in Hm as [Hc Hm]. destruct (Z.eqb_spec c 10); [congruence|]. by rewrite IH.
Qed.

(** Each call takes at least one character, unless there is none. *)
Lemma take_line_spec n input line rest :
  take_line n input = (line, rest) → input = line ++ rest ∧ (length line <= n)%nat.
Proof.
  revert input line rest. induction n as [|n IH]; intros [|c input] line rest; simpl; try (by intros [= <- <-]; auto with lia).
  { intros [= <- <-]. simpl. auto with lia. }
  destruct (c =? 10); [intros [= <- <-]; simpl; auto with lia|].
  destruct (take_line n input) as [l r] eqn:E. intros [= <- <-]. destruct (IH _ _ _ E) as [-> ?]. simpl. auto with lia.
Qed.

Lemma before_newline_prefix s : before_newline s `prefix_of` s.
Proof.
  induction s as [|c s IH]; simpl; [done|]. destruct (c =? 10); [apply prefix_nil|by apply prefix_cons].
Qed.

Lemma before_newline_line m : 10 ∉ m → before_newline (m ++ [10]) = m.
Proof.
  induction m as [|c m IH]; intros Hm; simpl; [done|]. apply not_elem_of_cons in Hm as [? ?].
  destruct (Z.eqb_spec c 10); [congruence|]. by rewrite IH.
Qed.

(** The message a line becomes. *)
Definition message_of (line : bytes) : bytes := before_newline (c_str line).

Lemma round_message message line :
  blen message = 512 → (length line <= 511)%nat →
  ∃ s n s', bwrite message 0 (line ++ [0]) = Some s ∧ strcspn_newline s = Some n ∧ bwrite s n [0] = Some s' ∧
    blen s' = 512 ∧ 0 ∈ s' ∧ c_str s' = message_of line.
Proof.
  intros Hl Hline. destruct (bwrite message 0 (line ++ [0])) as [s|] eqn:E; cycle 1.
  { apply eq_None_not_Some in E. destruct E. apply bwrite_is_Some. rewrite blen_app. change (blen [0]) with 1. unfold blen in *. lia. }
  pose proof (bwrite_length _ _ _ _ E) as Hls. apply bwrite_inv in E as (_ & _ & Hs).
  change (Z.to_nat 0) with 0%nat in Hs. rewrite take_0, app_nil_l, <-app_assoc in Hs. simpl in Hs.
  assert (c_str s = c_str line) as Hc by (rewrite Hs; apply c_str_app_nul_c_str).
  assert (0 ∈ s) as H0' by (rewrite Hs; set_solver). destruct (strlen_is_Some _ H0') as [k Hk].
  set (n := blen (message_of line)).
  destruct (before_newline_prefix (c_str line)) as [j Hj]. fold (message_of line) in Hj.
  destruct (c_str_prefix s) as [i Hi]. rewrite Hc, Hj, <-app_assoc in Hi.
  assert (blen (message_of line) <= 511) as Hn.
  { pose proof (c_str_le line). apply (f_equal length) in Hj. rewrite length_app in Hj. unfold blen in *. lia. }
  destruct (bwrite s n [0]) as [s'|] eqn:E'; cycle 1.
  { apply eq_None_not_Some in E'. destruct E'. apply bwrite_is_Some. change (blen [0]) with 1. unfold n. pose proof (blen_nonneg (message_of line)). lia. }
  exists s, n, s'. split_and!; [done| |done| | |].
  - unfold strcspn_newline. rewrite Hk. simpl. by rewrite Hc.
  - rewrite (bwrite_length _ _ _ _ E'). lia.
  - apply bwrite_inv in E' as (_ & _ & ->). set_solver.
  - apply bwrite_inv in E' as (_ & _ & ->). unfold n, blen. rewrite Nat2Z.id. rewrite Hi at 1.
    rewrite take_app_exact by done. apply c_str_app_nul. intros Hin. apply (c_str_no_nul line). rewrite Hj. set_solver.
Qed.

(** One round of the loop, by the line it reads. *)
Lemma interactive_round fuel message w line rest :
  blen message = 512 → idle (device (dev w)) → take_line 511 (stdin (dev w)) = (line, rest) →
  let n := msg_count (device (dev w)) in
  let w0 := World (mem w) (System (device (dev w)) rest) (out w ++ [chars "Enter message: "]) in
  if bool_decide (line = []) || bool_decide (message_of line = chars "quit")
  then interactive (S fuel) message w = Some (tt, w0)
  else ∃ message' w', interactive (S fuel) message w = interactive fuel message' w' ∧
    blen message' = 512 ∧ idle (device (dev w')) ∧ msg_count (device (dev w')) = u64 (n + 1) ∧
    stdin (dev w') = rest ∧
    out w' = out w ++ [chars "Enter message: "; chars "Response: " ++ reply n (message_of line) ++ [10; 10]].
Proof.
  intros Hl Hi Hline n w0. assert (length line <= 511)%nat as Hll by by apply take_line_spec in Hline as [_ ?].
  destruct (round_message message line Hl Hll) as (s & k & s' & E1 & E2 & E3 & Hl' & H0' & Hc).
  destruct (bool_decide_reflect (line = [])) as [->|Hne]; simpl orb; cbn iota.
  { simpl. capp. unfold cbind at 1. cbn [dev stdin device mem out]. unfold fgets. change (512 - 1)%nat with 511%nat.
    by rewrite Hline. }
  assert (∀ A (f : option bytes → C unit (system M) A) w1, stdin (dev w1) = stdin (dev w) →
    cbind (λ w, '(r, rest) ← fgets message 512 (stdin (dev w));
       Some (r, World (mem w) (System (device (dev w)) rest) (out w))) f w1 =
    f (Some s) (World (mem w1) (System (device (dev w1)) rest) (out w1))) as Hf.
  { intros A f w1 E. unfold cbind, fgets. change (512 - 1)%nat with 511%nat. rewrite E, Hline. destruct line; [done|]. by rewrite E1. }
  cbn [interactive]. capp. rewrite Hf by done. cbn [dev device mem out stdin]. fold w0.
  rewrite (cbind_Some _ _ w0 k w0) by by rewrite E2. rewrite (cbind_Some _ _ w0 s' w0) by by rewrite E3.
  unfold strcmp_eq. rewrite Hc.
  change (c_str (lit "quit")) with (chars "quit").
  destruct (bool_decide_reflect (message_of line = chars "quit")) as [|Hq]; cbn iota; [done|].
  destruct (send_message_correct s' w0) as (w1 & Es & (Hi1 & Hn1 & Hs1 & Ho1) & El); [done|done| |].
  { rewrite Hc. pose proof (c_str_le s'). rewrite Hc in *. lia. }
  rewrite (cbind_Some _ _ _ _ _ Es). cbn [Z.ltb Z.compare]. rewrite (cbind_Some _ _ _ _ _ El). capp.
  eexists _, _. split; [reflexivity|]. cbn [dev out]. split_and!; [done|done|exact Hn1|by rewrite Hs1|].
  rewrite Ho1, Hc. unfold w0. cbn [out]. by rewrite <-app_assoc.
Qed.

(** ** Conversations *)

(** What fgets makes of a typed line: as many pieces of 511 characters as there
    are, and the rest with the newline. *)
Fixpoint pieces_of (fuel : nat) (line : bytes) : list bytes :=
  match fuel with
  | O => [line]
  | S fuel => if decide (length line <= 510)%nat then [line] else take 511 line :: pieces_of fuel (drop 511 line)
  end.
Definition pieces (line : bytes) : list bytes := pieces_of (length line) line.

(** A line typed at the prompt: no piece of it is the word that quits. *)
Definition typed (line : bytes) : Prop := (0 ∉ line) ∧ (10 ∉ line) ∧ (chars "quit" ∉ pieces line).

(** A line that fits is one message. *)
Lemma pieces_short line : (length line <= 510)%nat → pieces line = [line].
Proof. intros Hl. unfold pieces. destruct (length line) eqn:E; [done|]. simpl. rewrite E. by rewrite decide_True by lia. Qed.

(** The piece that one call of fgets takes from the input. *)
Definition raw (p : bytes * bool) : bytes := p.1 ++ (if p.2 then [10] else []).
Definition piece_ok (p : bytes * bool) : Prop :=
  (0 ∉ p.1) ∧ (10 ∉ p.1) ∧ (if p.2 then length p.1 <= 510 else length p.1 = 511)%nat.

Lemma join_cons (x : bytes) xs : mjoin (x :: xs) = x ++ mjoin xs.
Proof. done. Qed.

Lemma pieces_raw line :
  0 ∉ line → 10 ∉ line →
  ∃ ps, ps.*1 = pieces line ∧ mjoin (raw <$> ps) = line ++ [10] ∧ Forall piece_ok ps.
Proof.
  unfold pieces. assert (length line <= length line)%nat as Hl by lia. revert Hl.
  generalize (length line) at 2 3. intros n. revert line.
  induction n as [|n IH]; intros line Hn Hz H10; simpl.
  - exists [(line, true)]. destruct line; [|simpl in Hn; lia]. repeat constructor; set_solver.
  - destruct (decide (length line <= 510)%nat) as [Hs|Hs].
    { exists [(line, true)]. split; [done|]. split; [by simpl; rewrite app_nil_r|]. by apply Forall_singleton. }
    rewrite <-(take_drop 511 line) in Hz, H10. apply not_elem_of_app in Hz as [? ?]. apply not_elem_of_app in H10 as [? ?].
    destruct (IH (drop 511 line)) as (ps & E1 & E2 & Hps); [rewrite length_drop; lia|done|done|].
    exists ((take 511 line, false) :: ps). rewrite !fmap_cons, E1. split; [done|].
    split; [|constructor; [|done]].
    + rewrite join_cons, E2. unfold raw. simpl.
      by rewrite app_nil_r, app_assoc, take_drop.
    + split_and!; [done|done|]. simpl. rewrite length_take. lia.
Qed.

Lemma take_line_raw p rest : piece_ok p → take_line 511 (raw p ++ rest) = (raw p, rest).
Proof.
  destruct p as [m nl]. unfold raw. intros (_ & H10 & Hl). cbn [fst snd] in *. destruct nl.
  - rewrite <-app_assoc. cbn [app]. apply take_line_line; [done|lia].
  - rewrite app_nil_r. by apply take_line_full.
Qed.

Definition transcript (n : Z) (msgs : list bytes) : list bytes :=
  mjoin (imap (λ k msg, [chars "Enter message: ";
    chars "Response: " ++ echo_text (u64 (n + 1 + Z.of_nat k)) msg ++ [10; 10]]) msgs).

Lemma transcript_cons n msg msgs :
  transcript n (msg :: msgs) =
    [chars "Enter message: "; chars "Response: " ++ echo_text (u64 (n + 1)) msg ++ [10; 10]] ++ transcript (u64 (n + 1)) msgs.
Proof.
  unfold transcript. rewrite imap_cons. cbn [mjoin list_join]. rewrite Z.add_0_r. f_equal.
  apply (f_equal mjoin). apply imap_ext. intros k m _. unfold compose.
  replace (u64 (u64 (n + 1) + 1 + Z.of_nat k)) with (u64 (n + 1 + Z.of_nat (S k))); [done|].
  rewrite <-(Z.add_assoc (u64 _)), u64_add_l. f_equal. lia.
Qed.

Lemma reply_short n msg : (length msg <= 511)%nat → reply n msg = echo_text (u64 (n + 1)) msg.
Proof. intros Hl. unfold reply. apply take_ge. pose proof (echo_text_length n msg). lia. Qed.

Lemma message_of_raw p : piece_ok p → message_of (raw p) = p.1.
Proof.
  destruct p as [m nl]. intros (H0m & H10 & _). unfold message_of, raw. simpl in *. destruct nl.
  - rewrite c_str_id by set_solver. by apply before_newline_line.
  - rewrite app_nil_r, c_str_id by done. clear H0m. induction m as [|c m IH]; [done|]. simpl.
    apply not_elem_of_cons in H10 as [Hc H10]. destruct (Z.eqb_spec c 10); [congruence|]. by rewrite IH.
Qed.

(** How the typed input ends: at once, or with the word that quits. *)
Definition ending (tail : bytes) : Prop := tail = [] ∨ ∃ rest, tail = chars "quit" ++ 10 :: rest.

Lemma interactive_transcript ps tail message fuel w :
  Forall piece_ok ps → chars "quit" ∉ ps.*1 → ending tail → (length ps < fuel)%nat →
  blen message = 512 → idle (device (dev w)) → is_u64 (msg_count (device (dev w))) →
  stdin (dev w) = mjoin (raw <$> ps) ++ tail →
  ∃ w', interactive fuel message w = Some (tt, w') ∧ idle (device (dev w')) ∧
    msg_count (device (dev w')) = u64 (msg_count (device (dev w)) + Z.of_nat (length ps)) ∧
    out w' = out w ++ transcript (msg_count (device (dev w))) ps.*1 ++ [chars "Enter message: "].
Proof.
  intros Hm Hq Ht Hf Hl Hi Hu Hin. revert fuel message w Hf Hl Hi Hu Hin.
  induction Hm as [|p ps Hp Hm IH]; intros [|fuel] message w Hf Hl Hi Hu Hin; try (simpl in Hf; lia).
  - assert (∃ line rest, take_line 511 (stdin (dev w)) = (line, rest) ∧
      bool_decide (line = []) || bool_decide (message_of line = chars "quit") = true) as (line & rest & E & Hb).
    { rewrite Hin. cbn [fmap list_fmap mjoin list_join app]. destruct Ht as [->|[rest ->]]; [by exists [], []|].
      exists (chars "quit" ++ [10]), rest. split; [|reflexivity].
      apply take_line_line; [by apply (bool_decide_eq_true_1 _)|simpl; lia]. }
    pose proof (interactive_round fuel message w line rest Hl Hi E) as Hr. cbv zeta in Hr. rewrite Hb in Hr.
    eexists. split; [exact Hr|]. cbn [dev device out]. split_and!; [done| |done].
    simpl. by rewrite Z.add_0_r, u64_small.
  - assert (take_line 511 (stdin (dev w)) = (raw p, mjoin (raw <$> ps) ++ tail)) as E.
    { rewrite Hin. cbn [fmap list_fmap mjoin list_join]. rewrite <-app_assoc. by apply take_line_raw. }
    pose proof (interactive_round fuel message w _ _ Hl Hi E) as Hr. cbv zeta in Hr. rewrite message_of_raw in Hr by done.
    assert (raw p ≠ []) as Hne.
    { destruct p as [m nl]. destruct Hp as (_ & _ & Hlen). unfold raw. simpl in *. destruct nl, m; done. }
    cbn [fmap list_fmap] in Hq. apply not_elem_of_cons in Hq as [Hq1 Hq2].
    rewrite !bool_decide_eq_false_2 in Hr by congruence. cbn [orb] in Hr.
    destruct Hr as (message' & w1 & -> & Hl1 & Hi1 & Hn1 & Hs1 & Ho1).
    destruct (IH Hq2 fuel message' w1) as (w2 & E2 & Hi2 & Hn2 & Ho2);
      [simpl in Hf; lia|done|done|rewrite Hn1; apply u64_bound|done|].
    exists w2. split_and!; [done|done| |].
    + rewrite Hn2, Hn1, u64_add_l. f_equal. simpl. lia.
    + rewrite Ho2, Ho1, Hn1. cbn [fmap list_fmap]. rewrite transcript_cons, reply_short; [by rewrite <-!app_assoc|].
      destruct Hp as (_ & _ & Hlen). destruct p.2; lia.
Qed.

Lemma typed_raw lines :
  Forall typed lines →
  ∃ ps, ps.*1 = mjoin (pieces <$> lines) ∧ mjoin (raw <$> ps) = mjoin ((λ line, line ++ [10]) <$> lines) ∧
    Forall piece_ok ps ∧ chars "quit" ∉ ps.*1.
Proof.
  induction 1 as [|line lines (H0' & H10 & Hq) _ (ps & E1 & E2 & Hps & Hqs)].
  { exists []. repeat split; [constructor|]. apply not_elem_of_nil. }
  destruct (pieces_raw line H0' H10) as (qs & F1 & F2 & Hqs'). exists (qs ++ ps).
  rewrite !fmap_app, E1, F1, !fmap_cons, !join_cons.
  split; [done|]. split; [by rewrite join_app, F2, E2|]. split; [by apply Forall_app|].
  apply not_elem_of_app. split; [done|congruence].
Qed.

Lemma main_interactive prog l fd message fuel w r w' :
  0 <= fd →
  interactive fuel message (World (mem w) (dev w) (out w ++ [chars ("Interactive shared memory demo. Type 'quit' to exit." +:+ nl)]))
    = Some (r, w') →
  main fuel (prog :: chars "-i" :: l) fd true message w = Some (0, w').
Proof.
  intros Hfd E. unfold main. rewrite (proj2 (Z.ltb_ge _ _)) by done. cbn [negb].
  rewrite bool_decide_eq_true_2 by done. capp. by rewrite (cbind_Some _ _ _ _ _ E).
Qed.

(** C19: an interactive session.  Whatever the shared buffer holds at first, for any
    lines typed, of any length and without NULs, ended by the end of the input or the
    line "quit", the client, run against the driver, sends every line of at most 510
    characters as one message and a longer one as messages of 511 characters and the
    rest, prints for each message the driver's reply, "Echo #n: message" with
    consecutive numbers after the driver's count, exits with status 0, and leaves
    the driver idle.  No line is "quit", nor has a piece that is. *)
Theorem client_session prog l fd lines tail message fuel w :
  0 <= fd → Forall typed lines → ending tail →
  let msgs := mjoin (pieces <$> lines) in
  (length msgs < fuel)%nat →
  blen message = 512 → idle (device (dev w)) → is_u64 (msg_count (device (dev w))) →
  stdin (dev w) = mjoin ((λ line, line ++ [10]) <$> lines) ++ tail →
  (∀ line, line ∈ lines → (length line <= 510)%nat → pieces line = [line]) ∧
  ∃ w', main fuel (prog :: chars "-i" :: l) fd true message w = Some (0, w') ∧ idle (device (dev w')) ∧
    out w' = out w ++ chars ("Interactive shared memory demo. Type 'quit' to exit." +:+ nl) ::
      transcript (msg_count (device (dev w))) msgs ++ [chars "Enter message: "].
Proof.
  intros Hfd Hm Ht msgs Hf Hl Hi Hu Hin. split; [by intros; apply pieces_short|].
  destruct (typed_raw lines Hm) as (ps & E1 & E2 & Hps & Hq). fold msgs in E1. rewrite <-E2 in Hin.
  rewrite <-E1, length_fmap in Hf.
  destruct (interactive_transcript ps tail message fuel
    (World (mem w) (dev w) (out w ++ [chars ("Interactive shared memory demo. Type 'quit' to exit." +:+ nl)])))
    as (w' & E & Hi' & _ & Ho); [done..|].
  exists w'. split_and!; [by eapply main_interactive|done|]. rewrite Ho, E1. cbn [out dev]. by rewrite <-app_assoc.
Qed.

(** C21: the client is safe and ends on every input.  Whatever bytes its standard
    input holds, lines of any length and NULs included, the interactive mode stays
    inside its array and the mapped buffer, stops after at most as many rounds as
    the input has bytes and one more, with status 0, and leaves the driver idle. *)
Theorem client_terminates prog l fd message fuel w :
  0 <= fd → blen message = 512 → idle (device (dev w)) → (length (stdin (dev w)) < fuel)%nat →
  ∃ w', main fuel (prog :: chars "-i" :: l) fd true message w = Some (0, w') ∧ idle (device (dev w')).
Proof.
  intros Hfd Hl Hi Hf.
  assert (∀ w, blen message = 512 → idle (device (dev w)) → (length (stdin (dev w)) < fuel)%nat →
    ∃ w', interactive fuel message w = Some (tt, w') ∧ idle (device (dev w'))) as Hrun.
  { clear w Hl Hi Hf. revert message. induction fuel as [|fuel IH]; intros message w Hl Hi Hf; [lia|].
    destruct (take_line 511 (stdin (dev w))) as [line rest] eqn:E.
    pose proof (interactive_round fuel message w line rest Hl Hi E) as Hr. cbv zeta in Hr.
    destruct (bool_decide_reflect (line = [])) as [|Hne]; cbn [orb] in Hr; [eexists; split; [exact Hr|done]|].
    destruct (bool_decide _); [eexists; split; [exact Hr|done]|].
    destruct Hr as (message' & w1 & -> & Hl1 & Hi1 & _ & Hs1 & _). apply IH; [done|done|].
    apply take_line_spec in E as [E _]. rewrite E, length_app in Hf. rewrite Hs1. destruct line; [done|simpl in Hf; lia]. }
  destruct (Hrun (World (mem w) (dev w) (out w ++ [chars ("Interactive shared memory demo. Type 'quit' to exit." +:+ nl)])))
    as (w' & E & Hi'); [done..|].
  exists w'. split; [by eapply main_interactive|done].
Qed.

(** The message of the command line, cut at 511 characters, gets its reply. *)
Lemma client_single prog arg l fd message fuel w :
  0 <= fd → blen message = 512 → idle (device (dev w)) → 0 ∉ arg → arg ≠ chars "-i" →
  let n := msg_count (device (dev w)) in
  ∃ w', main fuel (prog :: arg :: l) fd true message w = Some (0, w') ∧ idle (device (dev w')) ∧
    out w' = out w ++ [chars "Sending: " ++ [34] ++ take 511 arg ++ [34; 10];
                       chars "Response: " ++ reply n (take 511 arg) ++ [10]].
Proof.
  intros Hfd Hl Hi H0a Harg n. unfold main. rewrite (proj2 (Z.ltb_ge _ _)) by done. cbn [negb].
  rewrite bool_decide_eq_false_2 by done. unfold single.
  assert (strncpy_bytes (arg ++ [0]) 511 = Some (resize 511 0 arg)) as Hn.
  { unfold strncpy_bytes. rewrite bool_decide_eq_true_2 by (left; set_solver). by rewrite c_str_app_nul. }
  assert (blen (resize 511 0 arg) = 511) as Hr by by unfold blen; rewrite length_resize.
  destruct (store_terminated message (resize 511 0 arg)) as (s1 & s2 & E1 & E2 & _); [lia|]. rewrite Hr in E2.
  assert (s2 = resize 511 0 arg ++ [0]) as Hs2.
  { pose proof (bwrite_length _ _ _ _ E1). apply bwrite_inv in E2 as (_ & _ & ->). apply bwrite_inv in E1 as (_ & _ & ->).
    change (Z.to_nat 0) with 0%nat. rewrite take_0, app_nil_l, take_app_exact by (unfold blen in Hr; lia).
    rewrite drop_ge; [done|]. change (length [0]) with 1%nat. rewrite length_app, length_drop. unfold blen in *. lia. }
  rewrite (cbind_Some _ _ w s2 w) by (rewrite Hn; cbn [mbind option_bind]; rewrite E1; cbn [mbind option_bind]; by rewrite E2).
  capp. assert (c_str s2 = take 511 arg) as Hc by (rewrite Hs2; by apply c_str_strncpy).
  set (w0 := World _ _ _). destruct (send_message_correct s2 w0) as (w1 & Es & (Hi1 & Hn1 & Hs1 & Ho1) & El).
  { done. }
  { rewrite Hs2. set_solver. }
  { rewrite Hc. unfold blen. rewrite length_take. lia. }
  rewrite (cbind_Some _ _ _ _ _ Es). cbn [Z.ltb Z.compare]. rewrite (cbind_Some _ _ _ _ _ El). capp.
  eexists. split; [reflexivity|]. cbn [dev out]. split; [done|]. rewrite Ho1. unfold w0. cbn [out dev]. rewrite Hc.
  by rewrite <-app_assoc.
Qed.
End facts.

(** ** Witnesses: a device that has counted 41 messages, its buffer and the
    program's array full of other bytes *)
Definition wsystem (inp : bytes) : system ref_mutex :=
  System (SharedMemDevice (bfill 0xEE 8192) (RefMutex false false) 41) inp.

Lemma wsystem_idle inp : idle (device (wsystem inp)).
Proof. split; [|done]. by apply blen_bfill. Qed.

Lemma client_session_witness :
  let inp := chars ("hello" +:+ nl +:+ nl) ++ bfill 65 512 ++ chars (nl +:+ "quit" +:+ nl +:+ "unread") in
  ∃ w', main 9 [chars "shared_mem_test"; chars "-i"] 3 true (bfill 0xAA 512) (World tt (wsystem inp) []) = Some (0, w') ∧
    out w' = [chars ("Interactive shared memory demo. Type 'quit' to exit." +:+ nl);
              chars "Enter message: "; chars ("Response: Echo #42: hello" +:+ nl +:+ nl);
              chars "Enter message: "; chars ("Response: Echo #43: " +:+ nl +:+ nl);
              chars "Enter message: "; chars "Response: Echo #44: " ++ bfill 65 511 ++ [10; 10];
              chars "Enter message: "; chars ("Response: Echo #45: A" +:+ nl +:+ nl);
              chars "Enter message: "].
Proof.
  intros inp.
  destruct (client_session (chars "shared_mem_test") [] 3 [chars "hello"; []; bfill 65 512]
    (chars ("quit" +:+ nl +:+ "unread")) (bfill 0xAA 512) 9 (World tt (wsystem inp) []))
    as (_ & w' & E & _ & Ho).
  - lia.
  - repeat apply Forall_cons_2; [..|apply Forall_nil_2]; repeat split; by apply (bool_decide_eq_true_1 _).
  - right. by exists (chars "unread").
  - apply Nat.ltb_lt. reflexivity.
  - by apply blen_bfill.
  - apply wsystem_idle.
  - split; simpl; lia.
  - reflexivity.
  - exists w'. split; [exact E|]. rewrite Ho. reflexivity.
Defined.

(** Input with a line longer than the array, a NUL and no final newline. *)
Lemma client_terminates_witness :
  ∃ w', main 704 [chars "shared_mem_test"; chars "-i"] 3 true (bfill 0xAA 512)
      (World tt (wsystem (bfill 65 700 ++ [0; 10; 66])) []) = Some (0, w') ∧ idle (device (dev w')).
Proof.
  apply (client_terminates (chars "shared_mem_test") [] 3 (bfill 0xAA 512) 704
    (World tt (wsystem (bfill 65 700 ++ [0; 10; 66])) [])).
  - lia.
  - by apply blen_bfill.
  - apply wsystem_idle.
  - apply Nat.ltb_lt. vm_compute. reflexivity.
Defined.
