(* ===== verification/Netlink.v ===== *)
(** * The netlink module (examples/class_3/05_netlink_interface/netlink_example.c)

    User programs send course_message structures over a netlink socket; the module
    answers each with another one.  Messages are the bytes of the structure: an int
    type, an int datum and a 64-byte text.  The calls that allocate, fill and send
    a socket buffer go to the kernel ([Kernel.K]). *)
From S2P Require Import Prelude Bytes Kernel.

Definition MSG_TYPE_HELLO : Z := 1.
Definition MSG_TYPE_COUNTER : Z := 2.
Definition MSG_TYPE_STATUS : Z := 3.

(** struct course_message: the offsets of its fields, and its size. *)
Definition off_data : Z := 4.
Definition off_text : Z := 8.
Definition TEXT_SIZE : Z := 64.
Definition msg_size : Z := 72.

(** struct nlmsghdr (include/uapi/linux/netlink.h): where nlmsg_pid is, and where
    the data starts. *)
Definition off_nlmsg_pid : Z := 12.
Definition NLMSG_HDRLEN : Z := 16.

Inductive call :=
| NlmsgNew (n : Z) | NlmsgPut (skb n : Z) | KfreeSkb (skb : Z)
| NetlinkUnicast (sock skb pid : Z) (msg : bytes)
| NetlinkKernelCreate | NetlinkKernelRelease (sock : Z).

(** nlmsg_new gives a buffer to the module; kfree_skb and netlink_unicast, whether
    or not it delivers, take it back. *)
Inductive resource := Skb (p : Z) | Sock (p : Z).
#[export] Instance resource_eq : EqDecision resource.
Proof. solve_decision. Defined.
Definition acq (c : call) (r : Z) : option resource :=
  match c with
  | NlmsgNew _ => if r =? NULL then None else Some (Skb r)
  | NetlinkKernelCreate => if r =? NULL then None else Some (Sock r)
  | _ => None
  end.
Definition rel (c : call) : option resource :=
  match c with
  | KfreeSkb p | NetlinkUnicast _ p _ _ => Some (Skb p)
  | NetlinkKernelRelease p => Some (Sock p)
  | _ => None
  end.

Record state := State { nl_sock : Z; message_counter : Z }.
Definition set_sock p s := State p (message_counter s).
Definition set_counter n s := State (nl_sock s) n.

(** Lines 44-48: the structure, over the buffer's bytes [raw]. *)
Definition fill_message (raw : bytes) (msg_type data : Z) (text : bytes) : option bytes :=
  b ← bwrite raw 0 (le32 msg_type);
  b ← bwrite b off_data (le32 data);
  t ← strncpy_bytes text (TEXT_SIZE - 1);
  b ← bwrite b off_text t;
  bwrite b (off_text + TEXT_SIZE - 1) [0].

Section handlers.
#[local] Open Scope kernel_scope.
(** What a new buffer holds. *)
Context (raw : bytes).

(** [None]: an access outside the buffer. *)
Definition send_message_to_user (pid msg_type data : Z) (text : bytes) : K call state (option unit) :=
  skb <-k kcall (NlmsgNew msg_size);
  if skb =? NULL then kret (Some tt) else
  nlh <-k kcall (NlmsgPut skb msg_size);
  if nlh =? NULL then kcall (KfreeSkb skb) ;;k kret (Some tt) else
  match fill_message raw msg_type data text with
  | None => kret None
  | Some msg => sock <-k kget nl_sock; kcall (NetlinkUnicast sock skb pid msg) ;;k kret (Some tt)
  end.

(** The fields netlink_recv_msg reads of the received buffer, the text for its log
    line; no length is checked. *)
Definition received (skb : bytes) : option (Z * Z * Z * bytes) :=
  pid ← bread skb off_nlmsg_pid 4;
  msg_type ← bread skb NLMSG_HDRLEN 4;
  data ← bread skb (NLMSG_HDRLEN + off_data) 4;
  let rest := drop (Z.to_nat (NLMSG_HDRLEN + off_text)) skb in
  _ ← strlen rest;
  Some (int_of_le32 pid, int_of_le32 msg_type, int_of_le32 data, c_str rest).

Definition netlink_recv_msg (skb : bytes) : K call state (option unit) :=
  match received skb with
  | None => kret None
  | Some (pid, msg_type, _, _) =>
      if msg_type =? MSG_TYPE_HELLO then
        kmod (λ s, set_counter (s32 (message_counter s + 1)) s) ;;k
        n <-k kget message_counter;
        send_message_to_user pid MSG_TYPE_HELLO n (lit "Hello from kernel!")
      else if msg_type =? MSG_TYPE_COUNTER then
        n <-k kget message_counter;
        send_message_to_user pid MSG_TYPE_COUNTER n (lit "Current counter value")
      else if msg_type =? MSG_TYPE_STATUS then
        send_message_to_user pid MSG_TYPE_STATUS 0 (lit "Kernel module is running")
      else send_message_to_user pid 0 (-1) (lit "Unknown command")
  end.

Definition netlink_example_init : K call state Z :=
  sock <-k kcall NetlinkKernelCreate;
  kmod (set_sock sock) ;;k
  if sock =? NULL then kret (- ENOMEM) else kret 0.

Definition netlink_example_exit : K call state unit :=
  sock <-k kget nl_sock;
  if negb (sock =? NULL) then kcall (NetlinkKernelRelease sock) ;;k kret tt else kret tt.
End handlers.

(** ** Messages *)

(** What the receiver of a structure reads in it. *)
Definition parse_message (b : bytes) : option (Z * Z * bytes) :=
  t ← bread b 0 4; d ← bread b off_data 4; s ← bread b off_text TEXT_SIZE; _ ← strlen s;
  Some (int_of_le32 t, int_of_le32 d, c_str s).

(** A filled structure reads back as what was put in, the text cut at 63
    characters, whatever the buffer held. *)
Lemma fill_message_parse raw t d s :
  blen raw = msg_size → is_s32 t → is_s32 d → 0 ∉ s →
  ∃ b, fill_message raw t d (s ++ [0]) = Some b ∧ blen b = msg_size ∧ parse_message b = Some (t, d, take 63 s).
Proof.
  unfold msg_size. intros Hr Ht Hd Hs. unfold fill_message, off_data, off_text, TEXT_SIZE.
  destruct (bwrite raw 0 (le32 t)) as [b1|] eqn:E1; cycle 1.
  { apply eq_None_not_Some in E1. destruct E1. apply bwrite_is_Some. rewrite blen_le32. lia. }
  pose proof (bwrite_length _ _ _ _ E1) as L1. simpl.
  destruct (bwrite b1 4 (le32 d)) as [b2|] eqn:E2; cycle 1.
  { apply eq_None_not_Some in E2. destruct E2. apply bwrite_is_Some. rewrite blen_le32. lia. }
  pose proof (bwrite_length _ _ _ _ E2) as L2. simpl.
  assert (strncpy_bytes (s ++ [0]) (64 - 1) = Some (resize 63 0 s)) as ->.
  { unfold strncpy_bytes. rewrite bool_decide_eq_true_2 by (left; set_solver). by rewrite c_str_app_nul. }
  simpl. set (k := resize 63 0 s). assert (blen k = 63) as Hk by by unfold blen, k; rewrite length_resize.
  destruct (bwrite b2 8 k) as [b3|] eqn:E3; cycle 1.
  { apply eq_None_not_Some in E3. destruct E3. apply bwrite_is_Some. lia. }
  pose proof (bwrite_length _ _ _ _ E3) as L3. simpl.
  destruct (bwrite b3 71 [0]) as [b4|] eqn:E4; cycle 1.
  { apply eq_None_not_Some in E4. destruct E4. apply bwrite_is_Some. change (blen [0]) with 1. lia. }
  pose proof (bwrite_length _ _ _ _ E4) as L4. exists b4. split; [done|]. split; [lia|].
  unfold parse_message, off_data, off_text, TEXT_SIZE.
  assert (bread b4 0 4 = Some (le32 t)) as ->.
  { rewrite (bwrite_bread_other _ _ _ _ 0 4 E4) by lia. rewrite (bwrite_bread_other _ _ _ _ 0 4 E3) by lia.
    rewrite (bwrite_bread_other _ _ _ _ 0 4 E2) by lia. apply (bwrite_bread_same _ _ _ _ E1). }
  assert (bread b4 4 4 = Some (le32 d)) as ->.
  { rewrite (bwrite_bread_other _ _ _ _ 4 4 E4) by lia. rewrite (bwrite_bread_other _ _ _ _ 4 4 E3) by lia.
    apply (bwrite_bread_same _ _ _ _ E2). }
  assert (bread b4 8 64 = Some (k ++ [0])) as ->.
  { apply bwrite_bread_same in E3. rewrite Hk in E3.
    pose proof (bwrite_bread_other _ _ _ _ 8 63 E4 ltac:(lia)) as E3'. rewrite E3 in E3'.
    apply bwrite_bread_same in E4. change (blen [0]) with 1 in E4.
    apply bread_inv in E3' as (_ & _ & _ & ->). apply bread_inv in E4 as (_ & _ & _ & ->).
    rewrite bread_Some by lia. f_equal. change (Z.to_nat 64) with (63 + 1)%nat.
    rewrite <-take_drop_app, drop_drop. done. }
  cbn [mbind option_bind].
  destruct (strlen_is_Some (k ++ [0])) as [n ->]; [set_solver|]. cbn [mbind option_bind].
  rewrite !int_of_le32_le32 by done. unfold k. by rewrite c_str_strncpy.
Qed.

(** A buffer that holds a header and a message a program filled in. *)
Lemma received_message hdr m pad t d s :
  blen hdr = NLMSG_HDRLEN → blen m = msg_size → parse_message m = Some (t, d, s) →
  received (hdr ++ m ++ pad) = Some (int_of_le32 (drop 12 hdr), t, d, s).
Proof.
  unfold NLMSG_HDRLEN, msg_size. intros Hh Hm Hp. unfold parse_message, off_data, off_text, TEXT_SIZE in Hp.
  rewrite !bread_Some in Hp by lia. cbn [mbind option_bind] in Hp.
  set (txt := take (Z.to_nat 64) (drop (Z.to_nat 8) m)) in *.
  destruct (strlen txt) as [k|] eqn:Ek; [|done]. cbn [mbind option_bind] in Hp. simplify_eq.
  assert (txt = drop 8 m) as Et by (unfold txt; change (Z.to_nat 8) with 8%nat; rewrite take_ge; [done|unfold blen in *; rewrite length_drop; lia]).
  assert (drop 24 (hdr ++ m ++ pad) = txt ++ pad) as Ed.
  { replace 24%nat with (16 + 8)%nat by done. rewrite <-drop_drop.
    rewrite (drop_app_exact hdr) by (unfold blen in Hh; lia). rewrite drop_app_le by (unfold blen in Hm; lia). by rewrite Et. }
  assert (∀ n, (n <= 16)%nat → drop n (hdr ++ m ++ pad) = drop n hdr ++ m ++ pad) as Hdr.
  { intros n Hn. apply drop_app_le. unfold blen in Hh. lia. }
  unfold received, off_nlmsg_pid, NLMSG_HDRLEN, off_data, off_text.
  rewrite !bread_Some by (rewrite ?blen_app; pose proof (blen_nonneg pad); lia). cbn [mbind option_bind].
  change (Z.to_nat (16 + 8)) with 24%nat. rewrite Ed.
  assert (0 ∈ txt) as Hn by (apply strlen_nul; eauto).
  destruct (strlen_is_Some (txt ++ pad)) as [k' ->]; [set_solver|]. cbn [mbind option_bind].
  change (Z.to_nat 12) with 12%nat. change (Z.to_nat 16) with 16%nat. change (Z.to_nat 4) with 4%nat.
  change (Z.to_nat (16 + 4)) with (16 + 4)%nat. change (Z.to_nat 0) with 0%nat in *.
  rewrite (Hdr 12%nat) by lia. rewrite take_app_exact by (unfold blen in Hh; rewrite length_drop; lia).
  rewrite <-!drop_drop, !(drop_app_exact hdr) by (unfold blen in Hh; lia).
  rewrite take_app_le by (unfold blen in Hm; lia). rewrite drop_app_le by (unfold blen in Hm; lia).
  rewrite take_app_le by (rewrite length_drop; unfold blen in Hm; lia). do 2 f_equal.
  clear -Hn. induction txt as [|c txt IH]; [by apply elem_of_nil in Hn|]. simpl.
  destruct (Z.eqb_spec c 0); [done|]. f_equal. apply IH. set_solver.
Qed.

(** ** What the handler does *)

(** The counter after a request, and the reply. *)
Definition reply_to (counter msg_type : Z) : Z * (Z * Z * bytes) :=
  if msg_type =? 1 then (s32 (counter + 1), (1, s32 (counter + 1), chars "Hello from kernel!"))
  else if msg_type =? 2 then (counter, (2, counter, chars "Current counter value"))
  else if msg_type =? 3 then (counter, (3, 0, chars "Kernel module is running"))
  else (counter, (0, -1, chars "Unknown command")).

(** The messages sent: socket, receiver, structure. *)
Definition sent (t : list (call * Z)) : list (Z * Z * bytes) :=
  omap (λ ev, match ev.1 with NetlinkUnicast sock _ pid msg => Some (sock, pid, msg) | _ => None end) t.

(** Whether the kernel provides a buffer. *)
Definition has_buffer (e : env call) : bool :=
  let skb := e [] (NlmsgNew msg_size) in
  negb (skb =? NULL) && negb (e [(NlmsgNew msg_size, skb)] (NlmsgPut skb msg_size) =? NULL).

Lemma send_message_spec raw pid t d s e st :
  blen raw = msg_size → is_s32 t → is_s32 d → 0 ∉ s → (length s <= 63)%nat →
  let '(r, w) := send_message_to_user raw pid t d (s ++ [0]) e (KWorld st []) in
  r = Some tt ∧ kst w = st ∧ held_run acq rel [] (ktr w) = Some [] ∧
  if has_buffer e then ∃ m, sent (ktr w) = [(nl_sock st, pid, m)] ∧ parse_message m = Some (t, d, s)
  else sent (ktr w) = [].
Proof.
  intros Hr Ht Hd Hs Hl. destruct (fill_message_parse raw t d s) as (m & Hm & _ & Hp); [done..|].
  rewrite take_ge in Hp by lia. unfold send_message_to_user, has_buffer, kbind, kcall, kret, kget. cbn [kst ktr app].
  set (skb := e [] (NlmsgNew msg_size)).
  destruct (skb =? NULL) eqn:E1; cbn [negb andb kst ktr app].
  { split_and!; [done|done| |done]. unfold acq, rel. cbn [held_run held_step fst snd]. by rewrite E1. }
  set (nlh := e [(NlmsgNew msg_size, skb)] (NlmsgPut skb msg_size)).
  destruct (nlh =? NULL) eqn:E2; cbn [negb kst ktr app].
  { split_and!; [done|done| |done]. unfold acq, rel. kheld. done. }
  rewrite Hm. cbn [kst ktr app]. split_and!; [done|done| |by exists m].
  unfold acq, rel. kheld. done.
Qed.

(** Every request is answered.  For a well-formed request from process pid,
    whatever the new buffer holds and the kernel answers: the handler stays inside
    its buffers; a HELLO counts, nothing else changes the counter; and if the
    kernel provides a buffer, exactly one message goes to pid, which reads back as
    the reply to its type with the counter's new value, otherwise none does; the
    buffer is given back in every case. *)
Theorem netlink_recv_msg_correct raw hdr m pad t d s (e : env call) st :
  blen raw = msg_size → blen hdr = NLMSG_HDRLEN → blen m = msg_size →
  parse_message m = Some (t, d, s) → is_s32 (message_counter st) →
  let pid := int_of_le32 (drop 12 hdr) in
  let '(r, w) := netlink_recv_msg raw (hdr ++ m ++ pad) e (KWorld st []) in
  let '(counter, reply) := reply_to (message_counter st) t in
  r = Some tt ∧ kst w = State (nl_sock st) counter ∧ held_run acq rel [] (ktr w) = Some [] ∧
  if has_buffer e then ∃ b, sent (ktr w) = [(nl_sock st, pid, b)] ∧ parse_message b = Some reply
  else sent (ktr w) = [].
Proof.
  intros Hr Hh Hm Hp Hc pid. unfold netlink_recv_msg. rewrite (received_message hdr m pad t d s Hh Hm Hp). fold pid.
  assert (∀ k v txt c, is_s32 k → is_s32 v → 0 ∉ txt → (length txt <= 63)%nat →
    let '(r, w) := send_message_to_user raw pid k v (txt ++ [0]) e (KWorld (State (nl_sock st) c) []) in
    r = Some tt ∧ kst w = State (nl_sock st) c ∧ held_run acq rel [] (ktr w) = Some [] ∧
    if has_buffer e then ∃ b, sent (ktr w) = [(nl_sock st, pid, b)] ∧ parse_message b = Some (k, v, txt)
    else sent (ktr w) = []) as Hsend.
  { intros k v txt c Hk Hv Ht Hl. apply (send_message_spec raw pid k v txt e (State (nl_sock st) c)); done. }
  unfold reply_to, MSG_TYPE_HELLO, MSG_TYPE_COUNTER, MSG_TYPE_STATUS. destruct st as [sock c]. cbn [nl_sock message_counter] in *.
  destruct (t =? 1); [|destruct (t =? 2); [|destruct (t =? 3)]].
  - apply (Hsend 1 (s32 (c + 1)) (chars "Hello from kernel!") (s32 (c + 1)));
      [done|apply s32_bound|by apply (bool_decide_eq_true_1 _)|by vm_compute; lia].
  - apply (Hsend 2 c (chars "Current counter value") c); [done|done|by apply (bool_decide_eq_true_1 _)|by vm_compute; lia].
  - apply (Hsend 3 0 (chars "Kernel module is running") c); [done|done|by apply (bool_decide_eq_true_1 _)|by vm_compute; lia].
  - apply (Hsend 0 (-1) (chars "Unknown command") c); [done|done|by apply (bool_decide_eq_true_1 _)|by vm_compute; lia].
Qed.

(** C38: The handler trusts the sender's length and text.  A request that is too
    short for its fixed fields, or whose text has no NUL up to the end of what was
    received, makes it read past the buffer. *)
Theorem netlink_recv_msg_unchecked raw skb (e : env call) w :
  blen skb < 24 ∨ 0 ∉ drop 24 skb → netlink_recv_msg raw skb e w = (None, w).
Proof.
  intros Hs. unfold netlink_recv_msg. assert (received skb = None) as ->; [|done].
  unfold received, off_nlmsg_pid, NLMSG_HDRLEN, off_data, off_text. change (Z.to_nat (16 + 8)) with 24%nat.
  destruct (bread skb 12 4); cbn [mbind option_bind]; [|done]. destruct (bread skb 16 4); cbn [mbind option_bind]; [|done].
  destruct (bread skb (16 + 4) 4); cbn [mbind option_bind]; [|done].
  assert (0 ∉ drop 24 skb) as Hn.
  { destruct Hs as [Hs|]; [|done]. rewrite drop_ge; [apply not_elem_of_nil|]. unfold blen in Hs. lia. }
  by rewrite (proj2 (strlen_None _) Hn).
Qed.

(** Loading and unloading create and release the socket. *)
Lemma netlink_example_init_exit (e : env call) st :
  let '(ret, w) := netlink_example_init e (KWorld st []) in
  let '(_, w') := netlink_example_exit e w in
  (ret = - ENOMEM ∧ held_run acq rel [] (ktr w) = Some []) ∨
  (ret = 0 ∧ held_run acq rel [] (ktr w) = Some [Sock (nl_sock (kst w))] ∧ held_run acq rel [] (ktr w') = Some []).
Proof.
  unfold netlink_example_init. repeat kstep; unfold netlink_example_exit; repeat kstep;
    cbn [nl_sock set_sock] in *; unfold acq, rel; zbool; try done.
  - left. split; [done|]. by kheld; subst.
  - right. match goal with H : ?r ≠ NULL |- _ => apply Z.eqb_neq in H end. split; [done|]. by kheld.
Qed.

(** ** Witnesses: a HELLO from process 77, with four bytes after it *)
Definition good_env : env call := λ _ c, match c with NlmsgNew _ => 4096 | NlmsgPut _ _ => 4096 | _ => 0 end.
Definition whdr : bytes := bfill 0 12 ++ le32 77.
Definition wmsg : bytes := le32 1 ++ le32 5 ++ lit "hi" ++ bfill 9 61.

Lemma netlink_recv_msg_correct_witness :
  ∃ w b, netlink_recv_msg (bfill 0xAA 72) (whdr ++ wmsg ++ [1; 2; 3; 4]) good_env (KWorld (State 8192 41) []) = (Some tt, w) ∧
    message_counter (kst w) = 42 ∧ sent (ktr w) = [(8192, 77, b)] ∧
    parse_message b = Some (1, 42, chars "Hello from kernel!").
Proof.
  pose proof (netlink_recv_msg_correct (bfill 0xAA 72) whdr wmsg [1; 2; 3; 4] 1 5 (chars "hi") good_env (State 8192 41)
    eq_refl eq_refl eq_refl eq_refl ltac:(by vm_compute)) as H.
  destruct (netlink_recv_msg (bfill 0xAA 72) (whdr ++ wmsg ++ [1; 2; 3; 4]) good_env (KWorld (State 8192 41) [])) as [r w].
  destruct H as (Hr & Hst & _ & b & Hs & Hp). exists w, b. split; [by rewrite Hr|]. split; [by rewrite Hst|].
  split; [exact Hs|exact Hp].
Defined.

Lemma netlink_recv_msg_unchecked_witness :
  netlink_recv_msg (bfill 0 72) (whdr ++ le32 1 ++ le32 5 ++ bfill 65 64) good_env (KWorld (State 8192 0) []) =
    (None, KWorld (State 8192 0) []).
Proof. apply netlink_recv_msg_unchecked. right. by apply (bool_decide_eq_true_1 _). Defined.
