(* ===== verification/NetlinkClient.v ===== *)
(** * The netlink client (examples/class_3/05_netlink_interface/netlink_test.c)

    The user-space program that sends three requests to the module of [Netlink.v]
    and prints the replies.  A message it sends is handled by the module at once,
    in the sender's context; what the module sends to the program's port is queued
    until the program receives it.  The program leaves the control fields of its
    struct msghdr uninitialised; whether the kernel takes them decides whether it
    gets an answer. *)
From S2P Require Import Prelude Bytes Kernel UserProgram Netlink.

(** sizeof(struct nlmsghdr) + sizeof(struct course_message), already aligned. *)
Definition NLMSG_SPACE : Z := NLMSG_HDRLEN + msg_size.
Definition NLMSG_DONE : Z := 3.

(** The header nlmsg_put(skb, 0, 0, NLMSG_DONE, size, 0) writes: length, type and
    flags, sequence number, port. *)
Definition reply_header : bytes := le32 NLMSG_SPACE ++ le32 NLMSG_DONE ++ le32 0 ++ le32 0.

Section client.
#[local] Open Scope app_scope.
(** What a new kernel buffer holds, and what the kernel answers to the module's
    calls during each request; and whether sendmsg(2) takes ancillary data of
    [msg_controllen] bytes at [msg_control], or fails. *)
Context (raw : bytes) (e : nat → env call) (accepts : Z → Z → bool).

(** struct msghdr: the port of the address msg_name points to and the length of the
    one iovec, [None] until they are set, and the control fields. *)
Record msghdr := MsgHdr { msg_name : option Z; msg_iov : option Z; msg_control : Z; msg_controllen : Z }.

(** The module, the requests made, the messages queued for the program, the
    program's message buffer, and its msg_hdr. *)
Record system := System {
  kernel : state; rounds : nat; queue : list bytes; nlh : bytes; msg_hdr : msghdr
}.
#[local] Abbreviation code := (C unit system).

(** Assigning to a part of the buffer. *)
Definition poke (off : Z) (bs : bytes) : code unit := λ w,
  b ← bwrite (nlh (dev w)) off bs;
  Some (tt, World (mem w) (System (kernel (dev w)) (rounds (dev w)) (queue (dev w)) b (msg_hdr (dev w))) (out w)).

(** The messages that reached the port [pid]. *)
Definition delivered (pid : Z) (t : list (call * Z)) : list bytes :=
  omap (λ ev, match ev with
              | (NetlinkUnicast _ _ p msg, r) => if (p =? pid) && (0 <=? r) then Some (reply_header ++ msg) else None
              | _ => None
              end) t.

(** sendmsg(2), by the process [pid].  When the kernel does not take the control
    data nothing is sent; the program does not look at the result. *)
Definition sendmsg (pid : Z) : code unit := λ w,
  let d := dev w in
  port ← msg_name (msg_hdr d); len ← msg_iov (msg_hdr d);
  if negb (accepts (msg_control (msg_hdr d)) (msg_controllen (msg_hdr d))) then Some (tt, w)
  else
    skb ← bread (nlh d) 0 len;
    if negb (port =? 0) then Some (tt, w)
    else
      let '(r, k) := netlink_recv_msg raw skb (e (rounds d)) (KWorld (kernel d) []) in
      _ ← r;
      Some (tt, World (mem w) (System (kst k) (S (rounds d)) (queue d ++ delivered pid (ktr k)) (nlh d) (msg_hdr d)) (out w)).

(** recvmsg(2); [None]: it waits for ever.  It stores the sender's address, which is
    the kernel's, where msg_name points, and sets msg_controllen to the length of
    the ancillary data it got, which is none. *)
Definition recvmsg : code unit := λ w,
  let d := dev w in
  _ ← msg_name (msg_hdr d); len ← msg_iov (msg_hdr d);
  match queue d with
  | [] => None
  | m :: q =>
      b ← bwrite (nlh d) 0 (take (Z.to_nat len) m);
      let h := MsgHdr (Some 0) (Some len) (msg_control (msg_hdr d)) 0 in
      Some (tt, World (mem w) (System (kernel d) (rounds d) q b h) (out w))
  end.

(** Lines 60-65: the destination is the kernel, the iovec the whole buffer. *)
Definition set_msg_hdr : code unit := λ w,
  let d := dev w in
  let h := MsgHdr (Some 0) (Some NLMSG_SPACE) (msg_control (msg_hdr d)) (msg_controllen (msg_hdr d)) in
  Some (tt, World (mem w) (System (kernel d) (rounds d) (queue d) (nlh d) h) (out w)).

(** The printf of lines 82, 98 and 114. *)
Definition print_received : code unit := λ w,
  let b := nlh (dev w) in
  t ← bread b NLMSG_HDRLEN 4; d ← bread b (NLMSG_HDRLEN + off_data) 4;
  let text := drop (Z.to_nat (NLMSG_HDRLEN + off_text)) b in
  _ ← strlen text;
  printf (chars "Received: type=" ++ dec (int_of_le32 t) ++ chars ", data=" ++ dec (int_of_le32 d) ++
          chars ", text='" ++ c_str text ++ chars ("'" +:+ nl)) w.

(** The header fields the program sets (lines 55-57), and a message. *)
Definition set_header (pid : Z) : code unit := poke 0 (le32 NLMSG_SPACE) ;;c poke off_nlmsg_pid (le32 pid).
Definition set_message (t d : Z) (s : string) : code unit :=
  poke NLMSG_HDRLEN (le32 t) ;;c poke (NLMSG_HDRLEN + off_data) (le32 d) ;;c
  poke (NLMSG_HDRLEN + off_text) (lit s).
Definition clear : code unit := poke 0 (bfill 0 NLMSG_SPACE).

(** main; [fd], [bound] and [p] are what socket, bind and malloc answer, and the
    program does not check the last; flags is the upper half of the word at offset
    4, already 0. *)
Definition main (fd bound p pid : Z) : code Z :=
  if fd <? 0 then cret (-1)
  else if bound <? 0 then cret (-1)
  else
    (if p =? NULL then (λ _, None) else clear) ;;c
    set_header pid ;;c poke 6 [0; 0] ;;c set_msg_hdr ;;c
    print ("Testing netlink communication..." +:+ nl) ;;c
    set_message MSG_TYPE_HELLO 123 "Hello from user space!" ;;c
    print ("Sending HELLO message..." +:+ nl) ;;c
    sendmsg pid ;;c clear ;;c recvmsg ;;c print_received ;;c
    set_header pid ;;c set_message MSG_TYPE_COUNTER 0 "Get counter" ;;c
    print ("Sending COUNTER request..." +:+ nl) ;;c
    sendmsg pid ;;c clear ;;c recvmsg ;;c print_received ;;c
    set_header pid ;;c set_message MSG_TYPE_STATUS 0 "Status request" ;;c
    print ("Sending STATUS request..." +:+ nl) ;;c
    sendmsg pid ;;c clear ;;c recvmsg ;;c print_received ;;c
    print ("Netlink test completed!" +:+ nl) ;;c
    cret 0.
End client.

(** ** What it does *)
Section facts.
#[local] Open Scope app_scope.
Context (raw : bytes) (e : nat → env call) (raw_size : blen raw = msg_size).
(** With no ancillary data there is nothing to refuse. *)
Context (accepts : Z → Z → bool) (accepts_none : ∀ c, accepts c 0 = true).
Implicit Types (w : world unit system) (b : bytes).

(** The kernel has memory for the replies and delivers them. *)
Definition delivers (e : env call) : Prop :=
  ∀ h c, match c with
         | NlmsgNew _ | NlmsgPut _ _ => e h c ≠ NULL
         | NetlinkUnicast _ _ _ _ => 0 <= e h c
         | _ => True
         end.

Lemma poke_run off bs b b' u k n q h o :
  bwrite b off bs = Some b' →
  poke off bs (World u (System k n q b h) o) = Some (tt, World u (System k n q b' h) o).
Proof. intros E. unfold poke. cbn [dev nlh]. by rewrite E. Qed.

Lemma bwrite_total b off bs : 0 <= off → off + blen bs <= blen b → ∃ b', bwrite b off bs = Some b' ∧ blen b' = blen b.
Proof.
  intros. destruct (bwrite b off bs) as [b'|] eqn:E; [exists b'; by eauto using bwrite_length|].
  apply eq_None_not_Some in E. destruct E. by apply bwrite_is_Some.
Qed.

Lemma clear_run w : blen (nlh (dev w)) = NLMSG_SPACE →
  clear w = Some (tt, World (mem w) (System (kernel (dev w)) (rounds (dev w)) (queue (dev w)) (bfill 0 NLMSG_SPACE) (msg_hdr (dev w))) (out w)).
Proof.
  intros Hb. destruct w as [u [k n q b h] o]. cbn [dev nlh mem kernel rounds queue msg_hdr out] in *. apply poke_run.
  rewrite bwrite_Some by (rewrite ?Hb; vm_compute; done). change (Z.to_nat 0) with 0%nat.
  rewrite take_0, app_nil_l, drop_ge; [by rewrite app_nil_r|]. unfold blen in Hb. unfold bfill. rewrite length_replicate. lia.
Qed.

(** Filling in a request: the module receives what was filled in. *)
Lemma set_message_run pid t d s w :
  blen (nlh (dev w)) = NLMSG_SPACE → bread (nlh (dev w)) off_nlmsg_pid 4 = Some (le32 pid) →
  is_s32 pid → is_s32 t → is_s32 d → 0 ∉ chars s → blen (chars s) < TEXT_SIZE →
  ∃ b, set_message t d s w = Some (tt, World (mem w) (System (kernel (dev w)) (rounds (dev w)) (queue (dev w)) b (msg_hdr (dev w))) (out w)) ∧
    blen b = NLMSG_SPACE ∧ received b = Some (pid, t, d, chars s).
Proof.
  intros Hb Hpid Hp Ht Hd Hs Hl. destruct w as [u [k n q b h] o]. cbn [dev nlh mem kernel rounds queue msg_hdr out] in *.
  unfold NLMSG_SPACE, NLMSG_HDRLEN, msg_size, off_nlmsg_pid, TEXT_SIZE in *.
  assert (blen (lit s) = blen (chars s) + 1) as Hlit by (unfold lit; by rewrite blen_app).
  pose proof (blen_nonneg (chars s)) as Hs0.
  destruct (bwrite_total b 16 (le32 t)) as (b1 & E1 & L1); [lia|rewrite blen_le32; lia|].
  destruct (bwrite_total b1 20 (le32 d)) as (b2 & E2 & L2); [lia|rewrite blen_le32; lia|].
  destruct (bwrite_total b2 24 (lit s)) as (b3 & E3 & L3); [lia|lia|].
  exists b3. split; [|split; [lia|]].
  { unfold set_message, NLMSG_HDRLEN, off_data, off_text.
    rewrite (cbind_Some _ _ _ _ _ (poke_run _ _ _ _ u k n q h o E1)).
    rewrite (cbind_Some _ _ _ _ _ (poke_run _ _ _ _ u k n q h o E2)). by apply poke_run. }
  unfold received, off_nlmsg_pid, NLMSG_HDRLEN, off_data, off_text. change (16 + 4) with 20. change (16 + 8) with 24.
  assert (bread b3 12 4 = Some (le32 pid)) as ->.
  { by rewrite (bwrite_bread_other _ _ _ _ 12 4 E3), (bwrite_bread_other _ _ _ _ 12 4 E2), (bwrite_bread_other _ _ _ _ 12 4 E1) by lia. }
  assert (bread b3 16 4 = Some (le32 t)) as ->.
  { rewrite (bwrite_bread_other _ _ _ _ 16 4 E3), (bwrite_bread_other _ _ _ _ 16 4 E2) by lia. apply (bwrite_bread_same _ _ _ _ E1). }
  assert (bread b3 20 4 = Some (le32 d)) as ->.
  { rewrite (bwrite_bread_other _ _ _ _ 20 4 E3) by lia. apply (bwrite_bread_same _ _ _ _ E2). }
  cbn [mbind option_bind]. apply bwrite_inv in E3 as (_ & _ & ->).
  assert (length (take (Z.to_nat 24) b2) = Z.to_nat 24) as Ht24 by (rewrite length_take; unfold blen in *; lia).
  rewrite drop_app_exact by done. unfold lit. rewrite <-app_assoc. simpl app.
  match goal with |- context [strlen (chars s ++ 0 :: ?l)] =>
    destruct (strlen_is_Some (chars s ++ 0 :: l)) as [j ->]; [set_solver|] end.
  cbn [mbind option_bind]. by rewrite c_str_app_nul, !int_of_le32_le32.
Qed.

Lemma send_delivers pid t d s st (e' : env call) :
  delivers e' → is_s32 t → is_s32 d → 0 ∉ s → (length s <= 63)%nat →
  let '(r, k) := send_message_to_user raw pid t d (s ++ [0]) e' (KWorld st []) in
  r = Some tt ∧ kst k = st ∧ ∃ m, delivered pid (ktr k) = [reply_header ++ m] ∧ blen m = msg_size ∧
    parse_message m = Some (t, d, s).
Proof.
  intros He Ht Hd Hs Hl. destruct (fill_message_parse raw t d s) as (m & Hm & Hlm & Hp); [done..|].
  rewrite take_ge in Hp by lia. unfold send_message_to_user, kbind, kcall, kret, kget. cbn [kst ktr app].
  pose proof (He [] (NlmsgNew msg_size)) as H1. destruct (Z.eqb_spec (e' [] (NlmsgNew msg_size)) NULL) as [|_]; [done|].
  cbn [kst ktr app]. match goal with |- context [e' ?h (NlmsgPut ?p ?n) =? NULL] =>
    pose proof (He h (NlmsgPut p n)) as H2; destruct (Z.eqb_spec (e' h (NlmsgPut p n)) NULL) as [|_]; [done|] end.
  rewrite Hm. cbn [kst ktr app]. split; [done|]. split; [done|]. exists m. split; [|done]. unfold delivered. simpl.
  match goal with |- context [e' ?h (NetlinkUnicast ?a ?p ?q ?n)] => pose proof (He h (NetlinkUnicast a p q n)) as H3 end.
  rewrite Z.eqb_refl, (proj2 (Z.leb_le 0 _)) by exact H3. done.
Qed.

(** A header that reaches the module. *)
Definition addressed (h : msghdr) : Prop :=
  msg_name h = Some 0 ∧ msg_iov h = Some NLMSG_SPACE ∧ accepts (msg_control h) (msg_controllen h) = true.

(** One request of a known type, as the module handles it. *)
Lemma sendmsg_run pid t d s w :
  addressed (msg_hdr (dev w)) → blen (nlh (dev w)) = NLMSG_SPACE →
  delivers (e (rounds (dev w))) → received (nlh (dev w)) = Some (pid, t, d, s) →
  is_s32 (message_counter (kernel (dev w))) →
  let '(c, (t', d', s')) := reply_to (message_counter (kernel (dev w))) t in
  ∃ m, sendmsg raw e accepts pid w = Some (tt, World (mem w) (System (State (nl_sock (kernel (dev w))) c) (S (rounds (dev w)))
      (queue (dev w) ++ [reply_header ++ m]) (nlh (dev w)) (msg_hdr (dev w))) (out w)) ∧
    blen m = msg_size ∧ parse_message m = Some (t', d', s').
Proof.
  intros (Hn & Hi & Ha) Hb He Hr Hc. destruct w as [u [[sock c] n q b h] o]. cbn [dev nlh mem kernel rounds queue msg_hdr out nl_sock message_counter] in *.
  assert (∀ k v txt c', is_s32 k → is_s32 v → 0 ∉ txt → (length txt <= 63)%nat →
    netlink_recv_msg raw b (e n) (KWorld (State sock c) []) =
      send_message_to_user raw pid k v (txt ++ [0]) (e n) (KWorld (State sock c') []) →
    ∃ m, sendmsg raw e accepts pid (World u (System (State sock c) n q b h) o) =
        Some (tt, World u (System (State sock c') (S n) (q ++ [reply_header ++ m]) b h) o) ∧
      blen m = msg_size ∧ parse_message m = Some (k, v, txt)) as Hsend.
  { intros k v txt c' Hk Hv Htx Hl E. pose proof (send_delivers pid k v txt (State sock c') (e n) He Hk Hv Htx Hl) as Hd.
    assert (bread b 0 NLMSG_SPACE = Some b) as Hall.
    { rewrite bread_Some by (rewrite ?Hb; done). rewrite drop_0, take_ge; [done|]. unfold blen in Hb. lia. }
    unfold sendmsg. cbn [dev nlh rounds kernel queue msg_hdr mem out]. rewrite Hn, Hi. cbn [mbind option_bind].
    rewrite Ha, Hall. cbn [negb mbind option_bind Z.eqb]. rewrite E.
    destruct (send_message_to_user _ _ _ _ _ _ _) as [r k']. destruct Hd as (-> & -> & m & -> & ? & ?). simpl. eauto. }
  unfold reply_to. destruct (t =? 1) eqn:E1; [|destruct (t =? 2) eqn:E2; [|destruct (t =? 3) eqn:E3]].
  - apply (Hsend 1 (s32 (c + 1)) (chars "Hello from kernel!"));
      [done|apply s32_bound|by apply (bool_decide_eq_true_1 _)|by vm_compute; lia|].
    unfold netlink_recv_msg, MSG_TYPE_HELLO, MSG_TYPE_COUNTER, MSG_TYPE_STATUS. rewrite Hr, E1. reflexivity.
  - apply (Hsend 2 c (chars "Current counter value")); [done|done|by apply (bool_decide_eq_true_1 _)|by vm_compute; lia|].
    unfold netlink_recv_msg, MSG_TYPE_HELLO, MSG_TYPE_COUNTER, MSG_TYPE_STATUS. rewrite Hr, E1, E2. reflexivity.
  - apply (Hsend 3 0 (chars "Kernel module is running")); [done|done|by apply (bool_decide_eq_true_1 _)|by vm_compute; lia|].
    unfold netlink_recv_msg, MSG_TYPE_HELLO, MSG_TYPE_COUNTER, MSG_TYPE_STATUS. rewrite Hr, E1, E2, E3. reflexivity.
  - apply (Hsend 0 (-1) (chars "Unknown command")); [done|done|by apply (bool_decide_eq_true_1 _)|by vm_compute; lia|].
    unfold netlink_recv_msg, MSG_TYPE_HELLO, MSG_TYPE_COUNTER, MSG_TYPE_STATUS. rewrite Hr, E1, E2, E3. reflexivity.
Qed.

(** Receiving the one queued reply and printing it. *)
Lemma receive_run m t d s w {A} (f : unit → C unit system A) :
  blen m = msg_size → parse_message m = Some (t, d, s) → queue (dev w) = [reply_header ++ m] →
  nlh (dev w) = bfill 0 NLMSG_SPACE → addressed (msg_hdr (dev w)) →
  (recvmsg ;;c x <-c print_received; f x) w =
    f tt (World (mem w) (System (kernel (dev w)) (rounds (dev w)) [] (reply_header ++ m)
        (MsgHdr (Some 0) (Some NLMSG_SPACE) (msg_control (msg_hdr (dev w))) 0))
      (out w ++ [chars "Received: type=" ++ dec t ++ chars ", data=" ++ dec d ++ chars ", text='" ++ s ++ chars ("'" +:+ nl)])).
Proof.
  intros Hm Hp Hq Hb (Hn & Hv & _). destruct w as [u [k n q b h] o]. cbn [dev nlh mem kernel rounds queue msg_hdr out] in *. subst q b.
  assert (blen (reply_header ++ m) = 88) as Hl by by rewrite blen_app, Hm.
  assert (recvmsg (World u (System k n [reply_header ++ m] (bfill 0 NLMSG_SPACE) h) o) =
    Some (tt, World u (System k n [] (reply_header ++ m) (MsgHdr (Some 0) (Some NLMSG_SPACE) (msg_control h) 0)) o)) as E.
  { unfold recvmsg. cbn [dev queue nlh msg_hdr]. rewrite Hn, Hv. cbn [mbind option_bind]. rewrite (take_ge (reply_header ++ m)).
    2:{ unfold blen in Hl. change (Z.to_nat NLMSG_SPACE) with 88%nat. lia. }
    rewrite bwrite_Some by (rewrite ?Hl; vm_compute; done). change (Z.to_nat 0) with 0%nat.
    rewrite take_0, app_nil_l, drop_ge; [by rewrite app_nil_r|]. unfold blen in Hl. unfold bfill. rewrite length_replicate. change (Z.to_nat NLMSG_SPACE) with 88%nat. lia. }
  rewrite (cbind_Some _ _ _ _ _ E). apply cbind_Some. unfold print_received. cbn [dev nlh].
  unfold parse_message, off_data, off_text, TEXT_SIZE in *. unfold NLMSG_HDRLEN, msg_size in *.
  rewrite !bread_Some in Hp by lia. rewrite !bread_Some by lia. cbn [mbind option_bind] in *.
  change (Z.to_nat 16) with (length reply_header). change (Z.to_nat (16 + 4)) with (length reply_header + 4)%nat.
  change (Z.to_nat (16 + 8)) with (length reply_header + 8)%nat. rewrite <-!drop_drop, !drop_app_length.
  change (Z.to_nat 0) with 0%nat in Hp. change (Z.to_nat 4) with 4%nat in *. change (Z.to_nat 8) with 8%nat in Hp.
  rewrite drop_0 in Hp. rewrite (take_ge (drop 8 m)) in Hp by (rewrite length_drop; unfold blen in Hm; lia).
  destruct (strlen (drop 8 m)) as [j|]; [|done]. cbn [mbind option_bind] in *. by injection Hp as -> -> ->.
Qed.

(** One exchange: the text of the request is arbitrary, the reply is the module's. *)
Definition received_line (reply : Z * Z * bytes) : bytes :=
  let '(t, d, s) := reply in
  chars "Received: type=" ++ dec t ++ chars ", data=" ++ dec d ++ chars ", text='" ++ s ++ chars ("'" +:+ nl).

Record ready w (c : Z) (n : nat) : Prop := {
  ready_buffer : blen (nlh (dev w)) = NLMSG_SPACE;
  ready_queue : queue (dev w) = [];
  ready_counter : message_counter (kernel (dev w)) = c;
  ready_rounds : rounds (dev w) = n;
  ready_hdr : addressed (msg_hdr (dev w))
}.

Lemma exchange_run pid t d s announce c n w :
  ready w c n → is_s32 c → delivers (e n) →
  bread (nlh (dev w)) off_nlmsg_pid 4 = Some (le32 pid) →
  is_s32 pid → is_s32 t → is_s32 d → 0 ∉ chars s → blen (chars s) < TEXT_SIZE →
  ∃ w', (∀ A (f : unit → C unit system A),
      (set_message t d s ;;c print announce ;;c
       sendmsg raw e accepts pid ;;c clear ;;c recvmsg ;;c x <-c print_received; f x) w = f tt w') ∧
    ready w' (reply_to c t).1 (S n) ∧ is_s32 (reply_to c t).1 ∧
    out w' = out w ++ [chars announce; received_line (reply_to c t).2].
Proof.
  intros [Hb Hq Hc Hn Hh] Hc32 He Hpid Hp Ht Hd Hs Hl.
  destruct (set_message_run pid t d s w Hb Hpid Hp Ht Hd Hs Hl) as (b & E & Hlb & Hr).
  set (w1 := World (mem w) (System (kernel (dev w)) (rounds (dev w)) (queue (dev w)) b (msg_hdr (dev w))) (out w ++ [chars announce])).
  pose proof (sendmsg_run pid t d (chars s) w1) as Hsend. cbn [dev nlh kernel rounds msg_hdr w1] in Hsend.
  rewrite Hn, Hc in Hsend. specialize (Hsend Hh Hlb He Hr Hc32).
  assert (is_s32 (reply_to c t).1) as Hc'.
  { unfold reply_to. destruct (t =? 1); [apply s32_bound|]. destruct (t =? 2); [done|]. by destruct (t =? 3). }
  destruct (reply_to c t) as [c' [[t' d'] s']]. destruct Hsend as (m & Es & Hm & Hpm).
  eexists. split; [|split; [|split; [exact Hc'|]]].
  - intros A f. rewrite (cbind_Some _ _ _ _ _ E). capp. rewrite (cbind_Some _ _ _ _ _ Es).
    rewrite (cbind_Some _ _ _ _ _ (clear_run (World _ (System _ _ _ b _) _) Hlb)).
    unfold w1. cbn [dev nlh kernel rounds queue msg_hdr out mem]. rewrite Hq, app_nil_l. by rewrite (receive_run m t' d' s').
  - split; cbn [dev nlh kernel rounds queue msg_hdr message_counter]; [|done..|by split_and!]. by rewrite blen_app, Hm.
  - unfold w1. cbn [out dev]. by rewrite <-app_assoc.
Qed.

Lemma set_header_run pid w :
  blen (nlh (dev w)) = NLMSG_SPACE →
  ∃ b, set_header pid w = Some (tt, World (mem w) (System (kernel (dev w)) (rounds (dev w)) (queue (dev w)) b (msg_hdr (dev w))) (out w)) ∧
    blen b = NLMSG_SPACE ∧ bread b off_nlmsg_pid 4 = Some (le32 pid).
Proof.
  intros Hb. destruct w as [u [k r q b h] o]. cbn [dev nlh queue kernel rounds msg_hdr mem out] in *.
  unfold NLMSG_SPACE, NLMSG_HDRLEN, msg_size in Hb.
  destruct (bwrite_total b 0 (le32 NLMSG_SPACE)) as (b1 & E1 & L1); [done|rewrite blen_le32; lia|].
  destruct (bwrite_total b1 12 (le32 pid)) as (b2 & E2 & L2); [done|rewrite blen_le32; lia|].
  exists b2. split_and!.
  - unfold set_header. rewrite (cbind_Some _ _ _ _ _ (poke_run _ _ _ _ u k r q h o E1)). by apply poke_run.
  - unfold NLMSG_SPACE, NLMSG_HDRLEN, msg_size. lia.
  - apply (bwrite_bread_same _ _ _ _ E2).
Qed.

Lemma set_header_ready pid c n w :
  ready w c n →
  ∃ w', set_header pid w = Some (tt, w') ∧ ready w' c n ∧ out w' = out w ∧
    bread (nlh (dev w')) off_nlmsg_pid 4 = Some (le32 pid).
Proof.
  intros [Hb Hq Hc Hn Hh]. destruct (set_header_run pid w Hb) as (b & E & Hlb & Hpid).
  eexists. split; [exact E|]. split; [by split|done].
Qed.

(** The program up to its first request: the buffer holds the process's number, the
    header the module's address, and the control fields are as they were. *)
Lemma main_start fd bound p pid w :
  0 <= fd → 0 <= bound → p ≠ NULL → blen (nlh (dev w)) = NLMSG_SPACE →
  let h := msg_hdr (dev w) in
  ∃ b, blen b = NLMSG_SPACE ∧ bread b off_nlmsg_pid 4 = Some (le32 pid) ∧
    let w1 := World (mem w) (System (kernel (dev w)) (rounds (dev w)) (queue (dev w)) b
                (MsgHdr (Some 0) (Some NLMSG_SPACE) (msg_control h) (msg_controllen h)))
              (out w ++ [chars ("Testing netlink communication..." +:+ nl)]) in
    main raw e accepts fd bound p pid w =
      (set_message MSG_TYPE_HELLO 123 "Hello from user space!" ;;c
       print ("Sending HELLO message..." +:+ nl) ;;c
       sendmsg raw e accepts pid ;;c clear ;;c recvmsg ;;c print_received ;;c
       set_header pid ;;c set_message MSG_TYPE_COUNTER 0 "Get counter" ;;c
       print ("Sending COUNTER request..." +:+ nl) ;;c
       sendmsg raw e accepts pid ;;c clear ;;c recvmsg ;;c print_received ;;c
       set_header pid ;;c set_message MSG_TYPE_STATUS 0 "Status request" ;;c
       print ("Sending STATUS request..." +:+ nl) ;;c
       sendmsg raw e accepts pid ;;c clear ;;c recvmsg ;;c print_received ;;c
       print ("Netlink test completed!" +:+ nl) ;;c cret 0) w1.
Proof.
  intros Hfd Hbo Hp Hb h. unfold main. rewrite !(proj2 (Z.ltb_ge _ _)) by done. cbn iota.
  rewrite (proj2 (Z.eqb_neq p NULL)) by done. cbn iota.
  rewrite (cbind_Some _ _ _ _ _ (clear_run w Hb)).
  match goal with |- context [cbind (set_header pid) _ ?w1] => set (w0 := w1) end.
  destruct (set_header_run pid w0) as (b1 & E1 & Hb1 & Hpid1); [by apply blen_bfill|].
  destruct (bwrite_total b1 6 [0; 0]) as (b2 & E2 & L2); [done|rewrite Hb1; vm_compute; done|].
  exists b2. split; [congruence|].
  split; [by rewrite (bwrite_bread_other _ _ _ _ off_nlmsg_pid 4 E2) by (vm_compute; by right)|].
  cbv zeta. rewrite (cbind_Some _ _ _ _ _ E1). rewrite (cbind_Some _ _ _ _ _ (poke_run _ _ _ _ _ _ _ _ _ _ E2)). reflexivity.
Qed.

(** C20: the client and the module understand each other, if the kernel takes the
    client's message.  Let malloc succeed, the kernel have memory for the replies
    and deliver them; the program's buffer and the control fields of its msg_hdr
    hold anything.  When sendmsg takes these control fields (as it does when
    msg_controllen happens to be 0) the client gets the reply to each of its three
    requests and prints it: the greeting with the module's counter increased by one,
    that value of the counter again, and the status; it ends with status 0, and no
    message is left in its queue.  When it does not, the client waits for a reply
    for ever. *)
Theorem client_exchanges fd bound p pid c w :
  0 <= fd → 0 <= bound → p ≠ NULL → is_s32 pid → is_s32 c → (∀ k, delivers (e k)) →
  blen (nlh (dev w)) = NLMSG_SPACE → queue (dev w) = [] → message_counter (kernel (dev w)) = c →
  let h := msg_hdr (dev w) in
  if accepts (msg_control h) (msg_controllen h) then
    ∃ w', main raw e accepts fd bound p pid w = Some (0, w') ∧
      message_counter (kernel (dev w')) = s32 (c + 1) ∧ queue (dev w') = [] ∧
      out w' = out w ++
        [chars ("Testing netlink communication..." +:+ nl);
         chars ("Sending HELLO message..." +:+ nl); received_line (1, s32 (c + 1), chars "Hello from kernel!");
         chars ("Sending COUNTER request..." +:+ nl); received_line (2, s32 (c + 1), chars "Current counter value");
         chars ("Sending STATUS request..." +:+ nl); received_line (3, 0, chars "Kernel module is running");
         chars ("Netlink test completed!" +:+ nl)]
  else main raw e accepts fd bound p pid w = None.
Proof.
  intros Hfd Hbo Hp Hpid Hc He Hb Hq Hk h.
  destruct (main_start fd bound p pid w Hfd Hbo Hp Hb) as (b & Hlb & Hbp & ->). fold h.
  destruct (accepts (msg_control h) (msg_controllen h)) eqn:Hacc.
  - match goal with |- context [cbind (set_message _ _ _) _ ?x] => set (w1 := x) end.
    assert (ready w1 c (rounds (dev w))) as Hr1 by by repeat split.
    destruct (exchange_run pid MSG_TYPE_HELLO 123 "Hello from user space!" ("Sending HELLO message..." +:+ nl) c _ w1 Hr1 Hc (He _) Hbp)
      as (w2 & E4 & Hr2 & Hc2 & Ho2); [done..|by apply (bool_decide_eq_true_1 _)|by vm_compute|].
    rewrite E4. destruct (set_header_ready pid _ _ w2 Hr2) as (w3 & E3 & Hr3 & Ho3 & Hpid3). rewrite (cbind_Some _ _ _ _ _ E3).
    destruct (exchange_run pid MSG_TYPE_COUNTER 0 "Get counter" ("Sending COUNTER request..." +:+ nl) _ _ w3 Hr3 Hc2 (He _) Hpid3)
      as (w4 & E6 & Hr4 & Hc4 & Ho4); [done..|by apply (bool_decide_eq_true_1 _)|by vm_compute|].
    rewrite E6. destruct (set_header_ready pid _ _ w4 Hr4) as (w5 & E5 & Hr5 & Ho5 & Hpid5). rewrite (cbind_Some _ _ _ _ _ E5).
    destruct (exchange_run pid MSG_TYPE_STATUS 0 "Status request" ("Sending STATUS request..." +:+ nl) _ _ w5 Hr5 Hc4 (He _) Hpid5)
      as (w6 & E8 & Hr6 & Hc6 & Ho6); [done..|by apply (bool_decide_eq_true_1 _)|by vm_compute|].
    rewrite E8. capp. eexists. split; [reflexivity|]. cbn [dev out]. destruct Hr6 as [_ Hq6 Hc6' _ _]. split; [exact Hc6'|]. split; [done|].
    rewrite Ho6, Ho5, Ho4, Ho3, Ho2. unfold w1. cbn [out]. rewrite <-!app_assoc. reflexivity.
  - match goal with |- context [cbind (set_message _ _ _) _ ?w1] =>
      destruct (set_message_run pid MSG_TYPE_HELLO 123 "Hello from user space!" w1 Hlb Hbp) as (b1 & E & Hlb1 & Hr1);
        [done..|by apply (bool_decide_eq_true_1 _)|by vm_compute|] end.
    rewrite (cbind_Some _ _ _ _ _ E). capp.
    match goal with |- context [cbind (sendmsg _ _ _ _) _ ?w1] =>
      rewrite (cbind_Some _ _ w1 tt w1) by (unfold sendmsg; cbn [dev msg_hdr msg_name msg_iov msg_control msg_controllen mbind option_bind]; by rewrite Hacc) end.
    match goal with |- context [cbind clear _ ?w1] => rewrite (cbind_Some _ _ _ _ _ (clear_run w1 Hlb1)) end.
    unfold cbind at 1, recvmsg at 1. cbn [dev msg_hdr msg_name msg_iov queue mbind option_bind]. by rewrite Hq.
Qed.
End facts.

(** ** Witness: process 77, the module's counter at its largest value, a kernel that
    takes control data only of length 0; the two programs differ in what was in
    msg_controllen *)
Definition wstart (len : Z) : world unit system :=
  World tt (System (State 8192 2147483647) 0 [] (bfill 0xAA 88) (MsgHdr None None 0xAAAA len)) [].
Definition waccepts (ctl len : Z) : bool := len =? 0.

Lemma client_exchanges_witness :
  (∃ w', main (bfill 0xCC 72) (λ _, good_env) waccepts 3 0 0x5000 77 (wstart 0) = Some (0, w') ∧
    out w' =
      [chars ("Testing netlink communication..." +:+ nl);
       chars ("Sending HELLO message..." +:+ nl); chars ("Received: type=1, data=-2147483648, text='Hello from kernel!'" +:+ nl);
       chars ("Sending COUNTER request..." +:+ nl); chars ("Received: type=2, data=-2147483648, text='Current counter value'" +:+ nl);
       chars ("Sending STATUS request..." +:+ nl); chars ("Received: type=3, data=0, text='Kernel module is running'" +:+ nl);
       chars ("Netlink test completed!" +:+ nl)]) ∧
  main (bfill 0xCC 72) (λ _, good_env) waccepts 3 0 0x5000 77 (wstart 0xAA) = None.
Proof.
  assert (∀ len, let w := wstart len in blen (nlh (dev w)) = NLMSG_SPACE) as Hb by by intros; apply blen_bfill.
  assert (∀ k, delivers ((λ _ : nat, good_env) k)) as Hd by (intros k h c; destruct c; cbn; done).
  split.
  - destruct (client_exchanges (bfill 0xCC 72) (λ _, good_env) ltac:(by apply blen_bfill) waccepts ltac:(done) 3 0 0x5000 77 2147483647
      (wstart 0)) as (w' & E & _ & _ & Ho); [done|done|done|done|done|exact Hd|apply Hb|reflexivity|reflexivity|].
    exists w'. split; [exact E|]. rewrite Ho. reflexivity.
  - apply (client_exchanges (bfill 0xCC 72) (λ _, good_env) ltac:(by apply blen_bfill) waccepts ltac:(done) 3 0 0x5000 77 2147483647
      (wstart 0xAA)); [done|done|done|done|done|exact Hd|apply Hb|reflexivity|reflexivity].
Defined.
