(* ===== verification/VfsFile.v ===== *)
(** * Writing more than a file holds (examples/class_7/00_vfs_obj_imp)

    A program that writes a buffer calls write again with the rest when less was
    taken than it gave, as the standard library's buffered output, cat and cp do.
    The write method of [SimpleVfs.v] takes at most 63 bytes and stores them at the
    start of the file whatever the position is. *)
From S2P Require Import Prelude Bytes Kernel SimpleVfs.

(** The loop: 0 at the end, or the error of the call that failed. *)
Fixpoint write_all {U} `{UserAccess U} (fuel : nat) (s : vfs) (a : Z) (u : U) (buf count : Z) : option (Z * vfs) :=
  match fuel with
  | O => None
  | S fuel =>
      if count <=? 0 then Some (0, s)
      else
        '(r, s) ← example_write s a u buf count;
        if r <? 0 then Some (r, s) else write_all fuel s a u (buf + r) (count - r)
  end.

Section facts.
Context {U : Type} `{UserAccessLaws U}.

(** One call that the user's memory allows. *)
Lemma example_write_taken s a ei (u : U) buf count :
  vfs_ok s → inodes s !! a = Some ei → 0 <= count → (copy_from_user u buf (Z.min count 63)).1 = 0 →
  ∃ s' ei', example_write s a u buf count = Some (Z.min count 63, s') ∧ vfs_ok s' ∧
    inodes s' = <[a := ei']> (inodes s) ∧ contents ei' = c_str (uload u buf (Z.min count 63)) ∧
    vfs_inode ei' = set_size (Z.min count 63) (vfs_inode ei).
Proof.
  intros Hok Ha Hc Hu. destruct (example_write_correct s a ei u buf count Hok Ha Hc) as (r & s' & ei' & Hw & Hi & _ & Hyes & _).
  destruct (Hyes Hu) as (-> & Hcon & Hino). exists s', ei'. split_and!; try done.
  eapply write_ok; [|exact Hc|exact Hok|exact Hw]. intros. by apply copy_from_user_length.
Qed.

(** C18: a buffer of any length written by such a loop is taken completely, in
    finitely many calls, without an error; but the file holds only its last piece,
    the bytes after the last multiple of 63 before the end, and its size is the
    length of that piece.  A text of up to 63 bytes is stored as it is. *)
Theorem write_all_keeps_last fuel s a ei (u : U) buf count :
  vfs_ok s → inodes s !! a = Some ei → 0 < count → count + 63 <= 63 * Z.of_nat fuel →
  (∀ o n, 0 <= o → 0 <= n → o + n <= count → (copy_from_user u (buf + o) n).1 = 0) →
  let last := 63 * ((count - 1) / 63) in
  ∃ s' ei', write_all fuel s a u buf count = Some (0, s') ∧ vfs_ok s' ∧
    inodes s' = <[a := ei']> (inodes s) ∧
    contents ei' = c_str (uload u (buf + last) (count - last)) ∧
    i_size (vfs_inode ei') = count - last.
Proof.
  revert s ei buf count. induction fuel as [|fuel IH]; intros s ei buf count Hok Ha Hc Hf Hu last; [lia|].
  assert ((copy_from_user u buf (Z.min count 63)).1 = 0) as Hu0.
  { rewrite <-(Z.add_0_r buf) at 1. apply Hu; lia. }
  destruct (example_write_taken s a ei u buf count) as (s1 & ei1 & Hw & Hok1 & Hi1 & Hc1 & Hv1); [done|done|lia|done|].
  cbn [write_all]. rewrite (proj2 (Z.leb_gt count 0)) by lia. rewrite Hw. cbn [mbind option_bind].
  rewrite (proj2 (Z.ltb_ge _ 0)) by lia. destruct (Z.le_gt_cases count 63) as [Hle|Hgt].
  - assert (last = 0) as -> by (unfold last; Z.to_euclidean_division_equations; lia).
    rewrite Z.min_l in * by lia. destruct fuel as [|fuel]; [lia|]. exists s1, ei1. cbn [write_all].
    rewrite Z.sub_diag, Z.add_0_r, Z.sub_0_r. split_and!; [done..|]. by rewrite Hv1.
  - rewrite Z.min_r in * by lia.
    destruct (IH s1 ei1 (buf + 63) (count - 63)) as (s2 & ei2 & Hw2 & Hok2 & Hi2 & Hc2 & Hs2).
    + done.
    + rewrite Hi1. apply lookup_insert_eq.
    + lia.
    + lia.
    + intros o n Ho Hn Hon. rewrite <-Z.add_assoc. apply Hu; lia.
    + assert (63 * ((count - 63 - 1) / 63) = last - 63) as El by (unfold last; Z.to_euclidean_division_equations; lia).
      exists s2, ei2. rewrite El in *. split_and!; [done|done| | |lia].
      * rewrite Hi2, Hi1. apply insert_insert_eq.
      * rewrite Hc2. do 2 f_equal; lia.
Qed.
End facts.

(** 63 letters A and 37 letters B: the file holds the letters B. *)
Lemma write_all_keeps_last_witness :
  ∃ s' ei', write_all 4 (demo_vfs []) 5 (FlatUser 1000 (bfill 65 63 ++ bfill 66 37)) 1000 100 = Some (0, s') ∧
    inodes s' !! 5 = Some ei' ∧ contents ei' = bfill 66 37 ∧ i_size (vfs_inode ei') = 37.
Proof.
  destruct (write_all_keeps_last 4 (demo_vfs []) 5 (demo_ei []) (FlatUser 1000 (bfill 65 63 ++ bfill 66 37)) 1000 100)
    as (s' & ei' & Hw & _ & Hi & Hc & Hs);
    [apply demo_vfs_ok; vm_compute; discriminate|reflexivity|lia|lia| |].
  - intros o n Ho Hn Hon. cbn [copy_from_user flat_user_access]. unfold flat_ok.
    rewrite bool_decide_eq_true_2; [done|]. change (blen _) with 100. cbn. lia.
  - exists s', ei'. split; [exact Hw|]. split; [rewrite Hi; apply lookup_insert_eq|]. split; [exact Hc|exact Hs].
Defined.
