(* ===== verification/VfsClient.v ===== *)
(** * The filesystem's test program (examples/class_7/00_vfs_obj_imp/test_vfs.c)

    The user-space program that mounts the filesystem of [SimpleVfs.v], creates a
    file, writes, reads, stats and lists it.  The system calls are modelled as far
    as they call the module: mount calls fill_super; open allocates a dentry, looks
    the name up, and creates the file if the entry is negative; read, write, stat
    and readdir act on the inode the dentry was bound to.  The source lacks
    #include <dirent.h> and does not compile as it is; the model is of the program
    with that line. *)
From S2P Require Import Prelude Bytes Kernel UserProgram SimpleVfs.

(** Decimal and octal text. *)
Fixpoint oct_go (n : nat) (z : Z) (acc : bytes) : bytes :=
  match n with
  | O => acc
  | S n =>
      let acc := (48 + z mod 8) :: acc in
      if z / 8 =? 0 then acc else oct_go n (z / 8) acc
  end.
Definition oct (z : Z) : bytes := oct_go 22 z [].

(** What readdir(3) names an entry. *)
Definition entry_name (e : dirent) : bytes :=
  match e with Dot => chars "." | DotDot => chars ".." | Entry name _ _ _ => name end.

Section client.
#[local] Open Scope app_scope.
Context {U : Type} `{VfsCore} `{UserAccess U} `{!UserProcess U}.

(** What mkdir(2) answers for a path, 0 or minus the errno, and what a shell
    command prints. *)
Context (mkdir : bytes → Z) (system_output : bytes → bytes).

(** The filesystem's inodes and dentries, the open file's inode and its position. *)
Record system := System { fs : vfs; file : option Z; fpos : Z }.
#[local] Abbreviation code := (C U system).

(** create_dir_recursive: the loop over the slashes of the path after the first, and
    the last directory.  [dup] is what strdup answers; the program does not check
    it. *)
Definition mkdir_failed (path : bytes) : bool := (mkdir path <? 0) && negb (mkdir path =? - EEXIST).
Fixpoint make_parents (before rest : bytes) : bool :=
  match rest with
  | [] => true
  | c :: rest => if (c =? 47) && mkdir_failed before then false else make_parents (before ++ [c]) rest
  end.
Definition create_dir_recursive (dup : Z) (path : bytes) : code Z := λ w,
  if dup =? NULL then None
  else
    let made := match path with
                | c :: rest => if c =? 47 then make_parents [c] rest else make_parents [] path
                | [] => true
                end in
    Some (if negb made then -1 else if mkdir_failed path then -1 else 0, w).

(** mount(2) of the filesystem on an existing directory. *)
Definition mount (sb : super_block) : code Z := λ w,
  let '(r, _, s) := example_fill_super sb (fs (dev w)) in
  Some (if r <? 0 then -1 else 0, World (mem w) (System s (file (dev w)) (fpos (dev w))) (out w)).

(** open(2) of "testfile", with O_CREAT, in the root directory [dir]: the kernel
    puts a new dentry at [d]. *)
Definition open_file (dir d mode : Z) : code Z := λ w,
  let s := fs (dev w) in
  s ← example_lookup d (Vfs (inodes s) (<[d := Dentry (lit "testfile") None 1]> (dentries s)));
  de ← dentries s !! d;
  let '(r, s) := match d_inode de with
                 | Some _ => (example_open, s)
                 | None => example_create dir d (Z.lor S_IFREG mode) s
                 end in
  de ← dentries s !! d;
  Some (if r <? 0 then -1 else 3,
        World (mem w) (System s (if r <? 0 then None else d_inode de) 0) (out w)).

(** write(2), read(2) and lseek(2) on the open file. *)
Definition write_file (buf n : Z) : code Z := λ w,
  i ← file (dev w);
  '(r, s) ← example_write (fs (dev w)) i (mem w) buf n;
  Some (if r <? 0 then -1 else r, World (mem w) (System s (file (dev w)) (fpos (dev w))) (out w)).

Definition read_file (buf n : Z) : code Z := λ w,
  i ← file (dev w);
  '(r, p, u) ← example_read (fs (dev w)) i (mem w) buf n (fpos (dev w));
  Some (if r <? 0 then -1 else r, World u (System (fs (dev w)) (file (dev w)) p) (out w)).

Definition lseek (p : Z) : code unit := λ w,
  Some (tt, World (mem w) (System (fs (dev w)) (file (dev w)) p) (out w)).

(** stat(2): the size, the permissions and the inode number of the file. *)
Definition stat : code (Z * Z * Z) := λ w,
  i ← file (dev w); ei ← inodes (fs (dev w)) !! i;
  let v := vfs_inode ei in
  Some ((i_size v, Z.land (i_mode v) 0x1ff, i_ino v), w).

(** opendir(3) and the loop over readdir(3): the C library's buffer is larger than
    the listing, so that no entry is refused.  When opendir fails ([opened] is
    false), the shell lists the directory. *)
Definition list_directory (opened : bool) : code unit := λ w,
  if negb opened then
    '(_, cmd) ← snprintf (bfill 0 256) 0 256 (chars "ls -la /mnt/example_vfs");
    _ ← strlen cmd;
    Some (tt, World (mem w) (dev w) (out w ++ [system_output (c_str cmd)]))
  else
  let ctx := example_readdir (λ _ _, true) (DirContext 0 []) in
  Some (tt, World (mem w) (dev w)
    (out w ++ ((λ e, chars "  " ++ entry_name e ++ [10]) <$> emitted ctx))).

(** The end of main, from the label cleanup. *)
Definition cleanup (umounted : bool) : code Z :=
  print (nl +:+ "Unmounting filesystem..." +:+ nl) ;;c
  if umounted then print ("VFS test completed successfully" +:+ nl) ;;c cret 0
  else print ("You may need to manually unmount: umount /mnt/example_vfs" +:+ nl) ;;c cret 1.

(** main.  [dup], [opened] and [umounted] say what strdup, opendir and umount answer,
    [sb] is the new superblock, [dir] its root inode, [d] where the kernel puts the
    dentry, [wb] and [rb] the addresses of write_buf and read_buf. *)
Definition main (dup : Z) (opened umounted : bool) (sb : super_block) (dir d wb rb : Z) : code Z :=
  assign wb (lit "Hello from userspace!") ;;c
  print ("=== VFS Filesystem Test ===" +:+ nl) ;;c
  ret <-c create_dir_recursive dup (chars "/mnt");
  if ret <? 0 then cret 1 else
  if mkdir_failed (chars "/mnt/example_vfs") then cret 1 else
  print ("Mounting example_vfs at /mnt/example_vfs..." +:+ nl) ;;c
  ret <-c mount sb;
  if ret <? 0 then
    print ("Make sure example_vfs module is loaded" +:+ nl) ;;c
    print ("Try: lsmod | grep simple_vfs" +:+ nl) ;;c
    print ("And: cat /proc/filesystems | grep example_vfs" +:+ nl) ;;c cret 1
  else
    print ("Filesystem mounted successfully" +:+ nl) ;;c
    print (nl +:+ "Testing file operations:" +:+ nl) ;;c
    print ("Opening /mnt/example_vfs/testfile..." +:+ nl) ;;c
    fd <-c open_file dir d 0x1a4;
    if fd <? 0 then cleanup umounted else
    print ("Writing data to file..." +:+ nl) ;;c
    n <-c (λ w, n ← strlen (uload (mem w) wb 22); Some (n, w));
    ret <-c write_file wb n;
    if ret <? 0 then cleanup umounted else
    s <-c get_str wb 22;
    printf (chars "Wrote " ++ dec ret ++ chars " bytes: " ++ s ++ [10]) ;;c
    lseek 0 ;;c
    print ("Reading data from file..." +:+ nl) ;;c
    assign rb (bfill 0 100) ;;c
    ret <-c read_file rb 99;
    if ret <? 0 then cleanup umounted else
    assign (rb + ret) [0] ;;c
    s <-c get_str rb 100;
    printf (chars "Read " ++ dec ret ++ chars " bytes: " ++ s ++ [10]) ;;c
    print (nl +:+ "Testing file stat..." +:+ nl) ;;c
    st <-c stat;
    let '(size, mode, ino) := st in
    printf (chars "File size: " ++ dec size ++ chars " bytes" ++ [10]) ;;c
    printf (chars "File mode: 0" ++ oct mode ++ [10]) ;;c
    printf (chars "File inode: " ++ dec ino ++ [10]) ;;c
    print (nl +:+ "Testing directory listing:" +:+ nl) ;;c
    print ("Contents of /mnt/example_vfs:" +:+ nl) ;;c
    list_directory opened ;;c
    cleanup umounted.
End client.

(** ** What it does *)
Section facts.
#[local] Open Scope app_scope.
Context {U : Type} `{VfsCoreLaws} `{UserAccessLaws U} `{!UserProcess U} `{!UserProcessLaws U}.
Implicit Types (w : world U system) (s : vfs).

(** The state in which the name is looked up. *)
Definition allocated (d : Z) s : vfs := Vfs (inodes s) (<[d := Dentry (lit "testfile") None 1]> (dentries s)).

Lemma open_file_run dir d mode w :
  (example_get_inode (Z.lor S_IFREG 0x1a4) (allocated d (fs (dev w)))).1 ≠ None →
  vfs_ok (fs (dev w)) →
  ∃ s' a ei, open_file dir d mode w = Some (3, World (mem w) (System s' (Some a) 0) (out w)) ∧ vfs_ok s' ∧
    inodes s' !! a = Some ei ∧ empty_file (Z.lor S_IFREG 0x1a4) ei.
Proof.
  intros Hg Hok. unfold open_file, example_lookup. fold (allocated d (fs (dev w))).
  assert (dentries (allocated d (fs (dev w))) !! d = Some (Dentry (lit "testfile") None 1)) as Hd by apply lookup_insert_eq.
  rewrite Hd. cbn [mbind option_bind d_name]. unfold strcmp_eq. rewrite bool_decide_eq_true_2 by done.
  assert (vfs_ok (allocated d (fs (dev w)))) as Hok1 by exact Hok.
  pose proof (get_inode_ok (Z.lor S_IFREG 0x1a4) _ Hok1) as Hok2.
  destruct (example_get_inode _ (allocated d (fs (dev w)))) as [[a|] s1] eqn:E; [|done].
  apply get_inode_regular in E as (_ & Hds & ei & Hi & He); [|done]. cbn [mbind option_bind snd] in *.
  rewrite d_add_spec, !upd_dentry_lookup, Hds, Hd. cbn [fmap option_fmap option_map mbind option_bind set_d_inode d_inode].
  rewrite !upd_dentry_lookup, Hds, Hd. cbn [fmap option_fmap option_map mbind option_bind set_d_inode d_inode].
  change (example_open <? 0) with false. cbn iota. eexists _, a, ei. split; [reflexivity|].
  split; [by apply vfs_ok_upd_dentry|]. split; [|done]. cbn [inodes upd_dentry]. rewrite Hi. apply lookup_insert_eq.
Qed.

Lemma write_file_run a ei buf n w :
  vfs_ok (fs (dev w)) → file (dev w) = Some a → inodes (fs (dev w)) !! a = Some ei →
  own (mem w) buf n → 0 <= n <= 63 →
  ∃ s' ei', write_file buf n w = Some (n, World (mem w) (System s' (Some a) (fpos (dev w))) (out w)) ∧ vfs_ok s' ∧
    inodes s' !! a = Some ei' ∧ vfs_inode ei' = set_size n (vfs_inode ei) ∧ contents ei' = c_str (uload (mem w) buf n).
Proof.
  intros Hok Hf Ha Ho Hn. unfold write_file. rewrite Hf. cbn [mbind option_bind].
  pose proof (example_write_spec _ a ei (mem w) buf n Hok Ha ltac:(lia)) as Hw. cbv zeta in Hw.
  rewrite Z.min_l in Hw by lia. pose proof (own_copy_from _ _ _ Ho) as Hz.
  pose proof (copy_from_user_ok (mem w) buf n ltac:(lia) Hz) as Hc.
  destruct (copy_from_user (mem w) buf n) as [l bs]. cbn [fst snd] in *. subst l bs.
  destruct Hw as (b & Hl & Hw & Hb). rewrite Z.eqb_refl in Hw. cbn [negb] in Hw. rewrite Hw. cbn [mbind option_bind].
  rewrite (proj2 (Z.ltb_ge n 0)) by lia. eexists _, _. split; [reflexivity|]. split_and!.
  - eapply write_ok; [|exact (proj1 Hn)|exact Hok|exact Hw]. intros. by apply copy_from_user_length.
  - apply lookup_insert_eq.
  - done.
  - unfold contents. cbn [data]. by apply Hb.
Qed.

(** A read from the start into a buffer that holds the whole string. *)
Lemma read_file_run a ei buf n w :
  vfs_ok (fs (dev w)) → file (dev w) = Some a → inodes (fs (dev w)) !! a = Some ei → fpos (dev w) = 0 →
  let t := contents ei in
  0 < blen t → blen t <= n <= MAX_RW_COUNT → own (mem w) buf n →
  ∃ u, read_file buf n w = Some (blen t, World u (System (fs (dev w)) (Some a) (blen t)) (out w)) ∧
    u = (copy_to_user (mem w) buf t).2 ∧ uload u buf (blen t) = t.
Proof.
  intros Hok Hf Ha Hp t Ht Hn Ho. unfold read_file. rewrite Hf, Hp. cbn [mbind option_bind].
  rewrite (example_read_spec _ a ei) by (done || lia). unfold read_spec. fold t.
  rewrite (proj2 (Z.leb_gt _ _)) by lia. rewrite drop_0, (take_ge t) by (unfold blen in *; lia).
  assert (own (mem w) buf (blen t)) as Ho1 by (eapply own_part; [done|lia..]).
  pose proof (copy_to_user_ok (mem w) buf t (own_copy_to _ _ _ Ho1)) as Hu.
  pose proof (own_copy_to _ _ _ Ho1) as Hz.
  destruct (copy_to_user (mem w) buf t) as [l u]. cbn [fst snd mbind option_bind] in *. subst l.
  rewrite Z.eqb_refl. cbn [negb mbind option_bind]. rewrite (proj2 (Z.ltb_ge _ 0)) by lia. by exists u.
Qed.

(** The array after a read of [t] into it, cleared before, and the NUL stored after
    what was read, is the string [t]. *)
Lemma read_string u buf n t :
  own u buf n → 0 ∉ t → blen t < n →
  let u1 := (copy_to_user u buf t).2 in
  let u2 := ustore u1 (buf + blen t) [0] in
  c_str (uload u2 buf n) = t ∧ is_Some (strlen (uload u2 buf n)).
Proof.
  intros Ho H0t Hl u1 u2. pose proof (blen_nonneg t) as Hp.
  assert (own u1 buf n) as Ho1 by by apply own_after_copy.
  assert (own u buf (blen t)) as Hot by (eapply own_part; [done|lia..]).
  apply uload_string; [by apply own_ustore|done|done|].
  rewrite uload_app; [|apply own_ustore; eapply own_part; [done|lia..]|lia|lia]. f_equal.
  - unfold u2. rewrite uload_other by (unfold apart; lia). apply copy_to_user_ok. by apply own_copy_to.
  - apply (uload_ustore u1 (buf + blen t) [0]). eapply own_part; [done|change (blen [0]) with 1; lia..].
Qed.

Definition greeting : bytes := chars "Hello from userspace!".

(** The array write_buf after its initialisation. *)
Lemma write_buf_text (u : U) wb :
  own u wb 22 →
  let u0 := ustore u wb (lit "Hello from userspace!") in
  c_str (uload u0 wb 22) = greeting ∧ strlen (uload u0 wb 22) = Some 21 ∧ uload u0 wb 21 = greeting.
Proof.
  intros Hwb u0. assert (0 ∉ greeting) as Hnul by by apply (bool_decide_eq_true_1 _).
  destruct (uload_text u wb greeting 22 22) as [Hs0 [k0 Hk0]]; [done|done|by vm_compute|].
  change (ustore u wb (greeting ++ [0])) with u0 in Hs0, Hk0.
  assert (k0 = 21) as -> by by apply strlen_c_str in Hk0; rewrite Hs0 in Hk0.
  split; [done|]. split; [done|].
  assert (uload u0 wb 22 = greeting ++ [0]) as Hu by by apply (uload_ustore u wb (greeting ++ [0])).
  change 22 with (21 + 1) in Hu. rewrite uload_app in Hu by (done || by apply own_ustore).
  apply app_inj_1 in Hu as [Hu _]; [done|]. apply Nat2Z.inj. by apply (uload_length u0 wb 21).
Qed.

Context (mkdir : bytes → Z) (system_output : bytes → bytes).

(** What the program prints on a filesystem that works, with the listing of the
    directory it gets. *)
Definition report (ino : Z) (listing : list bytes) : list bytes :=
  [chars ("=== VFS Filesystem Test ===" +:+ nl); chars ("Mounting example_vfs at /mnt/example_vfs..." +:+ nl);
   chars ("Filesystem mounted successfully" +:+ nl); chars (nl +:+ "Testing file operations:" +:+ nl);
   chars ("Opening /mnt/example_vfs/testfile..." +:+ nl); chars ("Writing data to file..." +:+ nl);
   chars ("Wrote 21 bytes: Hello from userspace!" +:+ nl); chars ("Reading data from file..." +:+ nl);
   chars ("Read 21 bytes: Hello from userspace!" +:+ nl); chars (nl +:+ "Testing file stat..." +:+ nl);
   chars ("File size: 21 bytes" +:+ nl); chars ("File mode: 0644" +:+ nl);
   chars "File inode: " ++ dec ino ++ [10]; chars (nl +:+ "Testing directory listing:" +:+ nl);
   chars ("Contents of /mnt/example_vfs:" +:+ nl)] ++ listing ++
  [chars (nl +:+ "Unmounting filesystem..." +:+ nl); chars ("VFS test completed successfully" +:+ nl)].

(** The program gets to mount(2) exactly when both directories are there after its
    calls: mkdir made them or found them. *)
Lemma create_mnt_run dup w :
  dup ≠ NULL →
  create_dir_recursive mkdir dup (chars "/mnt") w =
    Some (if mkdir_failed mkdir (chars "/mnt") then -1 else 0, w).
Proof. intros Hd. unfold create_dir_recursive. by rewrite (proj2 (Z.eqb_neq _ _)). Qed.

Lemma list_directory_run opened (w : world U system) :
  list_directory system_output opened w =
    Some (tt, World (mem w) (dev w) (out w ++
      (if opened then [chars ("  ." +:+ nl); chars ("  .." +:+ nl); chars ("  testfile" +:+ nl)]
       else [system_output (chars "ls -la /mnt/example_vfs")]))).
Proof. by destruct opened. Qed.

(** The filesystem passes its test program, once it compiles.  Whatever inodes there are before,
    and whatever the program's arrays hold, if the kernel can mount it and has an
    inode for the file, and the directories can be made or exist, the program
    mounts, opens, writes, reads, stats and lists,
    prints that it read the 21 characters it wrote, the size 21, the mode 0644 and
    the three entries (or what the shell prints, when it cannot open the directory),
    and ends with status 0; the file then holds the text. *)
Theorem vfs_test_passes dup opened sb dir d wb rb w :
  dup ≠ NULL → mkdir_failed mkdir (chars "/mnt") = false → mkdir_failed mkdir (chars "/mnt/example_vfs") = false →
  vfs_ok (fs (dev w)) → own (mem w) wb 22 → own (mem w) rb 100 → apart wb 22 rb 100 →
  let '(r, _, s) := example_fill_super sb (fs (dev w)) in
  r = 0 → (example_get_inode (Z.lor S_IFREG 0x1a4) (allocated d s)).1 ≠ None →
  ∃ w' a ei, main mkdir system_output dup opened true sb dir d wb rb w = Some (0, w') ∧
    out w' = out w ++ report (i_ino (vfs_inode ei))
      (if opened then [chars ("  ." +:+ nl); chars ("  .." +:+ nl); chars ("  testfile" +:+ nl)]
       else [system_output (chars "ls -la /mnt/example_vfs")]) ∧
    inodes (fs (dev w')) !! a = Some ei ∧ contents ei = greeting ∧ vfs_ok (fs (dev w')).
Proof.
  intros Hdup Hd1 Hd2 Hok Hwb Hrb Hap. destruct (example_fill_super sb (fs (dev w))) as [[r sb'] s] eqn:Hmount. intros -> Hg.
  pose proof (vfs_step_ok (U := U) _ _ (step_fill_super sb (fs (dev w))) Hok) as Hok1. rewrite Hmount in Hok1. cbn [snd] in Hok1.
  assert (0 ∉ greeting) as Hnul by by apply (bool_decide_eq_true_1 _).
  unfold main. capp. rewrite (cbind_Some _ _ _ _ _ (create_mnt_run dup _ Hdup)), Hd1, Hd2. cbn [Z.ltb Z.compare]. cbn iota. capp.
  match goal with |- context [cbind (mount sb) _ ?w1] =>
    rewrite (cbind_Some _ _ w1 0 (World (mem w1) (System s (file (dev w1)) (fpos (dev w1))) (out w1))) by
      (unfold mount; cbn [dev]; by rewrite Hmount) end.
  cbn [Z.ltb Z.compare]. cbn iota. capp.
  match goal with |- context [cbind (open_file _ _ _) _ ?w1] =>
    destruct (open_file_run dir d 0x1a4 w1) as (s2 & a & ei & E & Hok2 & Ha & He); [done|done|];
    rewrite (cbind_Some _ _ _ _ _ E); clear E end.
  cbn [Z.ltb Z.compare]. cbn iota. capp.
  destruct (write_buf_text (mem w) wb Hwb) as (Hs0 & Hk0 & Hl0).
  set (u0 := ustore (mem w) wb (lit "Hello from userspace!")) in *.
  match goal with |- context [cbind (λ w, n ← strlen _; _) _ ?w1] =>
    rewrite (cbind_Some _ _ w1 21 w1) by (cbn [mem]; by rewrite Hk0) end.
  match goal with |- context [cbind (write_file _ _) _ ?w1] =>
    destruct (write_file_run a ei wb 21 w1) as (s3 & ei3 & E & Hok3 & Ha3 & Hv3 & Hc3);
      [done|done|done|apply own_ustore; apply (own_part _ wb 22); [done|lia..]|done|];
    rewrite (cbind_Some _ _ _ _ _ E); clear E end.
  cbn [mem dev fpos out] in *. rewrite Hl0 in Hc3. cbn [Z.ltb Z.compare]. cbn iota.
  rewrite (cbind_Some _ _ _ _ _ (get_str_run wb 22 (World u0 _ _) greeting Hs0 (mk_is_Some _ _ Hk0))). capp.
  match goal with |- context [cbind (lseek 0) ?f ?w1] =>
    change (cbind (lseek 0) f w1) with (f tt (World (mem w1) (System (fs (dev w1)) (file (dev w1)) 0) (out w1))) end.
  cbv beta. cbn [mem dev fs file fpos out]. capp. set (u1 := ustore u0 rb (bfill 0 100)).
  match goal with |- context [cbind (read_file _ _) _ ?w1] =>
    destruct (read_file_run a ei3 rb 99 w1) as (u2 & E & Hu2 & _);
      [done|done|done|done|rewrite Hc3; by vm_compute|rewrite Hc3; by vm_compute|
       apply own_ustore, own_ustore; apply (own_part _ rb 100); [done|lia..]|];
    rewrite (cbind_Some _ _ _ _ _ E); clear E end.
  rewrite Hc3 in *. cbn [mem] in Hu2. change (blen (c_str greeting)) with 21. change (c_str greeting) with greeting in *. cbn [Z.ltb Z.compare]. cbn iota. capp.
  destruct (read_string u1 rb 100 greeting) as [Hs2 Hk2]; [by apply own_ustore, own_ustore|done|by vm_compute|].
  rewrite <-Hu2 in Hs2, Hk2. change (blen greeting) with 21 in Hs2, Hk2.
  rewrite (cbind_Some _ _ _ _ _ (get_str_run rb 100 (World (ustore u2 (rb + 21) [0]) _ _) greeting Hs2 Hk2)). capp.
  match goal with |- context [cbind stat _ ?w1] =>
    rewrite (cbind_Some _ _ w1 (21, 0x1a4, i_ino (vfs_inode ei3)) w1) end.
  2:{ unfold stat. cbn [dev file fs mbind option_bind]. rewrite Ha3. cbn [mbind option_bind]. rewrite Hv3.
      destruct He as (_ & _ & Hmode & _). cbn [set_size i_size i_mode i_ino]. by rewrite Hmode. }
  capp. rewrite (cbind_Some _ _ _ _ _ (list_directory_run opened _)). eexists _, a, ei3. split; [reflexivity|]. cbn [out dev fs]. split_and!; [|done|exact Hc3|done].
  unfold report. cbn [out mem dev]. rewrite <-!app_assoc. reflexivity.
Qed.
End facts.

(** ** Witness: an empty filesystem of the reference core, the arrays at 4096 and
    4120; /mnt exists already *)
Definition wmkdir (path : bytes) : Z := if bool_decide (path = chars "/mnt") then - EEXIST else 0.
Definition woutput (cmd : bytes) : bytes := cmd ++ chars (": not found" +:+ nl).

Lemma vfs_test_passes_witness :
  let sb := SuperBlock 0 0 0 no_sops 0 None in
  let w := World (FlatUser 4096 (bfill 0xAA 200)) (System (Vfs ∅ ∅) None 0) [] in
  ∃ w' ino, @main flat_user ref_core _ _ wmkdir woutput 0x5000 false true sb 1 9 4096 4120 w = Some (0, w') ∧
    out w' = report ino [chars ("ls -la /mnt/example_vfs: not found" +:+ nl)].
Proof.
  intros sb w.
  pose proof (@vfs_test_passes flat_user ref_core _ _ _ _ _ wmkdir woutput 0x5000 false sb 1 9 4096 4120 w) as Ht.
  destruct (@example_fill_super ref_core sb (fs (dev w))) as [[r sb'] s] eqn:E.
  assert (r = 0 ∧ s = (@example_fill_super ref_core sb (fs (dev w))).2) as [-> ->].
  { split; [|by rewrite E]. change r with (r, sb', s).1.1. rewrite <-E. reflexivity. }
  destruct Ht as (w' & a & ei & Hm & Ho & _); [done|reflexivity|reflexivity| |reflexivity|reflexivity|unfold apart; lia|reflexivity| |].
  - apply map_Forall_empty.
  - vm_compute. discriminate.
  - exists w', (i_ino (vfs_inode ei)). split; [exact Hm|exact Ho].
Defined.
