(* ===== verification/BasicIo.v ===== *)
(** * The basic /proc and sysfs modules (class_3/01_basic_procfs, 03_sysfs_interface)

    proc_example.c: a /proc file over one kzalloc'd buffer that reads and writes
    share.  sysfs_example.c: an int and a string attribute.  Module [Reg] of each
    is loading and unloading. *)
From S2P Require Import Prelude Bytes Kernel.

(** ** proc_example.c *)
Module ProcExample.

Definition MAX_SIZE : Z := 1024.

Section handlers.
Context {U : Type} `{UserAccess U}.

Definition hello_text (pid : Z) : bytes := chars "Hello from kernel! PID: " ++ dec pid ++ [10].

(** proc_read: result, position, user memory and kernel_buffer; the count the
    reader asked for plays no part. *)
Definition proc_read (pid : Z) (kernel_buffer : bytes) (u : U) (buffer pos : Z)
    : option (Z * Z * U * bytes) :=
  if 0 <? pos then Some (0, pos, u, kernel_buffer)
  else
    '(len, kernel_buffer) ← snprintf kernel_buffer 0 MAX_SIZE (hello_text pid);
    bs ← bread kernel_buffer 0 len;
    let '(left_over, u) := copy_to_user u buffer bs in
    if negb (left_over =? 0) then Some (- EFAULT, pos, u, kernel_buffer)
    else Some (len, len, u, kernel_buffer).

Definition proc_write (kernel_buffer : bytes) (u : U) (buffer count : Z) : option (Z * bytes) :=
  if MAX_SIZE - 1 <? count then Some (- EINVAL, kernel_buffer)
  else
    let '(left_over, bs) := copy_from_user u buffer count in
    kernel_buffer ← bwrite kernel_buffer 0 bs;
    if negb (left_over =? 0) then Some (- EFAULT, kernel_buffer)
    else kernel_buffer ← bwrite kernel_buffer count [0]; Some (count, kernel_buffer).
End handlers.

Module Reg.
#[local] Open Scope kernel_scope.

Inductive call := Kzalloc (n : Z) | Kfree (p : Z) | ProcCreate (mode : Z) | ProcRemove (p : Z).
Inductive resource := Mem (p : Z) | Entry (p : Z).
#[export] Instance resource_eq : EqDecision resource.
Proof. solve_decision. Defined.
Definition acq (c : call) (r : Z) : option resource :=
  match c with
  | Kzalloc _ => if r =? NULL then None else Some (Mem r)
  | ProcCreate _ => if r =? NULL then None else Some (Entry r)
  | _ => None
  end.
Definition rel (c : call) : option resource :=
  match c with Kfree p => Some (Mem p) | ProcRemove p => Some (Entry p) | _ => None end.

Record state := State { proc_entry : Z; kernel_buffer : Z }.
Definition set_entry p s := State p (kernel_buffer s).
Definition set_buffer p s := State (proc_entry s) p.

(** Mode 438 is 0666. *)
Definition proc_init : K call state Z :=
  p <-k kcall (Kzalloc MAX_SIZE);
  kmod (set_buffer p) ;;k
  if p =? NULL then kret (- ENOMEM) else
  q <-k kcall (ProcCreate 438);
  kmod (set_entry q) ;;k
  if q =? NULL then p <-k kget kernel_buffer; kcall (Kfree p) ;;k kret (- ENOMEM) else
  kret 0.

Definition proc_exit : K call state unit :=
  q <-k kget proc_entry; p <-k kget kernel_buffer;
  kcall (ProcRemove q) ;;k kcall (Kfree p) ;;k kret tt.

Lemma proc_init_exit (e : env call) (s : state) :
  let '(ret, w) := proc_init e (KWorld s []) in
  let '(_, w') := proc_exit e w in
  (ret = - ENOMEM ∧ held_run acq rel [] (ktr w) = Some []) ∨
  (ret = 0 ∧ held_run acq rel [] (ktr w) = Some [Entry (proc_entry (kst w)); Mem (kernel_buffer (kst w))] ∧
   held_run acq rel [] (ktr w') = Some []).
Proof.
  unfold proc_init. repeat kstep; unfold proc_exit; repeat kstep; cbn [proc_entry kernel_buffer set_entry set_buffer] in *.
  1, 2: left; split; [done|]; unfold acq, rel; kheld; done.
  right. split_and!; [done| |]; unfold acq, rel; kheld; done.
Qed.
End Reg.

Section facts.
Context {U : Type} `{UserAccessLaws U}.

Lemma hello_text_short pid : is_s32 pid → (0 ∉ hello_text pid) ∧ blen (hello_text pid) < MAX_SIZE.
Proof.
  intros Hp. unfold hello_text. split.
  - rewrite !not_elem_of_app. split_and!; [by apply (bool_decide_eq_true_1 _)|apply dec_no_nul|by apply (bool_decide_eq_true_1 _)].
  - rewrite !blen_app. assert (blen (dec pid) <= 12).
    { apply (blen_dec 11); [unfold is_s32 in Hp; lia|lia]. }
    change (blen (chars "Hello from kernel! PID: ")) with 24. change (blen [10]) with 1. unfold MAX_SIZE. lia.
Qed.

(** A read at the start replies with the greeting and moves to its end, so that
    the next read is empty; a failed copy is reported and leaves the position. *)
Lemma proc_read_correct pid kb (u : U) buffer :
  blen kb = MAX_SIZE → is_s32 pid →
  ∃ kb', blen kb' = MAX_SIZE ∧ c_str kb' = hello_text pid ∧
    proc_read pid kb u buffer 0 =
      Some (if (copy_to_user u buffer (hello_text pid)).1 =? 0
            then (blen (hello_text pid), blen (hello_text pid), (copy_to_user u buffer (hello_text pid)).2, kb')
            else (- EFAULT, 0, (copy_to_user u buffer (hello_text pid)).2, kb')) ∧
    ∀ u', proc_read pid kb' u' buffer (blen (hello_text pid)) = Some (0, blen (hello_text pid), u', kb').
Proof.
  intros Hk Hp. destruct (hello_text_short pid Hp) as [Hnul Hl].
  destruct (snprintf_text kb MAX_SIZE (hello_text pid)) as (kb' & Hs & Hb & Hn & Hc); [unfold MAX_SIZE in *; lia|done|done|].
  exists kb'. split; [lia|]. split; [done|]. pose proof (blen_nonneg (hello_text pid)). split.
  - unfold proc_read. simpl. rewrite Hs. cbn [mbind option_bind].
    pose proof (c_str_le kb') as Hle. rewrite Hc in Hle. rewrite bread_Some by lia. cbn [mbind option_bind].
    change (Z.to_nat 0) with 0%nat. rewrite drop_0.
    assert (take (Z.to_nat (blen (hello_text pid))) kb' = hello_text pid) as ->.
    { unfold blen. rewrite Nat2Z.id, <-Hc. symmetry. apply c_str_take. }
    destruct (copy_to_user u buffer (hello_text pid)) as [l u']. simpl. by destruct (l =? 0).
  - intros u'. unfold proc_read. rewrite (proj2 (Z.ltb_lt _ _)); [done|].
    unfold hello_text. rewrite blen_app. change (blen (chars "Hello from kernel! PID: ")) with 24.
    pose proof (blen_nonneg (dec pid ++ [10])). lia.
Qed.

(** The basic /proc file stores what is written.  For every count and buffer a
    write stays inside the 1024-byte buffer; one of up to 1023 bytes leaves the
    user's string in it, terminated, and returns the count; a longer one is refused
    with -EINVAL and changes nothing; a failed copy gives -EFAULT. *)
Theorem proc_write_correct kb (u : U) buffer count :
  blen kb = MAX_SIZE → 0 <= count →
  ∃ r kb', proc_write kb u buffer count = Some (r, kb') ∧ blen kb' = MAX_SIZE ∧
    if MAX_SIZE <=? count then r = - EINVAL ∧ kb' = kb
    else if (copy_from_user u buffer count).1 =? 0
      then r = count ∧ c_str kb' = c_str (uload u buffer count) ∧ 0 ∈ kb'
      else r = - EFAULT.
Proof.
  intros Hk Hc. unfold proc_write.
  destruct (Z.ltb_spec (MAX_SIZE - 1) count), (Z.leb_spec MAX_SIZE count); try lia; [by eauto 10|].
  pose proof (copy_from_user_length u buffer count Hc) as Hl. pose proof (copy_from_user_ok u buffer count Hc) as Hok.
  destruct (copy_from_user u buffer count) as [l bs]. simpl in *.
  destruct (store_terminated kb bs) as (b1 & b2 & E1 & E2 & Hs); [lia|]. rewrite E1. simpl.
  pose proof (bwrite_length _ _ _ _ E1) as L1. pose proof (bwrite_length _ _ _ _ E2) as L2.
  destruct (Z.eqb_spec l 0) as [->|]; simpl.
  - rewrite Hl in E2. rewrite E2. simpl. do 2 eexists. split; [done|]. split; [lia|]. split; [done|].
    split; [by rewrite Hs, Hok|]. apply bwrite_inv in E2 as (_ & _ & ->). set_solver.
  - do 2 eexists. split; [done|]. split; [lia|done].
Qed.
End facts.

Lemma proc_write_correct_witness :
  ∃ kb', proc_write (bfill 0 1024) (FlatUser 1000 (chars "hi")) 1000 2 = Some (2, kb') ∧ c_str kb' = chars "hi".
Proof.
  destruct (proc_write_correct (bfill 0 1024) (FlatUser 1000 (chars "hi")) 1000 2) as (r & kb' & E & _ & Hr & Hc & _);
    [reflexivity|lia|]. exists kb'. rewrite Hr in E. split; [exact E|]. rewrite Hc. vm_compute. reflexivity.
Defined.
End ProcExample.

(** ** sysfs_example.c *)
Module SysfsExample.

Definition STRING_SIZE : Z := 64.

Record state := State { example_value : Z; example_string : bytes }.
Definition init_state : state := State 0 (lit "default" ++ bfill 0 56).

Section handlers.
(** kstrtoint: the value, or a negative error code. *)
Context (kstrtoint : bytes → Z + Z).

Definition value_show (s : state) (buf : bytes) : option (Z * bytes) :=
  sprintf buf 0 (dec (example_value s) ++ [10]).
Definition value_store (s : state) (buf : bytes) (count : Z) : Z * state :=
  match kstrtoint buf with
  | inl ret => (ret, s)
  | inr v => (count, State v (example_string s))
  end.
End handlers.

Definition string_show (s : state) (buf : bytes) : option (Z * bytes) :=
  _ ← strlen (example_string s);
  sprintf buf 0 (c_str (example_string s) ++ [10]).

(** An access at index -1, which count 0 makes, is undefined. *)
Definition string_store (s : state) (buf : bytes) (count : Z) : option (Z * state) :=
  if STRING_SIZE <=? count then Some (- EINVAL, s)
  else
    bs ← strncpy_bytes buf count;
    b ← bwrite (example_string s) 0 bs;
    b ← bwrite b (count - 1) [0];
    Some (count, State (example_value s) b).

Module Reg.
#[local] Open Scope kernel_scope.

Inductive call := KobjectCreate | SysfsCreateGroup (p : Z) | SysfsRemoveGroup (p : Z) | KobjectPut (p : Z).
Inductive resource := Kobj (p : Z) | Group (p : Z).
#[export] Instance resource_eq : EqDecision resource.
Proof. solve_decision. Defined.
Definition acq (c : call) (r : Z) : option resource :=
  match c with
  | KobjectCreate => if r =? NULL then None else Some (Kobj r)
  | SysfsCreateGroup p => if r =? 0 then Some (Group p) else None
  | _ => None
  end.
Definition rel (c : call) : option resource :=
  match c with SysfsRemoveGroup p => Some (Group p) | KobjectPut p => Some (Kobj p) | _ => None end.

(** The state is example_kobj. *)
Definition sysfs_example_init : K call Z Z :=
  p <-k kcall KobjectCreate;
  kmod (λ _, p) ;;k
  if p =? NULL then kret (- ENOMEM) else
  retval <-k kcall (SysfsCreateGroup p);
  if negb (retval =? 0) then kcall (KobjectPut p) ;;k kret retval else
  kret 0.

Definition sysfs_example_exit : K call Z unit :=
  p <-k kget id; kcall (SysfsRemoveGroup p) ;;k kcall (KobjectPut p) ;;k kret tt.

Lemma sysfs_example_init_exit (e : env call) (s : Z) :
  let '(ret, w) := sysfs_example_init e (KWorld s []) in
  let '(_, w') := sysfs_example_exit e w in
  (ret ≠ 0 ∧ held_run acq rel [] (ktr w) = Some []) ∨
  (ret = 0 ∧ held_run acq rel [] (ktr w) = Some [Group (kst w); Kobj (kst w)] ∧ held_run acq rel [] (ktr w') = Some []).
Proof.
  unfold sysfs_example_init. repeat kstep; unfold sysfs_example_exit; repeat kstep; cbn [id] in *.
  - left. split; [done|]. unfold acq, rel. by kheld.
  - left. split; [by zbool|]. unfold acq, rel. by kheld.
  - right. split; [done|]. unfold acq, rel. by kheld.
Qed.
End Reg.

Definition state_ok (s : state) : Prop := blen (example_string s) = STRING_SIZE ∧ 0 ∈ example_string s.

(** A store keeps all characters but the last, whatever it is. *)
Lemma string_store_spec s buf count :
  state_ok s → 1 <= count < STRING_SIZE → 0 ∈ buf →
  ∃ s', string_store s buf count = Some (count, s') ∧ state_ok s' ∧ example_value s' = example_value s ∧
    c_str (example_string s') = take (Z.to_nat (count - 1)) (c_str buf).
Proof.
  unfold STRING_SIZE. intros [Hl _] Hc Hn. unfold string_store. rewrite (proj2 (Z.leb_gt _ _)) by (unfold STRING_SIZE; lia).
  unfold strncpy_bytes. rewrite bool_decide_eq_true_2 by (by left). cbn [mbind option_bind].
  set (bs := resize (Z.to_nat count) 0 (c_str buf)).
  assert (length bs = Z.to_nat count) as Hb by apply length_resize. unfold STRING_SIZE in Hl.
  destruct (bwrite (example_string s) 0 bs) as [b1|] eqn:E1; cycle 1.
  { apply eq_None_not_Some in E1. destruct E1. apply bwrite_is_Some. unfold blen in *. lia. }
  pose proof (bwrite_length _ _ _ _ E1) as L1. cbn [mbind option_bind].
  destruct (bwrite b1 (count - 1) [0]) as [b2|] eqn:E2; cycle 1.
  { apply eq_None_not_Some in E2. destruct E2. apply bwrite_is_Some. change (blen [0]) with 1. lia. }
  pose proof (bwrite_length _ _ _ _ E2) as L2. cbn [mbind option_bind].
  eexists. split; [done|]. apply bwrite_inv in E1 as (_ & _ & ->). apply bwrite_inv in E2 as (_ & _ & E2).
  split; [split; [simpl; unfold STRING_SIZE; lia|simpl; rewrite E2; set_solver]|]. split; [done|]. simpl.
  rewrite E2. change (Z.to_nat 0) with 0%nat. rewrite take_0, app_nil_l, take_app_le by lia. simpl.
  rewrite c_str_app_nul_c_str.
  assert (take (Z.to_nat (count - 1)) bs = resize (Z.to_nat (count - 1)) 0 (c_str buf)) as ->.
  { unfold bs. apply take_resize_le. lia. }
  rewrite <-(c_str_app_nul_c_str _ []). apply c_str_strncpy, c_str_no_nul.
Qed.

Lemma string_show_spec s buf :
  state_ok s → blen buf = PAGE_SIZE →
  ∃ buf', string_show s buf = Some (blen (c_str (example_string s)) + 1, buf') ∧
    c_str buf' = c_str (example_string s) ++ [10].
Proof.
  intros [Hl Hn] Hb. unfold string_show. destruct (strlen_is_Some _ Hn) as [k ->]. cbn [mbind option_bind].
  pose proof (c_str_le (example_string s)). set (t := c_str (example_string s)) in *. unfold sprintf.
  destruct (bwrite buf 0 ((t ++ [10]) ++ [0])) as [b|] eqn:E; cycle 1.
  { apply eq_None_not_Some in E. destruct E. apply bwrite_is_Some. rewrite !blen_app.
    change (blen [10]) with 1. change (blen [0]) with 1. unfold STRING_SIZE, PAGE_SIZE in *. lia. }
  cbn [mbind option_bind]. exists b. split; [by rewrite blen_app|].
  apply bwrite_inv in E as (_ & _ & ->). change (Z.to_nat 0) with 0%nat. rewrite take_0, app_nil_l, <-(app_assoc (t ++ [10])).
  simpl. apply c_str_app_nul. rewrite not_elem_of_app. split; [apply c_str_no_nul|].
  intros Hin. apply elem_of_cons in Hin as [Hz|Hin]; [done|by apply elem_of_nil in Hin].
Qed.

(** The string attribute gives back the line that was stored.  Storing a line
    of up to 62 characters and showing the attribute, the show replies with that
    line, whatever was stored before and whatever the page held. *)
Theorem string_store_show s line buf rest page :
  state_ok s → 0 ∉ line → blen line <= 62 → buf = line ++ [10; 0] ++ rest → blen page = PAGE_SIZE →
  ∃ s' page', string_store s buf (blen line + 1) = Some (blen line + 1, s') ∧ state_ok s' ∧
    string_show s' page = Some (blen line + 1, page') ∧ c_str page' = line ++ [10].
Proof.
  intros Hs Hn Hl -> Hp. pose proof (blen_nonneg line).
  destruct (string_store_spec s (line ++ [10; 0] ++ rest) (blen line + 1)) as (s' & E & Hs' & _ & Hc);
    [done|unfold STRING_SIZE; lia|set_solver|].
  replace (line ++ [10; 0] ++ rest) with ((line ++ [10]) ++ 0 :: rest) in Hc by (by rewrite <-app_assoc).
  assert (0 ∉ line ++ [10]) as Hn'.
  { rewrite not_elem_of_app. split; [done|]. intros Hin. apply elem_of_cons in Hin as [Hz|Hin]; [done|by apply elem_of_nil in Hin]. }
  rewrite (c_str_app_nul _ _ Hn'), take_app_exact in Hc by (unfold blen; lia).
  destruct (string_show_spec s' page Hs' Hp) as (page' & Es & Hcp). rewrite Hc in *. eauto 10.
Qed.

(** The store removes the last character even when it is not a newline: a line
    written without one loses its last letter.  A count of 0, which sysfs does not
    pass on, would make it write before the string. *)
Theorem string_store_drops_last s line c buf rest :
  state_ok s → 0 ∉ line → c ≠ 0 → blen line <= 62 → buf = line ++ [c; 0] ++ rest →
  (∃ s', string_store s buf (blen line + 1) = Some (blen line + 1, s') ∧ c_str (example_string s') = line) ∧
  string_store s buf 0 = None.
Proof.
  intros Hs Hn Hc0 Hl ->. pose proof (blen_nonneg line). split.
  - destruct (string_store_spec s (line ++ [c; 0] ++ rest) (blen line + 1)) as (s' & E & Hs' & _ & Hc);
      [done|unfold STRING_SIZE; lia|set_solver|].
    exists s'. split; [done|]. rewrite Hc.
    replace (line ++ [c; 0] ++ rest) with ((line ++ [c]) ++ 0 :: rest) by (by rewrite <-app_assoc).
    rewrite c_str_app_nul, take_app_exact by (rewrite ?not_elem_of_app; unfold blen; try lia; set_solver). done.
  - unfold string_store. change (STRING_SIZE <=? 0) with false. cbv iota.
    unfold strncpy_bytes. rewrite bool_decide_eq_true_2 by (left; set_solver). cbn [mbind option_bind].
    destruct (bwrite _ 0 _) as [b|]; [|done]. cbn [mbind option_bind].
    unfold bwrite. rewrite bool_decide_eq_false_2; [done|]. lia.
Qed.

(** Storing the text of an int and showing the attribute prints it; a text that is
    no int changes nothing. *)
Lemma value_store_show kstrtoint s buf count page :
  blen page = PAGE_SIZE → (∀ v, kstrtoint buf = inr v → is_s32 v) →
  match kstrtoint buf with
  | inl ret => value_store kstrtoint s buf count = (ret, s)
  | inr v =>
      ∃ s' page', value_store kstrtoint s buf count = (count, s') ∧ example_string s' = example_string s ∧
        value_show s' page = Some (blen (dec v) + 1, page') ∧ c_str page' = dec v ++ [10]
  end.
Proof.
  intros Hp Hv. unfold value_store. destruct (kstrtoint buf) as [ret|v] eqn:E; [done|].
  assert (blen (dec v) <= 12) as Hl.
  { specialize (Hv v eq_refl). apply (blen_dec 11); [unfold is_s32 in Hv; lia|lia]. }
  exists (State v (example_string s)). unfold value_show, sprintf. cbn [example_value example_string].
  destruct (bwrite page 0 ((dec v ++ [10]) ++ [0])) as [b|] eqn:Eb; cycle 1.
  { apply eq_None_not_Some in Eb. destruct Eb. apply bwrite_is_Some. rewrite !blen_app.
    change (blen [10]) with 1. change (blen [0]) with 1. unfold PAGE_SIZE in *. lia. }
  cbn [mbind option_bind]. exists b. split; [done|]. split; [done|]. split; [by rewrite blen_app|].
  apply bwrite_inv in Eb as (_ & _ & ->). change (Z.to_nat 0) with 0%nat.
  rewrite take_0, app_nil_l, <-(app_assoc (dec v ++ [10])). simpl.
  apply c_str_app_nul. rewrite not_elem_of_app. split; [apply dec_no_nul|by apply (bool_decide_eq_true_1 _)].
Qed.

Lemma init_state_ok : state_ok init_state.
Proof. split; [reflexivity|by apply (bool_decide_eq_true_1 _)]. Qed.

Lemma string_store_show_witness :
  ∃ s' page', string_store init_state (chars "course" ++ [10; 0] ++ bfill 3 20) 7 = Some (7, s') ∧
    string_show s' (bfill 1 4096) = Some (7, page') ∧ c_str page' = chars "course" ++ [10].
Proof.
  destruct (string_store_show init_state (chars "course") _ (bfill 3 20) (bfill 1 4096) init_state_ok
    ltac:(by apply (bool_decide_eq_true_1 _)) ltac:(by vm_compute) eq_refl eq_refl) as (s' & page' & E1 & _ & E2 & E3).
  exists s', page'. split; [exact E1|]. split; [exact E2|exact E3].
Defined.

Lemma string_store_drops_last_witness :
  ∃ s', string_store init_state (chars "abc" ++ [0]) 3 = Some (3, s') ∧ c_str (example_string s') = chars "ab".
Proof.
  exact (proj1 (string_store_drops_last init_state (chars "ab") 99 _ [] init_state_ok
    ltac:(by apply (bool_decide_eq_true_1 _)) ltac:(by vm_compute) ltac:(by vm_compute) eq_refl)).
Defined.
End SysfsExample.
