(* ===== verification/TaskInfo.v ===== *)
(** * The task-listing modules (labs/lab1) and the architecture demo (class_4/02_arch_demo)

    process_info.c lists the tasks in a /proc file, task_monitor.c describes one
    task in the kernel log, arch_demo.c describes the processors in a /proc file.
    What they read of the kernel - the tasks, the state bits, the processors - are
    parameters; what they print, and in which order, is modelled.  The log is the
    only output of task_monitor.c, so that here log lines are modelled. *)
From S2P Require Import Prelude Bytes Kernel.

(** ** Tasks and their states *)

(** struct task_struct, the fields that are read. *)
Record task := Task {
  t_pid : Z; t_comm : bytes; t_state : Z; t_policy : Z; t_parent : option (bytes * Z);
  t_prio : Z; t_static_prio : Z; t_normal_prio : Z; t_rt_priority : Z; t_nice : Z;
  t_pgrp : Z; t_tgid : Z; t_mm : option (Z * Z); t_uid : Z; t_gid : Z
}.

(** The state bits and policies of include/linux/sched.h and
    include/uapi/linux/sched.h.  A running task has no bit set. *)
Class TaskStates := {
  TASK_RUNNING : Z; TASK_INTERRUPTIBLE : Z; TASK_UNINTERRUPTIBLE : Z; TASK_STOPPED : Z;
  TASK_TRACED : Z; EXIT_ZOMBIE : Z; EXIT_DEAD : Z
}.
Class TaskStatesLaws `{TaskStates} := {
  TASK_RUNNING_zero : TASK_RUNNING = 0;
  TASK_INTERRUPTIBLE_one : TASK_INTERRUPTIBLE = 1;
  TASK_UNINTERRUPTIBLE_two : TASK_UNINTERRUPTIBLE = 2
}.
Definition SCHED_NORMAL : Z := 0.
Definition SCHED_FIFO : Z := 1.
Definition SCHED_RR : Z := 2.
Definition SCHED_BATCH : Z := 3.
Definition SCHED_IDLE : Z := 5.
Definition SCHED_DEADLINE : Z := 6.

(** A field printed with %-ns. *)
Definition pad (n : nat) (s : bytes) : bytes := s ++ replicate (n - length s) 32.
Definition tab : bytes := [9].
Definition newline : bytes := [10].

(** ** process_info.c *)
Module ProcessInfo.
Section show.
Context `{TaskStates}.

Definition get_policy_name (policy : Z) : string :=
  if policy =? SCHED_NORMAL then "SCHED_NORMAL/OTHER"
  else if policy =? SCHED_FIFO then "SCHED_FIFO"
  else if policy =? SCHED_RR then "SCHED_RR"
  else if policy =? SCHED_BATCH then "SCHED_BATCH"
  else if policy =? SCHED_IDLE then "SCHED_IDLE"
  else if policy =? SCHED_DEADLINE then "SCHED_DEADLINE"
  else "unknown".

Definition get_state_name (state : Z) : string :=
  if negb (Z.land state TASK_RUNNING =? 0) then "TASK_RUNNING"
  else if negb (Z.land state TASK_INTERRUPTIBLE =? 0) then "TASK_INTERRUPTIBLE"
  else if negb (Z.land state TASK_UNINTERRUPTIBLE =? 0) then "TASK_UNINTERRUPTIBLE"
  else if negb (Z.land state TASK_STOPPED =? 0) then "TASK_STOPPED"
  else if negb (Z.land state TASK_TRACED =? 0) then "TASK_TRACED"
  else if negb (Z.land state EXIT_ZOMBIE =? 0) then "EXIT_ZOMBIE"
  else if negb (Z.land state EXIT_DEAD =? 0) then "EXIT_DEAD"
  else "unknown".

(** task->parent->pid, undefined when there is no parent. *)
Definition parent_pid (t : task) : option Z := '(_, p) ← t_parent t; Some p.

Definition show_task (t : task) : option bytes :=
  ppid ← parent_pid t;
  Some (pad 5 (dec (t_pid t)) ++ [32] ++ pad 5 (dec ppid) ++ [32] ++
        pad 15 (chars (get_state_name (t_state t))) ++ [32] ++ pad 15 (chars (get_policy_name (t_policy t))) ++ [32] ++
        pad 5 (dec (t_prio t)) ++ [32] ++ pad 5 (dec (t_nice t)) ++ [32] ++ t_comm t ++ newline).

(** proc_show, over the tasks for_each_process visits. *)
Definition proc_show (tasks : list task) : option bytes :=
  rows ← mapM show_task tasks;
  Some (chars "======= Process Information =======" ++ newline ++
        pad 5 (chars "PID") ++ [32] ++ pad 5 (chars "PPID") ++ [32] ++ pad 15 (chars "STATE") ++ [32] ++
        pad 15 (chars "POLICY") ++ [32] ++ pad 5 (chars "PRIO") ++ [32] ++ pad 5 (chars "NICE") ++ [32] ++
        chars "NAME" ++ newline ++
        concat rows ++ chars "=================================" ++ newline).

(** print_process_info_to_dmesg: its lines. *)
Definition log_task (t : task) : option bytes :=
  ppid ← parent_pid t;
  Some (dec (t_pid t) ++ tab ++ dec ppid ++ tab ++ pad 15 (chars (get_state_name (t_state t))) ++ tab ++
        pad 15 (chars (get_policy_name (t_policy t))) ++ tab ++ t_comm t ++ newline).
Definition print_process_info_to_dmesg (tasks : list task) : option (list bytes) :=
  rows ← mapM log_task tasks;
  Some ([chars "======= Process Information (dmesg output) =======" ++ newline;
         chars "PID" ++ tab ++ chars "PPID" ++ tab ++ chars "STATE" ++ tab ++ tab ++ chars "POLICY" ++ tab ++ tab ++ chars "NAME" ++ newline]
        ++ rows ++ [chars "=================================================" ++ newline]).
End show.
End ProcessInfo.

(** ** task_monitor.c *)
Module TaskMonitor.
Section monitor.
Context `{TaskStates}.

(** The two name functions are those of process_info.c, line by line. *)
Definition get_state_name : Z → string := ProcessInfo.get_state_name.
Definition get_policy_name : Z → string := ProcessInfo.get_policy_name.

(** The lines of the loop over the children, from [child_count] on. *)
Fixpoint print_children (child_count : Z) (children : list task) : list bytes * Z :=
  match children with
  | [] => ([], child_count)
  | c :: cs =>
      let child_count := s32 (child_count + 1) in
      let '(lines, n) := print_children child_count cs in
      ((chars "  Child " ++ dec child_count ++ chars ": " ++ t_comm c ++ chars " (PID: " ++ dec (t_pid c) ++
        chars ", State: " ++ chars (get_state_name (t_state c)) ++ chars ")" ++ newline) :: lines, n)
  end.

(** The text of an unsigned long under %lx: [Bytes.hex]. *)
Definition monitor_process (find : Z → option (task * list task)) (target_pid : Z) : Z * list bytes :=
  match find target_pid with
  | None => (- ESRCH, [chars "Process with PID " ++ dec target_pid ++ chars " not found" ++ newline])
  | Some (t, children) =>
      let '(child_lines, child_count) := print_children 0 children in
      (0,
       [chars "==== Detailed Process Information for PID " ++ dec target_pid ++ chars " ====" ++ newline;
        chars "Name: " ++ t_comm t ++ newline;
        chars "State: " ++ chars (get_state_name (t_state t)) ++ chars " (0x" ++ chars (hex (u64 (t_state t))) ++ chars ")" ++ newline;
        chars "Process group: " ++ dec (t_pgrp t) ++ newline;
        chars "Session ID: " ++ dec (t_tgid t) ++ newline] ++
       match t_parent t with
       | Some (comm, pid) => [chars "Parent: " ++ comm ++ chars " (PID: " ++ dec pid ++ chars ")" ++ newline]
       | None => []
       end ++
       [newline ++ chars "Child processes:" ++ newline] ++ child_lines ++
       (if child_count =? 0 then [chars "  No child processes" ++ newline] else []) ++
       [newline ++ chars "Scheduling Information:" ++ newline;
        chars "  Policy: " ++ chars (get_policy_name (t_policy t)) ++ newline;
        chars "  Priority: " ++ dec (t_prio t) ++ newline;
        chars "  Static priority: " ++ dec (t_static_prio t) ++ newline;
        chars "  Normal priority: " ++ dec (t_normal_prio t) ++ newline;
        chars "  RT priority: " ++ dec (t_rt_priority t) ++ newline;
        chars "  Nice value: " ++ dec (t_nice t) ++ newline;
        newline ++ chars "Memory Information:" ++ newline] ++
       match t_mm t with
       | Some (total_vm, stack_vm) =>
           [chars "  Total virtual memory: " ++ dec (u64 (total_vm * (PAGE_SIZE / 1024))) ++ chars " KB" ++ newline;
            chars "  Stack size: " ++ dec (u64 (stack_vm * (PAGE_SIZE / 1024))) ++ chars " KB" ++ newline]
       | None => [chars "  Kernel thread (no mm_struct)" ++ newline]
       end ++
       [newline ++ chars "Security Information:" ++ newline;
        chars "  User ID: " ++ dec (t_uid t) ++ newline;
        chars "  Group ID: " ++ dec (t_gid t) ++ newline;
        chars "==== End of Process Information ====" ++ newline])
  end.

(** Loading fails when there is no such process. *)
Definition task_monitor_init (find : Z → option (task * list task)) (pid : Z) : Z :=
  (monitor_process find pid).1.
End monitor.
End TaskMonitor.

(** ** arch_demo.c *)
Module ArchDemo.

(** The configuration the kernel is built for. *)
Inductive arch_config := CONFIG_X86_64 | CONFIG_ARM64 | CONFIG_ARM | CONFIG_OTHER.
Definition get_arch_info (c : arch_config) : string :=
  match c with
  | CONFIG_X86_64 => "x86_64 (APIC architecture)"
  | CONFIG_ARM64 => "ARM64 (GIC architecture)"
  | CONFIG_ARM => "ARM (GIC architecture)"
  | CONFIG_OTHER => "Unknown architecture"
  end.

(** The result, and the log line.  num_online_cpus is unsigned: the comparison
    converts target_cpu. *)
Definition demo_irq_affinity (num_online_cpus irq target_cpu : Z) : Z * list bytes :=
  if u32 num_online_cpus <=? u32 target_cpu then (- EINVAL, [])
  else (0, [chars "Setting IRQ " ++ dec irq ++ chars " affinity to CPU " ++ dec target_cpu ++ newline]).

Definition send_ipi_demo (target_cpu : Z) : bytes :=
  chars "Sending IPI to CPU " ++ dec target_cpu ++ chars " (simulated)" ++ newline.

(** The text of the file, and what showing it logs: the results of the two
    affinity calls are not looked at.  The reader stays on one CPU. *)
Definition arch_show (c : arch_config) (num_online_cpus smp_processor_id : Z) (online : list Z) : bytes * list bytes :=
  (chars "=== Architecture Demo ===" ++ newline ++ newline ++
   chars "Architecture: " ++ chars (get_arch_info c) ++ newline ++
   chars "Number of CPUs: " ++ dec num_online_cpus ++ newline ++
   chars "Current CPU: " ++ dec smp_processor_id ++ newline ++
   newline ++ chars "Online CPUs: " ++ concat ((λ cpu, dec cpu ++ [32]) <$> online) ++ newline ++
   newline ++ chars "IRQ Affinity Demo:" ++ newline ++ newline ++ chars "IPI Demo:" ++ newline,
   (demo_irq_affinity num_online_cpus 16 0).2 ++ (demo_irq_affinity num_online_cpus 17 1).2 ++
   (send_ipi_demo <$> filter (λ cpu, negb (cpu =? smp_processor_id)) online)).

(** An affinity is refused exactly for the CPU numbers that are not below the
    number of CPUs, negative ones included. *)
Lemma demo_irq_affinity_spec n irq cpu :
  0 <= n < 2^31 → is_s32 cpu →
  demo_irq_affinity n irq cpu =
    if bool_decide (0 <= cpu < n)
    then (0, [chars "Setting IRQ " ++ dec irq ++ chars " affinity to CPU " ++ dec cpu ++ newline])
    else (- EINVAL, []).
Proof.
  intros Hn Hc. unfold demo_irq_affinity. unfold is_s32 in Hc.
  rewrite (u32_small n) by (unfold is_u32; lia).
  destruct (decide (0 <= cpu)).
  - rewrite (u32_small cpu) by (unfold is_u32; lia).
    case_bool_decide; destruct (Z.leb_spec n cpu); try done; lia.
  - assert (u32 cpu = cpu + 2^32) as -> by (unfold u32; Z.to_euclidean_division_equations; lia).
    rewrite bool_decide_eq_false_2 by lia. by rewrite (proj2 (Z.leb_le _ _)) by lia.
Qed.

Lemma length_others self (l : list Z) :
  NoDup l → length (filter (λ cpu, negb (cpu =? self)) l) = (length l - if bool_decide (self ∈ l) then 1 else 0)%nat.
Proof.
  induction 1 as [|x l Hx _ IH]; [done|]. rewrite filter_cons. destruct (Z.eqb_spec x self) as [->|Hne]; simpl.
  - rewrite IH, bool_decide_eq_false_2 by done. rewrite bool_decide_eq_true_2 by set_solver. lia.
  - rewrite IH. destruct (decide (self ∈ l)) as [Hin|Hin].
    + rewrite !bool_decide_eq_true_2 by set_solver. destruct l; [by apply elem_of_nil in Hin|]. simpl. lia.
    + rewrite !bool_decide_eq_false_2 by set_solver. lia.
Qed.

(** What showing the file logs: the affinity of interrupt 17 is set only if there
    is a second CPU, and one interrupt is announced to every other CPU. *)
Theorem arch_show_log c n self (online : list Z) :
  1 <= n < 2^31 → NoDup online → self ∈ online → n = Z.of_nat (length online) →
  length (arch_show c n self online).2 = (length online + (if decide (n = 1%Z) then 0 else 1))%nat.
Proof.
  intros Hn Hnd Hin Hl. unfold arch_show. cbn [snd].
  rewrite (demo_irq_affinity_spec n 16 0), (demo_irq_affinity_spec n 17 1) by (unfold is_s32; lia).
  rewrite bool_decide_eq_true_2 by lia. rewrite !length_app, length_fmap.
  rewrite length_others, (bool_decide_eq_true_2 (self ∈ online)) by done.
  destruct online; [simpl in Hl; lia|]. destruct (decide (n = 1)).
  - rewrite bool_decide_eq_false_2 by lia. simpl. lia.
  - rewrite bool_decide_eq_true_2 by lia. simpl. lia.
Qed.
End ArchDemo.

(** ** Registration of the two files *)
Module Reg.
#[local] Open Scope kernel_scope.
Inductive call := ProcCreate (mode : Z) | ProcRemove (p : Z).
Definition acq (c : call) (r : Z) : option Z :=
  match c with ProcCreate _ => if r =? NULL then None else Some r | _ => None end.
Definition rel (c : call) : option Z := match c with ProcRemove p => Some p | _ => None end.

(** process_info_init and process_info_exit; the state is proc_file, and the
    tasks are those at load.  [None]: the listing is undefined. *)
Definition process_info_init `{TaskStates} (tasks : list task) : K call Z (option Z) :=
  p <-k kcall (ProcCreate 420); kmod (λ _, p) ;;k
  if p =? NULL then kret (Some (- ENOMEM))
  else match ProcessInfo.print_process_info_to_dmesg tasks with Some _ => kret (Some 0) | None => kret None end.
Definition process_info_exit : K call Z unit := p <-k kget id; kcall (ProcRemove p) ;;k kret tt.

Definition arch_demo_init : K call Z Z :=
  p <-k kcall (ProcCreate 292); kmod (λ _, p) ;;k if p =? NULL then kret (- ENOMEM) else kret 0.
Definition arch_demo_exit : K call Z unit := p <-k kget id; kcall (ProcRemove p) ;;k kret tt.

Lemma arch_demo_init_exit (e : env call) (s : Z) :
  let '(ret, w) := arch_demo_init e (KWorld s []) in
  let '(_, w') := arch_demo_exit e w in
  (ret = - ENOMEM ∧ held_run acq rel [] (ktr w) = Some []) ∨
  (ret = 0 ∧ held_run acq rel [] (ktr w) = Some [kst w] ∧ held_run acq rel [] (ktr w') = Some []).
Proof.
  unfold arch_demo_init. repeat kstep; unfold arch_demo_exit; repeat kstep; cbn [id].
  - left. split; [done|]. unfold acq, rel. by kheld.
  - right. split; [done|]. unfold acq, rel. by kheld.
Qed.

Lemma process_info_init_exit `{TaskStates} tasks (e : env call) (s : Z) :
  Forall (λ t, is_Some (t_parent t)) tasks →
  let '(ret, w) := process_info_init tasks e (KWorld s []) in
  let '(_, w') := process_info_exit e w in
  (ret = Some (- ENOMEM) ∧ held_run acq rel [] (ktr w) = Some []) ∨
  (ret = Some 0 ∧ held_run acq rel [] (ktr w) = Some [kst w] ∧ held_run acq rel [] (ktr w') = Some []).
Proof.
  intros Ht. unfold process_info_init.
  assert (∃ l, ProcessInfo.print_process_info_to_dmesg tasks = Some l) as [l ->].
  { unfold ProcessInfo.print_process_info_to_dmesg.
    destruct (mapM ProcessInfo.log_task tasks) as [rows|] eqn:E; [by eexists|]. exfalso.
    apply eq_None_not_Some in E. apply E, mapM_is_Some_2. eapply Forall_impl; [exact Ht|].
    intros t [[c p] Hp]. unfold ProcessInfo.log_task, ProcessInfo.parent_pid. cbn. rewrite Hp. by eexists. }
  repeat kstep; unfold process_info_exit; repeat kstep; cbn [id].
  - left. split; [done|]. unfold acq, rel. by kheld.
  - right. split; [done|]. unfold acq, rel. by kheld.
Qed.
End Reg.

(** ** What the names say *)
Section facts.
Context `{TaskStatesLaws}.

(** Running tasks are reported as unknown.  TASK_RUNNING is no bit, so that
    get_state_name never answers TASK_RUNNING, and for a task that is running
    it answers unknown; interruptible and uninterruptible sleepers get their names,
    whatever modifier bits are set. *)
Theorem running_is_unknown state :
  ProcessInfo.get_state_name state ≠ "TASK_RUNNING" ∧
  ProcessInfo.get_state_name TASK_RUNNING = "unknown" ∧
  (Z.testbit state 0 = true → ProcessInfo.get_state_name state = "TASK_INTERRUPTIBLE") ∧
  (Z.testbit state 0 = false → Z.testbit state 1 = true → ProcessInfo.get_state_name state = "TASK_UNINTERRUPTIBLE").
Proof.
  unfold ProcessInfo.get_state_name.
  rewrite TASK_RUNNING_zero, TASK_INTERRUPTIBLE_one, TASK_UNINTERRUPTIBLE_two, Z.land_0_r, !Z.land_0_l.
  cbn [Z.eqb negb].
  assert (∀ k, 0 <= k → (Z.land state (2^k) =? 0) = negb (Z.testbit state k)) as Hb.
  { intros k Hk. destruct (Z.testbit state k) eqn:E; simpl.
    - apply Z.eqb_neq. intros Hz. apply (f_equal (λ z, Z.testbit z k)) in Hz.
      rewrite Z.land_spec, E, Z.pow2_bits_true, Z.bits_0 in Hz by done. done.
    - apply Z.eqb_eq, Z.bits_inj'. intros n Hn. rewrite Z.land_spec, Z.bits_0.
      destruct (decide (n = k)) as [->|Hne]; [by rewrite E|].
      rewrite Z.pow2_bits_false by done. apply andb_false_r. }
  pose proof (Hb 0 ltac:(done)) as H0'. pose proof (Hb 1 ltac:(done)) as H1'. change (2^0) with 1 in H0'. change (2^1) with 2 in H1'.
  rewrite H0', H1', !negb_involutive. split; [by split_ifs|]. split; [done|].
  split; [by intros ->|by intros -> ->].
Qed.

(** The children are numbered from 1, in order; none are announced exactly when
    there are none. *)
Lemma print_children_numbers n cs :
  0 <= n → n + Z.of_nat (length cs) < 2^31 →
  (TaskMonitor.print_children n cs).2 = n + Z.of_nat (length cs) ∧
  length (TaskMonitor.print_children n cs).1 = length cs ∧
  ∀ i l, (TaskMonitor.print_children n cs).1 !! i = Some l →
    chars "  Child " ++ dec (n + 1 + Z.of_nat i) ++ chars ": " `prefix_of` l.
Proof.
  revert n. induction cs as [|c cs IH]; intros n Hn Hl; [simpl; split_and!; [lia|done|done]|].
  cbn [TaskMonitor.print_children]. rewrite s32_small by (unfold is_s32; cbn [length] in Hl; lia).
  cbn [length] in Hl. destruct (IH (n + 1)) as (H1' & H2' & H3'); [lia|lia|].
  destruct (TaskMonitor.print_children (n + 1) cs) as [ls k]. cbn [fst snd length] in *.
  split; [lia|]. split; [by rewrite H2'|]. intros [|i] l; cbn [lookup list_lookup].
  - intros Hi. apply (inj Some) in Hi. rewrite <-Hi, Z.add_0_r. do 2 apply prefix_app. by apply prefix_app_r.
  - intros Hi. apply H3' in Hi. by replace (n + 1 + Z.of_nat (S i)) with (n + 1 + 1 + Z.of_nat i) by lia.
Qed.

(** The monitor describes the task it was asked for.  It fails with -ESRCH,
    and so does loading, exactly when there is no such task; otherwise it logs one
    line per child, numbered from 1 in the order of the list, after the heading,
    or says that there are none. *)
Theorem monitor_process_correct find pid :
  match find pid with
  | None => TaskMonitor.task_monitor_init find pid = - ESRCH
  | Some (t, children) =>
      Z.of_nat (length children) < 2^31 →
      TaskMonitor.task_monitor_init find pid = 0 ∧
      ∃ before lines after, (TaskMonitor.monitor_process find pid).2 =
          before ++ (newline ++ chars "Child processes:" ++ newline) :: lines ++ after ∧
        match children with
        | [] => lines = [chars "  No child processes" ++ newline]
        | _ => length lines = length children ∧ ∀ i l, lines !! i = Some l →
            chars "  Child " ++ dec (1 + Z.of_nat i) ++ chars ": " `prefix_of` l
        end
  end.
Proof.
  unfold TaskMonitor.task_monitor_init, TaskMonitor.monitor_process.
  destruct (find pid) as [[t children]|]; [|done]. intros Hl.
  destruct (print_children_numbers 0 children) as (Hn & Hlen & Hi); [done|lia|].
  destruct (TaskMonitor.print_children 0 children) as [lines n]. cbn [fst snd] in *. split; [done|].
  match goal with |- context [match t_parent t with Some _ => _ | None => _ end] =>
    set (parent := match t_parent t with Some _ => _ | None => _ end) end.
  destruct children as [|c cs].
  - destruct lines; [|done]. rewrite Hn. simpl (_ =? 0). cbv iota.
    eexists (_ ++ parent), [chars "  No child processes" ++ newline], _. rewrite <-app_assoc. split; [reflexivity|done].
  - rewrite (proj2 (Z.eqb_neq n 0)) by (simpl length in Hn; lia).
    eexists (_ ++ parent), lines, _. rewrite <-app_assoc. split; [reflexivity|]. split; [done|exact Hi].
Qed.
End facts.

(** ** Witnesses *)
#[export] Instance ref_states : TaskStates := {
  TASK_RUNNING := 0; TASK_INTERRUPTIBLE := 1; TASK_UNINTERRUPTIBLE := 2; TASK_STOPPED := 0x104;
  TASK_TRACED := 8; EXIT_ZOMBIE := 0x20; EXIT_DEAD := 0x10
}.
#[export] Instance ref_states_laws : TaskStatesLaws.
Proof. done. Qed.

Lemma running_is_unknown_witness :
  ProcessInfo.get_state_name 0 = "unknown" ∧ ProcessInfo.get_state_name 0x102 = "TASK_UNINTERRUPTIBLE".
Proof.
  destruct (running_is_unknown 0x102) as (_ & H1 & _ & H2). split; [exact H1|]. apply H2; reflexivity.
Defined.

Definition wtask : task := Task 1 (chars "init") 1 0 (Some (chars "swapper", 0)) 120 120 120 0 0 1 1 None 0 0.
Lemma monitor_process_correct_witness :
  TaskMonitor.task_monitor_init (λ _, Some (wtask, [wtask; wtask])) 1 = 0.
Proof. apply (monitor_process_correct (λ _, Some (wtask, [wtask; wtask])) 1). simpl. lia. Defined.
