(* ===== verification/DataStructures.v ===== *)
(** * The data structures demo (examples/class_4/00_data_structures_demo/data_structures_demo.c)

    Four kernel containers: a list of tasks, a queue of messages, a hash table of
    users and a search tree of intervals.  The containers' operations are the
    kernel's and are interfaces with their documented laws; the module's own
    search through the tree, its error paths and what it does with the memory of
    the entries are modelled in full. *)
From stdpp Require Import sorting.
From S2P Require Import Prelude Bytes Kernel.

(** ** The kernel's containers *)

(** include/linux/list.h: the addresses of the entries on a list, in order. *)
Class KList (L : Type) := {
  items : L → list Z; empty_list : L; list_add_tail : Z → L → L; list_del : Z → L → L
}.
Class KListLaws (L : Type) `{KList L} := {
  items_empty : items empty_list = [];
  items_add p l : items (list_add_tail p l) = items l ++ [p];
  items_del p l : NoDup (items l) → items (list_del p l) = filter (λ q, q ≠ p) (items l)
}.

(** include/linux/hashtable.h: the addresses hash_for_each visits. *)
Class HTable (T : Type) := {
  hash_items : T → list Z; empty_table : T; hash_add : Z → Z → T → T; hash_del : Z → T → T
}.
Class HTableLaws (T : Type) `{HTable T} := {
  hash_items_empty : hash_items empty_table = [];
  hash_items_add p k t : hash_items (hash_add p k t) ≡ₚ p :: hash_items t;
  hash_items_del p t : NoDup (hash_items t) → hash_items (hash_del p t) ≡ₚ filter (λ q, q ≠ p) (hash_items t)
}.

(** ** Data *)

(** struct message *)
Record message := Message { msg_id : Z; msg_data : bytes }.
(** struct task_item and struct user_entry, without their links. *)
Record task_item := TaskItem { priority : Z; task_name : bytes }.
Record user_entry := UserEntry { user_id : Z; user_name : bytes }.
(** struct interval_node: its address and its bounds; the links are the tree. *)
Record interval_node := IntervalNode { addr : Z; istart : Z; iend : Z }.

Definition QUEUE_SIZE : Z := 32.

(** include/linux/kfifo.h: what is queued, oldest first.  kfifo_in of one element
    stores it if there is room and returns how many it stored. *)
Class Kfifo (F : Type) := { queued : F → list message; empty_fifo : F; kfifo_in : message → F → Z * F }.
Class KfifoLaws (F : Type) `{Kfifo F} := {
  queued_empty : queued empty_fifo = [];
  kfifo_in_room m f : Z.of_nat (length (queued f)) < QUEUE_SIZE →
    (kfifo_in m f).1 = 1 ∧ queued (kfifo_in m f).2 = queued f ++ [m];
  kfifo_in_full m f : Z.of_nat (length (queued f)) = QUEUE_SIZE → kfifo_in m f = (0, f)
}.

Inductive tree := Leaf | Node (l : tree) (x : interval_node) (r : tree).
Fixpoint inorder (t : tree) : list interval_node :=
  match t with Leaf => [] | Node l x r => inorder l ++ x :: inorder r end.

(** include/linux/rbtree.h: rebalancing after a node was linked, removal, and the
    first node in order. *)
Class RbTree := { rb_insert_color : tree → tree; rb_erase : Z → tree → tree; rb_first : tree → option interval_node }.
Class RbTreeLaws `{RbTree} := {
  rb_insert_color_order t : inorder (rb_insert_color t) = inorder t;
  rb_erase_order p t : NoDup (addr <$> inorder t) → inorder (rb_erase p t) = filter (λ x, addr x ≠ p) (inorder t);
  rb_first_head t : rb_first t = head (inorder t)
}.

Section demo.
Context {H L F T : Type} `{Allocator H, KList L, Kfifo F, HTable T, RbTree}.

(** The static variables, the memory of the entries, and the heap. *)
Record state := State {
  heap : H;
  task_list : L; task_mem : gmap Z task_item;
  msg_queue : F;
  user_table : T; user_mem : gmap Z user_entry;
  interval_tree : tree
}.

(** strncpy(dst, name, n - 1); dst[n - 1] = 0, over all n bytes of dst. *)
Definition copy_name (name : bytes) (n : Z) : option bytes :=
  cs ← strncpy_bytes name (n - 1); Some (cs ++ [0]).

Definition add_task (prio : Z) (name : bytes) (s : state) : option (Z * state) :=
  let '(new_task, h) := kmalloc (heap s) 56 in
  if new_task =? NULL then
    Some (- ENOMEM, State h (task_list s) (task_mem s) (msg_queue s) (user_table s) (user_mem s) (interval_tree s))
  else
    nm ← copy_name name 32;
    Some (0, State h (list_add_tail new_task (task_list s)) (<[new_task := TaskItem prio nm]> (task_mem s))
               (msg_queue s) (user_table s) (user_mem s) (interval_tree s)).

Definition send_message (id : Z) (data : bytes) (s : state) : option (Z * state) :=
  d ← copy_name data 64;
  let '(ret, q) := kfifo_in (Message id d) (msg_queue s) in
  Some (if ret =? 1 then 0 else - ENOSPC,
        State (heap s) (task_list s) (task_mem s) q (user_table s) (user_mem s) (interval_tree s)).

Definition add_user (uid : Z) (name : bytes) (s : state) : option (Z * state) :=
  let '(entry, h) := kmalloc (heap s) 56 in
  if entry =? NULL then
    Some (- ENOMEM, State h (task_list s) (task_mem s) (msg_queue s) (user_table s) (user_mem s) (interval_tree s))
  else
    nm ← copy_name name 32;
    Some (0, State h (task_list s) (task_mem s) (msg_queue s)
               (hash_add entry uid (user_table s)) (<[entry := UserEntry uid nm]> (user_mem s)) (interval_tree s)).

(** The walk of insert_interval to the link of the new node, and rb_link_node
    there; [None] when the start is already in the tree. *)
Fixpoint link_interval (new : interval_node) (t : tree) : option tree :=
  match t with
  | Leaf => Some (Node Leaf new Leaf)
  | Node l x r =>
      if istart new <? istart x then l ← link_interval new l; Some (Node l x r)
      else if istart x <? istart new then r ← link_interval new r; Some (Node l x r)
      else None
  end.

Definition insert_interval (start end_ : Z) (s : state) : Z * state :=
  let '(new_node, h) := kmalloc (heap s) 40 in
  let set h t := State h (task_list s) (task_mem s) (msg_queue s) (user_table s) (user_mem s) t in
  if new_node =? NULL then (- ENOMEM, set h (interval_tree s))
  else
    match link_interval (IntervalNode new_node start end_) (interval_tree s) with
    | None => (- EEXIST, set (kfree h new_node) (interval_tree s))
    | Some t => (0, set h (rb_insert_color t))
    end.

(** data_structures_init on the static state; [entry] is what proc_create
    returns. *)
Definition data_structures_init (entry : Z) (s : state) : option (Z * state) :=
  '(_, s) ← add_task 10 (lit "high_priority") s;
  '(_, s) ← add_task 5 (lit "normal_task") s;
  '(_, s) ← send_message 1 (lit "Hello") s;
  '(_, s) ← send_message 2 (lit "World") s;
  '(_, s) ← add_user 1001 (lit "alice") s;
  '(_, s) ← add_user 1002 (lit "bob") s;
  let '(_, s) := insert_interval 100 200 s in
  let '(_, s) := insert_interval 300 400 s in
  if entry =? NULL then Some (- ENOMEM, s) else Some (0, s).

(** The three clean-up loops of data_structures_exit. *)
Fixpoint free_tasks (ps : list Z) (l : L) (h : H) : L * H :=
  match ps with [] => (l, h) | p :: ps => free_tasks ps (list_del p l) (kfree h p) end.
Fixpoint free_users (ps : list Z) (t : T) (h : H) : T * H :=
  match ps with [] => (t, h) | p :: ps => free_users ps (hash_del p t) (kfree h p) end.
(** while ((node = rb_first(&interval_tree))): [None] when [fuel] runs out. *)
Fixpoint free_intervals (fuel : nat) (t : tree) (h : H) : option (tree * H) :=
  match rb_first t with
  | None => Some (t, h)
  | Some x =>
      match fuel with
      | O => None
      | S fuel => free_intervals fuel (rb_erase (addr x) t) (kfree h (addr x))
      end
  end.

Definition data_structures_exit (fuel : nat) (s : state) : option state :=
  let '(l, h) := free_tasks (items (task_list s)) (task_list s) (heap s) in
  let '(t, h) := free_users (hash_items (user_table s)) (user_table s) h in
  '(tr, h) ← free_intervals fuel (interval_tree s) h;
  Some (State h l (task_mem s) (msg_queue s) t (user_mem s) tr).

(** data_structures_show: the text, entry by entry. *)
Definition show_tasks (s : state) : option (list bytes) :=
  mapM (λ p, t ← task_mem s !! p;
    _ ← strlen (task_name t);
    Some (chars "  " ++ c_str (task_name t) ++ chars " (priority " ++ dec (priority t) ++ chars ")" ++ [10]))
    (items (task_list s)).
Definition show_users (s : state) : option (list bytes) :=
  mapM (λ p, u ← user_mem s !! p;
    _ ← strlen (user_name u);
    Some (chars "  " ++ dec (user_id u) ++ chars ": " ++ c_str (user_name u) ++ [10]))
    (hash_items (user_table s)).
Definition show_intervals (s : state) : list bytes :=
  (λ x, chars "  [" ++ dec (istart x) ++ chars ", " ++ dec (iend x) ++ chars "]" ++ [10])
    <$> inorder (interval_tree s).
Definition data_structures_show (s : state) : option bytes :=
  tasks ← show_tasks s;
  users ← show_users s;
  Some (chars "=== Data Structures Demo ===" ++ [10; 10]
    ++ chars "Tasks:" ++ [10] ++ mjoin tasks
    ++ [10] ++ chars "Queue: " ++ dec (Z.of_nat (length (queued (msg_queue s)))) ++ chars "/"
    ++ dec QUEUE_SIZE ++ chars " used" ++ [10]
    ++ [10] ++ chars "Users:" ++ [10] ++ mjoin users
    ++ [10] ++ chars "Intervals:" ++ [10] ++ mjoin (show_intervals s)).
End demo.
Arguments state : clear implicits.

(** Filtering keeps a list whose elements all satisfy the predicate. *)
Lemma filter_id {A} (P : A → Prop) `{∀ x, Decision (P x)} (l : list A) :
  (∀ x, x ∈ l → P x) → filter P l = l.
Proof.
  induction l as [|x l IH]; intros Hl; [done|].
  rewrite filter_cons_True by (apply Hl; set_solver). f_equal. apply IH. set_solver.
Qed.

(** ** The search tree *)

(** The starts increase strictly along the tree. *)
Definition ordered (t : tree) : Prop := StronglySorted (λ x y, istart x < istart y) (inorder t).

Lemma sorted_middle (R : interval_node → interval_node → Prop) l x r :
  StronglySorted R (l ++ x :: r) →
  StronglySorted R l ∧ StronglySorted R r ∧ Forall (λ y, R y x) l ∧ Forall (R x) r.
Proof.
  rewrite StronglySorted_app. intros (Hlr & Hl & Hr). apply StronglySorted_inv in Hr as [Hr Hx].
  split_and!; try done. apply Forall_forall. intros y Hy. apply Hlr; [done|]. set_solver.
Qed.

(** A new node lands between the nodes that start before it and those that start
    after it. *)
Lemma link_interval_Some new t t' :
  ordered t → link_interval new t = Some t' →
  ∃ l1 l2, inorder t = l1 ++ l2 ∧ inorder t' = l1 ++ new :: l2 ∧
    Forall (λ x, istart x < istart new) l1 ∧ Forall (λ x, istart new < istart x) l2.
Proof.
  unfold ordered. revert t'. induction t as [|l IHl x r IHr]; intros t' Hs; simpl.
  { intros [= <-]. exists [], []. simpl. done. }
  apply sorted_middle in Hs as (Hsl & Hsr & Hlx & Hxr). simpl in *.
  destruct (Z.ltb_spec (istart new) (istart x)).
  - destruct (link_interval new l) as [l'|]; [|done]. intros [= <-]. simpl.
    destruct (IHl l' Hsl eq_refl) as (l1 & l2 & E1 & E2 & F1 & F2).
    exists l1, (l2 ++ x :: inorder r). rewrite E1, E2, <-!app_assoc. split_and!; try done.
    apply Forall_app. split; [done|]. constructor; [done|]. eapply Forall_impl; [done|]. simpl. lia.
  - destruct (Z.ltb_spec (istart x) (istart new)); [|done].
    destruct (link_interval new r) as [r'|]; [|done]. intros [= <-]. simpl.
    destruct (IHr r' Hsr eq_refl) as (l1 & l2 & E1 & E2 & F1 & F2).
    exists (inorder l ++ x :: l1), l2. rewrite E1, E2, <-!app_assoc. split_and!; try done.
    apply Forall_app. split; [|by constructor]. eapply Forall_impl; [exact Hlx|]. simpl. lia.
Qed.

(** Nothing is linked exactly when the start is there already. *)
Lemma link_interval_None new t :
  ordered t → link_interval new t = None ↔ ∃ x, x ∈ inorder t ∧ istart x = istart new.
Proof.
  unfold ordered. induction t as [|l IHl x r IHr]; intros Hs; simpl.
  { split; [done|]. intros (x & Hx & _). by apply not_elem_of_nil in Hx. }
  apply sorted_middle in Hs as (Hsl & Hsr & Hlx & Hxr). simpl in *.
  rewrite Forall_forall in Hlx, Hxr.
  assert ((∃ y, y ∈ inorder l ++ x :: inorder r ∧ istart y = istart new) ↔
    (∃ y, y ∈ inorder l ∧ istart y = istart new) ∨ istart x = istart new ∨
    (∃ y, y ∈ inorder r ∧ istart y = istart new)) as ->.
  { setoid_rewrite elem_of_app. setoid_rewrite elem_of_cons. naive_solver. }
  destruct (Z.ltb_spec (istart new) (istart x)).
  - transitivity (link_interval new l = None); [by destruct (link_interval new l)|].
    rewrite (IHl Hsl). split; [by left|]. intros [?|[?|(y & Hy & Ey)]]; [done|lia|].
    apply Hxr in Hy. lia.
  - destruct (Z.ltb_spec (istart x) (istart new)).
    + transitivity (link_interval new r = None); [by destruct (link_interval new r)|].
      rewrite (IHr Hsr). split; [by do 2 right|]. intros [(y & Hy & Ey)|[?|?]]; [|lia|done].
      apply Hlx in Hy. lia.
    + split; [|done]. intros _. right. left. lia.
Qed.

(** ** The module's state *)

Section facts.
Context {H L F T : Type} `{AllocatorLaws H, KListLaws L, KfifoLaws F, HTableLaws T, RbTreeLaws}.
Implicit Types s : state H L F T.

(** The addresses of the entries in the containers. *)
Definition addrs s : list Z :=
  items (task_list s) ++ hash_items (user_table s) ++ (addr <$> inorder (interval_tree s)).

(** What holds in every state the module reaches when it is loaded with the
    blocks [h0] live: beyond them exactly the entries in the containers are live,
    each once; the tree is ordered; the queue holds at most 32 messages; every
    task and user has its record, with a terminated name. *)
Record ds_ok (h0 : gset block) s : Prop := {
  ok_nodup : NoDup (addrs s);
  ok_fresh p k : p ∈ addrs s → (k, p) ∉ h0;
  ok_live : live (heap s) = blocks ByKmalloc (addrs s) ∪ h0;
  ok_ordered : ordered (interval_tree s);
  ok_queue : Z.of_nat (length (queued (msg_queue s))) <= QUEUE_SIZE;
  ok_tasks p : p ∈ items (task_list s) → ∃ t, task_mem s !! p = Some t ∧ 0 ∈ task_name t;
  ok_users p : p ∈ hash_items (user_table s) → ∃ u, user_mem s !! p = Some u ∧ 0 ∈ user_name u
}.

(** A new block is none of those in use. *)
Lemma kmalloc_new h0 s n p h :
  ds_ok h0 s → kmalloc (heap s) n = (p, h) → p ≠ NULL →
  ¬ (p ∈ addrs s) ∧ (∀ k, (k, p) ∉ h0) ∧ live h = {[(ByKmalloc, p)]} ∪ (blocks ByKmalloc (addrs s) ∪ h0).
Proof.
  intros Hok E Hp. pose proof (kmalloc_spec (heap s) n) as Hk. rewrite E in Hk.
  unfold alloc_spec in Hk. simpl in Hk.
  destruct Hk as [[? _]|(_ & Hf & Hl)]; [done|]. rewrite (ok_live h0 s Hok) in *.
  split_and!; [|intros k|done].
  - intros Hin. destruct (Hf ByKmalloc). apply elem_of_union_l, elem_of_blocks. done.
  - intros Hin. destruct (Hf k). by apply elem_of_union_r.
Qed.

Lemma kmalloc_failed h0 s n p h :
  ds_ok h0 s → kmalloc (heap s) n = (p, h) → p = NULL → live h = blocks ByKmalloc (addrs s) ∪ h0.
Proof.
  intros Hok E ->. pose proof (kmalloc_spec (heap s) n) as Hk. rewrite E in Hk.
  unfold alloc_spec in Hk. simpl in Hk.
  destruct Hk as [[_ ->]|(? & _)]; [apply Hok|done].
Qed.

Lemma copy_name_spec name n : 0 ∈ name → 1 <= n → ∃ nm, copy_name name n = Some nm ∧ 0 ∈ nm.
Proof.
  intros Hn H1'. unfold copy_name, strncpy_bytes. rewrite bool_decide_eq_true_2 by auto. simpl.
  eexists. split; [done|]. set_solver.
Qed.

(** A state that differs from an accounted one only by entries moved in the
    accounting. *)
Lemma ds_ok_intro h0 s s' p h :
  ds_ok h0 s → ¬ (p ∈ addrs s) → (∀ k, (k, p) ∉ h0) → addrs s' ≡ₚ p :: addrs s → heap s' = h →
  live h = {[(ByKmalloc, p)]} ∪ (blocks ByKmalloc (addrs s) ∪ h0) → ordered (interval_tree s') →
  Z.of_nat (length (queued (msg_queue s'))) <= QUEUE_SIZE →
  (∀ p, p ∈ items (task_list s') → ∃ t, task_mem s' !! p = Some t ∧ 0 ∈ task_name t) →
  (∀ p, p ∈ hash_items (user_table s') → ∃ u, user_mem s' !! p = Some u ∧ 0 ∈ user_name u) →
  ds_ok h0 s'.
Proof.
  intros Hok Hn Hf Hp <- Hl Ho Hq Ht Hu. split; try done.
  - rewrite Hp. constructor; [done|apply Hok].
  - intros q k. rewrite Hp. intros [->|Hin]%elem_of_cons; [done|]. by apply (ok_fresh h0 s Hok).
  - rewrite Hl, Hp, blocks_cons. apply (assoc_L (∪)).
Qed.

Lemma add_task_ok h0 prio name s :
  ds_ok h0 s → 0 ∈ name → ∃ r s', add_task prio name s = Some (r, s') ∧ ds_ok h0 s' ∧
    (r = 0 ∨ r = - ENOMEM ∧ addrs s' = addrs s).
Proof.
  intros Hok Hn. unfold add_task. destruct (kmalloc (heap s) 56) as [p h] eqn:E.
  destruct (Z.eqb_spec p NULL) as [Hp|Hp].
  { pose proof (kmalloc_failed h0 s 56 p h Hok E Hp) as Hl. eexists _, _. split; [done|].
    split; [|by right]. destruct Hok. by split. }
  destruct (copy_name_spec name 32 Hn) as (nm & -> & Hnm); [lia|]. simpl.
  destruct (kmalloc_new h0 s 56 p h Hok E Hp) as (H1' & H2' & H3').
  eexists _, _. split; [done|]. split; [|by left].
  eapply (ds_ok_intro h0 s _ p h); simpl; try done; try apply Hok.
  - unfold addrs. simpl. rewrite items_add, <-app_assoc. simpl.
    symmetry. apply Permutation_middle.
  - intros q. rewrite items_add. intros [Hq|Hq]%elem_of_app.
    + destruct (ok_tasks h0 s Hok q Hq) as (t & Ht & H0'). exists t. split; [|done].
      rewrite lookup_insert_ne; [done|]. intros ->. apply H1'. unfold addrs. set_solver.
    + apply list_elem_of_singleton in Hq as ->. rewrite lookup_insert_eq. eauto.
Qed.

Lemma add_user_ok h0 uid name s :
  ds_ok h0 s → 0 ∈ name → ∃ r s', add_user uid name s = Some (r, s') ∧ ds_ok h0 s' ∧
    (r = 0 ∨ r = - ENOMEM ∧ addrs s' = addrs s).
Proof.
  intros Hok Hn. unfold add_user. destruct (kmalloc (heap s) 56) as [p h] eqn:E.
  destruct (Z.eqb_spec p NULL) as [Hp|Hp].
  { pose proof (kmalloc_failed h0 s 56 p h Hok E Hp) as Hl. eexists _, _. split; [done|].
    split; [|by right]. destruct Hok. by split. }
  destruct (copy_name_spec name 32 Hn) as (nm & -> & Hnm); [lia|]. simpl.
  destruct (kmalloc_new h0 s 56 p h Hok E Hp) as (H1' & H2' & H3').
  eexists _, _. split; [done|]. split; [|by left].
  eapply (ds_ok_intro h0 s _ p h); simpl; try done; try apply Hok.
  - unfold addrs. simpl. rewrite hash_items_add. simpl. symmetry. apply Permutation_middle.
  - intros q. rewrite hash_items_add. intros [->|Hq]%elem_of_cons.
    + rewrite lookup_insert_eq. eauto.
    + destruct (ok_users h0 s Hok q Hq) as (t & Ht & H0'). exists t. split; [|done].
      rewrite lookup_insert_ne; [done|]. intros ->. apply H1'. unfold addrs. set_solver.
Qed.

Lemma send_message_ok h0 id data s :
  ds_ok h0 s → 0 ∈ data → ∃ r s' d, send_message id data s = Some (r, s') ∧ ds_ok h0 s' ∧
    c_str d = take 63 (c_str data) ∧
    (if Z.of_nat (length (queued (msg_queue s))) <? QUEUE_SIZE
     then r = 0 ∧ queued (msg_queue s') = queued (msg_queue s) ++ [Message id d]
     else r = - ENOSPC ∧ msg_queue s' = msg_queue s).
Proof.
  intros Hok Hn. unfold send_message, copy_name, strncpy_bytes.
  rewrite bool_decide_eq_true_2 by auto. cbn [mbind option_bind].
  change (Z.to_nat (64 - 1)) with 63%nat. set (d := resize 63 0 (c_str data) ++ [0]).
  assert (c_str d = take 63 (c_str data)) as Hd by apply c_str_strncpy, c_str_no_nul.
  pose proof (ok_queue h0 s Hok) as Hq.
  destruct (Z.ltb_spec (Z.of_nat (length (queued (msg_queue s)))) QUEUE_SIZE) as [Hlt|Hge].
  - destruct (kfifo_in_room (Message id d) (msg_queue s) Hlt) as [Hr Hc].
    destruct (kfifo_in (Message id d) (msg_queue s)) as [ret q]. simpl in *. subst ret.
    eexists _, _, d. split; [done|]. split_and!; try done.
    destruct Hok. split; simpl; try done. rewrite Hc, length_app. simpl. lia.
  - rewrite kfifo_in_full by lia. eexists _, _, d. split; [done|]. split_and!; try done.
    destruct Hok. by split.
Qed.

(** What one insertion does. *)
Lemma insert_interval_spec h0 start end_ s :
  ds_ok h0 s →
  let '(r, s') := insert_interval start end_ s in
  ds_ok h0 s' ∧
  (if (kmalloc (heap s) 40).1 =? NULL then
     r = - ENOMEM ∧ interval_tree s' = interval_tree s ∧ live (heap s') = live (heap s)
   else if decide (Exists (λ x, istart x = start) (inorder (interval_tree s))) then
     r = - EEXIST ∧ interval_tree s' = interval_tree s ∧ live (heap s') = live (heap s)
   else r = 0 ∧ ∃ l1 l2, inorder (interval_tree s) = l1 ++ l2 ∧
     inorder (interval_tree s') = l1 ++ IntervalNode (kmalloc (heap s) 40).1 start end_ :: l2 ∧
     Forall (λ x, istart x < start) l1 ∧ Forall (λ x, start < istart x) l2).
Proof.
  intros Hok. unfold insert_interval. destruct (kmalloc (heap s) 40) as [p h] eqn:E. simpl.
  destruct (Z.eqb_spec p NULL) as [Hp|Hp].
  { pose proof (kmalloc_failed h0 s 40 p h Hok E Hp) as Hl. rewrite (ok_live h0 s Hok).
    split; [destruct Hok; by split|done]. }
  destruct (kmalloc_new h0 s 40 p h Hok E Hp) as (Hn & Hf & Hl).
  pose proof (ok_ordered h0 s Hok) as Hord. set (new := IntervalNode p start end_).
  pose proof (link_interval_None new _ Hord) as HN.
  destruct (link_interval new (interval_tree s)) as [t|] eqn:Et.
  - destruct (decide _) as [Hex|_].
    { apply Exists_exists in Hex. apply HN in Hex. done. }
    destruct (link_interval_Some new _ t Hord Et) as (l1 & l2 & E1 & E2 & F1 & F2).
    split; [|split; [done|]; exists l1, l2; simpl; by rewrite rb_insert_color_order].
    eapply (ds_ok_intro h0 s _ p h); simpl; try done; try apply Hok.
    + unfold addrs. simpl. rewrite rb_insert_color_order, E1, E2, !fmap_app, fmap_cons, !app_assoc.
      symmetry. apply Permutation_middle.
    + unfold ordered in *. rewrite rb_insert_color_order, E2. rewrite E1 in Hord.
      apply StronglySorted_app in Hord as (Hc & Hs1 & Hs2). rewrite Forall_forall in F1.
      apply StronglySorted_app. split_and!; [|done|by constructor].
      intros x y Hx [->|Hy]%elem_of_cons; [by apply F1|by apply Hc].
  - destruct (decide _) as [_|Hex]; [|destruct Hex; apply Exists_exists, HN; done].
    assert (live (kfree h p) = blocks ByKmalloc (addrs s) ∪ h0) as Hk.
    { rewrite kfree_live, Hl by (rewrite Hl; by apply elem_of_union_l, elem_of_singleton).
      apply difference_union_singleton_fresh. rewrite elem_of_union, elem_of_blocks. simpl. naive_solver. }
    rewrite (ok_live h0 s Hok). split; [destruct Hok; by split|done].
Qed.

(** C24: the interval tree is an ordered set.  From any state of the module an
    insertion returns -ENOMEM when there is no memory, -EEXIST exactly when an
    interval with that start is in the tree, the set and the heap as they were;
    otherwise 0, and the in-order sequence of intervals has the new one added,
    between those that start before it and those that start after it. *)
Theorem insert_interval_correct h0 start end_ s :
  ds_ok h0 s →
  let '(r, s') := insert_interval start end_ s in
  ds_ok h0 s' ∧
  (if (kmalloc (heap s) 40).1 =? NULL then
     r = - ENOMEM ∧ interval_tree s' = interval_tree s ∧ live (heap s') = live (heap s)
   else if decide (Exists (λ x, istart x = start) (inorder (interval_tree s))) then
     r = - EEXIST ∧ interval_tree s' = interval_tree s ∧ live (heap s') = live (heap s)
   else r = 0 ∧ ∃ l1 l2, inorder (interval_tree s) = l1 ++ l2 ∧
     inorder (interval_tree s') = l1 ++ IntervalNode (kmalloc (heap s) 40).1 start end_ :: l2 ∧
     Forall (λ x, istart x < start) l1 ∧ Forall (λ x, start < istart x) l2).
Proof. apply insert_interval_spec. Qed.

(** ** Unloading *)

Lemma free_tasks_spec ps l (h : H) :
  items l = ps → NoDup ps → blocks ByKmalloc ps ⊆ live h →
  let '(l', h') := free_tasks ps l h in items l' = [] ∧ live h' = live h ∖ blocks ByKmalloc ps.
Proof.
  revert l h. induction ps as [|p ps IH]; intros l h Hl Hnd Hsub; simpl; [split; [done|set_solver]|].
  pose proof Hnd as Hnd'. apply NoDup_cons in Hnd as [Hni Hnd].
  destruct (blocks_free_first _ _ _ _ Hni Hsub) as (Hin & Hrest & <-).
  specialize (IH (list_del p l) (kfree h p)).
  rewrite <-(kfree_live h p Hin) in *.
  destruct (free_tasks ps _ _) as [l' h']. destruct IH as [IH1 IH2].
  - rewrite items_del by (by rewrite Hl). rewrite Hl, filter_cons_False by auto.
    apply filter_id. by intros q Hq ->.
  - done.
  - done.
  - by split.
Qed.

Lemma free_users_spec ps t (h : H) :
  hash_items t ≡ₚ ps → NoDup ps → blocks ByKmalloc ps ⊆ live h →
  let '(t', h') := free_users ps t h in hash_items t' = [] ∧ live h' = live h ∖ blocks ByKmalloc ps.
Proof.
  revert t h. induction ps as [|p ps IH]; intros t h Hl Hnd Hsub; simpl.
  { split; [by apply Permutation_nil_r|set_solver]. }
  pose proof Hnd as Hnd'. apply NoDup_cons in Hnd as [Hni Hnd].
  destruct (blocks_free_first _ _ _ _ Hni Hsub) as (Hin & Hrest & <-).
  specialize (IH (hash_del p t) (kfree h p)).
  rewrite <-(kfree_live h p Hin) in *.
  destruct (free_users ps _ _) as [t' h']. destruct IH as [IH1 IH2].
  - rewrite hash_items_del by (by rewrite Hl). rewrite Hl, filter_cons_False by auto.
    rewrite filter_id; [done|]. by intros q Hq ->.
  - done.
  - done.
  - by split.
Qed.

Lemma free_intervals_spec fuel t (h : H) :
  (length (inorder t) <= fuel)%nat → NoDup (addr <$> inorder t) →
  blocks ByKmalloc (addr <$> inorder t) ⊆ live h →
  ∃ t' h', free_intervals fuel t h = Some (t', h') ∧ inorder t' = [] ∧
    live h' = live h ∖ blocks ByKmalloc (addr <$> inorder t).
Proof.
  revert t h. induction fuel as [|fuel IH]; intros t h Hf Hnd Hsub; simpl; rewrite rb_first_head.
  - destruct (inorder t) eqn:E; simpl in *; [|lia]. exists t, h. split_and!; [done|done|set_solver].
  - destruct (inorder t) as [|x xs] eqn:E; csimpl in *.
    { exists t, h. split_and!; [done|done|set_solver]. }
    apply NoDup_cons in Hnd as [Hni Hnd].
    destruct (blocks_free_first _ _ _ _ Hni Hsub) as (Hin & Hrest & <-). rewrite <-(kfree_live h (addr x) Hin) in *.
    assert (inorder (rb_erase (addr x) t) = xs) as Hx.
    { rewrite rb_erase_order, E by (rewrite E; by constructor).
      rewrite filter_cons_False by auto. apply filter_id. intros y Hy Hxy.
      apply Hni. rewrite <-Hxy. by apply list_elem_of_fmap_2. }
    destruct (IH (rb_erase (addr x) t) (kfree h (addr x))) as (t' & h' & -> & Ht & Hl).
    + rewrite Hx. lia.
    + by rewrite Hx.
    + by rewrite Hx.
    + exists t', h'. rewrite Hl, Hx. done.
Qed.

Lemma data_structures_exit_spec h0 s fuel :
  ds_ok h0 s → (length (inorder (interval_tree s)) <= fuel)%nat →
  ∃ s', data_structures_exit fuel s = Some s' ∧ live (heap s') = h0 ∧
    items (task_list s') = [] ∧ hash_items (user_table s') = [] ∧ inorder (interval_tree s') = [].
Proof.
  intros [Hnd Hfr Hl _ _ _ _] Hf. unfold data_structures_exit, addrs in *.
  apply NoDup_app in Hnd as (N1 & D1 & Hnd). apply NoDup_app in Hnd as (N2 & D2 & N3).
  rewrite !blocks_app in Hl.
  pose proof (free_tasks_spec _ (task_list s) (heap s) eq_refl N1) as Ht.
  destruct (free_tasks _ _ _) as [l h1]. destruct Ht as [Ht1 Ht2]; [rewrite Hl; intros x; rewrite !elem_of_union; tauto|].
  pose proof (free_users_spec _ (user_table s) h1 (reflexivity _) N2) as Hu.
  destruct (free_users _ _ _) as [t h2].
  destruct Hu as [Hu1 Hu2].
  { rewrite Ht2, Hl. intros [k x]. specialize (D1 x). rewrite elem_of_app in D1.
    rewrite elem_of_difference, !elem_of_union, !elem_of_blocks. simpl. tauto. }
  destruct (free_intervals_spec fuel (interval_tree s) h2 Hf N3) as (tr & h3 & -> & Hi & Hl3).
  { rewrite Hu2, Ht2, Hl. intros [k x]. specialize (D1 x). specialize (D2 x). rewrite elem_of_app in D1.
    rewrite !elem_of_difference, !elem_of_union, !elem_of_blocks. simpl. tauto. }
  simpl. eexists. split; [done|]. simpl. split_and!; try done.
  rewrite Hl3, Hu2, Ht2, Hl. apply set_eq. intros [k x]. specialize (Hfr x k).
  rewrite !elem_of_difference, !elem_of_union, !elem_of_blocks. simpl.
  rewrite !elem_of_app in Hfr. tauto.
Qed.

(** ** A whole run of the module *)

Inductive op :=
| AddTask (prio : Z) (name : bytes) | SendMessage (id : Z) (data : bytes)
| AddUser (uid : Z) (name : bytes) | InsertInterval (start end_ : Z).

Definition run_op (o : op) s : option (Z * state H L F T) :=
  match o with
  | AddTask prio name => add_task prio name s
  | SendMessage id data => send_message id data s
  | AddUser uid name => add_user uid name s
  | InsertInterval start end_ => Some (insert_interval start end_ s)
  end.

(** Names and texts are C strings. *)
Definition op_ok (o : op) : Prop :=
  match o with
  | AddTask _ b | SendMessage _ b | AddUser _ b => 0 ∈ b
  | InsertInterval _ _ => True
  end.

Fixpoint run_ops (os : list op) s : option (list Z * state H L F T) :=
  match os with
  | [] => Some ([], s)
  | o :: os => '(r, s) ← run_op o s; '(rs, s) ← run_ops os s; Some (r :: rs, s)
  end.

Lemma insert_interval_ok h0 start end_ s : ds_ok h0 s → ds_ok h0 (insert_interval start end_ s).2.
Proof.
  intros Hok. pose proof (insert_interval_spec h0 start end_ s Hok) as Hi.
  destruct (insert_interval start end_ s). apply Hi.
Qed.

Lemma run_op_ok h0 o s : ds_ok h0 s → op_ok o → ∃ r s', run_op o s = Some (r, s') ∧ ds_ok h0 s'.
Proof.
  intros Hok Ho. destruct o as [prio name|id data|uid name|start end_]; simpl in *.
  - destruct (add_task_ok h0 prio name s Hok Ho) as (r & s' & ? & ? & _). eauto.
  - destruct (send_message_ok h0 id data s Hok Ho) as (r & s' & d & ? & ? & _). eauto.
  - destruct (add_user_ok h0 uid name s Hok Ho) as (r & s' & ? & ? & _). eauto.
  - pose proof (insert_interval_ok h0 start end_ s Hok).
    destruct (insert_interval start end_ s) as [r s']. eauto.
Qed.

Lemma run_ops_ok h0 os s :
  ds_ok h0 s → Forall op_ok os →
  ∃ rs s', run_ops os s = Some (rs, s') ∧ ds_ok h0 s' ∧ length rs = length os.
Proof.
  intros Hok HF. revert s Hok. induction HF as [|o os Ho HF IH]; intros s Hok; simpl; [by eexists _, _|].
  destruct (run_op_ok h0 o s Hok Ho) as (r & s1 & -> & Hok1). simpl.
  destruct (IH s1 Hok1) as (rs & s2 & -> & Hok2 & Hlen). simpl. eexists _, _. split_and!; [done|done|].
  simpl. congruence.
Qed.

(** The static state before loading. *)
Definition unloaded (h : H) : state H L F T := State h empty_list ∅ empty_fifo empty_table ∅ Leaf.

Lemma unloaded_ok h : ds_ok (live h) (unloaded h).
Proof.
  unfold unloaded. split; unfold addrs; simpl; rewrite ?items_empty, ?hash_items_empty, ?queued_empty; simpl;
    try (by intros p Hp%not_elem_of_nil); try done.
  - apply NoDup_nil_2.
  - by intros p k Hp%not_elem_of_nil.
  - by rewrite blocks_nil, (left_id_L ∅ (∪)).
  - constructor.
Qed.

(** The entries loading makes. *)
Definition init_ops : list op :=
  [AddTask 10 (lit "high_priority"); AddTask 5 (lit "normal_task");
   SendMessage 1 (lit "Hello"); SendMessage 2 (lit "World");
   AddUser 1001 (lit "alice"); AddUser 1002 (lit "bob");
   InsertInterval 100 200; InsertInterval 300 400].

Lemma init_ops_ok : Forall op_ok init_ops.
Proof. repeat constructor; simpl; by apply (bool_decide_eq_true_1 _). Qed.

Lemma data_structures_init_ops entry s rs s' :
  run_ops init_ops s = Some (rs, s') →
  data_structures_init entry s = Some (if entry =? NULL then - ENOMEM else 0, s').
Proof.
  unfold data_structures_init, init_ops. cbn [run_ops run_op].
  repeat match goal with
  | |- context [add_task ?a ?b ?s] => destruct (add_task a b s) as [[? ?]|]; cbn [mbind option_bind]; [|done]
  | |- context [send_message ?a ?b ?s] => destruct (send_message a b s) as [[? ?]|]; cbn [mbind option_bind]; [|done]
  | |- context [add_user ?a ?b ?s] => destruct (add_user a b s) as [[? ?]|]; cbn [mbind option_bind]; [|done]
  end.
  repeat match goal with
  | |- context [insert_interval ?a ?b ?s] => destruct (insert_interval a b s)
  end.
  intros Hr. simpl in Hr. simplify_eq. by destruct (entry =? NULL).
Qed.

(** C7: loading, using and unloading the module leaks nothing.  For every
    allocator and whichever allocations fail, a load whose /proc entry is created
    succeeds; any sequence of additions then keeps the module's state well formed,
    the tree ordered and the queue within 32 messages; and unloading terminates
    with exactly the blocks live that were live before loading, each entry freed
    once, and the three containers empty. *)
Theorem module_leaks_nothing h os entry fuel :
  entry ≠ NULL → Forall op_ok os →
  ∃ s1 rs s2, data_structures_init entry (unloaded h) = Some (0, s1) ∧
    run_ops os s1 = Some (rs, s2) ∧ ds_ok (live h) s2 ∧
    ((length (inorder (interval_tree s2)) <= fuel)%nat →
     ∃ s3, data_structures_exit fuel s2 = Some s3 ∧ live (heap s3) = live h ∧
       items (task_list s3) = [] ∧ hash_items (user_table s3) = [] ∧ inorder (interval_tree s3) = []).
Proof.
  intros He HF. destruct (run_ops_ok (live h) init_ops (unloaded h)) as (rs1 & s1 & E1 & Hok1 & _);
    [apply unloaded_ok|apply init_ops_ok|].
  apply (data_structures_init_ops entry) in E1. rewrite (proj2 (Z.eqb_neq _ _) He) in E1.
  destruct (run_ops_ok (live h) os s1 Hok1 HF) as (rs & s2 & E2 & Hok2 & _).
  exists s1, rs, s2. split_and!; [done|done|done|]. intros Hf.
  by apply data_structures_exit_spec.
Qed.

(** A load whose /proc entry cannot be created returns -ENOMEM and keeps every
    entry it allocated: the module's exit function does not run then, so they are
    lost. *)
Theorem failed_load_leaks h :
  ∃ s1, data_structures_init NULL (unloaded h) = Some (- ENOMEM, s1) ∧
    live (heap s1) = blocks ByKmalloc (addrs s1) ∪ live h ∧
    ∀ p, p ∈ addrs s1 → (ByKmalloc, p) ∈ live (heap s1) ∧ ((ByKmalloc, p) ∉ live h).
Proof.
  destruct (run_ops_ok (live h) init_ops (unloaded h)) as (rs1 & s1 & E1 & Hok1 & _);
    [apply unloaded_ok|apply init_ops_ok|].
  apply (data_structures_init_ops NULL) in E1. exists s1. split; [done|].
  split; [apply Hok1|]. intros p Hp. split; [|by apply (ok_fresh _ _ Hok1)].
  rewrite (ok_live _ _ Hok1). by apply elem_of_union_l, elem_of_blocks.
Qed.

(** The report is defined in every state: every entry shown has its record. *)
Lemma data_structures_show_total h0 s : ds_ok h0 s → is_Some (data_structures_show s).
Proof.
  intros Hok. unfold data_structures_show, show_tasks, show_users.
  assert (is_Some (mapM (λ p, t ← task_mem s !! p; _ ← strlen (task_name t);
    Some (chars "  " ++ c_str (task_name t) ++ chars " (priority " ++ dec (priority t) ++ chars ")" ++ [10]))
    (items (task_list s)))) as [ts ->].
  { apply mapM_is_Some_2, Forall_forall. intros p Hp.
    destruct (ok_tasks h0 s Hok p Hp) as (t & Et & [n Hn]%strlen_is_Some).
    unfold compose. rewrite Et. simpl. by rewrite Hn. }
  assert (is_Some (mapM (λ p, u ← user_mem s !! p; _ ← strlen (user_name u);
    Some (chars "  " ++ dec (user_id u) ++ chars ": " ++ c_str (user_name u) ++ [10]))
    (hash_items (user_table s)))) as [us ->].
  { apply mapM_is_Some_2, Forall_forall. intros p Hp.
    destruct (ok_users h0 s Hok p Hp) as (u & Eu & [n Hn]%strlen_is_Some).
    unfold compose. rewrite Eu. simpl. by rewrite Hn. }
  by eexists.
Qed.
End facts.

(** ** Reference containers *)

#[export] Instance ref_list : KList (list Z) :=
  { items l := l; empty_list := []; list_add_tail p l := l ++ [p]; list_del p l := filter (λ q, q ≠ p) l }.
#[export] Instance ref_list_laws : KListLaws (list Z).
Proof. by split. Qed.

(** A table of its own type, so that the two instances on lists stay apart. *)
Record ref_table := RefTable { rt_items : list Z }.
#[export] Instance ref_htable : HTable ref_table :=
  { hash_items := rt_items; empty_table := RefTable []; hash_add p _ t := RefTable (p :: rt_items t);
    hash_del p t := RefTable (filter (λ q, q ≠ p) (rt_items t)) }.
#[export] Instance ref_htable_laws : HTableLaws ref_table.
Proof. by split. Qed.

#[export] Instance ref_kfifo : Kfifo (list message) :=
  { queued f := f; empty_fifo := [];
    kfifo_in m f := if Z.of_nat (length f) <? QUEUE_SIZE then (1, f ++ [m]) else (0, f) }.
#[export] Instance ref_kfifo_laws : KfifoLaws (list message).
Proof.
  split; simpl; [done|..]; intros m f Hf; destruct (Z.ltb_spec (Z.of_nat (length f)) QUEUE_SIZE); done || lia.
Qed.

(** Trees without rebalancing; a removed node's children are linked to the right
    as a list. *)
#[export] Instance ref_rbtree : RbTree :=
  { rb_insert_color t := t;
    rb_erase p t := foldr (λ x t, Node Leaf x t) Leaf (filter (λ x, addr x ≠ p) (inorder t));
    rb_first t := head (inorder t) }.
#[export] Instance ref_rbtree_laws : RbTreeLaws.
Proof.
  split; simpl; try done. intros p t _. generalize (filter (λ x, addr x ≠ p) (inorder t)).
  intros l. induction l as [|x l IH]; simpl; congruence.
Qed.

(** ** Witnesses *)

Definition wheap : bump := Bump {[(ByVmalloc, 5)]} 100 7.
Definition wempty : state bump (list Z) (list message) ref_table := unloaded wheap.

Lemma insert_interval_correct_witness :
  let '(r, s') := insert_interval 7 9 wempty in
  r = 0 ∧ inorder (interval_tree s') = [IntervalNode 100 7 9].
Proof.
  pose proof (insert_interval_correct {[(ByVmalloc, 5)]} 7 9 wempty (unloaded_ok wheap)) as Hi.
  destruct (insert_interval 7 9 wempty) as [r s'].
  destruct Hi as (_ & -> & l1 & l2 & E1 & E2 & _). split; [reflexivity|].
  simpl in E1. destruct l1, l2; try discriminate. exact E2.
Defined.

Lemma module_leaks_nothing_witness :
  ∃ s1 rs s2 s3, data_structures_init 1 wempty = Some (0, s1) ∧
    run_ops [InsertInterval 100 7; AddTask 1 (lit "x"); AddUser 2 (lit "y")] s1 = Some (rs, s2) ∧
    data_structures_exit 10 s2 = Some s3 ∧ live (heap s3) = {[(ByVmalloc, 5)]}.
Proof.
  destruct (module_leaks_nothing (L:=list Z) (F:=list message) (T:=ref_table) wheap
    [InsertInterval 100 7; AddTask 1 (lit "x"); AddUser 2 (lit "y")] 1 10)
    as (s1 & rs & s2 & E1 & E2 & _ & Hx); [discriminate| |].
  - repeat constructor; simpl; by apply (bool_decide_eq_true_1 _).
  - assert (length (inorder (interval_tree s2)) <= 10)%nat as Hf.
    { vm_compute in E1. injection E1 as <-. vm_compute in E2. injection E2 as <- <-. vm_compute. lia. }
    destruct (Hx Hf) as (s3 & E3 & Hl & _). exists s1, rs, s2, s3.
    split; [exact E1|]. split; [exact E2|]. split; [exact E3|exact Hl].
Defined.
